(* ===== verification/_CoqProject ===== *)
-Q . S2P
Prelude.v
FixFields.v
Doubles.v
FastConversion.v
LockFreeQueue.v
QueueInterleaving.v
QueueInterface.v
MessagePool.v
PoolInterleaving.v
GlobalPool.v
FixMessage.v
FixBuilder.v
FieldText.v
NumberText.v
Logger.v
AtomicCells.v
Timing.v
Metrics.v
MainProgram.v
Platform.v
ParserState.v
Framing.v
OptimizedParser.v
StreamParser.v
ParserDelivery.v
ParserSafety.v
ParserMoves.v
StateMachine.v
PriorityQueues.v
MessageSending.v
MessageRouter.v
GapManager.v
GapInterleaving.v
SessionManager.v
SessionSending.v
SessionProperties.v
SessionAnswers.v
OutboundMessage.v
MutexQueue.v
MutexQueueProperties.v
TcpConnection.v
AsyncSender.v
SenderProperties.v
AsyncSenderManager.v
ThreadSetup.v
Summaries.v
Gateway.v
EndToEnd.v
UsageExample.v
Conformance.v
