(* ===== verification/Prelude.v ===== *)
(** * Verification of the FIX gateway

    The program under [src/] is a FIX 4.4 gateway in C++.  Bytes arrive on a TCP
    connection, [StreamFixParser] cuts them into messages and decodes each one into a
    [FixMessage] of a [MessagePool]; [MessageRouter] puts the message into one of four
    [LockFreeQueue]s by priority; the managers take messages from the queues and answer
    them.  This library models the code that carries this data path as executable
    definitions and proves what it does.

    ** Files, in dependency order

    - [Prelude]: bytes, machine integers ([wrap32], [u8], [size_t] arithmetic), the
      [std::stoi] model, [memchr], and the monad [M S A] of the imperative code: a state
      and one of the outcomes [Ret], [Throw] (a C++ exception), [Ub] (a read outside the
      array or other undefined behaviour, or [std::terminate]) and [NoFuel] (the bound of a
      loop was used up), with a weakest-precondition calculus [wp].
    - [FixFields]: [fix_fields.h] (tags, message types, [formatFixField]) and the integer
      conversion of [fast_string_conversion.cpp].  [Doubles]: the C++ [double] as the
      Standard Library's [spec_float], its order and its decimal printing.
      [FastConversion]: the rest of [fast_string_conversion.h/.cpp], with the thread-local
      buffers and the views into them.
    - [LockFreeQueue], [QueueInterleaving]: [lockfree_queue.h], first as functions on the
      ring buffer, then as threads that do one atomic access per step.
    - [MessagePool], [PoolInterleaving]: [message_pool.h], in the same two ways.  A
      pointer is an address; the pool keeps the object of every allocated slot, so that
      two pointers to a slot share its object.  [GlobalPool]: construction with arguments,
      prewarming and statistics of the pool, and [GlobalMessagePool], whose double-checked
      locking is a machine that does one access per step.
    - [FixMessage]: [fix_message.h/.cpp]: the field map with its string and message-type
      caches, setters, getters, validation, serialisation, parsing, copies, moves and
      factories.  [FixBuilder]: [fix_builder.h/.cpp], over it.  [FieldText]: fields set from
      floating-point values, field names, the formatted dump, processing times;
      [NumberText]: [getField] of a [double], with [std::stod].
    - [Logger]: [logger.h/.cpp].  [AtomicCells]: the counters and gauges of
      [performance_counters.h] as machines of atomic accesses; [Metrics]: its rates,
      registry and system monitor (the Linux branches over the text of [/proc], the Apple
      branches over the answers of the Mach kernel).  [Timing]: [performance_timer.h/.cpp].
      [MainProgram]: [main.cpp], which measures a baseline with them.  [Platform]:
      [platform_detector.h/.cpp] over the predefined macros and the files of the host.
    - [ParserState], [Framing], [OptimizedParser], [StreamParser]:
      [stream_fix_parser.h/.cpp].  [ParserState] has the records (parser, context,
      statistics), the transition table, the circuit breaker and the counters; the state
      is a [World]: parser, pool and clock.  [Framing] has [findCompleteMessage] and the
      scanning helpers; [OptimizedParser] the six specialised decoders, which the code
      writes out six times with the same blocks and which are instances of one definition
      over a [Specialisation] of their differences; [StreamParser] the generic decoder,
      error recovery and [parse].
    - [ParserDelivery], [ParserSafety]: the theorems about [parse].  [ParserMoves]: the moves,
      rates and accessors of the parser.  [StateMachine]: the byte-wise state machine of the
      same class, with its theorems.
    - [QueueInterface]: what the queue promises to its clients, as the type class
      [FifoQueue] with the ring buffer as instance.  [PriorityQueues]: the four queues of
      [priority_queue_container.h] and the environment [Env] the managers share (pool,
      queues, clock).  [MessageSending]: proof rules for the pattern "allocate, set
      fields, push".
    - [MessageRouter]: [message_router.h/.cpp].  [GapManager],
      [GapInterleaving]: [sequence_num_gap_manager.h/.cpp], first as calls in sequence, then
      with the gap thread and its callers interleaved at every access to the ring buffer.
    - [SessionManager]: [inbound_message_manager.h/.cpp] and [fix_session_manager.h/.cpp];
      [SessionSending], [SessionProperties] and [SessionAnswers] have its theorems.
    - [OutboundMessage]: [message.h/.cpp].  [MutexQueue]: [utils/priority_queue.h/.cpp] over
      the class [MaxHeap] that stands for [std::priority_queue];
      [MutexQueueProperties] has its theorems, among them those about threads that share
      the queue.
    - [TcpConnection]: [tcp_connection.h/.cpp] over the class [Sockets] of system calls.
    - [AsyncSender]: [async_sender.h/.cpp] against the classes [OutQueue] and [Transport];
      [SenderProperties] shows that both queues and the connection implement them and
      has the theorems.  [AsyncSenderManager]: [async_sender_manager.h/.cpp];
      [ThreadSetup]: what it and the gap manager ask of the system about their threads.
      [Summaries]: averages, statistics, accessors and report strings of the queues, the
      router, the managers, the connection and the message.
    - [Gateway]: [fix_gateway.h/.cpp], which composes connection, parser and router.
      [EndToEnd]: gateway and session together, linked through one queue and one pool.
    - [UsageExample]: [examples/fix_gateway_usage_example.cpp], a program over the gateway.
      [Conformance]: the scenarios of [examples/parser_buffer_demo.cpp] and of the
      repository's tests, evaluated on the model.

    ** What the theorems show

    - Parsing.  Framing delimits exactly the bytes BodyLength announces, on every input,
      and never reads outside the buffer ([framing_sound], [framing_exact]); each
      specialised decoder inverts serialisation ([optimised_round_trip]); [parse]
      delivers a batch of messages in order and reassembles a message split over two
      calls ([parse_delivers_batch], each message in a slot of its own, and
      [parse_reassembles]); on arbitrary bytes decoding
      keeps the pool balanced and the loops end ([decode_balanced],
      [parse_terminates]).  The theorems also pin down where the code falls short:
      messages of the types without a specialised decoder are always rejected, the
      checksum behind a message may be read past the end of the buffer, recovery cannot
      succeed, the circuit breaker never closes again.  The state machine reads what the
      specialised decoders read ([state_machine_agrees]), but can run for ever.
    - Queue.  Sequentially the ring buffer refines a bounded FIFO
      ([queue_refines_fifo]); with one producer and one consumer every interleaving of
      atomic accesses is first-in first-out ([spsc_fifo]); with two producers a message
      can be lost.
    - Pool.  The free list always holds exactly the slots without an object
      ([pool_reachable_wf], up to 2^31 slots; beyond, the [int32_t] indices cut it short,
      [oversized_list_ends]), allocation and deallocation do what they promise
      ([allocate_correct], [deallocate_correct]), concurrent allocation is exclusive
      ([concurrent_allocation_unique]), and with concurrent frees the ABA problem breaks it.
      The global pool is constructed once ([global_pool_once], whose constructor may run out
      of memory), but its shutdown races.
    - Utilities.  The logger writes exactly what the history of its calls asks for
      ([logger_refines_history]); counters add up every concurrent update
      ([counter_sums_updates]) and gauges are linearisable; timer statistics are the
      extrema and sums of their samples ([stats_summarise]); the monitor's readings stay in
      range whatever [/proc] says ([system_monitor_sound]).  The measuring program ends and
      records what it times ([main_completes]), but reports nothing of its memory test
      ([memory_unreported]).
    - Messages.  The caches are never observable, except that an object that was
      move-assigned to goes on reporting its old type ([caches_transparent]); the printed
      BodyLength is right ([body_length_correct]), the CheckSum when the length is stored
      and not when it is computed ([checksum_exact]); printing and parsing are inverse; what
      the builder builds parses back with consecutive numbers ([builder_numbers_messages]).  A price set as a
      [double] is stored digit by digit and read back as the same [double]
      ([double_field_round_trip]); the conversions print the exact decimal or, when it does
      not fit, zero ([int_to_string_equivalent], [double_to_string_exact]).
    - Routing.  A batch goes into the queues of its messages' priorities in order, as far as
      there is room, and every message is counted once ([routing_exact]).
    - Gaps.  The gap queue implements a bounded set of numbers
      ([gap_queue_refines_set]); the passes of the manager end, keep order, and ask at most
      five times for each entry ([process_gaps_exact], [resend_bounded]).  A call that runs alone
      does, access by access, what the sequential operation does ([call_alone],
      [pass_alone]); with the gap thread and its callers interleaved, a call can miss a gap
      the thread holds ([gap_missed]), an entry can be lost ([gap_lost]) and a resolved one
      come back ([gap_revived]).
    - Session.  State, timer and statistics agree in every reachable state
      ([session_state_machine]), each call moves the state as its result says, and starting
      twice ends the program; incoming numbers are judged case by case
      ([sequence_validation]); every message sent has exactly its fields
      ([session_send_exact]); and the polling loop answers every request that waits, once and
      in order, though it never frees a request ([requests_answered]).
    - Outbound.  Threads that share the priority queue lose no message and free none twice
      ([monitor_safe]); a push does exactly what room and policy say ([push_exact]); but
      the numbers of the priorities make the queue serve the least urgent first
      ([least_urgent_first]).  The sender settles each message once ([send_once]), its thread
      ends ([sender_ends]), and a running manager hands over or frees what it is
      given ([manager_send_settles]).  A partial send writes all that remained, or a prefix of
      it up to what the system refused ([send_all_or_prefix]); but no connection ever comes up
      ([tcp_never_connected]), so that [send] never gets that far and everything queued is
      discarded ([unsent_messages_discarded]).

    - Gateway.  A buffer of complete messages handed to the data callback is decoded, and
      the last message goes to its queue ([gateway_delivers]), the others are lost.  Requests
      that reach the callback one per segment are decoded, queued, and answered by the
      session linked to the queue, each once, in order and with the right number and content
      ([requests_served]).  But since no connection comes up, no gateway ever receives
      ([gateway_never_online]); the usage example connects and ends at once
      ([usage_ends_at_once]).
    - Conformance.  The model gives the values the repository's tests expect; where it does
      not, the statement says what the code does.

    ** Bounds

    Loops whose recursion is not structural take fuel.  [parse] gives its loop one turn
    more than the buffer has bytes, and the field loops one turn per byte: every turn
    consumes at least one byte, and [parse_terminates] and [decode_balanced] prove
    that [NoFuel] does not happen.  An [int] is kept in its 32-bit range with the wrap
    written out; the code's signed overflows are modelled as wrapping.  The slot indices of
    the pool are cast to [int32_t] as in the code, so pools of up to 2^31 slots are the sound
    ones.  The counters of
    queue and pool are unbounded integers (they are 64 bits wide), and [size_t] arithmetic
    is reduced where a difference can be negative.  The retry loop of the sender has one
    turn per retry and one more ([send_once] shows it returns), its drain one turn per
    queued message, and a partial send one turn per byte.  The state machine of the parser
    takes its fuel as an argument, since it does not always end; four turns per field and
    five more are enough for a complete message.

    ** Not modelled

    The operating system: socket calls are an interface with their documented behaviour,
    requests about threads are recorded with the answers given by an interface, and a wait
    on a condition variable ends when its condition holds or at any time by timeout.  The
    log lines and performance-counter updates inside the operations of the components; the
    text of parse errors ([error_detail]); the printed frame of the parser demonstration.
    [BusinessLogicManager] has declarations only, [order_book_interface.h] pure virtual
    functions only, and [message_handler.h] is empty.  The compiler identification file CMake
    left under [build/] is generated.  Clock readings are an arbitrary stream of values, passed as a
    parameter.  C++ atomics are modelled sequentially consistent. *)
From stdpp Require Export gmap list strings sorting.
From Stdlib Require Export ZArith Lia.

#[global] Open Scope Z_scope.

(** * Bytes and byte strings

    A [char] is a [Z] in [0..255].  The code compares characters only with
    ASCII constants and converts them with [static_cast<uint8_t>], so the
    signedness of [char] is not observable.  A [std::string] and a
    [std::string_view] are lists of bytes. *)
Abbreviation bytes := (list Z).

Definition byte_of_ascii (c : Ascii.ascii) : Z := Z.of_N (Ascii.N_of_ascii c).

Fixpoint str (s : string) : bytes :=
  match s with
  | EmptyString => []
  | String c s' => byte_of_ascii c :: str s'
  end.

Definition is_byte (b : Z) : Prop := 0 <= b < 256.

(** * Machine integers *)

(** Two's complement reduction to [int] / [int32_t]. *)
Definition wrap32 (z : Z) : Z := (z + 2147483648) mod 4294967296 - 2147483648.

Definition int32_range (z : Z) : Prop := -2147483648 <= z <= 2147483647.

(** Reduction to [uint64_t] and to [uint8_t]. *)
Definition u64 (z : Z) : Z := z mod 18446744073709551616.
Definition u8 (z : Z) : Z := z mod 256.

(** * Decimal representation *)

(** The digits of [v > 0], most significant first, in front of [acc]: the
    right-to-left digit loop of [integer_to_string_internal], which is also what
    [std::to_string] prints.  [fuel] bounds the number of digits. *)
Fixpoint dec_loop (fuel : nat) (v : Z) (acc : bytes) : bytes :=
  match fuel with
  | O => acc
  | S f => if v <=? 0 then acc else dec_loop f (v / 10) (48 + v mod 10 :: acc)
  end.

(** [std::to_string] of an integer of at most 64 bits (at most 20 digits). *)
Definition to_string (v : Z) : bytes :=
  if v =? 0 then [48]
  else if v <? 0 then 45 :: dec_loop 20 (- v) []
  else dec_loop 20 v [].

Definition is_digit (c : Z) : bool := (48 <=? c) && (c <=? 57).

(** The value of a digit string, folded from the left. *)
Definition dec_value (ds : bytes) : Z :=
  fold_left (fun acc c => acc * 10 + (c - 48)) ds 0.

(** * Scanning memory

    [std::find], [memchr] and the hand-written loops of the code read bytes
    one after the other up to a limit.  [mem] is the object the pointer points
    into, a pointer is an index; reading outside the object is reported. *)
Inductive scan_result :=
  | Found (i : nat)
  | NotFound
  | OutOfBounds.

Fixpoint scan (c : Z) (l : bytes) (n : nat) : scan_result :=
  match n with
  | O => NotFound
  | S n' =>
      match l with
      | [] => OutOfBounds
      | x :: l' =>
          if x =? c then Found 0
          else match scan c l' n' with
               | Found i => Found (S i)
               | r => r
               end
      end
  end.

(** [memchr(mem + p, c, n)]: the absolute index of the first [c]. *)
Definition memchr (mem : bytes) (p : nat) (c : Z) (n : nat) : scan_result :=
  match scan c (drop p mem) n with
  | Found i => Found (p + i)
  | r => r
  end.

(** [mem[p .. p+n)] as a string, [None] when it leaves the object. *)
Definition read_bytes (mem : bytes) (p n : nat) : option bytes :=
  if decide (p + n <= length mem)%nat then Some (take n (drop p mem)) else None.

Fixpoint prefix_of (p l : bytes) : bool :=
  match p, l with
  | [], _ => true
  | x :: p', y :: l' => (x =? y) && prefix_of p' l'
  | _ :: _, [] => false
  end.

(** [std::search]: the first index at which [pat] occurs in [l]. *)
Fixpoint search (pat l : bytes) : option nat :=
  if prefix_of pat l then Some O
  else match l with
       | [] => None
       | _ :: l' => S <$> search pat l'
       end.

(** [std::string::find(c, pos)] for one character. *)
Fixpoint index_of (c : Z) (l : bytes) : option nat :=
  match l with
  | [] => None
  | x :: l' => if x =? c then Some O else S <$> index_of c l'
  end.

(** * [std::stoi]

    [strtol] base 10: optional white space, optional sign, at least one digit,
    anything after the digits ignored; [std::invalid_argument] without a digit and
    [std::out_of_range] outside [int]. *)
Inductive stoi_result :=
  | StoiOk (v : Z)
  | InvalidArgument
  | OutOfRange.

Definition is_space (c : Z) : bool :=
  (c =? 32) || ((9 <=? c) && (c <=? 13)).

Fixpoint skip_spaces (s : bytes) : bytes :=
  match s with
  | c :: s' => if is_space c then skip_spaces s' else s
  | [] => []
  end.

Fixpoint digit_prefix (s : bytes) : bytes :=
  match s with
  | c :: s' => if is_digit c then c :: digit_prefix s' else []
  | [] => []
  end.

Definition stoi (s : bytes) : stoi_result :=
  let s1 := skip_spaces s in
  let '(neg, s2) :=
    match s1 with
    | c :: r => if c =? 45 then (true, r) else if c =? 43 then (false, r) else (false, s1)
    | [] => (false, [])
    end in
  match digit_prefix s2 with
  | [] => InvalidArgument
  | ds =>
      let v := if neg : bool then - dec_value ds else dec_value ds in
      if (-2147483648 <=? v) && (v <=? 2147483647) then StoiOk v else OutOfRange
  end.

(** * Effects

    A stateful routine takes the state and returns an outcome with the new
    state: a value, a C++ exception, the end of what the source determines ([Ub]: an
    access outside an object or other undefined behaviour, and [std::terminate]), or
    exhausted fuel of a loop. *)
Inductive outcome (A : Type) :=
  | Ret (a : A)
  | Throw
  | Ub
  | NoFuel.
Arguments Ret {A} a.
Arguments Throw {A}.
Arguments Ub {A}.
Arguments NoFuel {A}.

Definition M (S A : Type) : Type := S -> outcome A * S.

Definition ret {S A} (a : A) : M S A := fun s => (Ret a, s).
Definition bind {S A B} (m : M S A) (k : A -> M S B) : M S B :=
  fun s =>
    match m s with
    | (Ret a, s') => k a s'
    | (Throw, s') => (Throw, s')
    | (Ub, s') => (Ub, s')
    | (NoFuel, s') => (NoFuel, s')
    end.
Definition throw {S A} : M S A := fun s => (Throw, s).
Definition ub {S A} : M S A := fun s => (Ub, s).
(** [std::terminate]: the program ends. *)
Definition terminate {S A} : M S A := ub.
Definition nofuel {S A} : M S A := fun s => (NoFuel, s).
Definition get_st {S} : M S S := fun s => (Ret s, s).
Definition modify {S} (f : S -> S) : M S unit := fun s => (Ret tt, f s).

(** [try { m } catch (const std::exception &) { h }] *)
Definition try_catch {S A} (m h : M S A) : M S A :=
  fun s => match m s with (Throw, s') => h s' | r => r end.

Declare Scope fix_scope.
Delimit Scope fix_scope with fix_scope.
#[global] Open Scope fix_scope.
Notation "x <-- m ;; k" := (bind m (fun x => k))
  (at level 100, m at next level, right associativity) : fix_scope.
Notation "m ;;; k" := (bind m (fun _ => k))
  (at level 100, right associativity) : fix_scope.

(** * Tactics, hints and generic lemmas *)

(** Destructs the scrutinee of the innermost [match] of the goal, naming the
    equation. *)
Ltac case_goal :=
  match goal with
  | |- context [match ?x with _ => _ end] =>
      lazymatch x with
      | context [match _ with _ => _ end] => fail
      | _ => destruct x eqn:?
      end
  end.

(** The same in a hypothesis. *)
Ltac case_hyp H :=
  match type of H with
  | context [match ?x with _ => _ end] =>
      lazymatch x with
      | context [match _ with _ => _ end] => fail
      | _ => destruct x eqn:?
      end
  end.

(** Boolean integer tests of the code become propositions. *)
Ltac bool_props :=
  repeat match goal with
  | H : _ && _ = true |- _ => apply andb_true_iff in H as [? ?]
  | H : _ && _ = false |- _ => apply andb_false_iff in H
  | H : _ || _ = false |- _ => apply orb_false_iff in H as [? ?]
  | H : _ || _ = true |- _ => apply orb_true_iff in H
  | H : negb _ = true |- _ => apply negb_true_iff in H
  | H : negb _ = false |- _ => apply negb_false_iff in H
  | H : (_ =? _) = true |- _ => apply Z.eqb_eq in H
  | H : (_ =? _) = false |- _ => apply Z.eqb_neq in H
  | H : (_ <=? _) = true |- _ => apply Z.leb_le in H
  | H : (_ <=? _) = false |- _ => apply Z.leb_gt in H
  | H : (_ <? _) = true |- _ => apply Z.ltb_lt in H
  | H : (_ <? _) = false |- _ => apply Z.ltb_ge in H
  end.

Create HintDb fixdb.
Create Rewrite HintDb fixrw.

Lemma wrap32_id z : int32_range z -> wrap32 z = z.
Proof.
  unfold wrap32, int32_range. intros H.
  rewrite Z.mod_small; lia.
Qed.

Lemma wrap32_range z : int32_range (wrap32 z).
Proof.
  unfold wrap32, int32_range.
  pose proof (Z.mod_pos_bound (z + 2147483648) 4294967296 ltac:(lia)). lia.
Qed.

Lemma is_digit_spec c : is_digit c = true <-> 48 <= c <= 57.
Proof. unfold is_digit. rewrite andb_true_iff, !Z.leb_le. lia. Qed.

#[export] Hint Resolve wrap32_range : fixdb.

(** ** Decimal digits *)

Lemma dec_loop_acc fuel v acc : dec_loop fuel v acc = dec_loop fuel v [] ++ acc.
Proof.
  revert v acc. induction fuel as [|f IH]; intros v acc; simpl; [done|].
  destruct (v <=? 0); [done|].
  rewrite IH, (IH _ [_]), <- app_assoc. done.
Qed.

Lemma dec_loop_step f v :
  0 < v -> dec_loop (S f) v [] = dec_loop f (v / 10) [] ++ [48 + v mod 10].
Proof.
  intros Hv. simpl. destruct (Z.leb_spec v 0); [lia|]. apply dec_loop_acc.
Qed.

Lemma dec_loop_nonpos f v : v <= 0 -> dec_loop f v [] = [].
Proof. intros H. destruct f; simpl; [done|]. destruct (Z.leb_spec v 0); [done|lia]. Qed.

Lemma dec_value_app_digit ds c : dec_value (ds ++ [c]) = dec_value ds * 10 + (c - 48).
Proof. unfold dec_value. by rewrite fold_left_app. Qed.

Lemma pow10_succ (f : nat) : 10 ^ Z.of_nat (S f) = 10 * 10 ^ Z.of_nat f.
Proof. rewrite Nat2Z.inj_succ, Z.pow_succ_r; lia. Qed.

Lemma div10_bound v f : 0 < v < 10 ^ Z.of_nat (S f) -> 0 <= v / 10 < 10 ^ Z.of_nat f.
Proof.
  rewrite pow10_succ. intros [H1 H2]. split; [apply Z.div_pos; lia|].
  apply Z.div_lt_upper_bound; lia.
Qed.

Lemma dec_loop_value f v :
  0 <= v < 10 ^ Z.of_nat f -> dec_value (dec_loop f v []) = v.
Proof.
  revert v. induction f as [|f IH]; intros v Hv.
  { simpl in Hv. assert (v = 0) as -> by lia. done. }
  destruct (Z.leb_spec v 0).
  { assert (v = 0) as -> by lia. by rewrite dec_loop_nonpos. }
  rewrite dec_loop_step, dec_value_app_digit, IH by (try apply div10_bound; lia).
  pose proof (Z.div_mod v 10 ltac:(lia)). lia.
Qed.

Lemma dec_loop_digits f v : Forall (fun c => is_digit c = true) (dec_loop f v []).
Proof.
  revert v. induction f as [|f IH]; intros v; [constructor|].
  destruct (Z.leb_spec v 0); [by rewrite dec_loop_nonpos|].
  rewrite dec_loop_step by done. apply Forall_app. split; [done|].
  constructor; [|constructor]. apply is_digit_spec.
  pose proof (Z.mod_pos_bound v 10 ltac:(lia)). lia.
Qed.

Lemma dec_loop_nonempty f v : 0 < v -> dec_loop (S f) v [] <> [].
Proof. intros Hv. rewrite dec_loop_step by done. by destruct (dec_loop f (v / 10) []). Qed.

Lemma dec_loop_length f v k :
  0 <= v < 10 ^ Z.of_nat k -> (length (dec_loop f v []) <= k)%nat.
Proof.
  revert v k. induction f as [|f IH]; intros v k Hv; simpl; [lia|].
  destruct (Z.leb_spec v 0); simpl; [lia|]. rewrite dec_loop_acc, length_app. simpl.
  destruct k as [|k]; [simpl in Hv; lia|]. pose proof (IH (v / 10) k (div10_bound v k ltac:(lia))).
  lia.
Qed.

Lemma to_string_pos v : 0 < v -> to_string v = dec_loop 20 v [].
Proof.
  intros H. unfold to_string.
  destruct (Z.eqb_spec v 0); [lia|]. destruct (Z.ltb_spec v 0); [lia|done].
Qed.

Lemma to_string_digits v :
  0 <= v -> Forall (fun c => is_digit c = true) (to_string v).
Proof.
  intros H. destruct (Z.eq_dec v 0) as [->|]; [by repeat constructor|].
  rewrite to_string_pos by lia. apply dec_loop_digits.
Qed.

Lemma to_string_nonempty v : to_string v <> [].
Proof.
  unfold to_string. destruct (Z.eqb_spec v 0); [done|].
  destruct (Z.ltb_spec v 0); [done|]. apply dec_loop_nonempty. lia.
Qed.

Lemma to_string_value v : 0 <= v < 10 ^ 20 -> dec_value (to_string v) = v.
Proof.
  intros H. destruct (Z.eq_dec v 0) as [->|]; [done|].
  rewrite to_string_pos by lia. apply dec_loop_value. simpl. lia.
Qed.

Lemma to_string_length v k :
  (0 < k)%nat -> 0 <= v < 10 ^ Z.of_nat k -> (length (to_string v) <= k)%nat.
Proof.
  intros Hk Hv. destruct (Z.eq_dec v 0) as [->|]; [simpl; lia|].
  rewrite to_string_pos by lia. by apply dec_loop_length.
Qed.

Lemma digit_prefix_all ds :
  Forall (fun c => is_digit c = true) ds -> digit_prefix ds = ds.
Proof. induction 1 as [|c ds Hc _ IH]; simpl; [done|]. by rewrite Hc, IH. Qed.

Lemma digit_not_special c :
  is_digit c = true -> is_space c = false /\ c <> 45 /\ c <> 43.
Proof.
  rewrite is_digit_spec. intros H. unfold is_space. split; [|lia].
  apply orb_false_iff. rewrite andb_false_iff, Z.eqb_neq, !Z.leb_gt. lia.
Qed.

Lemma stoi_digits ds :
  ds <> [] -> Forall (fun c => is_digit c = true) ds ->
  stoi ds = if (-2147483648 <=? dec_value ds) && (dec_value ds <=? 2147483647)
            then StoiOk (dec_value ds) else OutOfRange.
Proof.
  intros Hne Hds. destruct ds as [|c ds]; [done|].
  pose proof (digit_prefix_all _ Hds) as Hp.
  inversion Hds as [|? ? Hc _]; subst.
  destruct (digit_not_special _ Hc) as (Hs & H45 & H43).
  unfold stoi. cbn [skip_spaces]. rewrite Hs.
  destruct (Z.eqb_spec c 45); [lia|]. destruct (Z.eqb_spec c 43); [lia|].
  rewrite Hp. done.
Qed.

Lemma stoi_neg_digits ds :
  ds <> [] -> Forall (fun c => is_digit c = true) ds ->
  stoi (45 :: ds) = if (-2147483648 <=? - dec_value ds) && (- dec_value ds <=? 2147483647)
            then StoiOk (- dec_value ds) else OutOfRange.
Proof.
  intros Hne Hds. unfold stoi. cbn [skip_spaces is_space Z.eqb Z.leb Z.compare orb andb].
  simpl. rewrite digit_prefix_all by done. destruct ds; done.
Qed.

(** [std::stoi] inverts [std::to_string] on [int]. *)
Lemma stoi_to_string v : int32_range v -> stoi (to_string v) = StoiOk v.
Proof.
  unfold int32_range. intros Hv.
  destruct (Z.ltb_spec v 0) as [Hn|Hn].
  - unfold to_string. destruct (Z.eqb_spec v 0); [lia|].
    destruct (Z.ltb_spec v 0); [|lia].
    rewrite stoi_neg_digits; [|apply dec_loop_nonempty; lia|apply dec_loop_digits].
    rewrite dec_loop_value by (simpl; lia).
    rewrite (proj2 (andb_true_iff _ _)); [f_equal; lia|rewrite !Z.leb_le; lia].
  - rewrite stoi_digits; [|apply to_string_nonempty|apply to_string_digits; lia].
    rewrite to_string_value by lia.
    rewrite (proj2 (andb_true_iff _ _)); [done|rewrite !Z.leb_le; lia].
Qed.

(** ** Scanning *)

Lemma scan_found c a b n :
  c ∉ a -> (length a < n)%nat -> scan c (a ++ c :: b) n = Found (length a).
Proof.
  revert n. induction a as [|x a IH]; intros [|n] Hc Hn; simpl in *; try lia.
  - by rewrite Z.eqb_refl.
  - apply not_elem_of_cons in Hc as [Hx Ha].
    destruct (Z.eqb_spec x c); [congruence|]. rewrite IH by (done || lia). done.
Qed.

Lemma scan_not_found c l n :
  (n <= length l)%nat -> c ∉ take n l -> scan c l n = NotFound.
Proof.
  revert n. induction l as [|x l IH]; intros [|n] Hn Hc; simpl in *; try done; [lia|].
  apply not_elem_of_cons in Hc as [Hx Ha].
  destruct (Z.eqb_spec x c); [congruence|]. rewrite IH by (done || lia). done.
Qed.

Lemma scan_in_bounds c l n : (n <= length l)%nat -> scan c l n <> OutOfBounds.
Proof.
  revert n. induction l as [|x l IH]; intros [|n] Hn; simpl in *; try done; [lia|].
  destruct (x =? c); [done|]. specialize (IH n ltac:(lia)). by destruct (scan c l n).
Qed.

Lemma scan_found_inv c l n i :
  scan c l n = Found i -> (i < n)%nat /\ l !! i = Some c /\ c ∉ take i l.
Proof.
  revert n i. induction l as [|x l IH]; intros [|n] i H; simpl in *; try done.
  destruct (Z.eqb_spec x c) as [->|Hx].
  - injection H as <-. split; [lia|]. split; [done|]. apply not_elem_of_nil.
  - destruct (scan c l n) as [j| |] eqn:E; try done. injection H as <-.
    destruct (IH _ _ E) as (H1 & H2 & H3).
    split; [lia|]. split; [done|]. simpl. apply not_elem_of_cons. done.
Qed.

Lemma memchr_found mem p a c b n :
  drop p mem = a ++ c :: b -> c ∉ a -> (length a < n)%nat ->
  memchr mem p c n = Found (p + length a).
Proof. intros H Hc Hn. unfold memchr. rewrite H, scan_found; done. Qed.

Lemma memchr_in_bounds mem p c n :
  (p + n <= length mem)%nat -> memchr mem p c n <> OutOfBounds.
Proof.
  intros H. unfold memchr.
  pose proof (scan_in_bounds c (drop p mem) n) as Hs. rewrite length_drop in Hs.
  specialize (Hs ltac:(lia)). by destruct (scan c (drop p mem) n).
Qed.

Lemma memchr_found_inv mem p c n q :
  memchr mem p c n = Found q ->
  (p <= q < p + n)%nat /\ (q < length mem)%nat /\ mem !! q = Some c.
Proof.
  unfold memchr. destruct (scan c (drop p mem) n) as [i| |] eqn:E; try done.
  intros [= <-]. apply scan_found_inv in E as (H1 & H2 & _).
  rewrite lookup_drop in H2. split; [lia|]. split; [|done].
  by apply lookup_lt_Some in H2.
Qed.

Lemma prefix_of_spec p l : prefix_of p l = true <-> exists r, l = p ++ r.
Proof.
  revert l. induction p as [|x p IH]; intros l; simpl.
  { split; [intros _; by exists l|done]. }
  destruct l as [|y l]; [split; [done|intros [r ?]; done]|].
  rewrite andb_true_iff, Z.eqb_eq, IH. split.
  - intros [-> [r ->]]. by exists r.
  - intros [r [= -> ->]]. eauto.
Qed.

Lemma search_found_at pat l i :
  search pat l = Some i -> (i <= length l)%nat /\ prefix_of pat (drop i l) = true.
Proof.
  revert i. induction l as [|x l IH]; intros i; cbn [search].
  - destruct (prefix_of pat []) eqn:E; [intros [= <-]|done]. simpl. split; [lia|done].
  - destruct (prefix_of pat (x :: l)) eqn:E.
    + intros [= <-]. simpl. split; [lia|done].
    + destruct (search pat l) as [j|] eqn:F; [|done]. intros [= <-].
      destruct (IH _ eq_refl) as [H1 H2]. simpl. split; [lia|done].
Qed.

Lemma search_prefix pat l : search pat (pat ++ l) = Some O.
Proof.
  assert (prefix_of pat (pat ++ l) = true) as H by (apply prefix_of_spec; by exists l).
  destruct pat, l; cbn [search app] in *; by rewrite ?H.
Qed.

Lemma memchr_split mem p c n i :
  memchr mem p c n = Found i ->
  exists a b, drop p mem = a ++ c :: b /\ i = (p + length a)%nat /\ c ∉ a /\ (length a < n)%nat.
Proof.
  unfold memchr. destruct (scan c (drop p mem) n) as [j| |] eqn:E; try done.
  intros [= <-]. apply scan_found_inv in E as (H1 & H2 & H3).
  exists (take j (drop p mem)), (drop (S j) (drop p mem)).
  rewrite take_drop_middle by done. apply lookup_lt_Some in H2.
  rewrite length_take_le by lia. done.
Qed.

Lemma memchr_none mem p c n l :
  drop p mem = l -> (n <= length l)%nat -> c ∉ take n l -> memchr mem p c n = NotFound.
Proof. intros <- Hn Hc. unfold memchr. by rewrite scan_not_found. Qed.

Lemma memchr_none_inv mem p c n :
  memchr mem p c n = NotFound -> (p + n <= length mem)%nat -> c ∉ take n (drop p mem).
Proof.
  unfold memchr. intros H Hl Hin. apply list_elem_of_lookup_1 in Hin as [i Hi].
  apply lookup_take_Some in Hi as [Hi Hlt].
  assert (forall l m i, l !! i = Some c -> (i < m)%nat -> scan c l m <> NotFound) as Hs.
  { clear. induction l as [|x l IH]; intros [|m] [|i] H Hm; simpl in *; try done; try lia.
    - injection H as ->. by rewrite Z.eqb_refl.
    - destruct (x =? c); [done|]. specialize (IH m i H ltac:(lia)). by destruct (scan c l m). }
  specialize (Hs _ _ _ Hi Hlt). by destruct (scan c (drop p mem) n).
Qed.

(** Positions and suffixes. *)
Lemma drop_step {A} (mem a b : list A) p q :
  drop p mem = a ++ b -> q = (p + length a)%nat -> drop q mem = b.
Proof. intros H ->. by rewrite <- drop_drop, H, drop_app_length. Qed.

Lemma read_bytes_prefix mem p a b :
  (p <= length mem)%nat -> drop p mem = a ++ b -> read_bytes mem p (length a) = Some a.
Proof.
  intros Hp H. unfold read_bytes. rewrite decide_True.
  - by rewrite H, take_app_length.
  - apply (f_equal length) in H. rewrite length_drop, length_app in H. lia.
Qed.

Lemma drop_length_le {A} (mem a : list A) p : drop p mem = a -> a <> [] -> (p <= length mem)%nat.
Proof.
  intros H Ha. destruct (decide (p <= length mem)%nat); [done|].
  rewrite drop_ge in H by lia. congruence.
Qed.

Lemma search_none_at pat l i r :
  search pat l = None -> drop i l = pat ++ r -> (i <= length l)%nat -> False.
Proof.
  revert i. induction l as [|x l IH]; intros i H E Hi.
  - simpl in *. assert (i = O) as -> by lia. destruct pat; [done|done].
  - cbn [search] in H. destruct (prefix_of pat (x :: l)) eqn:F; [done|].
    destruct (search pat l) eqn:G; [done|]. destruct i as [|i].
    + simpl in E. assert (prefix_of pat (x :: l) = true) by (apply prefix_of_spec; eauto). congruence.
    + apply (IH i); [done|done|simpl in Hi; lia].
Qed.

(** ** Weakest preconditions

    [wp m Q E s]: from [s], [m] neither leaves an object nor runs out of fuel; if it
    returns [a] in state [s'] then [Q a s'], and if it throws in [s'] then [E s']. *)
Definition wp {S A} (m : M S A) (Q : A -> S -> Prop) (E : S -> Prop) (s : S) : Prop :=
  match m s with
  | (Ret a, s') => Q a s'
  | (Throw, s') => E s'
  | _ => False
  end.

Lemma wp_ret {S A} (a : A) Q E (s : S) : Q a s -> wp (ret a) Q E s.
Proof. done. Qed.

Lemma wp_bind {S A B} (m : M S A) (k : A -> M S B) Q E s :
  wp m (fun a => wp (k a) Q E) E s -> wp (bind m k) Q E s.
Proof. unfold wp, bind. by destruct (m s) as [[] ?]. Qed.

Lemma wp_mono {S A} (m : M S A) (Q Q' : A -> S -> Prop) (E E' : S -> Prop) s :
  wp m Q E s -> (forall a s', Q a s' -> Q' a s') -> (forall s', E s' -> E' s') -> wp m Q' E' s.
Proof. unfold wp. destruct (m s) as [[] ?]; naive_solver. Qed.

Lemma wp_try {S A} (m h : M S A) Q E s :
  wp m Q (wp h Q E) s -> wp (try_catch m h) Q E s.
Proof. unfold wp, try_catch. by destruct (m s) as [[] ?]. Qed.

Lemma wp_run {S A} (m : M S A) Q s :
  wp m Q (fun _ => False) s <-> exists a s', m s = (Ret a, s') /\ Q a s'.
Proof.
  unfold wp. destruct (m s) as [[a| | |] s']; split; try done; try naive_solver.
Qed.

Lemma bind_ret {S A B} (m : M S A) (k : A -> M S B) s a s' :
  m s = (Ret a, s') -> bind m k s = k a s'.
Proof. unfold bind. by intros ->. Qed.

(** A bind that returned did so in two parts. *)
Lemma bind_returns {S A B} (m : M S A) (k : A -> M S B) s b s' :
  bind m k s = (Ret b, s') -> exists a s1, m s = (Ret a, s1) /\ k a s1 = (Ret b, s').
Proof. unfold bind. destruct (m s) as [[a| | |] s1]; intros E; try done. by exists a, s1. Qed.

#[export] Hint Resolve wp_ret : fixdb.
