(* ===== verification/FixFields.v ===== *)
(** The protocol constants of [include/protocol/fix_fields.h]: field tags,
    message-type strings, the [FixMsgType] enumeration with its two conversions
    ([toString] of the header, [fromString] of [fix_fields.cpp]) and
    [formatFixField]; and the integer formatting of
    [utils/fast_string_conversion.cpp]. *)
From S2P Require Import Prelude.

(** [constexpr char FIX_SOH] *)
Definition FIX_SOH : Z := 1.
(** [constexpr const char *FIX_VERSION_44] *)
Definition FIX_VERSION_44 : bytes := str "FIX.4.4".

(** [namespace FixFields] *)
Module Tag.
Definition BeginString : Z := 8.
Definition BodyLength : Z := 9.
Definition CheckSum : Z := 10.
Definition MsgType : Z := 35.
Definition MsgSeqNum : Z := 34.
Definition SenderCompID : Z := 49.
Definition TargetCompID : Z := 56.
Definition SendingTime : Z := 52.
Definition PossDupFlag : Z := 43.
Definition PossResend : Z := 97.
Definition OrigSendingTime : Z := 122.
Definition EncryptMethod : Z := 98.
Definition HeartBtInt : Z := 108.
Definition TestReqID : Z := 112.
Definition ResetSeqNumFlag : Z := 141.
Definition ClOrdID : Z := 11.
Definition OrderID : Z := 37.
Definition OrigClOrdID : Z := 41.
Definition ExecID : Z := 17.
Definition ExecType : Z := 150.
Definition OrdStatus : Z := 39.
Definition Symbol : Z := 55.
Definition Side : Z := 54.
Definition OrderQty : Z := 38.
Definition Price : Z := 44.
Definition OrdType : Z := 40.
Definition TimeInForce : Z := 59.
Definition LastQty : Z := 32.
Definition LastPx : Z := 31.
Definition LeavesQty : Z := 151.
Definition CumQty : Z := 14.
Definition AvgPx : Z := 6.
Definition TransactTime : Z := 60.
Definition Text : Z := 58.
Definition MDReqID : Z := 262.
Definition SubscriptionRequestType : Z := 263.
Definition MarketDepth : Z := 264.
Definition MDUpdateType : Z := 265.
Definition NoMDEntries : Z := 268.
Definition MDEntryType : Z := 269.
Definition MDEntryPx : Z := 270.
Definition MDEntrySize : Z := 271.
Definition MDEntryTime : Z := 273.
Definition Account : Z := 1.
Definition Currency : Z := 15.
Definition Commission : Z := 12.
Definition CommType : Z := 13.
Definition BeginSeqNo : Z := 7.
Definition EndSeqNo : Z := 16.
Definition NewSeqNo : Z := 36.
Definition GapFillFlag : Z := 123.
Definition RefSeqNum : Z := 45.
Definition RefMsgType : Z := 372.
Definition NoRelatedSym : Z := 146.
End Tag.

(** [namespace MsgTypes] *)
Module MsgTypes.
Definition Heartbeat : bytes := str "0".
Definition TestRequest : bytes := str "1".
Definition ResendRequest : bytes := str "2".
Definition Reject : bytes := str "3".
Definition SequenceReset : bytes := str "4".
Definition Logout : bytes := str "5".
Definition IndicationOfInterest : bytes := str "6".
Definition Advertisement : bytes := str "7".
Definition ExecutionReport : bytes := str "8".
Definition OrderCancelReject : bytes := str "9".
Definition Logon : bytes := str "A".
Definition NewOrderSingle : bytes := str "D".
Definition OrderCancelRequest : bytes := str "F".
Definition OrderCancelReplaceRequest : bytes := str "G".
Definition OrderStatusRequest : bytes := str "H".
Definition MarketDataRequest : bytes := str "V".
Definition MarketDataSnapshot : bytes := str "W".
Definition MarketDataIncrementalRefresh : bytes := str "X".
Definition MarketDataRequestReject : bytes := str "Y".
End MsgTypes.

(** [namespace OrderSide] *)
Module OrderSide.
Definition Buy : bytes := str "1".
Definition Sell : bytes := str "2".
Definition BuyMinus : bytes := str "3".
Definition SellPlus : bytes := str "4".
Definition SellShort : bytes := str "5".
Definition SellShortExempt : bytes := str "6".
End OrderSide.

(** [namespace OrderType] *)
Module OrderType.
Definition Market : bytes := str "1".
Definition Limit : bytes := str "2".
Definition Stop : bytes := str "3".
Definition StopLimit : bytes := str "4".
Definition MarketOnClose : bytes := str "5".
Definition WithOrWithout : bytes := str "6".
Definition LimitOrBetter : bytes := str "7".
Definition LimitWithOrWithout : bytes := str "8".
Definition OnBasis : bytes := str "9".
End OrderType.

(** [namespace TimeInForce] *)
Module TimeInForce.
Definition Day : bytes := str "0".
Definition GoodTillCancel : bytes := str "1".
Definition AtTheOpening : bytes := str "2".
Definition ImmediateOrCancel : bytes := str "3".
Definition FillOrKill : bytes := str "4".
Definition GoodTillCrossing : bytes := str "5".
Definition GoodTillDate : bytes := str "6".
End TimeInForce.

(** [namespace OrderStatus] *)
Module OrderStatus.
Definition New : bytes := str "0".
Definition PartiallyFilled : bytes := str "1".
Definition Filled : bytes := str "2".
Definition DoneForDay : bytes := str "3".
Definition Canceled : bytes := str "4".
Definition Replaced : bytes := str "5".
Definition PendingCancel : bytes := str "6".
Definition Stopped : bytes := str "7".
Definition Rejected : bytes := str "8".
Definition Suspended : bytes := str "9".
Definition PendingNew : bytes := str "A".
Definition Calculated : bytes := str "B".
Definition Expired : bytes := str "C".
Definition AcceptedForBidding : bytes := str "D".
Definition PendingReplace : bytes := str "E".
End OrderStatus.

(** [namespace ExecType] *)
Module ExecType.
Definition New : bytes := str "0".
Definition PartialFill : bytes := str "1".
Definition Fill : bytes := str "2".
Definition DoneForDay : bytes := str "3".
Definition Canceled : bytes := str "4".
Definition Replace : bytes := str "5".
Definition PendingCancel : bytes := str "6".
Definition Stopped : bytes := str "7".
Definition Rejected : bytes := str "8".
Definition Suspended : bytes := str "9".
Definition PendingNew : bytes := str "A".
Definition Calculated : bytes := str "B".
Definition Expired : bytes := str "C".
Definition Restated : bytes := str "D".
Definition PendingReplace : bytes := str "E".
End ExecType.

(** [enum class FixMsgType] *)
Inductive FixMsgType :=
  | HEARTBEAT
  | TEST_REQUEST
  | RESEND_REQUEST
  | REJECT
  | SEQUENCE_RESET
  | LOGOUT
  | LOGON
  | EXECUTION_REPORT
  | ORDER_CANCEL_REJECT
  | NEW_ORDER_SINGLE
  | ORDER_CANCEL_REQUEST
  | ORDER_CANCEL_REPLACE_REQUEST
  | ORDER_STATUS_REQUEST
  | MARKET_DATA_REQUEST
  | MARKET_DATA_SNAPSHOT
  | MARKET_DATA_INCREMENTAL_REFRESH
  | MARKET_DATA_REQUEST_REJECT
  | UNKNOWN.

#[export] Instance FixMsgType_eq_dec : EqDecision FixMsgType.
Proof. solve_decision. Defined.

(** [FixMsgTypeUtils::toString] *)
Definition msgTypeToString (t : FixMsgType) : bytes :=
  match t with
  | HEARTBEAT => MsgTypes.Heartbeat
  | TEST_REQUEST => MsgTypes.TestRequest
  | RESEND_REQUEST => MsgTypes.ResendRequest
  | REJECT => MsgTypes.Reject
  | SEQUENCE_RESET => MsgTypes.SequenceReset
  | LOGOUT => MsgTypes.Logout
  | LOGON => MsgTypes.Logon
  | EXECUTION_REPORT => MsgTypes.ExecutionReport
  | ORDER_CANCEL_REJECT => MsgTypes.OrderCancelReject
  | NEW_ORDER_SINGLE => MsgTypes.NewOrderSingle
  | ORDER_CANCEL_REQUEST => MsgTypes.OrderCancelRequest
  | ORDER_CANCEL_REPLACE_REQUEST => MsgTypes.OrderCancelReplaceRequest
  | ORDER_STATUS_REQUEST => MsgTypes.OrderStatusRequest
  | MARKET_DATA_REQUEST => MsgTypes.MarketDataRequest
  | MARKET_DATA_SNAPSHOT => MsgTypes.MarketDataSnapshot
  | MARKET_DATA_INCREMENTAL_REFRESH => MsgTypes.MarketDataIncrementalRefresh
  | MARKET_DATA_REQUEST_REJECT => MsgTypes.MarketDataRequestReject
  | UNKNOWN => []
  end.

(** The character at index [i] of [s.c_str()], the terminating NUL included. *)
Definition c_str_at (s : bytes) (i : nat) : Z := default 0 (s !! i).

(** One test of [fromString]: [msgTypeStr[0] == c && msgTypeStr[1] == '\0'].
    The second read happens only when the first character matched, so it stays
    inside the terminated string. *)
Definition is_single (s : bytes) (c : Z) : bool :=
  (c_str_at s 0 =? c) && (c_str_at s 1 =? 0).

(** [FixMsgTypeUtils::fromString], on the C string of [s]. *)
Definition fromString (s : bytes) : FixMsgType :=
  if is_single s 48 then HEARTBEAT
  else if is_single s 49 then TEST_REQUEST
  else if is_single s 50 then RESEND_REQUEST
  else if is_single s 51 then REJECT
  else if is_single s 52 then SEQUENCE_RESET
  else if is_single s 53 then LOGOUT
  else if is_single s 65 then LOGON
  else if is_single s 56 then EXECUTION_REPORT
  else if is_single s 57 then ORDER_CANCEL_REJECT
  else if is_single s 68 then NEW_ORDER_SINGLE
  else if is_single s 70 then ORDER_CANCEL_REQUEST
  else if is_single s 71 then ORDER_CANCEL_REPLACE_REQUEST
  else if is_single s 72 then ORDER_STATUS_REQUEST
  else if is_single s 86 then MARKET_DATA_REQUEST
  else if is_single s 87 then MARKET_DATA_SNAPSHOT
  else if is_single s 88 then MARKET_DATA_INCREMENTAL_REFRESH
  else if is_single s 89 then MARKET_DATA_REQUEST_REJECT
  else UNKNOWN.

(** [FixMsgTypeUtils::hasOptimizedParser] *)
Definition hasOptimizedParser (t : FixMsgType) : bool :=
  bool_decide (t = EXECUTION_REPORT) || bool_decide (t = HEARTBEAT).

(** [formatFixField(int, const std::string &)]: [tag=value<SOH>]. *)
Definition formatFixField (tag : Z) (value : bytes) : bytes :=
  to_string tag ++ [61] ++ value ++ [FIX_SOH].

(** [FastStringConversion::integer_to_string_internal<T>]: [lo] is
    [std::numeric_limits<T>::min()] for a signed [T] and [None] for an unsigned
    one ([if constexpr (std::is_signed_v<T>)]).  Zero, the most negative value
    through [snprintf("%lld")], otherwise the digits of the absolute value with a
    sign.  The 32-byte buffer leaves 31 characters, so the digit loop runs at
    most 31 times before it would leave the buffer. *)
Definition integer_to_string_internal (lo : option Z) (value : Z) : bytes :=
  if value =? 0 then [48]
  else match lo with
  | Some m =>
      if value <? 0 then
        if value =? m then to_string value
        else 45 :: dec_loop 31 (- value) []
      else dec_loop 31 value []
  | None => dec_loop 31 value []
  end.

(** The three public instances. *)
Definition int_to_string (value : Z) : bytes :=
  integer_to_string_internal (Some (-2147483648)) value.
Definition long_to_string (value : Z) : bytes :=
  integer_to_string_internal (Some (-9223372036854775808)) value.
Definition uint_to_string (value : Z) : bytes :=
  integer_to_string_internal None value.

(** The printed form of one field and of a list of fields. *)
Definition printFields (fs : list (Z * bytes)) : bytes :=
  mjoin (map (fun f => formatFixField (fst f) (snd f)) fs).

(** * Lemmas *)

Lemma dec_loop_fuel f g v :
  0 <= v < 10 ^ Z.of_nat f -> (f <= g)%nat -> dec_loop g v [] = dec_loop f v [].
Proof.
  revert g v. induction f as [|f IH]; intros g v Hv Hg.
  { simpl in Hv. assert (v = 0) as -> by lia. rewrite dec_loop_nonpos by lia. done. }
  destruct (Z.leb_spec v 0); [by rewrite !dec_loop_nonpos by lia|].
  destruct g as [|g]; [lia|]. rewrite !dec_loop_step by done.
  f_equal. apply IH; [apply div10_bound; lia|lia].
Qed.

(** The hand-written conversion prints what [std::to_string] prints, whatever
    the type: the minimum only selects who prints it. *)
Lemma integer_to_string_to_string lo v :
  - 10 ^ 20 < v < 10 ^ 20 -> (lo = None -> 0 <= v) ->
  integer_to_string_internal lo v = to_string v.
Proof.
  intros H Hlo. unfold integer_to_string_internal, to_string.
  destruct (Z.eqb_spec v 0); [done|].
  assert (forall w, 0 <= w < 10 ^ 20 -> dec_loop 31 w [] = dec_loop 20 w []) as Hf
    by (intros; apply dec_loop_fuel; [|lia]; change (Z.of_nat 20) with 20; lia).
  destruct lo as [m|].
  - destruct (Z.ltb_spec v 0); [destruct (v =? m); [done|]|]; by rewrite Hf by lia.
  - specialize (Hlo eq_refl). destruct (Z.ltb_spec v 0); [lia|]. by rewrite Hf by lia.
Qed.

Lemma int_to_string_to_string v : int32_range v -> int_to_string v = to_string v.
Proof. intros H. apply integer_to_string_to_string; [unfold int32_range in H; lia|done]. Qed.

Lemma printFields_cons f fs :
  printFields (f :: fs) = formatFixField (fst f) (snd f) ++ printFields fs.
Proof. done. Qed.

Lemma printFields_app fs gs : printFields (fs ++ gs) = printFields fs ++ printFields gs.
Proof. unfold printFields. by rewrite map_app, join_app. Qed.

#[export] Hint Rewrite printFields_cons printFields_app : fixrw.

(** A one-character C string. *)
Lemma is_single_spec s c :
  c <> 0 -> Forall (fun b => b <> 0) s -> is_single s c = true <-> s = [c].
Proof.
  intros Hc Hs. unfold is_single, c_str_at.
  rewrite andb_true_iff, !Z.eqb_eq. split; [|by intros ->].
  destruct s as [|x [|y s]]; simpl; [by intros [? _]|by intros [-> _]|].
  inversion Hs as [|? ? ? Hs']; inversion Hs'; subst. by intros [_ ?].
Qed.

(** * Properties *)

(** Message types and their wire strings are in bijection: every enumerator
    other than [UNKNOWN] is recovered by [fromString] from its [toString], and a
    NUL-free string that [fromString] maps to a known type is that type's
    [toString]. *)
Lemma msg_type_round_trip :
  (forall t, fromString (msgTypeToString t) = t) /\
  (forall s, Forall (fun b => b <> 0) s -> fromString s <> UNKNOWN ->
             msgTypeToString (fromString s) = s).
Proof.
  split; [by intros []|].
  intros s Hs. unfold fromString.
  repeat match goal with
  | |- context [is_single s ?c] =>
      let E := fresh "E" in
      destruct (is_single s c) eqn:E;
        [apply is_single_spec in E; [by subst|done|done]|]
  end. done.
Qed.

(** ** The constants are distinct *)

Lemma tags_distinct :
  NoDup [Tag.BeginString; Tag.BodyLength; Tag.CheckSum; Tag.MsgType; Tag.MsgSeqNum; Tag.SenderCompID;
    Tag.TargetCompID; Tag.SendingTime; Tag.PossDupFlag; Tag.PossResend; Tag.OrigSendingTime; Tag.EncryptMethod;
    Tag.HeartBtInt; Tag.TestReqID; Tag.ResetSeqNumFlag; Tag.ClOrdID; Tag.OrderID; Tag.OrigClOrdID;
    Tag.ExecID; Tag.ExecType; Tag.OrdStatus; Tag.Symbol; Tag.Side; Tag.OrderQty;
    Tag.Price; Tag.OrdType; Tag.TimeInForce; Tag.LastQty; Tag.LastPx; Tag.LeavesQty;
    Tag.CumQty; Tag.AvgPx; Tag.TransactTime; Tag.Text; Tag.MDReqID; Tag.SubscriptionRequestType;
    Tag.MarketDepth; Tag.MDUpdateType; Tag.NoMDEntries; Tag.MDEntryType; Tag.MDEntryPx; Tag.MDEntrySize;
    Tag.MDEntryTime; Tag.Account; Tag.Currency; Tag.Commission; Tag.CommType; Tag.BeginSeqNo;
    Tag.EndSeqNo; Tag.NewSeqNo; Tag.GapFillFlag; Tag.RefSeqNum; Tag.RefMsgType; Tag.NoRelatedSym].
Proof. refine (bool_decide_unpack _ _). by vm_compute. Qed.

Lemma values_distinct :
  NoDup [MsgTypes.Heartbeat; MsgTypes.TestRequest; MsgTypes.ResendRequest; MsgTypes.Reject;
    MsgTypes.SequenceReset; MsgTypes.Logout; MsgTypes.IndicationOfInterest; MsgTypes.Advertisement;
    MsgTypes.ExecutionReport; MsgTypes.OrderCancelReject; MsgTypes.Logon; MsgTypes.NewOrderSingle;
    MsgTypes.OrderCancelRequest; MsgTypes.OrderCancelReplaceRequest; MsgTypes.OrderStatusRequest; MsgTypes.MarketDataRequest;
    MsgTypes.MarketDataSnapshot; MsgTypes.MarketDataIncrementalRefresh; MsgTypes.MarketDataRequestReject] /\
  NoDup [OrderSide.Buy; OrderSide.Sell; OrderSide.BuyMinus; OrderSide.SellPlus;
    OrderSide.SellShort; OrderSide.SellShortExempt] /\
  NoDup [OrderType.Market; OrderType.Limit; OrderType.Stop; OrderType.StopLimit;
    OrderType.MarketOnClose; OrderType.WithOrWithout; OrderType.LimitOrBetter; OrderType.LimitWithOrWithout;
    OrderType.OnBasis] /\
  NoDup [TimeInForce.Day; TimeInForce.GoodTillCancel; TimeInForce.AtTheOpening; TimeInForce.ImmediateOrCancel;
    TimeInForce.FillOrKill; TimeInForce.GoodTillCrossing; TimeInForce.GoodTillDate] /\
  NoDup [OrderStatus.New; OrderStatus.PartiallyFilled; OrderStatus.Filled; OrderStatus.DoneForDay;
    OrderStatus.Canceled; OrderStatus.Replaced; OrderStatus.PendingCancel; OrderStatus.Stopped;
    OrderStatus.Rejected; OrderStatus.Suspended; OrderStatus.PendingNew; OrderStatus.Calculated;
    OrderStatus.Expired; OrderStatus.AcceptedForBidding; OrderStatus.PendingReplace] /\
  NoDup [ExecType.New; ExecType.PartialFill; ExecType.Fill; ExecType.DoneForDay;
    ExecType.Canceled; ExecType.Replace; ExecType.PendingCancel; ExecType.Stopped;
    ExecType.Rejected; ExecType.Suspended; ExecType.PendingNew; ExecType.Calculated;
    ExecType.Expired; ExecType.Restated; ExecType.PendingReplace].
Proof. repeat split; refine (bool_decide_unpack _ _); by vm_compute. Qed.
