(* ===== verification/Doubles.v ===== *)
(** IEEE-754 [double]s and their decimal printing.

    A [double] is the Standard Library's [spec_float] at precision 53 and maximal
    exponent 1024, with the correctly rounded operations of that library
    (round to nearest, ties to even: the C++ default mode).  On it: conversion
    from integers, the comparisons as C++ writes them ([<] and [>=] are false on
    a NaN; [std::min] and [std::max] return their first argument unless the
    second is strictly better) with the order they compute, and the output of
    [printf("%.*f")] with its exactness. *)
From Stdlib Require Export SpecFloat.
From S2P Require Import Prelude FixFields.

Definition double := spec_float.

#[export] Instance double_eq_dec : EqDecision double.
Proof. solve_decision. Defined.

(** * Arithmetic *)

Definition dadd : double -> double -> double := SFadd 53 1024.
Definition dsub : double -> double -> double := SFsub 53 1024.
Definition dmul : double -> double -> double := SFmul 53 1024.
Definition ddiv : double -> double -> double := SFdiv 53 1024.
Definition dsqrt : double -> double := SFsqrt 53 1024.
(** [static_cast<double>(n)] of an integer type. *)
Definition d_of_Z (n : Z) : double := binary_normalize 53 1024 n 0 false.
Definition d_zero : double := S754_zero false.
(** [std::numeric_limits<double>::max()] *)
Definition d_max : double := S754_finite false 9007199254740991 971.
Definition isnan (x : double) : bool :=
  match x with S754_nan => true | _ => false end.
Definition isinf (x : double) : bool :=
  match x with S754_infinity _ => true | _ => false end.

(** [std::abs] *)
Definition dabs : double -> double := SFabs.

(** [a < b], [a >= b] *)
Definition dlt (a b : double) : bool := SFltb a b.
Definition dge (a b : double) : bool := SFleb b a.
(** [std::min(a, b)] is [(b < a) ? b : a]; [std::max(a, b)] is
    [(a < b) ? b : a]. *)
Definition dmin (a b : double) : double := if dlt b a then b else a.
Definition dmax (a b : double) : double := if dlt a b then b else a.

(** [static_cast<uint64_t>] of a double truncates; a NaN or a value outside the
    type is undefined behaviour ([None]). *)
Definition d_trunc (x : double) : option Z :=
  match x with
  | S754_zero _ => Some 0
  | S754_finite s m e =>
      let v := if 0 <=? e then Z.pos m * 2 ^ e else Z.pos m / 2 ^ (- e) in
      Some (if s then - v else v)
  | _ => None
  end.
Definition u64_of_double (x : double) : option Z :=
  v ← d_trunc x; if (0 <=? v) && (v <? 18446744073709551616) then Some v else None.

(** * [printf("%.*f")] *)

(** The integer nearest to [num / den], ties to even. *)
Definition round_half_even (num den : Z) : Z :=
  let q := num / den in
  let r := num mod den in
  if 2 * r <? den then q
  else if den <? 2 * r then q + 1
  else if Z.even q then q else q + 1.

(** A double's magnitude scaled by [10 ^ p] as a fraction. *)
Definition scaled_num (m : positive) (e : Z) (p : nat) : Z :=
  Z.pos m * 2 ^ Z.max e 0 * 10 ^ Z.of_nat p.
Definition scaled_den (e : Z) : Z := 2 ^ Z.max (- e) 0.
Definition scaled (x : double) (p : nat) : Z :=
  match x with
  | S754_finite _ m e => round_half_even (scaled_num m e p) (scaled_den e)
  | _ => 0
  end.
Definition signbit (x : double) : bool :=
  match x with
  | S754_zero s | S754_infinity s | S754_finite s _ _ => s
  | S754_nan => false
  end.

(** A finite double has at most 309 integer digits; [p] more follow. *)
Definition print_digits (p : nat) (n : Z) : bytes :=
  let ds := dec_loop (310 + p) n [] in
  replicate (S p - length ds) 48 ++ ds.

Definition fraction (p : nat) (fp : bytes) : bytes :=
  match p with O => [] | _ => 46 :: fp end.

(** The text of a finite double with [p] decimals ([std::fixed] with
    [std::setprecision(p)] prints the same). *)
Definition print_fixed (p : nat) (x : double) : bytes :=
  let ds := print_digits p (scaled x p) in
  let k := (length ds - p)%nat in
  (if signbit x then [45] else []) ++ take k ds ++ fraction p (drop k ds).

(** * [std::ostream << double]

    The default format ([%g] with six significant digits): the digits [d] and the
    decimal exponent [x] of the value rounded to six significant digits, written
    with an exponent when [x < -4] or [x >= 6], trailing zeros removed. *)
Definition num_digits (n : Z) : Z := Z.of_nat (length (dec_loop 700 n [])).
(** The largest [k] with [10 ^ k <= num / den]. *)
Definition floor_log10 (num den : Z) : Z :=
  let k := num_digits num - num_digits den in
  if 10 ^ Z.max k 0 * den <=? num * 10 ^ Z.max (- k) 0 then k else k - 1.
Definition significant (num den : Z) : Z * Z :=
  let x := floor_log10 num den in
  let d := round_half_even (num * 10 ^ Z.max (5 - x) 0) (den * 10 ^ Z.max (x - 5) 0) in
  if d =? 1000000 then (100000, x + 1) else (d, x).

Fixpoint strip_zeros (rev_digits : bytes) : bytes :=
  match rev_digits with
  | c :: s => if c =? 48 then strip_zeros s else rev_digits
  | [] => []
  end.
(** [ip.fp] without trailing zeros, and without a bare point. *)
Definition join_point (ip fp : bytes) : bytes :=
  match strip_zeros (rev fp) with [] => ip | r => ip ++ 46 :: rev r end.
(** At least two exponent digits. *)
Definition print_exponent (x : Z) : bytes :=
  101 :: (if x <? 0 then 45 else 43) ::
  (let ds := dec_loop 4 (Z.abs x) [] in replicate (2 - length ds) 48 ++ ds).

(** [nan_text] is what is printed for a NaN (it depends on the sign bit of the
    NaN, which is not represented). *)
Definition print_general (nan_text : bytes) (x : double) : bytes :=
  match x with
  | S754_finite s m e =>
      let '(d, ex) := significant (Z.pos m * 2 ^ Z.max e 0) (2 ^ Z.max (- e) 0) in
      let ds := dec_loop 6 d [] in
      (if s then [45] else []) ++
      (if (ex <? -4) || (6 <=? ex) then join_point (take 1 ds) (drop 1 ds) ++ print_exponent ex
       else if ex <? 0 then join_point [48] (replicate (Z.to_nat (- ex - 1)) 48 ++ ds)
       else join_point (take (Z.to_nat (ex + 1)) ds) (drop (Z.to_nat (ex + 1)) ds))
  | S754_zero s => (if s then [45] else []) ++ [48]
  | S754_infinity s => if s then str "-inf" else str "inf"
  | S754_nan => nan_text
  end.

Example print_general_samples :
  map (print_general [])
    [d_of_Z 100; d_of_Z 1234567; ddiv (d_of_Z 9999995) (d_of_Z 10); ddiv (d_of_Z 200) (d_of_Z 3);
     ddiv (d_of_Z (-1)) (d_of_Z 3000); ddiv (d_of_Z 1) (d_of_Z 30000); ddiv (d_of_Z 625) (d_of_Z 100)]
  = map str ["100"; "1.23457e+06"; "1e+06"; "66.6667"; "-0.000333333"; "3.33333e-05"; "6.25"]%string.
Proof. by vm_compute. Qed.

(** * Lemmas *)

(** ** The order

    Comparing two non-NaN doubles is comparing a triple: the sign class, the
    exponent, the mantissa. *)
Definition dkey (x : double) : Z * Z * Z :=
  match x with
  | S754_infinity true => (-2, 0, 0)
  | S754_finite true m e => (-1, - e, - Z.pos m)
  | S754_zero _ | S754_nan => (0, 0, 0)
  | S754_finite false m e => (1, e, Z.pos m)
  | S754_infinity false => (2, 0, 0)
  end.
Definition key_lt (a b : Z * Z * Z) : Prop :=
  let '(a1, a2, a3) := a in let '(b1, b2, b3) := b in
  a1 < b1 \/ (a1 = b1 /\ (a2 < b2 \/ (a2 = b2 /\ a3 < b3))).

(** [a <= b] on ordered doubles: [b < a] does not hold. *)
Definition dle (a b : double) : Prop := dlt b a = false.

Lemma dlt_key a b :
  isnan a = false -> isnan b = false -> dlt a b = true <-> key_lt (dkey a) (dkey b).
Proof.
  unfold dlt, SFltb, SFcompare, key_lt, dkey.
  destruct a as [[]|[]| |[] m1 e1], b as [[]|[]| |[] m2 e2]; simpl; intros; try done;
    try (split; (done || lia || (intros; exfalso; lia))).
  all: destruct (Z.compare_spec e1 e2); subst; try (split; (done || lia)).
  all: change (Pos.compare_cont Eq m1 m2) with (Pos.compare m1 m2);
    destruct (Pos.compare_spec m1 m2); subst; simpl; split; (done || lia).
Qed.

Lemma dle_key a b :
  isnan a = false -> isnan b = false -> dle a b <-> ~ key_lt (dkey b) (dkey a).
Proof.
  intros Ha Hb. unfold dle. rewrite <- (dlt_key b a) by done.
  by destruct (dlt b a); split.
Qed.

(** [<] is irreflexive, and [dle] is a total preorder on the ordered doubles. *)
Lemma dle_refl a : dle a a.
Proof.
  unfold dle. destruct (isnan a) eqn:E; [by destruct a|].
  destruct (dlt a a) eqn:H; [|done]. apply dlt_key in H; [|done..].
  destruct (dkey a) as [[? ?] ?]. simpl in H. lia.
Qed.

Lemma dle_trans a b c :
  isnan a = false -> isnan b = false -> isnan c = false -> dle a b -> dle b c -> dle a c.
Proof.
  intros Ha Hb Hc. rewrite !dle_key by done.
  destruct (dkey a) as [[? ?] ?], (dkey b) as [[? ?] ?], (dkey c) as [[? ?] ?].
  simpl. lia.
Qed.

Lemma dlt_le a b : isnan a = false -> isnan b = false -> dlt a b = true -> dle a b.
Proof.
  intros Ha Hb. rewrite dlt_key, dle_key by done.
  destruct (dkey a) as [[? ?] ?], (dkey b) as [[? ?] ?]. simpl. lia.
Qed.

(** A comparison with a NaN is false, so [std::min] and [std::max] keep their
    first argument. *)
Lemma dlt_nan_l b : dlt S754_nan b = false.
Proof. done. Qed.
Lemma dlt_nan_r a : dlt a S754_nan = false.
Proof. by destruct a. Qed.

Lemma dmin_spec a b :
  isnan a = false -> isnan b = false ->
  dle (dmin a b) a /\ dle (dmin a b) b /\ (dmin a b = a \/ dmin a b = b).
Proof.
  intros Ha Hb. unfold dmin. destruct (dlt b a) eqn:E.
  - split_and!; [by apply dlt_le|apply dle_refl|by right].
  - split_and!; [apply dle_refl|done|by left].
Qed.

Lemma dmax_spec a b :
  isnan a = false -> isnan b = false ->
  dle a (dmax a b) /\ dle b (dmax a b) /\ (dmax a b = a \/ dmax a b = b).
Proof.
  intros Ha Hb. unfold dmax. destruct (dlt a b) eqn:E.
  - split_and!; [by apply dlt_le|apply dle_refl|by right].
  - split_and!; [apply dle_refl|done|by left].
Qed.

(** Clamping to [[lo, hi]]: [std::max(lo, std::min(hi, x))] stays between the
    bounds whatever [x] is, a NaN included. *)
Lemma dclamp_spec lo hi x :
  isnan lo = false -> isnan hi = false -> dle lo hi ->
  let y := dmax lo (dmin hi x) in isnan y = false /\ dle lo y /\ dle y hi.
Proof.
  intros Hlo Hhi Hle y.
  assert (isnan (dmin hi x) = false /\ dle (dmin hi x) hi) as [Hn Hm].
  { unfold dmin. destruct (dlt x hi) eqn:E; [|by split; [|apply dle_refl]].
    destruct (isnan x) eqn:Hx; [by destruct x; discriminate|]. by split; [|apply dlt_le]. }
  destruct (dmax_spec lo (dmin hi x) Hlo Hn) as (H1 & H2 & H3). subst y.
  split_and!; [by destruct H3 as [->| ->]|done|]. by destruct H3 as [->| ->].
Qed.

(** ** Printing *)

Lemma round_half_even_nearest num den :
  0 < den -> 2 * Z.abs (round_half_even num den * den - num) <= den.
Proof.
  intros Hd. unfold round_half_even.
  pose proof (Z.div_mod num den ltac:(lia)) as E.
  pose proof (Z.mod_pos_bound num den Hd) as B.
  set (q := num / den) in *. set (r := num mod den) in *.
  destruct (Z.ltb_spec (2 * r) den); [|destruct (Z.ltb_spec den (2 * r)); [|destruct (Z.even q)]];
    lia.
Qed.

(** On a tie the even neighbour is taken. *)
Lemma round_half_even_tie num den q :
  0 < den -> 2 * num = (2 * q + 1) * den -> Z.even (round_half_even num den) = true.
Proof.
  intros Hd H. unfold round_half_even.
  assert (num / den = q) as E.
  { symmetry. apply (Z.div_unique num den q (num - den * q)); [left|]; lia. }
  pose proof (Z.div_mod num den ltac:(lia)) as E'. rewrite E in *.
  assert (2 * (num mod den) = den) as -> by lia.
  rewrite Z.ltb_irrefl. destruct (Z.even q) eqn:Q; [done|].
  rewrite Z.even_add, Q. done.
Qed.

Lemma round_half_even_nonneg num den : 0 <= num -> 0 < den -> 0 <= round_half_even num den.
Proof.
  intros Hn Hd. unfold round_half_even. pose proof (Z.div_pos num den Hn Hd).
  repeat case_goal; lia.
Qed.

Lemma scaled_den_pos e : 0 < scaled_den e.
Proof. unfold scaled_den. apply Z.pow_pos_nonneg; lia. Qed.

Lemma scaled_num_pos m e p : 0 < scaled_num m e p.
Proof.
  unfold scaled_num. repeat apply Z.mul_pos_pos; [lia|apply Z.pow_pos_nonneg; lia..].
Qed.

Lemma scaled_nonneg x p : 0 <= scaled x p.
Proof.
  destruct x as [| | |s m e]; simpl; try lia.
  apply round_half_even_nonneg; [|apply scaled_den_pos].
  pose proof (scaled_num_pos m e p). lia.
Qed.

(** The digits never run out of fuel: a valid double is below [2 ^ 1024]. *)
Definition valid (x : double) : Prop :=
  match x with
  | S754_finite _ m e => Z.pos m < 2 ^ 53 /\ e <= 971
  | _ => True
  end.

Lemma digits2_pos_bound m : Z.pos m < 2 ^ Z.pos (digits2_pos m).
Proof.
  induction m as [m IH|m IH|]; cbn [digits2_pos]; [| |done];
    rewrite Pos2Z.inj_succ, Z.pow_succ_r by lia; lia.
Qed.

(** Every canonical double is. *)
Lemma valid_binary_valid x : valid_binary 53 1024 x = true -> valid x.
Proof.
  destruct x as [| | |s m e]; simpl; try done. unfold bounded, canonical_mantissa.
  rewrite andb_true_iff, Z.leb_le. intros [H1 H2].
  apply Zeq_bool_eq in H1. unfold fexp, emin in H1.
  pose proof (digits2_pos_bound m).
  assert (2 ^ Z.pos (digits2_pos m) <= 2 ^ 53) by (apply Z.pow_le_mono_r; lia). lia.
Qed.

Lemma scaled_bound x p : valid x -> scaled x p < 10 ^ Z.of_nat (310 + p).
Proof.
  rewrite Nat2Z.inj_add, Z.pow_add_r by lia. change (Z.of_nat 310) with 310.
  assert (0 < 10 ^ Z.of_nat p) by (apply Z.pow_pos_nonneg; lia).
  destruct x as [| | |s m e]; simpl; intros Hv; try nia.
  destruct Hv as [Hm He].
  pose proof (round_half_even_nearest (scaled_num m e p) (scaled_den e) (scaled_den_pos e)) as Hr.
  pose proof (scaled_num_pos m e p) as Hn. pose proof (scaled_den_pos e) as Hd.
  set (r := round_half_even _ _) in *.
  assert (scaled_num m e p < 2 ^ 53 * 2 ^ 971 * 10 ^ Z.of_nat p) as Hb.
  { unfold scaled_num. apply Z.mul_lt_mono_pos_r; [done|].
    assert (0 < 2 ^ Z.max e 0 <= 2 ^ 971)
      by (split; [apply Z.pow_pos_nonneg; lia|apply Z.pow_le_mono_r; lia]).
    nia. }
  assert (2 ^ 53 * 2 ^ 971 + 1 < 10 ^ 310) as Hc by (vm_compute; reflexivity).
  assert (2 * r * scaled_den e <= 2 * scaled_num m e p + scaled_den e) by lia.
  assert (r <= scaled_num m e p + 1) by nia. nia.
Qed.

(** Reading a fixed-point text back: the sign, the digits as one integer, the
    number of decimals. *)
Definition read_sign (s : bytes) : bool * bytes :=
  match s with
  | c :: s' => if c =? 45 then (true, s') else (false, s)
  | [] => (false, s)
  end.
Definition read_fixed (s : bytes) : option (bool * Z * nat) :=
  let '(neg, s) := read_sign s in
  let '(ip, fp) := match index_of 46 s with
                   | Some i => (take i s, drop (S i) s)
                   | None => (s, [])
                   end in
  if forallb is_digit (ip ++ fp) && negb (bool_decide (ip = []))
  then Some (neg, dec_value (ip ++ fp), length fp) else None.

Lemma index_of_digits a b :
  Forall (fun c => is_digit c = true) a ->
  index_of 46 (a ++ 46 :: b) = Some (length a).
Proof.
  induction 1 as [|c a Hc Ha IH]; simpl; [done|].
  destruct (Z.eqb_spec c 46) as [->|]; [done|]. by rewrite IH.
Qed.

Lemma index_of_no_dot a :
  Forall (fun c => is_digit c = true) a -> index_of 46 a = None.
Proof.
  induction 1 as [|c a Hc Ha IH]; simpl; [done|].
  destruct (Z.eqb_spec c 46) as [->|]; [done|]. by rewrite IH.
Qed.

Lemma digits_forallb a : Forall (fun c => is_digit c = true) a -> forallb is_digit a = true.
Proof. induction 1 as [|c a Hc _ IH]; simpl; [done|by rewrite Hc]. Qed.

Lemma read_sign_text (neg : bool) ip rest :
  Forall (fun c => is_digit c = true) ip -> ip <> [] ->
  read_sign ((if neg then [45] else []) ++ ip ++ rest) = (neg, ip ++ rest).
Proof.
  intros Hi Hne. destruct neg; [done|]. destruct ip as [|c ip]; [done|]. simpl.
  inversion Hi as [|? ? Hc _]; subst. by destruct (Z.eqb_spec c 45) as [->|].
Qed.

Lemma read_fixed_text (neg : bool) (ip fp : bytes) (p : nat) :
  Forall (fun c => is_digit c = true) (ip ++ fp) -> ip <> [] -> length fp = p ->
  read_fixed ((if neg then [45] else []) ++ ip ++ fraction p fp)
  = Some (neg, dec_value (ip ++ fp), p).
Proof.
  intros Hd Hne Hp. pose proof Hd as [Hi Hf]%Forall_app.
  unfold read_fixed. rewrite read_sign_text by done.
  assert (bool_decide (ip = []) = false) as Hb by (by apply bool_decide_eq_false).
  unfold fraction. destruct p as [|p].
  - apply nil_length_inv in Hp as ->. rewrite app_nil_r in *.
    rewrite index_of_no_dot by done. rewrite app_nil_r, digits_forallb, Hb by done. done.
  - rewrite index_of_digits, take_app_length by done.
    replace (drop (S (length ip)) (ip ++ 46 :: fp)) with fp.
    2:{ replace (S (length ip)) with (length ip + 1)%nat by lia.
        rewrite <- drop_drop, drop_app_length. done. }
    rewrite digits_forallb, Hb, Hp by done. done.
Qed.

Lemma print_digits_digits p n : Forall (fun c => is_digit c = true) (print_digits p n).
Proof.
  apply Forall_app. split; [|apply dec_loop_digits].
  apply Forall_replicate. done.
Qed.

Lemma print_digits_length p n k :
  0 <= n < 10 ^ Z.of_nat k -> (S p <= k)%nat -> (S p <= length (print_digits p n) <= k)%nat.
Proof.
  intros Hn Hk. unfold print_digits. rewrite length_app, length_replicate.
  pose proof (dec_loop_length (310 + p) n k Hn). lia.
Qed.

Lemma dec_value_zeros k ds : dec_value (replicate k 48 ++ ds) = dec_value ds.
Proof. induction k as [|k IH]; [done|]. by simpl. Qed.

Lemma print_digits_value p n :
  0 <= n < 10 ^ Z.of_nat (310 + p) -> dec_value (print_digits p n) = n.
Proof. intros H. unfold print_digits. by rewrite dec_value_zeros, dec_loop_value. Qed.

(** The text of a double is its rounded decimal value. *)
Lemma print_fixed_read p x :
  valid x -> read_fixed (print_fixed p x) = Some (signbit x, scaled x p, p).
Proof.
  intros Hv. unfold print_fixed. set (ds := print_digits p (scaled x p)).
  pose proof (scaled_bound x p Hv) as Hb. pose proof (scaled_nonneg x p) as H0.
  assert (S p <= length ds)%nat as Hl
    by (apply (print_digits_length p (scaled x p) (310 + p)); lia).
  rewrite read_fixed_text.
  - rewrite take_drop. subst ds. by rewrite print_digits_value by lia.
  - rewrite take_drop. apply print_digits_digits.
  - intros E. apply (f_equal length) in E. rewrite length_take in E. simpl in E. lia.
  - rewrite length_drop. lia.
Qed.

(** How long the text is. *)
Lemma fraction_length p fp :
  (length fp = p -> length fp <= length (fraction p fp) <= 1 + p)%nat.
Proof. destruct p; simpl; lia. Qed.

Lemma print_fixed_length p x k :
  scaled x p < 10 ^ Z.of_nat k -> (S p <= k)%nat -> (length (print_fixed p x) <= k + 2)%nat.
Proof.
  intros Hb Hk. unfold print_fixed.
  pose proof (print_digits_length p (scaled x p) k) as Hl.
  pose proof (scaled_nonneg x p).
  set (ds := print_digits p (scaled x p)) in *.
  rewrite !length_app, length_take.
  pose proof (fraction_length p (drop (length ds - p) ds)) as Hf. rewrite length_drop in Hf.
  destruct (signbit x); simpl; lia.
Qed.

Lemma dec_value_bound ds :
  Forall (fun c => is_digit c = true) ds -> 0 <= dec_value ds < 10 ^ Z.of_nat (length ds).
Proof.
  induction ds as [|c ds IH] using rev_ind; intros H; [done|].
  apply Forall_app in H as [Hd Hc]. inversion Hc as [|? ? Hc' _]; subst.
  apply is_digit_spec in Hc'. specialize (IH Hd).
  rewrite dec_value_app_digit, length_app, Nat.add_1_r, pow10_succ. lia.
Qed.

Lemma print_fixed_long p x k :
  valid x -> 10 ^ Z.of_nat k <= scaled x p -> (k < length (print_fixed p x))%nat.
Proof.
  intros Hv Hb. unfold print_fixed.
  pose proof (print_digits_value p (scaled x p)) as Hval.
  pose proof (dec_value_bound _ (print_digits_digits p (scaled x p))) as Hd.
  pose proof (scaled_bound x p Hv). pose proof (scaled_nonneg x p).
  rewrite Hval in Hd by lia.
  set (ds := print_digits p (scaled x p)) in *.
  assert (k < length ds)%nat as Hk.
  { apply Nat2Z.inj_lt, (Z.pow_lt_mono_r_iff 10); lia. }
  assert (S p <= length ds)%nat
    by (apply (print_digits_length p (scaled x p) (310 + p)); lia).
  rewrite !length_app, length_take.
  pose proof (fraction_length p (drop (length ds - p) ds)) as Hf. rewrite length_drop in Hf.
  lia.
Qed.

(** [n] is a nearest integer to [|x| * 10 ^ p]. *)
Definition nearest (x : double) (p : nat) (n : Z) : Prop :=
  match x with
  | S754_finite _ m e => 2 * Z.abs (n * scaled_den e - scaled_num m e p) <= scaled_den e
  | _ => n = 0
  end.

Lemma scaled_nearest x p : nearest x p (scaled x p).
Proof. destruct x; simpl; try done. apply round_half_even_nearest, scaled_den_pos. Qed.
