(* ===== verification/FastConversion.v ===== *)
(** [FastStringConversion] ([include/utils/fast_string_conversion.h],
    [src/utils/fast_string_conversion.cpp]) at the level of its thread-local
    buffers: every conversion writes its text into a buffer of fixed size and
    returns a view of it, valid until the next conversion of the same kind.  The
    integer texts are those of [FixFields] (whose functions the message classes
    call); here is the digit loop that moves a pointer down the buffer, with an
    access outside it as an error, and the conversions of doubles. *)
From S2P Require Import Prelude FixFields Doubles.

Definition INT_BUFFER_SIZE : nat := 32.
Definition DOUBLE_BUFFER_SIZE : nat := 64.

(** The thread-local buffers of one thread. *)
Record conv_state := mkConv { int_buffer_ : bytes; double_buffer_ : bytes }.

Definition conv_wf (st : conv_state) : Prop :=
  length (int_buffer_ st) = INT_BUFFER_SIZE /\
  length (double_buffer_ st) = DOUBLE_BUFFER_SIZE.

(** A [std::string_view]: a string literal or a window of one of the buffers. *)
Inductive view :=
| Literal (s : bytes)
| IntWindow (start len : nat)
| DoubleWindow (start len : nat).

(** What a view shows when the buffers hold [st]. *)
Definition read_view (st : conv_state) (v : view) : bytes :=
  match v with
  | Literal s => s
  | IntWindow start len => take len (drop start (int_buffer_ st))
  | DoubleWindow start len => take len (drop start (double_buffer_ st))
  end.

(** [*--start = c]: [None] when the pointer would leave the buffer. *)
Definition push_char (c : Z) (bs : bytes * nat) : option (bytes * nat) :=
  match snd bs with
  | O => None
  | S s => Some (<[s := c]> (fst bs), s)
  end.

(** [while (value > 0) { *--start = '0' + value % 10; value /= 10; }] *)
Fixpoint digit_loop (fuel : nat) (value : Z) (bs : bytes * nat) : option (bytes * nat) :=
  if value <=? 0 then Some bs
  else match fuel with
  | O => None
  | S f => bs' ← push_char (48 + value mod 10) bs; digit_loop f (value / 10) bs'
  end.

(** [snprintf(buffer, size, ...)] of [text]: at most [size - 1] characters and a
    terminator are stored; the returned length is that of the whole text. *)
Definition snprintf (buf text : bytes) : bytes * nat :=
  let kept := take (length buf - 1) text in
  (kept ++ 0 :: drop (length kept + 1) buf, length text).

(** [integer_to_string_internal<T>] on the buffer; the fuel is the buffer size,
    past which the pointer has left it. *)
Definition integer_to_buffer (lo : option Z) (value : Z) (buf : bytes) :
    option ((nat * nat) * bytes) :=
  let e := (length buf - 1)%nat in
  if value =? 0 then
    '(buf, start) ← push_char 48 (buf, e); Some ((start, 1%nat), buf)
  else
    let negative := match lo with Some _ => value <? 0 | None => false end in
    if negative && bool_decide (Some value = lo) then
      let '(buf, len) := snprintf buf (to_string value) in Some ((O, len), buf)
    else
      bs ← digit_loop (length buf) (if negative then - value else value) (buf, e);
      '(buf, start) ← (if negative then push_char 45 bs else Some bs);
      Some ((start, (e - start)%nat), buf).

Definition with_int_buffer (r : option ((nat * nat) * bytes)) (st : conv_state) :
    option (view * conv_state) :=
  '((start, len), buf) ← r; Some (IntWindow start len, mkConv buf (double_buffer_ st)).

(** [int_to_string], [long_to_string], [uint_to_string] *)
Definition int_to_view (value : Z) (st : conv_state) : option (view * conv_state) :=
  with_int_buffer (integer_to_buffer (Some (-2147483648)) value (int_buffer_ st)) st.
Definition long_to_view (value : Z) (st : conv_state) : option (view * conv_state) :=
  with_int_buffer (integer_to_buffer (Some (-9223372036854775808)) value (int_buffer_ st)) st.
Definition uint_to_view (value : Z) (st : conv_state) : option (view * conv_state) :=
  with_int_buffer (integer_to_buffer None value (int_buffer_ st)) st.

(** [double_to_string] *)
Definition double_to_view (value : double) (precision : Z) (st : conv_state) :
    view * conv_state :=
  if isnan value then (Literal (str "NaN"), st)
  else if isinf value then
    (Literal (if dlt value d_zero then str "-inf" else str "inf"), st)
  else
    let precision := Z.max 0 (Z.min precision 9) in
    let '(buf, len) := snprintf (double_buffer_ st) (print_fixed (Z.to_nat precision) value) in
    let st := mkConv (int_buffer_ st) buf in
    if (DOUBLE_BUFFER_SIZE <=? len)%nat then (Literal (str "0.00"), st)
    else (DoubleWindow 0 len, st).

(** [double_to_string_auto] *)
Definition auto_precision (abs_value : double) : Z :=
  if dge abs_value (d_of_Z 1000000) then 0
  else if dge abs_value (d_of_Z 1000) then 2
  else if dge abs_value (d_of_Z 1) then 4
  else 6.
Definition double_to_view_auto (value : double) (st : conv_state) : view * conv_state :=
  if isnan value then (Literal (str "NaN"), st)
  else if isinf value then
    (Literal (if dlt value d_zero then str "-inf" else str "inf"), st)
  else double_to_view value (auto_precision (dabs value)) st.

(** [make_permanent(view)]: a copy of what the view shows now. *)
Definition make_permanent (st : conv_state) (v : view) : bytes := read_view st v.

(** [FastConversion::to_string(double, int)]: convert and copy at once. *)
Definition double_to_string (value : double) (precision : Z) (st : conv_state) :
    bytes * conv_state :=
  let '(v, st) := double_to_view value precision st in (make_permanent st v, st).

(** [FastConversion::to_string(int)], [(long)], [(unsigned int)] *)
Definition permanent (r : option (view * conv_state)) : option (bytes * conv_state) :=
  '(v, st) ← r; Some (make_permanent st v, st).
Definition to_string_int (value : Z) (st : conv_state) := permanent (int_to_view value st).
Definition to_string_long (value : Z) (st : conv_state) := permanent (long_to_view value st).
Definition to_string_uint (value : Z) (st : conv_state) := permanent (uint_to_view value st).

(** * Lemmas *)

Lemma push_char_app c (buf : bytes) s :
  (0 < s <= length buf)%nat ->
  push_char c (buf, s) =
    Some (take (s - 1) buf ++ [c] ++ drop s buf, (s - 1)%nat).
Proof.
  intros Hs. destruct s as [|s]; [lia|]. unfold push_char. simpl.
  rewrite Nat.sub_0_r, insert_take_drop by lia. done.
Qed.

(** The loop leaves the digits just below where it started and nothing else. *)
Lemma digit_loop_spec f v (buf : bytes) s k :
  0 <= v < 10 ^ Z.of_nat k -> (k <= f)%nat -> (k <= s <= length buf)%nat ->
  let ds := dec_loop f v [] in
  digit_loop f v (buf, s) =
    Some (take (s - length ds) buf ++ ds ++ drop s buf, (s - length ds)%nat).
Proof.
  revert v buf s k. induction f as [|f IH]; intros v buf s k Hv Hk Hs ds.
  { destruct k; [|lia]. simpl in Hv. assert (v = 0) as -> by lia. simpl.
    by rewrite Nat.sub_0_r, take_drop. }
  simpl digit_loop. subst ds. destruct (Z.leb_spec v 0).
  { rewrite dec_loop_nonpos by lia. simpl. by rewrite Nat.sub_0_r, take_drop. }
  destruct k as [|k]; [simpl in Hv; lia|].
  rewrite push_char_app by lia. cbn [mbind option_bind].
  rewrite (IH (v / 10) _ (s - 1)%nat k); [|apply div10_bound; lia|lia|].
  2:{ rewrite length_app, length_take. simpl. rewrite length_drop. lia. }
  rewrite dec_loop_step, length_app by done. simpl length.
  pose proof (dec_loop_length f (v / 10) k ltac:(apply div10_bound; lia)) as Hl.
  set (ds := dec_loop f (v / 10) []) in *.
  replace (s - 1 - length ds)%nat with (s - (length ds + 1))%nat by lia.
  do 2 f_equal. rewrite take_app_le, take_take by (rewrite length_take; lia).
  rewrite Nat.min_l by lia. f_equal. rewrite <- app_assoc. f_equal.
  rewrite drop_app_ge by (rewrite length_take; lia).
  by rewrite length_take, Nat.min_l, Nat.sub_diag by lia.
Qed.

Lemma snprintf_fits (buf text : bytes) :
  (length text < length buf)%nat ->
  snprintf buf text = (text ++ 0 :: drop (length text + 1) buf, length text).
Proof. intros H. unfold snprintf. by rewrite take_ge by lia. Qed.

Lemma snprintf_length buf text :
  buf <> [] -> length (fst (snprintf buf text)) = length buf.
Proof.
  intros Hne. unfold snprintf. simpl. rewrite length_app. simpl.
  rewrite length_drop, length_take. destruct buf; [done|]. simpl. lia.
Qed.

(** A window over a segment of a buffer shows the segment. *)
Lemma window_app {A} (a b c : list A) start len :
  length a = start -> length b = len -> take len (drop start (a ++ b ++ c)) = b.
Proof. intros <- <-. rewrite drop_app_length. by rewrite take_app_length. Qed.

Lemma to_string_long_length v : - 10 ^ 20 < v < 10 ^ 20 -> (length (to_string v) <= 21)%nat.
Proof.
  intros Hv. unfold to_string. destruct (Z.eqb_spec v 0); [simpl; lia|].
  destruct (Z.ltb_spec v 0).
  - pose proof (dec_loop_length 20 (- v) 20 ltac:(change (Z.of_nat 20) with 20; lia)).
    rewrite length_cons. lia.
  - pose proof (dec_loop_length 20 v 20 ltac:(change (Z.of_nat 20) with 20; lia)). lia.
Qed.

(** The result of a conversion on an integer buffer that shows [text]. *)
Definition shows (r : option ((nat * nat) * bytes)) (text : bytes) : Prop :=
  exists start len buf, r = Some ((start, len), buf) /\
    length buf = INT_BUFFER_SIZE /\ take len (drop start buf) = text.

(** Text written downwards from the end of the buffer. *)
Lemma shows_downwards (buf text : bytes) :
  length buf = INT_BUFFER_SIZE -> (length text <= 31)%nat ->
  shows (Some ((31 - length text, 31 - (31 - length text))%nat,
               take (31 - length text) buf ++ text ++ drop 31 buf)) text.
Proof.
  unfold INT_BUFFER_SIZE. intros Hb Hl. eexists _, _, _. split; [done|]. split.
  - rewrite !length_app, length_take, length_drop. unfold INT_BUFFER_SIZE. lia.
  - apply window_app; [rewrite length_take; lia|lia].
Qed.

(** The buffer routine refines the text function: it stays inside the buffer and
    its view shows the text. *)
Lemma integer_to_buffer_spec lo value (buf : bytes) :
  length buf = INT_BUFFER_SIZE -> - 10 ^ 20 < value < 10 ^ 20 ->
  (lo = None -> 0 <= value) ->
  shows (integer_to_buffer lo value buf) (to_string value).
Proof.
  intros Hb Hv Hlo. pose proof (to_string_long_length value Hv) as Hlen.
  pose proof (shows_downwards buf (to_string value) Hb ltac:(lia)) as Hdown.
  unfold INT_BUFFER_SIZE in Hb. unfold integer_to_buffer. rewrite Hb. change (32 - 1)%nat with 31%nat.
  destruct (Z.eqb_spec value 0) as [->|Hne]; [by rewrite push_char_app by lia|].
  set (neg := match lo with Some _ => value <? 0 | None => false end).
  assert (neg = (value <? 0)) as Hneg
    by (subst neg; destruct lo; [done|]; symmetry; apply Z.ltb_ge, Hlo; done).
  clearbody neg. subst neg.
  destruct (_ && bool_decide _).
  { rewrite snprintf_fits by lia. eexists _, _, _. split; [done|]. split.
    - rewrite length_app. simpl. rewrite length_drop. unfold INT_BUFFER_SIZE. lia.
    - apply (window_app []); done. }
  assert (forall w, 0 <= w < 10 ^ 20 -> digit_loop 32 w (buf, 31%nat) =
    Some (take (31 - length (dec_loop 20 w [])) buf ++ dec_loop 20 w [] ++ drop 31 buf,
          (31 - length (dec_loop 20 w []))%nat)) as Hdl.
  { intros w Hw. rewrite (digit_loop_spec 32 w buf 31 20); [|by change (Z.of_nat 20) with 20|lia..].
    rewrite (dec_loop_fuel 20 32); [done|by change (Z.of_nat 20) with 20|lia]. }
  destruct (Z.ltb_spec value 0).
  - rewrite Hdl by lia. cbn [mbind option_bind].
    set (ds := dec_loop 20 (- value) []) in *.
    assert (length ds <= 20)%nat
      by (apply dec_loop_length; change (Z.of_nat 20) with 20; lia).
    rewrite push_char_app. 2:{ rewrite !length_app, length_take, length_drop. lia. }
    assert (to_string value = 45 :: ds) as E
      by (unfold to_string; rewrite (proj2 (Z.eqb_neq value 0)), (proj2 (Z.ltb_lt value 0)) by lia; done).
    rewrite E, length_cons in Hdown. rewrite E. cbn [mbind option_bind].
    replace (31 - length ds - 1)%nat with (31 - S (length ds))%nat by lia.
    rewrite take_app_le, take_take, Nat.min_l by (rewrite ?length_take; lia).
    rewrite drop_app_ge by (rewrite length_take; lia).
    rewrite length_take, Nat.min_l, Nat.sub_diag by lia. apply Hdown.
  - rewrite Hdl by lia. rewrite to_string_pos in * by lia. apply Hdown.
Qed.

(** A conversion that succeeds with a view of [text], leaving buffers of the
    right size and the other buffer alone. *)
Definition converts (r : option (view * conv_state)) (st : conv_state) (text : bytes) : Prop :=
  exists w st', r = Some (w, st') /\ conv_wf st' /\ read_view st' w = text /\
    double_buffer_ st' = double_buffer_ st.

Lemma with_int_buffer_converts r st text :
  conv_wf st -> shows r text -> converts (with_int_buffer r st) st text.
Proof.
  intros [_ Hd] (start & len & buf & -> & Hl & Ht).
  eexists _, _. split; [reflexivity|]. by split.
Qed.

Lemma double_to_view_finite value precision st :
  isnan value = false -> isinf value = false -> conv_wf st ->
  let text := print_fixed (Z.to_nat (Z.max 0 (Z.min precision 9))) value in
  let '(w, st') := double_to_view value precision st in
  conv_wf st' /\ int_buffer_ st' = int_buffer_ st /\
  read_view st' w = if (DOUBLE_BUFFER_SIZE <=? length text)%nat then str "0.00" else text.
Proof.
  intros Hn Hi [Hw1 Hw2] text. unfold double_to_view. rewrite Hn, Hi. fold text.
  destruct (snprintf (double_buffer_ st) text) as [buf len] eqn:E.
  assert (length buf = length (double_buffer_ st)) as Hl.
  { replace buf with (fst (snprintf (double_buffer_ st) text)) by (by rewrite E).
    apply snprintf_length. intros Hx. by rewrite Hx in Hw2. }
  assert (len = length text) as -> by (by unfold snprintf in E; simplify_eq).
  destruct (Nat.leb_spec DOUBLE_BUFFER_SIZE (length text)); simpl.
  - split_and!; [by split; [|simpl; congruence]|done|done].
  - split_and!; [by split; [|simpl; congruence]|done|].
    rewrite snprintf_fits in E by lia. simplify_eq. by apply take_app_length.
Qed.

(** The precision [double_to_string_auto] chooses never changes the clamp. *)
Lemma auto_precision_range x : 0 <= auto_precision x <= 6.
Proof. unfold auto_precision. repeat case_goal; lia. Qed.

(** * Properties *)

(** The hand-written conversions compute [std::to_string] on every value of
    their type, the most negative ones included: the digit loop stays inside the
    32-byte buffer, the view it returns shows the text, and [std::stoi] reads an
    [int] back. *)
Lemma int_to_string_equivalent v st :
  conv_wf st ->
  (int32_range v ->
     converts (int_to_view v st) st (to_string v) /\ int_to_string v = to_string v /\
     stoi (int_to_string v) = StoiOk v) /\
  (-9223372036854775808 <= v <= 9223372036854775807 ->
     converts (long_to_view v st) st (to_string v) /\ long_to_string v = to_string v) /\
  (0 <= v < 4294967296 ->
     converts (uint_to_view v st) st (to_string v) /\ uint_to_string v = to_string v).
Proof.
  intros Hw. pose proof Hw as [Hb _].
  assert (forall lo, - 10 ^ 20 < v < 10 ^ 20 -> (lo = None -> 0 <= v) ->
    converts (with_int_buffer (integer_to_buffer lo v (int_buffer_ st)) st) st (to_string v))
    as Hc by (intros; apply with_int_buffer_converts, integer_to_buffer_spec; done).
  split_and!; intros H.
  - unfold int32_range in H. rewrite int_to_string_to_string by done.
    split_and!; [by apply Hc; [lia|]|done|by apply stoi_to_string].
  - split; [apply Hc|apply integer_to_string_to_string]; done || lia.
  - split; [apply Hc|apply integer_to_string_to_string]; lia.
Qed.

(** C36: [double_to_string] rounds correctly.  For a finite double the text,
    read back, has the value's sign, as many decimals as the clamped precision
    asks for, and the integer of its digits is nearest to the scaled value,
    whenever that integer has at most 61 digits (so the text fits the 64-byte
    buffer); a value whose text does not fit (64 digits and more) is silently
    printed as [0.00]; NaN and the infinities have their literals. *)
Theorem double_to_string_exact value precision st :
  valid_binary 53 1024 value = true -> conv_wf st ->
  let text := fst (double_to_string value precision st) in
  let p := Z.to_nat (Z.max 0 (Z.min precision 9)) in
  conv_wf (snd (double_to_string value precision st)) /\
  match value with
  | S754_nan => text = str "NaN"
  | S754_infinity s => text = if s then str "-inf" else str "inf"
  | _ =>
      exists n, nearest value p n /\
        (n < 10 ^ 61 -> read_fixed text = Some (signbit value, n, p)) /\
        (10 ^ 63 <= n -> text = str "0.00")
  end.
Proof.
  intros Hv%valid_binary_valid Hw text p.
  unfold double_to_string in text |- *.
  pose proof (double_to_view_finite value precision st) as Hf.
  destruct (double_to_view value precision st) as [w st'] eqn:E. cbn [fst snd] in *.
  unfold make_permanent in text. fold p in Hf.
  destruct (isnan value) eqn:Hn; [destruct value; try done; injection E as <- <-; done|].
  destruct (isinf value) eqn:Hi; [destruct value as [|[]| |]; try done; injection E as <- <-; done|].
  destruct (Hf eq_refl eq_refl Hw) as (Hw' & _ & Ht). split; [done|]. fold text in Ht.
  assert (exists n, nearest value p n /\
        (n < 10 ^ 61 -> read_fixed text = Some (signbit value, n, p)) /\
        (10 ^ 63 <= n -> text = str "0.00")) as Hex; [|by destruct value].
  exists (scaled value p). split; [apply scaled_nearest|]. rewrite Ht. split; intros Hb.
  - pose proof (print_fixed_length p value 61 Hb ltac:(lia)).
    destruct (Nat.leb_spec DOUBLE_BUFFER_SIZE (length (print_fixed p value)));
      [unfold DOUBLE_BUFFER_SIZE in *; lia|]. by apply print_fixed_read.
  - pose proof (print_fixed_long p value 63 Hv Hb).
    destruct (Nat.leb_spec DOUBLE_BUFFER_SIZE (length (print_fixed p value)));
      [done|unfold DOUBLE_BUFFER_SIZE in *; lia].
Qed.

(** The price 101.125 with two decimals: the tie goes to the even digit. *)
Lemma double_to_string_exact_witness :
  fst (double_to_string (ddiv (d_of_Z 809) (d_of_Z 8)) 2
         (mkConv (replicate 32 0) (replicate 64 0))) = str "101.12" /\
  conv_wf (snd (double_to_string (ddiv (d_of_Z 809) (d_of_Z 8)) 2
         (mkConv (replicate 32 0) (replicate 64 0)))).
Proof.
  split; [by vm_compute|].
  refine (proj1 (double_to_string_exact (ddiv (d_of_Z 809) (d_of_Z 8)) 2 _ _ _)); by vm_compute.
Defined.

(** A view is only valid until the next conversion: the first view then shows
    the second text. *)
Lemma view_overwritten :
  exists w1 st1 w2 st2,
    int_to_view 123 (mkConv (replicate 32 0) (replicate 64 0)) = Some (w1, st1) /\
    int_to_view 456 st1 = Some (w2, st2) /\
    read_view st1 w1 = str "123" /\ read_view st2 w1 = str "456".
Proof. eexists _, _, _, _. by vm_compute. Qed.
