(* ===== verification/LockFreeQueue.v ===== *)
(** [utils::LockFreeQueue<T>] of [include/utils/lockfree_queue.h]: the ring
    buffer with its head and tail indices, masks and counters, and the bounded
    first-in first-out queue it implements. *)
From S2P Require Import Prelude.

Section Queue.
Context {T : Type}.
(** The value-initialised element [T{}]. *)
Variable T0 : T.

(** The members of the class.  [messages_] is the array of [capacity_] slots. *)
Record LockFreeQueue := {
  head_ : Z;
  tail_ : Z;
  capacity_ : Z;
  mask_ : Z;
  messages_ : list T;
  push_count_ : Z;
  pop_count_ : Z;
  drop_count_ : Z;
  queue_name_ : bytes;
  is_shutdown_ : bool
}.

(** [nextPowerOfTwo], on a 64-bit [size_t]. *)
Definition nextPowerOfTwo (n : Z) : Z :=
  if n =? 0 then 1
  else
    let n := n - 1 in
    let n := Z.lor n (Z.shiftr n 1) in
    let n := Z.lor n (Z.shiftr n 2) in
    let n := Z.lor n (Z.shiftr n 4) in
    let n := Z.lor n (Z.shiftr n 8) in
    let n := Z.lor n (Z.shiftr n 16) in
    let n := Z.lor n (Z.shiftr n 32) in
    (n + 1) mod 2 ^ 64.

(** The constructor. *)
Definition newQueue (max_size : Z) (queue_name : bytes) : LockFreeQueue :=
  let capacity := nextPowerOfTwo max_size in
  {| head_ := 0; tail_ := 0; capacity_ := capacity; mask_ := capacity - 1;
     messages_ := replicate (Z.to_nat capacity) T0;
     push_count_ := 0; pop_count_ := 0; drop_count_ := 0;
     queue_name_ := queue_name; is_shutdown_ := false |}.

(** [push] *)
Definition push (message : T) (q : LockFreeQueue) : bool * LockFreeQueue :=
  if is_shutdown_ q then (false, q)
  else
    let current_tail := tail_ q in
    let next_tail := Z.land (current_tail + 1) (mask_ q) in
    if next_tail =? head_ q then
      (false,
       {| head_ := head_ q; tail_ := tail_ q; capacity_ := capacity_ q; mask_ := mask_ q;
          messages_ := messages_ q; push_count_ := push_count_ q; pop_count_ := pop_count_ q;
          drop_count_ := drop_count_ q + 1;
          queue_name_ := queue_name_ q; is_shutdown_ := is_shutdown_ q |})
    else
      (true,
       {| head_ := head_ q; tail_ := next_tail; capacity_ := capacity_ q; mask_ := mask_ q;
          messages_ := <[Z.to_nat current_tail := message]> (messages_ q);
          push_count_ := push_count_ q + 1; pop_count_ := pop_count_ q;
          drop_count_ := drop_count_ q;
          queue_name_ := queue_name_ q; is_shutdown_ := is_shutdown_ q |}).

(** [tryPop]: the result, the value stored in the out parameter, the queue. *)
Definition tryPop (q : LockFreeQueue) : bool * T * LockFreeQueue :=
  if is_shutdown_ q then (false, T0, q)
  else
    let current_head := head_ q in
    if current_head =? tail_ q then (false, T0, q)
    else
      (true, default T0 (messages_ q !! Z.to_nat current_head),
       {| head_ := Z.land (current_head + 1) (mask_ q); tail_ := tail_ q;
          capacity_ := capacity_ q; mask_ := mask_ q; messages_ := messages_ q;
          push_count_ := push_count_ q; pop_count_ := pop_count_ q + 1;
          drop_count_ := drop_count_ q;
          queue_name_ := queue_name_ q; is_shutdown_ := is_shutdown_ q |}).

(** [shutdown] *)
Definition shutdown (q : LockFreeQueue) : LockFreeQueue :=
  {| head_ := head_ q; tail_ := tail_ q; capacity_ := capacity_ q; mask_ := mask_ q;
     messages_ := messages_ q; push_count_ := push_count_ q; pop_count_ := pop_count_ q;
     drop_count_ := drop_count_ q; queue_name_ := queue_name_ q; is_shutdown_ := true |}.

(** [size] *)
Definition size (q : LockFreeQueue) : Z := Z.land (tail_ q - head_ q) (mask_ q).
(** [empty] *)
Definition empty (q : LockFreeQueue) : bool := head_ q =? tail_ q.

(** * The bounded queue it implements *)

(** Well-formed queues: the capacity is a power of two that fits [size_t], the
    mask is one less, the array has that many slots, the indices are in range. *)
Record wf (q : LockFreeQueue) : Prop := {
  wf_capacity : exists k, 0 <= k < 64 /\ capacity_ q = 2 ^ k;
  wf_mask : mask_ q = capacity_ q - 1;
  wf_length : Z.of_nat (length (messages_ q)) = capacity_ q;
  wf_head : 0 <= head_ q < capacity_ q;
  wf_tail : 0 <= tail_ q < capacity_ q
}.

(** The slot [i] places after the head. *)
Definition slot_at (q : LockFreeQueue) (i : nat) : T :=
  default T0 (messages_ q !! Z.to_nat ((head_ q + Z.of_nat i) mod capacity_ q)).

(** The queued elements, oldest first. *)
Definition contents (q : LockFreeQueue) : list T :=
  map (slot_at q) (seq 0 (Z.to_nat (size q))).

(** The abstract queue: its elements, how many it holds at most, whether it is
    shut down, and the three counters. *)
Record Spec := {
  sp_items : list T;
  sp_limit : Z;
  sp_closed : bool;
  sp_pushed : Z;
  sp_popped : Z;
  sp_dropped : Z
}.

Definition spec_push (x : T) (a : Spec) : bool * Spec :=
  if sp_closed a then (false, a)
  else if Z.of_nat (length (sp_items a)) <? sp_limit a then
    (true, {| sp_items := sp_items a ++ [x]; sp_limit := sp_limit a;
              sp_closed := sp_closed a; sp_pushed := sp_pushed a + 1;
              sp_popped := sp_popped a; sp_dropped := sp_dropped a |})
  else
    (false, {| sp_items := sp_items a; sp_limit := sp_limit a;
               sp_closed := sp_closed a; sp_pushed := sp_pushed a;
               sp_popped := sp_popped a; sp_dropped := sp_dropped a + 1 |}).

Definition spec_pop (a : Spec) : bool * T * Spec :=
  if sp_closed a then (false, T0, a)
  else match sp_items a with
       | [] => (false, T0, a)
       | x :: r =>
           (true, x, {| sp_items := r; sp_limit := sp_limit a;
                        sp_closed := sp_closed a; sp_pushed := sp_pushed a;
                        sp_popped := sp_popped a + 1; sp_dropped := sp_dropped a |})
       end.

Definition abs (q : LockFreeQueue) : Spec :=
  {| sp_items := contents q; sp_limit := capacity_ q - 1; sp_closed := is_shutdown_ q;
     sp_pushed := push_count_ q; sp_popped := pop_count_ q; sp_dropped := drop_count_ q |}.

(** Sequences of operations with their results. *)
Inductive op := OpPush (x : T) | OpPop | OpShutdown.
Inductive res := RPush (b : bool) | RPop (b : bool) (x : T) | RUnit.

Definition step_op (o : op) (q : LockFreeQueue) : res * LockFreeQueue :=
  match o with
  | OpPush x => let '(b, q') := push x q in (RPush b, q')
  | OpPop => let '(b, x, q') := tryPop q in (RPop b x, q')
  | OpShutdown => (RUnit, shutdown q)
  end.

Definition spec_op (o : op) (a : Spec) : res * Spec :=
  match o with
  | OpPush x => let '(b, a') := spec_push x a in (RPush b, a')
  | OpPop => let '(b, x, a') := spec_pop a in (RPop b x, a')
  | OpShutdown =>
      (RUnit, {| sp_items := sp_items a; sp_limit := sp_limit a; sp_closed := true;
                 sp_pushed := sp_pushed a; sp_popped := sp_popped a;
                 sp_dropped := sp_dropped a |})
  end.

Fixpoint run {S} (f : op -> S -> res * S) (os : list op) (s : S) : list res * S :=
  match os with
  | [] => ([], s)
  | o :: os' =>
      let '(r, s1) := f o s in
      let '(rs, s2) := run f os' s1 in (r :: rs, s2)
  end.

(** * Lemmas *)

Lemma land_mask_mod q z : wf q -> Z.land z (mask_ q) = z mod capacity_ q.
Proof.
  intros [(k & Hk & Hc) Hm _ _ _]. rewrite Hm, Hc.
  replace (2 ^ k - 1) with (Z.ones k) by (rewrite Z.ones_equiv; lia).
  apply Z.land_ones. lia.
Qed.

Lemma wf_capacity_pos q : wf q -> 0 < capacity_ q.
Proof. intros [(k & Hk & Hc) _ _ _ _]. rewrite Hc. apply Z.pow_pos_nonneg; lia. Qed.

Lemma size_mod q : wf q -> size q = (tail_ q - head_ q) mod capacity_ q.
Proof. apply land_mask_mod. Qed.

Lemma size_bounds q : wf q -> 0 <= size q < capacity_ q.
Proof.
  intros H. unfold size. rewrite land_mask_mod by done.
  apply Z.mod_pos_bound. by apply wf_capacity_pos.
Qed.

Lemma length_contents q : wf q -> Z.of_nat (length (contents q)) = size q.
Proof.
  intros H. unfold contents. rewrite length_map, length_seq.
  pose proof (size_bounds q H). lia.
Qed.

(** The index one past the last element is the tail. *)
Lemma head_size_tail q : wf q -> (head_ q + size q) mod capacity_ q = tail_ q.
Proof.
  intros H. unfold size. rewrite land_mask_mod by done.
  rewrite Zplus_mod_idemp_r. replace (head_ q + (tail_ q - head_ q)) with (tail_ q) by lia.
  apply Z.mod_small, H.
Qed.

Lemma offset_not_tail q i :
  wf q -> 0 <= i < size q -> (head_ q + i) mod capacity_ q <> tail_ q.
Proof.
  intros H Hi E. pose proof (size_bounds q H) as Hs. pose proof (wf_capacity_pos q H).
  rewrite <- (head_size_tail q H) in E.
  assert ((size q - i) mod capacity_ q = 0) as Hz.
  { replace (size q - i) with ((head_ q + size q) - (head_ q + i)) by lia.
    rewrite Zminus_mod, E, Z.sub_diag. by apply Z.mod_0_l; lia. }
  rewrite Z.mod_small in Hz; lia.
Qed.

Lemma full_iff q :
  wf q -> (Z.land (tail_ q + 1) (mask_ q) =? head_ q) = negb (size q <? capacity_ q - 1).
Proof.
  intros H. pose proof (wf_capacity_pos q H) as Hc. pose proof (size_bounds q H) as Hs.
  pose proof (head_size_tail q H) as Ht. rewrite land_mask_mod by done.
  apply eq_bool_prop_intro. rewrite Is_true_true, Is_true_true, Z.eqb_eq, negb_true_iff, Z.ltb_ge.
  pose proof (wf_head _ H). split; intros E.
  - unfold size. rewrite land_mask_mod by done.
    replace (tail_ q - head_ q) with ((tail_ q + 1) - (head_ q) - 1) by lia.
    rewrite <- (Zminus_mod_idemp_l (tail_ q + 1 - head_ q)).
    rewrite <- (Zminus_mod_idemp_l (tail_ q + 1)), E, Z.sub_diag, Z.mod_0_l by lia.
    replace (0 - 1) with (capacity_ q - 1 + (-1) * capacity_ q) by lia.
    rewrite Z_mod_plus_full, Z.mod_small; lia.
  - assert (size q = capacity_ q - 1) as Hsz by lia.
    rewrite <- Ht, Hsz, Zplus_mod_idemp_l.
    replace (head_ q + (capacity_ q - 1) + 1) with (head_ q + 1 * capacity_ q) by lia.
    rewrite Z_mod_plus_full. apply Z.mod_small, H.
Qed.

Lemma empty_iff q : wf q -> (head_ q =? tail_ q) = (size q =? 0).
Proof.
  intros H. pose proof (wf_capacity_pos q H). pose proof (head_size_tail q H) as Ht.
  apply eq_bool_prop_intro. rewrite !Is_true_true, !Z.eqb_eq. split; intros E.
  - unfold size. rewrite land_mask_mod, E, Z.sub_diag by done. apply Z.mod_0_l. lia.
  - rewrite E, Z.add_0_r, Z.mod_small in Ht; [done|apply H].
Qed.

Lemma contents_empty q : wf q -> size q = 0 -> contents q = [].
Proof. intros H E. unfold contents. by rewrite E. Qed.
(** What an accepted [push] leaves behind. *)
Lemma push_accepted x q q' :
  wf q -> push x q = (true, q') ->
  wf q' /\ size q' = size q + 1 /\ contents q' = contents q ++ [x] /\
  abs q' = snd (spec_push x (abs q)).
Proof.
  intros H Hp. pose proof (wf_capacity_pos q H) as Hc. pose proof (size_bounds q H) as Hs.
  unfold push in Hp. destruct (is_shutdown_ q) eqn:Hsd; [done|].
  rewrite (full_iff q H) in Hp.
  destruct (size q <? capacity_ q - 1) eqn:Hlt; simpl in Hp; [|done].
  injection Hp as <-. apply Z.ltb_lt in Hlt.
  set (q' := Build_LockFreeQueue _ _ _ _ _ _ _ _ _ _).
  assert (wf q') as Hw.
  { destruct H as [Hk Hm Hl Hh Ht]. split; simpl; try done.
    - by rewrite length_insert.
    - rewrite land_mask_mod by (by split). by apply Z.mod_pos_bound. }
  assert (size q' = size q + 1) as Hsz.
  { unfold size at 1. rewrite land_mask_mod by done. simpl.
    rewrite land_mask_mod, Zminus_mod_idemp_l by done.
    replace (tail_ q + 1 - head_ q) with (tail_ q - head_ q + 1) by lia.
    rewrite <- Zplus_mod_idemp_l, <- size_mod by done. apply Z.mod_small. lia. }
  assert (contents q' = contents q ++ [x]) as Hct.
  { unfold contents. rewrite Hsz.
    replace (Z.to_nat (size q + 1)) with (S (Z.to_nat (size q))) by lia.
    rewrite seq_S, map_app. simpl. f_equal.
    - apply map_ext_in. intros i Hi. apply in_seq in Hi. unfold slot_at. simpl.
      rewrite list_lookup_insert_ne; [done|]. intros E.
      apply (offset_not_tail q (Z.of_nat i) H); [lia|].
      pose proof (Z.mod_pos_bound (head_ q + Z.of_nat i) _ Hc). destruct H. lia.
    - unfold slot_at. simpl. rewrite Z2Nat.id by lia. rewrite head_size_tail by done.
      rewrite list_lookup_insert_eq; [done|]. destruct H. lia. }
  split_and!; try done.
  unfold spec_push. cbn [abs sp_closed sp_items sp_limit].
  rewrite Hsd, length_contents by done.
  destruct (Z.ltb_spec (size q) (capacity_ q - 1)); [|lia].
  simpl. unfold abs. by rewrite Hct.
Qed.

Lemma push_refused x q q' :
  wf q -> push x q = (false, q') ->
  wf q' /\ contents q' = contents q /\ spec_push x (abs q) = (false, abs q').
Proof.
  intros H Hp. unfold push in Hp. unfold spec_push, abs. simpl.
  destruct (is_shutdown_ q) eqn:Hsd.
  { injection Hp as <-. by rewrite ?Hsd. }
  rewrite (full_iff q H) in Hp. rewrite length_contents by done.
  destruct (size q <? capacity_ q - 1) eqn:Hlt; simpl in Hp; [done|].
  injection Hp as <-. split; [by destruct H|]. split; [done|]. by rewrite ?Hsd.
Qed.

Lemma pop_accepted x q q' :
  wf q -> tryPop q = (true, x, q') ->
  wf q' /\ size q' = size q - 1 /\ contents q = x :: contents q' /\
  spec_pop (abs q) = (true, x, abs q').
Proof.
  intros H Hp. pose proof (wf_capacity_pos q H) as Hc. pose proof (size_bounds q H) as Hs.
  unfold tryPop in Hp. destruct (is_shutdown_ q) eqn:Hsd; [done|].
  rewrite (empty_iff q H) in Hp.
  destruct (Z.eqb_spec (size q) 0) as [|Hne]; [done|]. injection Hp as <- <-.
  set (q' := Build_LockFreeQueue _ _ _ _ _ _ _ _ _ _).
  assert (wf q') as Hw.
  { destruct H as [Hk Hm Hl Hh Ht]. split; simpl; try done.
    rewrite land_mask_mod by (by split). by apply Z.mod_pos_bound. }
  assert (size q' = size q - 1) as Hsz.
  { unfold size at 1. rewrite land_mask_mod by done. simpl.
    rewrite land_mask_mod, Zminus_mod_idemp_r by done.
    replace (tail_ q - (head_ q + 1)) with (tail_ q - head_ q - 1) by lia.
    rewrite <- Zminus_mod_idemp_l, <- size_mod by done. apply Z.mod_small. lia. }
  assert (contents q = default T0 (messages_ q !! Z.to_nat (head_ q)) :: contents q') as Hct.
  { unfold contents. rewrite Hsz.
    replace (Z.to_nat (size q)) with (S (Z.to_nat (size q - 1))) by lia.
    cbn [seq map]. rewrite <- seq_shift, map_map. f_equal.
    - unfold slot_at. rewrite Z.add_0_r, Z.mod_small; [done|apply H].
    - apply map_ext. intros i. unfold slot_at. simpl. rewrite land_mask_mod by done.
      rewrite Zplus_mod_idemp_l. do 3 f_equal. f_equal. lia. }
  split_and!; try done.
  unfold spec_pop, abs. simpl. rewrite Hsd, Hct. done.
Qed.

Lemma pop_refused x q q' :
  wf q -> tryPop q = (false, x, q') -> q' = q /\ spec_pop (abs q) = (false, x, abs q).
Proof.
  intros H Hp. unfold tryPop in Hp. unfold spec_pop. simpl.
  destruct (is_shutdown_ q) eqn:Hsd; [by injection Hp as <- <-|].
  rewrite (empty_iff q H) in Hp. destruct (Z.eqb_spec (size q) 0); [|done].
  injection Hp as <- <-. by rewrite contents_empty.
Qed.

Lemma step_refines o q :
  wf q ->
  wf (snd (step_op o q)) /\
  spec_op o (abs q) = (fst (step_op o q), abs (snd (step_op o q))).
Proof.
  intros H. destruct o as [x| |]; simpl.
  - destruct (push x q) as [[] q'] eqn:E; simpl.
    + destruct (push_accepted _ _ _ H E) as (H1 & H2 & H3 & H4). split; [done|].
      rewrite H4. unfold push in E. unfold spec_push, abs. simpl.
      destruct (is_shutdown_ q) eqn:Hsd; [done|]. rewrite (full_iff q H) in E.
      rewrite length_contents by done.
      by destruct (size q <? capacity_ q - 1).
    + destruct (push_refused _ _ _ H E) as (H1 & _ & H3). by rewrite H3.
  - destruct (tryPop q) as [[[] x] q'] eqn:E; simpl.
    + destruct (pop_accepted _ _ _ H E) as (H1 & _ & _ & H3). by rewrite H3.
    + destruct (pop_refused _ _ _ H E) as [-> H3]. by rewrite H3.
  - split; [by destruct H|done].
Qed.

(** ** The power of two *)

(** [m] has bit [i] set exactly when [n] has one of the [w] bits from [i] up. *)
Definition smeared (n m w : Z) : Prop :=
  forall i, 0 <= i ->
  Z.testbit m i = true <-> exists j, 0 <= j < w /\ Z.testbit n (i + j) = true.

Lemma smeared_double n m w :
  0 < w -> smeared n m w -> smeared n (Z.lor m (Z.shiftr m w)) (2 * w).
Proof.
  intros Hw H i Hi. rewrite Z.lor_spec, Z.shiftr_spec, orb_true_iff by done.
  rewrite (H i), (H (i + w)) by lia. split.
  - intros [(j & Hj & E)|(j & Hj & E)]; [exists j; split; [lia|done]|].
    exists (w + j). split; [lia|]. by rewrite Z.add_assoc.
  - intros (j & Hj & E). destruct (Z.lt_ge_cases j w) as [|Hge].
    + left. exists j. split; [lia|done].
    + right. exists (j - w). split; [lia|]. by replace (i + w + (j - w)) with (i + j) by lia.
Qed.

Lemma smeared_init n : smeared n n 1.
Proof.
  intros i Hi. split.
  - intros E. exists 0. rewrite Z.add_0_r. split; [lia|done].
  - intros (j & Hj & E). by replace j with 0 in E by lia; rewrite Z.add_0_r in E.
Qed.

Lemma smeared_ones n m :
  0 < n < 2 ^ 64 -> 0 <= m -> smeared n m 64 -> m = Z.ones (Z.log2 n + 1).
Proof.
  intros Hn Hm H. assert (0 <= Z.log2 n < 64) as Hl.
  { split; [apply Z.log2_nonneg|]. apply Z.log2_lt_pow2; lia. }
  apply Z.bits_inj'. intros i Hi. apply eq_bool_prop_intro.
  rewrite !Is_true_true, (H i Hi).
  destruct (Z.lt_ge_cases i (Z.log2 n + 1)).
  - rewrite Z.ones_spec_low by lia. split; [done|]. intros _.
    exists (Z.log2 n - i). split; [lia|].
    replace (i + (Z.log2 n - i)) with (Z.log2 n) by lia. apply Z.bit_log2. lia.
  - rewrite Z.ones_spec_high by lia. split; [|done]. intros (j & Hj & E).
    by rewrite Z.bits_above_log2 in E by lia.
Qed.

Lemma lor_shiftr_nonneg z w : 0 <= z -> 0 <= Z.lor z (Z.shiftr z w).
Proof. intros H. apply Z.lor_nonneg. split; [done|]. by apply Z.shiftr_nonneg. Qed.

Lemma nextPowerOfTwo_log2 n :
  1 < n <= 2 ^ 63 -> nextPowerOfTwo n = 2 ^ (Z.log2 (n - 1) + 1).
Proof.
  intros Hn. unfold nextPowerOfTwo. destruct (Z.eqb_spec n 0); [lia|].
  set (m := Z.lor _ (Z.shiftr _ 32)).
  assert (smeared (n - 1) m 64) as Hm.
  { apply (smeared_double _ _ 32), (smeared_double _ _ 16), (smeared_double _ _ 8),
      (smeared_double _ _ 4), (smeared_double _ _ 2), (smeared_double _ _ 1); try lia.
    apply smeared_init. }
  assert (0 <= m) as Hm0.
  { unfold m. repeat (apply lor_shiftr_nonneg). lia. }
  clearbody m. assert (0 < n - 1 < 2 ^ 64) as Hn1.
  { split; [lia|]. apply Z.le_lt_trans with (2 ^ 63); [lia|done]. }
  rewrite (smeared_ones _ _ Hn1 Hm0 Hm), Z.ones_equiv.
  replace (Z.pred (2 ^ (Z.log2 (n - 1) + 1)) + 1) with (2 ^ (Z.log2 (n - 1) + 1)) by lia.
  apply Z.mod_small. split; [apply Z.pow_nonneg; lia|].
  apply Z.pow_lt_mono_r; [lia|lia|].
  assert (Z.log2 (n - 1) < 63) by (apply Z.log2_lt_pow2; lia). lia.
Qed.

Lemma nextPowerOfTwo_pow n :
  0 <= n <= 2 ^ 63 -> exists k, 0 <= k < 64 /\ nextPowerOfTwo n = 2 ^ k.
Proof.
  intros Hn. destruct (Z.le_gt_cases n 1).
  - exists 0. split; [lia|]. assert (n = 0 \/ n = 1) as [-> | ->] by lia; done.
  - exists (Z.log2 (n - 1) + 1). split; [|apply nextPowerOfTwo_log2; lia].
    assert (Z.log2 (n - 1) < 63) by (apply Z.log2_lt_pow2; lia).
    pose proof (Z.log2_nonneg (n - 1)). lia.
Qed.

Lemma newQueue_wf n name : 0 <= n <= 2 ^ 63 -> wf (newQueue n name).
Proof.
  intros Hn. destruct (nextPowerOfTwo_pow n Hn) as (k & Hk & E).
  assert (0 < 2 ^ k) by (apply Z.pow_pos_nonneg; lia).
  split; simpl; rewrite ?E, ?length_replicate; try lia. eauto.
Qed.

(** * Properties *)

(** C11: every sequence of [push], [tryPop] and [shutdown] on a well-formed queue
    returns exactly the results of the bounded first-in first-out queue with room
    for [capacity - 1] elements, ends in a well-formed queue whose contents and
    counters are those of the bounded queue, and never loses or reorders an
    element. *)
Theorem queue_refines_fifo os q :
  wf q ->
  wf (snd (run step_op os q)) /\
  run spec_op os (abs q) = (fst (run step_op os q), abs (snd (run step_op os q))).
Proof.
  revert q. induction os as [|o os IH]; intros q H; simpl; [done|].
  destruct (step_refines o q H) as [H1 H2].
  rewrite H2. destruct (step_op o q) as [r q1]; simpl in *.
  destruct (IH q1 H1) as [H3 H4]. rewrite H4.
  by destruct (run step_op os q1) as [rs q2].
Qed.

(** For every request up to [2^63] the constructor builds a well-formed empty
    queue whose capacity is the least power of two that is at least the request,
    so it holds one element less than that power. *)
Lemma constructor_capacity n name :
  0 < n <= 2 ^ 63 ->
  wf (newQueue n name) /\ contents (newQueue n name) = [] /\
  n <= capacity_ (newQueue n name) < 2 * n.
Proof.
  intros Hn. pose proof (newQueue_wf n name ltac:(lia)) as Hw.
  split; [done|]. split; [done|]. simpl.
  destruct (Z.eq_dec n 1) as [->|]; [by vm_compute|].
  rewrite nextPowerOfTwo_log2 by lia.
  pose proof (Z.log2_spec (n - 1) ltac:(lia)) as [H1 H2].
  rewrite <- Z.add_1_r in H2. rewrite Z.pow_add_r in * by (try apply Z.log2_nonneg; lia). lia.
Qed.
End Queue.
Arguments LockFreeQueue : clear implicits.
Arguments Spec : clear implicits.
Arguments op : clear implicits.
Arguments res : clear implicits.

(** A four-slot queue of numbers: three elements fit, the fourth push is refused,
    elements come out in order. *)
Lemma queue_refines_fifo_witness :
  let q := newQueue 0 4 [] in
  wf q /\
  run (spec_op 0) [OpPush 7; OpPush 8; OpPush 9; OpPush 5; OpPop; OpPop] (abs 0 q)
  = ([RPush true; RPush true; RPush true; RPush false; RPop true 7; RPop true 8],
     abs 0 (snd (run (step_op 0) [OpPush 7; OpPush 8; OpPush 9; OpPush 5; OpPop; OpPop] q))).
Proof.
  assert (wf (newQueue 0 4 [])) as H by (apply newQueue_wf; lia).
  split; [exact H|].
  exact (proj2 (queue_refines_fifo 0 [OpPush 7; OpPush 8; OpPush 9; OpPush 5; OpPop; OpPop]
                  (newQueue 0 4 []) H)).
Defined.

Lemma constructor_capacity_witness :
  1000 <= capacity_ (newQueue 0 1000 []) < 2000.
Proof. apply (constructor_capacity 0 1000 []). lia. Defined.
