(* ===== verification/QueueInterleaving.v ===== *)
(** Concurrent executions of [LockFreeQueue]: any number of producer threads
    inside [push] and one consumer thread inside [tryPop], interleaved at every
    access to the shared members.  The accesses are sequentially consistent here;
    with one producer and one consumer the release store and acquire load of the
    other side's index give the same outcomes. *)
From S2P Require Import Prelude LockFreeQueue.

Section Interleaving.
Context {T : Type}.
Variable T0 : T.
Abbreviation queue := (LockFreeQueue T).

(** Where a thread is inside [push(message)]: the next access it makes. *)
Inductive push_pc :=
  | PIdle
  | PLoadShutdown (x : T)
  | PLoadTail (x : T)
  | PLoadHead (x : T) (current_tail : Z)
  | PWrite (x : T) (current_tail next_tail : Z)
  | PStoreTail (x : T) (next_tail : Z)
  | PCountPush
  | PCountDrop.

(** Where the consumer is inside [tryPop]. *)
Inductive pop_pc :=
  | CIdle
  | CLoadShutdown
  | CLoadHead
  | CLoadTail (current_head : Z)
  | CRead (current_head : Z)
  | CStoreHead (current_head : Z) (x : T)
  | CCountPop.

Definition set_head (h : Z) (q : queue) : queue :=
  {| head_ := h; tail_ := tail_ q; capacity_ := capacity_ q; mask_ := mask_ q;
     messages_ := messages_ q; push_count_ := push_count_ q; pop_count_ := pop_count_ q;
     drop_count_ := drop_count_ q; queue_name_ := queue_name_ q;
     is_shutdown_ := is_shutdown_ q |}.
Definition set_tail (t : Z) (q : queue) : queue :=
  {| head_ := head_ q; tail_ := t; capacity_ := capacity_ q; mask_ := mask_ q;
     messages_ := messages_ q; push_count_ := push_count_ q; pop_count_ := pop_count_ q;
     drop_count_ := drop_count_ q; queue_name_ := queue_name_ q;
     is_shutdown_ := is_shutdown_ q |}.
Definition set_messages (ms : list T) (q : queue) : queue :=
  {| head_ := head_ q; tail_ := tail_ q; capacity_ := capacity_ q; mask_ := mask_ q;
     messages_ := ms; push_count_ := push_count_ q; pop_count_ := pop_count_ q;
     drop_count_ := drop_count_ q; queue_name_ := queue_name_ q;
     is_shutdown_ := is_shutdown_ q |}.
Definition add_counts (dpush dpop ddrop : Z) (q : queue) : queue :=
  {| head_ := head_ q; tail_ := tail_ q; capacity_ := capacity_ q; mask_ := mask_ q;
     messages_ := messages_ q; push_count_ := push_count_ q + dpush;
     pop_count_ := pop_count_ q + dpop; drop_count_ := drop_count_ q + ddrop;
     queue_name_ := queue_name_ q; is_shutdown_ := is_shutdown_ q |}.

(** One access of [push]: the next position, the shared queue, and the message
    when this access publishes it. *)
Definition push_access (p : push_pc) (q : queue) : push_pc * queue * list T :=
  match p with
  | PIdle => (PIdle, q, [])
  | PLoadShutdown x => (if is_shutdown_ q then PIdle else PLoadTail x, q, [])
  | PLoadTail x => (PLoadHead x (tail_ q), q, [])
  | PLoadHead x current_tail =>
      let next_tail := Z.land (current_tail + 1) (mask_ q) in
      (if next_tail =? head_ q then PCountDrop else PWrite x current_tail next_tail, q, [])
  | PWrite x current_tail next_tail =>
      (PStoreTail x next_tail,
       set_messages (<[Z.to_nat current_tail := x]> (messages_ q)) q, [])
  | PStoreTail x next_tail => (PCountPush, set_tail next_tail q, [x])
  | PCountPush => (PIdle, add_counts 1 0 0 q, [])
  | PCountDrop => (PIdle, add_counts 0 0 1 q, [])
  end.

(** One access of [tryPop], with the message when this access removes it. *)
Definition pop_access (p : pop_pc) (q : queue) : pop_pc * queue * list T :=
  match p with
  | CIdle => (CIdle, q, [])
  | CLoadShutdown => (if is_shutdown_ q then CIdle else CLoadHead, q, [])
  | CLoadHead => (CLoadTail (head_ q), q, [])
  | CLoadTail current_head =>
      (if current_head =? tail_ q then CIdle else CRead current_head, q, [])
  | CRead current_head =>
      (CStoreHead current_head (default T0 (messages_ q !! Z.to_nat current_head)), q, [])
  | CStoreHead current_head x =>
      (CCountPop, set_head (Z.land (current_head + 1) (mask_ q)) q, [x])
  | CCountPop => (CIdle, add_counts 0 1 0 q, [])
  end.

(** A configuration: the shared queue, the producers, the consumer, and the
    messages published and removed so far. *)
Record conf := {
  c_queue : queue;
  c_producers : list push_pc;
  c_consumer : pop_pc;
  c_accepted : list T;
  c_received : list T
}.

Inductive step : conf -> conf -> Prop :=
  | step_call_push c i x :
      c_producers c !! i = Some PIdle ->
      step c {| c_queue := c_queue c;
                c_producers := <[i := PLoadShutdown x]> (c_producers c);
                c_consumer := c_consumer c; c_accepted := c_accepted c;
                c_received := c_received c |}
  | step_push c i p p' q' out :
      c_producers c !! i = Some p ->
      push_access p (c_queue c) = (p', q', out) ->
      step c {| c_queue := q'; c_producers := <[i := p']> (c_producers c);
                c_consumer := c_consumer c; c_accepted := c_accepted c ++ out;
                c_received := c_received c |}
  | step_call_pop c :
      c_consumer c = CIdle ->
      step c {| c_queue := c_queue c; c_producers := c_producers c;
                c_consumer := CLoadShutdown; c_accepted := c_accepted c;
                c_received := c_received c |}
  | step_pop c p' q' out :
      pop_access (c_consumer c) (c_queue c) = (p', q', out) ->
      step c {| c_queue := q'; c_producers := c_producers c; c_consumer := p';
                c_accepted := c_accepted c; c_received := c_received c ++ out |}
  | step_shutdown c :
      step c {| c_queue := shutdown (c_queue c); c_producers := c_producers c;
                c_consumer := c_consumer c; c_accepted := c_accepted c;
                c_received := c_received c |}.

Definition steps : conf -> conf -> Prop := rtc step.

Definition initial (n : nat) (q : queue) : conf :=
  {| c_queue := q; c_producers := replicate n PIdle; c_consumer := CIdle;
     c_accepted := contents T0 q; c_received := [] |}.

(** * The invariant with one producer *)

Definition producer_ok (p : push_pc) (q : queue) : Prop :=
  match p with
  | PLoadHead _ t => t = tail_ q
  | PWrite _ t nt =>
      t = tail_ q /\ nt = Z.land (tail_ q + 1) (mask_ q) /\ size q < capacity_ q - 1
  | PStoreTail x nt =>
      nt = Z.land (tail_ q + 1) (mask_ q) /\ size q < capacity_ q - 1 /\
      messages_ q !! Z.to_nat (tail_ q) = Some x
  | _ => True
  end.

Definition consumer_ok (p : pop_pc) (q : queue) : Prop :=
  match p with
  | CLoadTail h => h = head_ q
  | CRead h => h = head_ q /\ 0 < size q
  | CStoreHead h x => h = head_ q /\ 0 < size q /\ slot_at T0 q 0 = x
  | _ => True
  end.

Record inv (c : conf) : Prop := {
  inv_wf : wf (c_queue c);
  inv_producers : exists p, c_producers c = [p] /\ producer_ok p (c_queue c);
  inv_consumer : consumer_ok (c_consumer c) (c_queue c);
  inv_fifo : c_accepted c = c_received c ++ contents T0 (c_queue c)
}.

(** Two queues that agree on the ring itself hold the same elements. *)
Definition same_ring (q q' : queue) : Prop :=
  head_ q = head_ q' /\ tail_ q = tail_ q' /\ capacity_ q = capacity_ q' /\
  mask_ q = mask_ q' /\ messages_ q = messages_ q'.

(** * Lemmas *)

#[export] Instance same_ring_equiv : Equivalence same_ring.
Proof.
  split.
  - by intros q.
  - intros q q' (H1 & H2 & H3 & H4 & H5). by split_and!.
  - intros q q' q'' (H1 & H2 & H3 & H4 & H5) (K1 & K2 & K3 & K4 & K5).
    split_and!; by etrans.
Qed.

Lemma same_ring_contents q q' : same_ring q q' -> contents T0 q = contents T0 q'.
Proof.
  intros (H1 & H2 & H3 & H4 & H5). unfold contents, size, slot_at.
  by rewrite H1, H2, H3, H4, H5.
Qed.

Lemma same_ring_wf q q' : same_ring q q' -> wf q -> wf q'.
Proof.
  intros (H1 & H2 & H3 & H4 & H5) [A B C D E].
  split; by rewrite <- ?H1, <- ?H2, <- ?H3, <- ?H4, <- ?H5.
Qed.

Lemma same_ring_size q q' : same_ring q q' -> size q = size q'.
Proof. intros (H1 & H2 & _ & H4 & _). unfold size. by rewrite H1, H2, H4. Qed.

Lemma same_ring_producer p q q' : same_ring q q' -> producer_ok p q -> producer_ok p q'.
Proof.
  intros H. pose proof (same_ring_size _ _ H) as Hs. destruct H as (H1 & H2 & H3 & H4 & H5).
  destruct p; simpl; rewrite ?Hs, ?H1, ?H2, ?H3, ?H4, ?H5; done.
Qed.

Lemma same_ring_consumer p q q' : same_ring q q' -> consumer_ok p q -> consumer_ok p q'.
Proof.
  intros H. pose proof (same_ring_size _ _ H) as Hs. destruct H as (H1 & H2 & H3 & H4 & H5).
  destruct p; simpl; unfold slot_at; rewrite ?Hs, ?H1, ?H2, ?H3, ?H4, ?H5; done.
Qed.

(** The queue as if it were open: [push] and [tryPop] then do not look at the flag. *)
Definition opened (q : queue) : queue :=
  {| head_ := head_ q; tail_ := tail_ q; capacity_ := capacity_ q; mask_ := mask_ q;
     messages_ := messages_ q; push_count_ := push_count_ q; pop_count_ := pop_count_ q;
     drop_count_ := drop_count_ q; queue_name_ := queue_name_ q; is_shutdown_ := false |}.

Lemma opened_wf q : wf q -> wf (opened q).
Proof. by apply same_ring_wf. Qed.

(** Publishing the message written at the tail appends it. *)
Lemma store_tail q x :
  wf q -> size q < capacity_ q - 1 -> messages_ q !! Z.to_nat (tail_ q) = Some x ->
  let q' := set_tail (Z.land (tail_ q + 1) (mask_ q)) q in
  wf q' /\ size q' = size q + 1 /\ contents T0 q' = contents T0 q ++ [x].
Proof.
  intros H Hs Hx q'.
  assert (exists q1, push x (opened q) = (true, q1) /\ same_ring q1 q') as (q1 & Hp & Hr).
  { unfold push. simpl. pose proof (full_iff (opened q) (opened_wf q H)) as Hf. simpl in Hf. rewrite Hf.
    replace (size (opened q)) with (size q) by done.
    destruct (Z.ltb_spec (size q) (capacity_ q - 1)); [|lia]. simpl. eexists. split; [done|].
    repeat split. simpl. by apply list_insert_id. }
  destruct (push_accepted T0 _ _ _ (opened_wf q H) Hp) as (W & S & C & _).
  rewrite <- (same_ring_contents _ _ Hr), <- (same_ring_size _ _ Hr), C, S.
  split_and!; [by eapply same_ring_wf|done|done].
Qed.

(** Writing the slot at the tail leaves the queued elements alone. *)
Lemma write_tail_slot q x i :
  wf q -> Z.of_nat i < size q ->
  slot_at T0 (set_messages (<[Z.to_nat (tail_ q) := x]> (messages_ q)) q) i = slot_at T0 q i.
Proof.
  intros H Hi. pose proof (wf_capacity_pos q H) as Hc. unfold slot_at. simpl.
  rewrite list_lookup_insert_ne; [done|]. intros E.
  apply (offset_not_tail q (Z.of_nat i) H); [lia|].
  pose proof (Z.mod_pos_bound (head_ q + Z.of_nat i) _ Hc). destruct H. lia.
Qed.

Lemma write_tail q x :
  wf q ->
  let q' := set_messages (<[Z.to_nat (tail_ q) := x]> (messages_ q)) q in
  wf q' /\ contents T0 q' = contents T0 q.
Proof.
  intros H q'. split.
  - destruct H as [A B C D E]. split; try done. simpl. by rewrite length_insert.
  - unfold contents. apply map_ext_in. intros i Hi. apply in_seq in Hi.
    apply write_tail_slot; [done|]. pose proof (size_bounds q H).
    replace (size q') with (size q) in Hi by done. lia.
Qed.

(** Advancing the head removes the first element. *)
Lemma store_head q :
  wf q -> 0 < size q ->
  let q' := set_head (Z.land (head_ q + 1) (mask_ q)) q in
  wf q' /\ size q' = size q - 1 /\ contents T0 q = slot_at T0 q 0 :: contents T0 q'.
Proof.
  intros H Hs q'.
  assert (exists q1, tryPop T0 (opened q) = (true, slot_at T0 q 0, q1) /\ same_ring q1 q')
    as (q1 & Hp & Hr).
  { unfold tryPop. simpl. pose proof (empty_iff (opened q) (opened_wf q H)) as Hf. simpl in Hf. rewrite Hf.
    replace (size (opened q)) with (size q) by done.
    destruct (Z.eqb_spec (size q) 0); [lia|]. eexists. split; cycle 1.
    { by instantiate (1 := set_head _ (add_counts 0 1 0 (opened q))). }
    unfold slot_at. rewrite Z.add_0_r, Z.mod_small by apply H. simpl.
    unfold set_head, add_counts. simpl. by rewrite !Z.add_0_r. }
  destruct (pop_accepted T0 _ _ _ (opened_wf q H) Hp) as (W & S & C & _).
  rewrite <- (same_ring_contents _ _ Hr), <- (same_ring_size _ _ Hr), S.
  split_and!; [by eapply same_ring_wf|done|done].
Qed.

Lemma slot_at_set_tail t q i : slot_at T0 (set_tail t q) i = slot_at T0 q i.
Proof. done. Qed.

Lemma inv_push_access c p p' q' out :
  inv c -> c_producers c = [p] -> push_access p (c_queue c) = (p', q', out) ->
  wf q' /\ producer_ok p' q' /\ consumer_ok (c_consumer c) q' /\
  contents T0 q' = contents T0 (c_queue c) ++ out.
Proof.
  intros [W (p0 & Hp0 & P) C _] Hp E. rewrite Hp in Hp0. injection Hp0 as <-.
  set (q := c_queue c) in *. pose proof (wf_capacity_pos _ W).
  destruct p as [|x|x|x t|x t nt|x nt| |]; simpl in E.
  - injection E as <- <- <-. by rewrite app_nil_r.
  - destruct (is_shutdown_ q); injection E as <- <- <-; by rewrite app_nil_r.
  - injection E as <- <- <-. by rewrite app_nil_r.
  - simpl in P. subst t. pose proof (full_iff _ W) as Hf.
    destruct (_ =? head_ q) eqn:Hb; injection E as <- <- <-; rewrite app_nil_r;
      [done|]. symmetry in Hf. apply negb_false_iff, Z.ltb_lt in Hf.
    simpl. done.
  - simpl in P. destruct P as (-> & -> & Hs). injection E as <- <- <-. rewrite app_nil_r.
    destruct (write_tail q x W) as [W' C']. split_and!; try done.
    + simpl. split_and!; [done|done|]. apply list_lookup_insert_eq. destruct W. lia.
    + destruct (c_consumer c) as [| | |h|h|h v|]; simpl in *; try done.
      destruct C as (-> & Hp' & <-). split_and!; [done|done|].
      apply write_tail_slot; [done|lia].
  - simpl in P. destruct P as (-> & Hs & Hx). injection E as <- <- <-.
    destruct (store_tail q x W Hs Hx) as (W' & S' & C'). split_and!; try done.
    destruct (c_consumer c) as [| | |h|h|h v|]; simpl in *; try done.
    + destruct C as [-> Hp']. split; [done|lia].
    + destruct C as (-> & Hp' & <-). split_and!; [done|lia|done].
  - injection E as <- <- <-. rewrite app_nil_r. split_and!; try done;
      first [by apply (same_ring_wf q)|by apply (same_ring_consumer _ q)].
  - injection E as <- <- <-. rewrite app_nil_r. split_and!; try done;
      first [by apply (same_ring_wf q)|by apply (same_ring_consumer _ q)].
Qed.

Lemma inv_pop_access c p p' q' out :
  inv c -> c_producers c = [p] -> pop_access (c_consumer c) (c_queue c) = (p', q', out) ->
  wf q' /\ producer_ok p q' /\ consumer_ok p' q' /\
  contents T0 (c_queue c) = out ++ contents T0 q'.
Proof.
  intros [W (p0 & Hp0 & P) C _] Hp E. rewrite Hp in Hp0. injection Hp0 as <-.
  set (q := c_queue c) in *. pose proof (size_bounds _ W) as Hb.
  destruct (c_consumer c) as [| | |h|h|h v|]; simpl in E.
  - by injection E as <- <- <-.
  - by destruct (is_shutdown_ q); injection E as <- <- <-.
  - by injection E as <- <- <-.
  - simpl in C. subst h. pose proof (empty_iff _ W) as Hf.
    destruct (head_ q =? tail_ q) eqn:Hz; injection E as <- <- <-; [done|].
    symmetry in Hf. apply Z.eqb_neq in Hf. simpl. split_and!; try done. lia.
  - destruct C as [-> Hs]. injection E as <- <- <-. simpl. split_and!; try done.
    unfold slot_at. rewrite Z.add_0_r, Z.mod_small; [done|apply W].
  - destruct C as (-> & Hs & <-). injection E as <- <- <-.
    destruct (store_head q W Hs) as (W' & S' & C'). split_and!; try done.
    destruct p as [|x|x|x t|x t nt|x nt| |]; simpl in *; try done;
      destruct_and!; split_and!; try done; lia.
  - injection E as <- <- <-. split_and!; try done;
      first [by apply (same_ring_wf q)|by apply (same_ring_producer _ q)].
Qed.

Lemma inv_step c c' : inv c -> step c c' -> inv c'.
Proof.
  intros I Hst. pose proof I as [W (p & Hp & P) C F].
  inversion Hst as [? i x Hi|? i p1 p' q' out Hi E|? E|? p' q' out E|?]; subst; clear Hst.
  - rewrite Hp in Hi. apply list_lookup_singleton_Some in Hi as [-> ?]; simplify_eq.
    split; simpl; rewrite ?Hp; eauto.
  - rewrite Hp in Hi. apply list_lookup_singleton_Some in Hi as [-> ?]; simplify_eq.
    destruct (inv_push_access _ _ _ _ _ I Hp E) as (W' & P' & C' & F').
    split; simpl; rewrite ?Hp; eauto. by rewrite F', F, app_assoc.
  - split; simpl; eauto.
  - destruct (inv_pop_access _ _ _ _ _ I Hp E) as (W' & P' & C' & F').
    split; simpl; eauto. by rewrite F, F', app_assoc.
  - split; simpl.
    + by apply (same_ring_wf (c_queue c)).
    + exists p. split; [done|]. by apply (same_ring_producer _ (c_queue c)).
    + by apply (same_ring_consumer _ (c_queue c)).
    + done.
Qed.

(** * Properties *)

(** C12: with one producer thread and one consumer thread, in every interleaving of
    their accesses (and with [shutdown] at any moment) the messages the consumer has
    removed, followed by the messages in the ring, are exactly the messages whose
    [push] was accepted, in order: nothing is lost, duplicated or reordered, and the
    ring stays well-formed. *)
Theorem spsc_fifo q c :
  wf q -> steps (initial 1 q) c ->
  wf (c_queue c) /\ c_accepted c = c_received c ++ contents T0 (c_queue c).
Proof.
  intros W H. assert (inv (initial 1 q)) as I.
  { split; simpl; try done. by exists PIdle. }
  enough (inv c) as [? _ _ ?] by done.
  revert I. induction H as [|c1 c2 c3 H12 _ IH]; [done|].
  intros I. apply IH. by eapply inv_step.
Qed.
End Interleaving.
Arguments push_pc : clear implicits.
Arguments pop_pc : clear implicits.
Arguments conf : clear implicits.

(** A computable run: each element names the thread that makes its next access, or
    a call. *)
Inductive move := MCall (i : nat) (x : Z) | MPush (i : nat) | MCallPop | MPop.

Definition move_conf (m : move) (c : conf Z) : conf Z :=
  match m with
  | MCall i x =>
      {| c_queue := c_queue c; c_producers := <[i := PLoadShutdown x]> (c_producers c);
         c_consumer := c_consumer c; c_accepted := c_accepted c; c_received := c_received c |}
  | MPush i =>
      let '(p', q', out) := push_access (default PIdle (c_producers c !! i)) (c_queue c) in
      {| c_queue := q'; c_producers := <[i := p']> (c_producers c);
         c_consumer := c_consumer c; c_accepted := c_accepted c ++ out;
         c_received := c_received c |}
  | MCallPop =>
      {| c_queue := c_queue c; c_producers := c_producers c; c_consumer := CLoadShutdown;
         c_accepted := c_accepted c; c_received := c_received c |}
  | MPop =>
      let '(p', q', out) := pop_access 0 (c_consumer c) (c_queue c) in
      {| c_queue := q'; c_producers := c_producers c; c_consumer := p';
         c_accepted := c_accepted c; c_received := c_received c ++ out |}
  end.

Definition move_allowed (m : move) (c : conf Z) : bool :=
  match m with
  | MCall i _ => match c_producers c !! i with Some PIdle => true | _ => false end
  | MPush i => bool_decide (is_Some (c_producers c !! i))
  | MCallPop => match c_consumer c with CIdle => true | _ => false end
  | MPop => true
  end.

Fixpoint moves_allowed (ms : list move) (c : conf Z) : bool :=
  match ms with
  | [] => true
  | m :: ms' => move_allowed m c && moves_allowed ms' (move_conf m c)
  end.

Lemma move_step m c : move_allowed m c = true -> step 0 c (move_conf m c).
Proof.
  destruct m as [i x|i| |]; simpl.
  - destruct (c_producers c !! i) as [[]|] eqn:E; try done. intros _.
    by apply step_call_push.
  - rewrite bool_decide_eq_true. intros [p Hp]. rewrite Hp. simpl.
    destruct (push_access p (c_queue c)) as [[p' q'] out] eqn:E.
    by apply step_push with (p := p).
  - destruct (c_consumer c) eqn:E; try done. intros _. by apply step_call_pop.
  - intros _. destruct (pop_access 0 (c_consumer c) (c_queue c)) as [[p' q'] out] eqn:E.
    by apply step_pop.
Qed.

Lemma moves_steps ms c :
  moves_allowed ms c = true -> steps 0 c (fold_left (fun c m => move_conf m c) ms c).
Proof.
  revert c. induction ms as [|m ms IH]; intros c; simpl; [intros _; apply rtc_refl|].
  rewrite andb_true_iff. intros [H1 H2].
  eapply rtc_l; [by apply move_step|by apply IH].
Qed.

(** Thread 0 alone pushes 7 and the consumer takes it. *)
Lemma spsc_fifo_witness :
  exists c, steps 0 (initial 0 1 (newQueue 0 4 [])) c /\
  c_received c = [7] /\ c_accepted c = c_received c ++ contents 0 (c_queue c).
Proof.
  pose (ms := [MCall 0 7; MPush 0; MPush 0; MPush 0; MPush 0; MPush 0; MPush 0;
               MCallPop; MPop; MPop; MPop; MPop; MPop; MPop]).
  pose (c0 := initial 0 1 (newQueue 0 4 [])).
  assert (steps 0 c0 (fold_left (fun c m => move_conf m c) ms c0)) as Hs
    by (apply moves_steps; vm_compute; reflexivity).
  exists (fold_left (fun c m => move_conf m c) ms c0). split; [exact Hs|].
  split; [vm_compute; reflexivity|].
  refine (proj2 (spsc_fifo 0 (newQueue 0 4 []) _ _ Hs)).
  apply newQueue_wf. lia.
Defined.

(** Two threads in [push] at the same time can lose a message: there is an
    interleaving from an empty open queue with free slots in which both pushes are
    accepted and counted while the ring holds one message only.  The outbound
    queues are pushed to by the inbound processing thread, by the heartbeat thread
    and by the gap-manager thread. *)
Lemma two_producers_lose_a_message :
  exists c, steps 0 (initial 0 2 (newQueue 0 4 [])) c /\
  c_producers c = [PIdle; PIdle] /\
  c_accepted c = [1; 2] /\ push_count_ (c_queue c) = 2 /\ drop_count_ (c_queue c) = 0 /\
  contents 0 (c_queue c) = [2].
Proof.
  pose (ms := [MCall 0 1; MPush 0; MPush 0; MPush 0; MCall 1 2; MPush 1; MPush 1; MPush 1;
               MPush 0; MPush 1; MPush 0; MPush 1; MPush 0; MPush 1]).
  exists (fold_left (fun c m => move_conf m c) ms (initial 0 2 (newQueue 0 4 []))).
  split; [apply moves_steps; by vm_compute|]. by vm_compute.
Qed.
