(* ===== verification/QueueInterface.v ===== *)
(** What [LockFreeQueue] promises to the components that use it, as a type class: a
    bounded first-in first-out queue that can be shut down.  The router and the
    managers are proved against the class; the ring buffer is its instance. *)
From S2P Require Import Prelude LockFreeQueue.

Class FifoQueue (T Q : Type) := {
  q_push : T -> Q -> bool * Q;
  q_pop : Q -> bool * T * Q;
  q_shutdown : Q -> Q;
  q_empty : Q -> bool;
  (** The queued elements, oldest first; how many more fit; whether it is open. *)
  q_items : Q -> list T;
  q_space : Q -> nat;
  q_open : Q -> bool;
  q_wf : Q -> Prop;
  q_push_ok x q :
    q_wf q -> q_open q = true -> q_space q <> O ->
    exists q', q_push x q = (true, q') /\ q_wf q' /\ q_open q' = true /\
      q_items q' = q_items q ++ [x] /\ S (q_space q') = q_space q;
  q_push_full x q :
    q_wf q -> q_open q = false \/ q_space q = O ->
    exists q', q_push x q = (false, q') /\ q_wf q' /\ q_open q' = q_open q /\
      q_items q' = q_items q /\ q_space q' = q_space q;
  q_pop_ok x r q :
    q_wf q -> q_open q = true -> q_items q = x :: r ->
    exists q', q_pop q = (true, x, q') /\ q_wf q' /\ q_open q' = true /\
      q_items q' = r /\ q_space q' = S (q_space q);
  q_pop_empty q :
    q_wf q -> q_open q = false \/ q_items q = [] -> exists x, q_pop q = (false, x, q);
  q_shutdown_ok q :
    q_wf q -> q_wf (q_shutdown q) /\ q_open (q_shutdown q) = false /\
      q_items (q_shutdown q) = q_items q;
  q_empty_ok q : q_wf q -> q_empty q = true <-> q_items q = []
}.

(** ** The ring buffer is such a queue *)
Section Instance_.
Context {T : Type} (T0 : T).

Definition free_slots (q : LockFreeQueue T) : nat := Z.to_nat (capacity_ q - 1 - size q).

Lemma push_cases x (q : LockFreeQueue T) :
  wf q -> fst (push x q) = negb (is_shutdown_ q) && negb (bool_decide (free_slots q = O)).
Proof.
  intros H. unfold push, free_slots. destruct (is_shutdown_ q); [done|].
  rewrite (full_iff q H). pose proof (size_bounds q H).
  destruct (Z.ltb_spec (size q) (capacity_ q - 1)); simpl; case_bool_decide; try done; lia.
Qed.

Lemma push_same_frame x (q : LockFreeQueue T) :
  is_shutdown_ (snd (push x q)) = is_shutdown_ q /\ capacity_ (snd (push x q)) = capacity_ q.
Proof. unfold push. by repeat (case_goal; simpl). Qed.

Lemma pop_same_frame (q : LockFreeQueue T) :
  is_shutdown_ (snd (tryPop T0 q)) = is_shutdown_ q /\
  capacity_ (snd (tryPop T0 q)) = capacity_ q.
Proof. unfold tryPop. by repeat (case_goal; simpl). Qed.

Lemma ring_push_ok x (q : LockFreeQueue T) :
  wf q -> negb (is_shutdown_ q) = true -> free_slots q <> O ->
  exists q', push x q = (true, q') /\ wf q' /\ negb (is_shutdown_ q') = true /\
    contents T0 q' = contents T0 q ++ [x] /\ S (free_slots q') = free_slots q.
Proof.
  intros H Ho Hs. pose proof (push_cases x q H) as Hc. rewrite Ho in Hc.
  rewrite bool_decide_eq_false_2 in Hc by done.
  destruct (push_same_frame x q) as [H1 H2].
  destruct (push x q) as [b q'] eqn:E. simpl in *. subst b.
  destruct (push_accepted T0 x q q' H E) as (Hw & Hsz & Hi & _).
  exists q'. rewrite H1. split_and!; try done. unfold free_slots in *. lia.
Qed.

Lemma ring_push_full x (q : LockFreeQueue T) :
  wf q -> negb (is_shutdown_ q) = false \/ free_slots q = O ->
  exists q', push x q = (false, q') /\ wf q' /\ negb (is_shutdown_ q') = negb (is_shutdown_ q) /\
    contents T0 q' = contents T0 q /\ free_slots q' = free_slots q.
Proof.
  intros H Hs. pose proof (push_cases x q H) as Hc.
  assert (fst (push x q) = false) as Hf.
  { rewrite Hc. destruct Hs as [-> | ->]; [done|]. by destruct (is_shutdown_ q). }
  destruct (push_same_frame x q) as [H1 H2].
  destruct (push x q) as [b q'] eqn:E. simpl in *. clear Hc. subst b.
  destruct (push_refused T0 x q q' H E) as (Hw & Hi & _).
  exists q'. rewrite H1. split_and!; try done.
  unfold free_slots. rewrite H2. do 2 f_equal.
  rewrite <- !(length_contents T0) by done. by rewrite Hi.
Qed.

Lemma ring_pop_ok x r (q : LockFreeQueue T) :
  wf q -> negb (is_shutdown_ q) = true -> contents T0 q = x :: r ->
  exists q', tryPop T0 q = (true, x, q') /\ wf q' /\ negb (is_shutdown_ q') = true /\
    contents T0 q' = r /\ free_slots q' = S (free_slots q).
Proof.
  intros H Ho Hi. pose proof (length_contents T0 q H) as Hl. rewrite Hi in Hl. simpl in Hl.
  destruct (pop_same_frame q) as [H1 H2].
  destruct (tryPop T0 q) as [[b y] q'] eqn:E. simpl in *. destruct b.
  - destruct (pop_accepted T0 y q q' H E) as (Hw & Hsz & Hc & _).
    rewrite Hi in Hc. injection Hc as <- Hr.
    exists q'. rewrite H1. split_and!; try done. pose proof (size_bounds q H).
    unfold free_slots. lia.
  - destruct (pop_refused T0 y q q' H E) as [_ Hsp]. exfalso. revert Hsp.
    unfold spec_pop, abs. simpl. rewrite Hi. by destruct (is_shutdown_ q).
Qed.

Lemma ring_pop_empty (q : LockFreeQueue T) :
  wf q -> negb (is_shutdown_ q) = false \/ contents T0 q = [] ->
  exists x, tryPop T0 q = (false, x, q).
Proof.
  intros H Hs. destruct (tryPop T0 q) as [[b y] q'] eqn:E. destruct b.
  - destruct (pop_accepted T0 y q q' H E) as (_ & _ & Hc & _).
    destruct Hs as [Hs|Hs]; [|by rewrite Hs in Hc].
    unfold tryPop in E. by destruct (is_shutdown_ q).
  - destruct (pop_refused T0 y q q' H E) as [-> _]. by exists y.
Qed.

Definition ring_fifo : FifoQueue T (LockFreeQueue T).
Proof.
  refine {| q_push := push; q_pop := tryPop T0; q_shutdown := shutdown; q_empty := empty;
            q_items := contents T0; q_space := free_slots;
            q_open q := negb (is_shutdown_ q); q_wf := wf |}.
  - apply ring_push_ok.
  - apply ring_push_full.
  - apply ring_pop_ok.
  - apply ring_pop_empty.
  - intros q H. split_and!; try done. by destruct H.
  - intros q H. unfold empty. rewrite (empty_iff q H), Z.eqb_eq.
    rewrite <- (length_contents T0 q H). by destruct (contents T0 q).
Defined.
End Instance_.

(** ** Consequences for every queue *)
Section Laws.
Context {T Q : Type} `{FifoQueue T Q}.

(** How many elements [q] still accepts. *)
Definition q_room (q : Q) : nat := if q_open q then q_space q else O.

Lemma push_step x q :
  q_wf q ->
  exists q', q_push x q = (negb (bool_decide (q_room q = O)), q') /\ q_wf q' /\
    q_open q' = q_open q /\ q_items q' = q_items q ++ take (q_room q) [x] /\
    q_room q' = pred (q_room q).
Proof.
  intros Hw. destruct (decide (q_room q = O)) as [Hr|Hr].
  - destruct (q_push_full x q Hw) as (q' & E & Hw' & Ho & Hi & Hs).
    { unfold q_room in Hr. destruct (q_open q); auto. }
    exists q'. rewrite bool_decide_eq_true_2 by done. rewrite Hr, take_0, app_nil_r.
    split_and!; try done. unfold q_room in *. by rewrite Ho, Hs, Hr.
  - unfold q_room in Hr. destruct (q_open q) eqn:Hop; [|done].
    destruct (q_push_ok x q Hw Hop Hr) as (q' & E & Hw' & Ho & Hi & Hs).
    exists q'. unfold q_room. rewrite Hop, Ho, bool_decide_eq_false_2 by done.
    split_and!; first [done | lia | rewrite Hi, take_ge; [done|simpl; lia]].
Qed.
End Laws.
