(* ===== verification/MessagePool.v ===== *)
(** [common::MessagePool<T>] of [include/common/message_pool.h]: the array of
    slots, the free list threaded through [next_free_index], allocation,
    deallocation, reset and shutdown; and the set of live slots it implements. *)
From S2P Require Import Prelude.

Section Pool.
Context {T : Type}.

(** The members of the class.  [pool_slots_] gives for every slot the object
    living in its storage, if one was constructed; [pool_start_] is the address of
    the first slot and [slot_bytes_] is [sizeof(PoolSlot)]. *)
Record MessagePool := {
  pool_size_ : Z;
  pool_start_ : Z;
  slot_bytes_ : Z;
  pool_slots_ : list (option T);
  free_list_head_ : Z;
  free_list_nodes_ : list Z;
  allocated_count_ : Z;
  total_allocations_ : Z;
  total_deallocations_ : Z;
  allocation_failures_ : Z;
  pool_is_shutdown_ : bool
}.

(** The next indices of a freshly linked free list of [n] slots, cast to [int32_t]. *)
Definition linked (n : Z) : list Z :=
  map (fun i => if Z.of_nat i <? n - 1 then wrap32 (Z.of_nat i + 1) else -1) (seq 0 (Z.to_nat n)).

(** [initializeFreeList] *)
Definition initializeFreeList (p : MessagePool) : MessagePool :=
  {| pool_size_ := pool_size_ p; pool_start_ := pool_start_ p; slot_bytes_ := slot_bytes_ p;
     pool_slots_ := pool_slots_ p; free_list_head_ := 0;
     free_list_nodes_ := linked (pool_size_ p); allocated_count_ := 0;
     total_allocations_ := total_allocations_ p;
     total_deallocations_ := total_deallocations_ p;
     allocation_failures_ := allocation_failures_ p;
     pool_is_shutdown_ := pool_is_shutdown_ p |}.

(** The constructor: [None] when it throws, [std::invalid_argument] for the size 0, or what
    [std::make_unique] throws for arrays it gets no memory for.  [storage] is the address
    of the slots when it got the memory. *)
Definition newPool (pool_size : Z) (storage : option Z) (slot_bytes : Z) : option MessagePool :=
  if pool_size =? 0 then None
  else match storage with
  | None => None
  | Some pool_start => Some (initializeFreeList
    {| pool_size_ := pool_size; pool_start_ := pool_start; slot_bytes_ := slot_bytes;
       pool_slots_ := replicate (Z.to_nat pool_size) None; free_list_head_ := 0;
       free_list_nodes_ := replicate (Z.to_nat pool_size) (-1); allocated_count_ := 0;
       total_allocations_ := 0; total_deallocations_ := 0; allocation_failures_ := 0;
       pool_is_shutdown_ := false |})
  end.

(** The address [pool_slots_[i].get_message()]. *)
Definition addr_of (p : MessagePool) (i : Z) : Z := pool_start_ p + i * slot_bytes_ p.

Definition fail_allocation (p : MessagePool) : MessagePool :=
  {| pool_size_ := pool_size_ p; pool_start_ := pool_start_ p; slot_bytes_ := slot_bytes_ p;
     pool_slots_ := pool_slots_ p; free_list_head_ := free_list_head_ p;
     free_list_nodes_ := free_list_nodes_ p; allocated_count_ := allocated_count_ p;
     total_allocations_ := total_allocations_ p;
     total_deallocations_ := total_deallocations_ p;
     allocation_failures_ := allocation_failures_ p + 1;
     pool_is_shutdown_ := pool_is_shutdown_ p |}.

(** [allocateRaw] without interference: pop the free list and construct
    [T()] ([fresh]) in the slot; the address of the object, or [nullptr]. *)
Definition allocateRaw (fresh : T) (p : MessagePool) : option Z * MessagePool :=
  let head_index := free_list_head_ p in
  if 0 <=? head_index then
    let next_index := default (-1) (free_list_nodes_ p !! Z.to_nat head_index) in
    (Some (addr_of p head_index),
     {| pool_size_ := pool_size_ p; pool_start_ := pool_start_ p;
        slot_bytes_ := slot_bytes_ p;
        pool_slots_ := <[Z.to_nat head_index := Some fresh]> (pool_slots_ p);
        free_list_head_ := next_index; free_list_nodes_ := free_list_nodes_ p;
        allocated_count_ := allocated_count_ p + 1;
        total_allocations_ := total_allocations_ p + 1;
        total_deallocations_ := total_deallocations_ p;
        allocation_failures_ := allocation_failures_ p;
        pool_is_shutdown_ := pool_is_shutdown_ p |})
  else (None, fail_allocation p).

(** [allocate] *)
Definition allocate (fresh : T) (p : MessagePool) : option Z * MessagePool :=
  if pool_is_shutdown_ p then (None, fail_allocation p) else allocateRaw fresh p.

(** The slot an address denotes, after the three checks of [deallocateRaw]. *)
Definition slot_of (p : MessagePool) (msg_addr : Z) : option Z :=
  let pool_start := pool_start_ p in
  let pool_end := pool_start + pool_size_ p * slot_bytes_ p in
  if (msg_addr <? pool_start) || (pool_end <=? msg_addr) then None
  else
    let slot_index := (msg_addr - pool_start) / slot_bytes_ p in
    if pool_size_ p <=? slot_index then None
    else if msg_addr =? addr_of p slot_index then Some slot_index else None.

(** [deallocateRaw] without interference: push the slot, as an [int32_t], on the free list. *)
Definition deallocateRaw (msg_addr : Z) (p : MessagePool) : MessagePool :=
  match slot_of p msg_addr with
  | None => p
  | Some slot_index =>
      {| pool_size_ := pool_size_ p; pool_start_ := pool_start_ p;
         slot_bytes_ := slot_bytes_ p; pool_slots_ := pool_slots_ p;
         free_list_head_ := wrap32 slot_index;
         free_list_nodes_ := <[Z.to_nat slot_index := free_list_head_ p]> (free_list_nodes_ p);
         allocated_count_ := allocated_count_ p - 1;
         total_allocations_ := total_allocations_ p;
         total_deallocations_ := total_deallocations_ p + 1;
         allocation_failures_ := allocation_failures_ p;
         pool_is_shutdown_ := pool_is_shutdown_ p |}
  end.

(** The explicit destructor call [msg->~T()].  For an object that is not alive it is
    undefined behaviour in C++; here it does nothing, as a destructor without effect would. *)
Definition destroy (msg_addr : Z) (p : MessagePool) : MessagePool :=
  match slot_of p msg_addr with
  | None => p
  | Some i =>
      {| pool_size_ := pool_size_ p; pool_start_ := pool_start_ p;
         slot_bytes_ := slot_bytes_ p;
         pool_slots_ := <[Z.to_nat i := None]> (pool_slots_ p);
         free_list_head_ := free_list_head_ p; free_list_nodes_ := free_list_nodes_ p;
         allocated_count_ := allocated_count_ p; total_allocations_ := total_allocations_ p;
         total_deallocations_ := total_deallocations_ p;
         allocation_failures_ := allocation_failures_ p;
         pool_is_shutdown_ := pool_is_shutdown_ p |}
  end.

(** [deallocate] of a pointer that may be null. *)
Definition deallocate (msg : option Z) (p : MessagePool) : MessagePool :=
  match msg with
  | None => p
  | Some a => deallocateRaw a (destroy a p)
  end.

(** [reset]: [None] when it throws because messages are still allocated. *)
Definition reset (p : MessagePool) : option MessagePool :=
  if 0 <? allocated_count_ p then None else Some (initializeFreeList p).

(** [shutdown] *)
Definition shutdown_pool (p : MessagePool) : MessagePool :=
  {| pool_size_ := pool_size_ p; pool_start_ := pool_start_ p; slot_bytes_ := slot_bytes_ p;
     pool_slots_ := pool_slots_ p; free_list_head_ := free_list_head_ p;
     free_list_nodes_ := free_list_nodes_ p; allocated_count_ := allocated_count_ p;
     total_allocations_ := total_allocations_ p;
     total_deallocations_ := total_deallocations_ p;
     allocation_failures_ := allocation_failures_ p; pool_is_shutdown_ := true |}.

(** [available] *)
Definition available (p : MessagePool) : Z := pool_size_ p - allocated_count_ p.

(** The object behind a pointer, and an update of it through the pointer. *)
Definition deref (p : MessagePool) (msg_addr : Z) : option T :=
  i ← slot_of p msg_addr; o ← pool_slots_ p !! Z.to_nat i; o.

Definition update_object (f : T -> T) (msg_addr : Z) (p : MessagePool) : MessagePool :=
  match slot_of p msg_addr with
  | None => p
  | Some i =>
      {| pool_size_ := pool_size_ p; pool_start_ := pool_start_ p;
         slot_bytes_ := slot_bytes_ p;
         pool_slots_ := alter (fmap f) (Z.to_nat i) (pool_slots_ p);
         free_list_head_ := free_list_head_ p; free_list_nodes_ := free_list_nodes_ p;
         allocated_count_ := allocated_count_ p; total_allocations_ := total_allocations_ p;
         total_deallocations_ := total_deallocations_ p;
         allocation_failures_ := allocation_failures_ p;
         pool_is_shutdown_ := pool_is_shutdown_ p |}
  end.

(** * The invariant *)

(** [chain nodes h l]: following [next_free_index] from [h] visits the slots of [l]
    and ends at -1. *)
Fixpoint chain (nodes : list Z) (h : Z) (l : list nat) : Prop :=
  match l with
  | [] => h = -1
  | i :: l' => h = Z.of_nat i /\ exists nx, nodes !! i = Some nx /\ chain nodes nx l'
  end.

(** Which slots hold an object. *)
Definition live_slot (p : MessagePool) (i : nat) : Prop :=
  exists o, pool_slots_ p !! i = Some (Some o).

Record pool_wf (p : MessagePool) : Prop := {
  pw_size : 0 < pool_size_ p <= 2147483648;
  pw_bytes : 0 < slot_bytes_ p;
  pw_slots : Z.of_nat (length (pool_slots_ p)) = pool_size_ p;
  pw_nodes : length (free_list_nodes_ p) = length (pool_slots_ p);
  pw_free : exists free,
    chain (free_list_nodes_ p) (free_list_head_ p) free /\ NoDup free /\
    (forall i, i ∈ free <-> pool_slots_ p !! i = Some None) /\
    Z.of_nat (length free) = available p;
  pw_counts : total_allocations_ p - total_deallocations_ p = allocated_count_ p
}.

Definition has_object (p : MessagePool) (i : nat) : bool :=
  match pool_slots_ p !! i with Some (Some _) => true | _ => false end.

(** The set of live slots. *)
Definition live_set (p : MessagePool) : gset nat :=
  list_to_set (filter (fun i => has_object p i = true) (seq 0 (length (pool_slots_ p)))).

(** A client that allocates, and frees only objects that are live. *)
Inductive client_step : MessagePool -> MessagePool -> Prop :=
  | client_allocate fresh p : client_step p (snd (allocate fresh p))
  | client_deallocate i p :
      live_slot p i -> client_step p (deallocate (Some (addr_of p (Z.of_nat i))) p)
  | client_null p : client_step p (deallocate None p)
  | client_shutdown p : client_step p (shutdown_pool p).

(** * Lemmas *)

Lemma slot_of_addr p i :
  0 < slot_bytes_ p -> 0 <= i < pool_size_ p -> slot_of p (addr_of p i) = Some i.
Proof.
  intros Hb Hi. unfold slot_of, addr_of.
  destruct (Z.ltb_spec (pool_start_ p + i * slot_bytes_ p) (pool_start_ p)); [nia|].
  destruct (Z.leb_spec (pool_start_ p + pool_size_ p * slot_bytes_ p)
              (pool_start_ p + i * slot_bytes_ p)); [nia|]. simpl.
  replace (pool_start_ p + i * slot_bytes_ p - pool_start_ p) with (i * slot_bytes_ p) by lia.
  rewrite Z.div_mul by lia. destruct (Z.leb_spec (pool_size_ p) i); [lia|].
  by rewrite Z.eqb_refl.
Qed.

Lemma slot_of_inv p a i :
  0 < slot_bytes_ p -> slot_of p a = Some i -> 0 <= i < pool_size_ p /\ a = addr_of p i.
Proof.
  intros Hb. unfold slot_of.
  destruct ((a <? pool_start_ p) || _) eqn:E; [done|]. bool_props.
  set (j := (a - pool_start_ p) / slot_bytes_ p).
  destruct (Z.leb_spec (pool_size_ p) j); [done|].
  destruct (Z.eqb_spec a (addr_of p j)); [|done]. intros [= <-].
  split; [|done]. split; [|done]. apply Z.div_pos; lia.
Qed.

Lemma chain_insert_notin nodes h l i v :
  i ∉ l -> chain nodes h l -> chain (<[i := v]> nodes) h l.
Proof.
  revert h. induction l as [|j l IH]; intros h Hi; simpl; [done|].
  apply not_elem_of_cons in Hi as [Hj Hl]. intros (-> & nx & Hn & Hc).
  split; [done|]. exists nx. split; [by rewrite list_lookup_insert_ne|by apply IH].
Qed.

Lemma linked_lookup n i :
  (i < Z.to_nat n)%nat ->
  linked n !! i = Some (if Z.of_nat i <? n - 1 then wrap32 (Z.of_nat i + 1) else -1).
Proof.
  intros Hi. unfold linked. rewrite list_lookup_fmap, lookup_seq_lt by done. done.
Qed.

Lemma chain_linked n k :
  0 < n <= 2147483648 -> (k <= Z.to_nat n)%nat -> (0 < k)%nat ->
  chain (linked n) (Z.of_nat (Z.to_nat n - k)) (seq (Z.to_nat n - k) k).
Proof.
  intros Hn. induction k as [|k IH]; intros Hk H0; [lia|].
  cbn [seq chain]. split; [done|].
  eexists. rewrite linked_lookup by lia. split; [done|].
  destruct k as [|k].
  - cbn [seq chain]. destruct (Z.ltb_spec (Z.of_nat (Z.to_nat n - 1)) (n - 1)); [lia|done].
  - destruct (Z.ltb_spec (Z.of_nat (Z.to_nat n - S (S k))) (n - 1)); [|lia].
    replace (S (Z.to_nat n - S (S k))) with (Z.to_nat n - S k)%nat by lia.
    rewrite wrap32_id by (unfold int32_range; lia).
    replace (Z.of_nat (Z.to_nat n - S (S k)) + 1) with (Z.of_nat (Z.to_nat n - S k)) by lia.
    apply IH; lia.
Qed.

Lemma initializeFreeList_wf p :
  0 < pool_size_ p <= 2147483648 -> 0 < slot_bytes_ p ->
  pool_slots_ p = replicate (Z.to_nat (pool_size_ p)) None ->
  total_allocations_ p = total_deallocations_ p ->
  pool_wf (initializeFreeList p).
Proof.
  intros Hn Hb Hs Ht. split; simpl; rewrite ?Hs, ?length_replicate; try lia.
  - unfold linked. by rewrite length_map, length_seq.
  - exists (seq 0 (Z.to_nat (pool_size_ p))). split_and!.
    + pose proof (chain_linked (pool_size_ p) (Z.to_nat (pool_size_ p)) Hn ltac:(lia) ltac:(lia)) as H.
      by rewrite Nat.sub_diag in H.
    + apply NoDup_ListNoDup, seq_NoDup.
    + intros i. rewrite elem_of_seq, lookup_replicate. split; [intros ?; split; [done|lia]|lia].
    + unfold available. simpl. rewrite length_seq. lia.
Qed.

Lemma newPool_wf n storage sz p :
  0 < n <= 2147483648 -> 0 < sz -> newPool n storage sz = Some p -> pool_wf p.
Proof.
  intros Hn Hz. unfold newPool. destruct (Z.eqb_spec n 0); [lia|]. destruct storage; [|done].
  intros [= <-]. by apply initializeFreeList_wf.
Qed.

(** Beyond 2^31 slots the indices leave [int32_t]: the free list of a new pool ends at
    slot 2^31 - 1, and the slots behind it are never handed out. *)
Lemma oversized_list_ends n :
  2147483648 < n -> linked n !! Z.to_nat 2147483647 = Some (-2147483648).
Proof.
  intros Hn. rewrite linked_lookup by lia. rewrite Z2Nat.id by lia.
  destruct (Z.ltb_spec 2147483647 (n - 1)); [done|lia].
Qed.

(** What a successful allocation does. *)
Lemma allocate_some fresh p a p' :
  pool_wf p -> allocate fresh p = (Some a, p') ->
  exists i, a = addr_of p (Z.of_nat i) /\ pool_slots_ p !! i = Some None /\
    pool_slots_ p' = <[i := Some fresh]> (pool_slots_ p) /\
    allocated_count_ p' = allocated_count_ p + 1 /\ pool_size_ p' = pool_size_ p /\
    pool_start_ p' = pool_start_ p /\ slot_bytes_ p' = slot_bytes_ p /\ pool_wf p'.
Proof.
  intros [Hn Hb Hs Hl (free & Hc & Hd & Hf & Hlen) Ht]. unfold allocate, allocateRaw.
  destruct (pool_is_shutdown_ p); [done|].
  destruct free as [|i free]; simpl in Hc; [by rewrite Hc|].
  destruct Hc as (Hh & nx & Hnx & Hc). rewrite Hh.
  destruct (Z.leb_spec 0 (Z.of_nat i)); [|lia]. rewrite Nat2Z.id, Hnx. intros [= <- <-].
  assert (pool_slots_ p !! i = Some None) as Hi by (apply Hf; set_solver).
  exists i. simpl. split_and!; try done.
  apply NoDup_cons in Hd as [Hni Hd].
  split; simpl; rewrite ?length_insert; try done; [|lia].
  exists free. split_and!; [done|done| |unfold available in *; simpl in *; lia].
  intros j. destruct (decide (j = i)) as [->|Hj].
  - rewrite list_lookup_insert_eq by (by apply lookup_lt_Some in Hi). split; [done|done].
  - rewrite list_lookup_insert_ne, <- Hf by done. set_solver.
Qed.

Lemma allocate_none fresh p p' :
  pool_wf p -> allocate fresh p = (None, p') ->
  p' = fail_allocation p /\ (pool_is_shutdown_ p = true \/ available p = 0).
Proof.
  intros [Hn Hb Hs Hl (free & Hc & Hd & Hf & Hlen) Ht]. unfold allocate, allocateRaw.
  destruct (pool_is_shutdown_ p); [intros [= <-]; by split; [|left]|].
  destruct free as [|i free]; simpl in Hc.
  - rewrite Hc. intros [= <-]. split; [done|]. right. simpl in Hlen. lia.
  - destruct Hc as (-> & _). by destruct (Z.leb_spec 0 (Z.of_nat i)); [|lia].
Qed.

(** What deallocating a live object does. *)
Lemma deallocate_live i p :
  pool_wf p -> live_slot p i ->
  let p' := deallocate (Some (addr_of p (Z.of_nat i))) p in
  pool_slots_ p' = <[i := None]> (pool_slots_ p) /\
  allocated_count_ p' = allocated_count_ p - 1 /\ free_list_head_ p' = Z.of_nat i /\
  free_list_nodes_ p' = <[i := free_list_head_ p]> (free_list_nodes_ p) /\
  pool_size_ p' = pool_size_ p /\ pool_start_ p' = pool_start_ p /\
  slot_bytes_ p' = slot_bytes_ p /\ pool_is_shutdown_ p' = pool_is_shutdown_ p /\ pool_wf p'.
Proof.
  intros [Hn Hb Hs Hl (free & Hc & Hd & Hf & Hlen) Ht] [o Ho].
  assert (i < length (pool_slots_ p))%nat as Hlt by (by apply lookup_lt_Some in Ho).
  assert (slot_of p (addr_of p (Z.of_nat i)) = Some (Z.of_nat i)) as Hsl
    by (apply slot_of_addr; lia).
  unfold deallocate, destroy. rewrite Hsl. unfold deallocateRaw.
  match goal with |- context [slot_of ?q ?a] =>
    replace (slot_of q a) with (Some (Z.of_nat i)) by (rewrite <- Hsl; done) end.
  rewrite !Nat2Z.id, wrap32_id by (unfold int32_range; lia). cbn zeta. simpl. split_and!; try done.
  assert (i ∉ free) as Hni by (rewrite Hf; naive_solver congruence).
  split; simpl; rewrite ?length_insert; try lia.
  exists (i :: free). split_and!.
  - simpl. split; [done|]. exists (free_list_head_ p).
    rewrite list_lookup_insert_eq by lia. split; [done|]. by apply chain_insert_notin.
  - by apply NoDup_cons.
  - intros j. destruct (decide (j = i)) as [->|Hj].
    + rewrite list_lookup_insert_eq by lia. set_solver.
    + rewrite list_lookup_insert_ne, <- Hf by done. set_solver.
  - unfold available in *. simpl in *. lia.
Qed.

(** Freed storage is handed out again first. *)
Lemma allocate_after_deallocate fresh i p :
  pool_wf p -> live_slot p i -> pool_is_shutdown_ p = false ->
  fst (allocate fresh (deallocate (Some (addr_of p (Z.of_nat i))) p))
  = Some (addr_of p (Z.of_nat i)).
Proof.
  intros Hw Hi Hsd. destruct (deallocate_live i p Hw Hi) as (_ & _ & Hh & _ & _ & Hst & Hsb & Hs & _).
  set (p' := deallocate _ p) in *. clearbody p'.
  unfold allocate, allocateRaw. rewrite Hs, Hsd, Hh.
  destruct (Z.leb_spec 0 (Z.of_nat i)); [|lia]. simpl. unfold addr_of. by rewrite Hst, Hsb.
Qed.

Lemma has_object_spec p i : has_object p i = true <-> live_slot p i.
Proof.
  unfold has_object, live_slot. destruct (pool_slots_ p !! i) as [[o|]|]; naive_solver.
Qed.

Lemma elem_of_live_set p i : i ∈ live_set p <-> live_slot p i.
Proof.
  unfold live_set. rewrite elem_of_list_to_set, list_elem_of_filter, elem_of_seq, has_object_spec.
  split; [by intros []|]. intros [o Ho]. split; [by exists o|].
  apply lookup_lt_Some in Ho. lia.
Qed.

Lemma size_live_set p : pool_wf p -> Z.of_nat (base.size (live_set p)) = allocated_count_ p.
Proof.
  intros [Hn Hb Hs Hl (free & Hc & Hd & Hf & Hlen) Ht].
  set (n := length (pool_slots_ p)) in *.
  assert (NoDup (seq 0 n)) as Hsq by apply NoDup_ListNoDup, seq_NoDup.
  unfold live_set. rewrite size_list_to_set by (by apply NoDup_filter). fold n.
  pose proof (Permutation_length
    (filter_app_complement (fun i => has_object p i = true) (seq 0 n))) as E.
  rewrite length_app, length_seq in E.
  assert (length free = length (filter (fun i => ~ has_object p i = true) (seq 0 n))) as Hfl.
  { apply Permutation_length, NoDup_Permutation; [done|by apply NoDup_filter|].
    intros i. rewrite list_elem_of_filter, elem_of_seq, Hf, has_object_spec.
    unfold live_slot. split.
    - intros Ei. apply lookup_lt_Some in Ei as Hi. rewrite Ei. split; [naive_solver|fold n in Hi; lia].
    - intros [Ei Hi]. destruct (lookup_lt_is_Some_2 (pool_slots_ p) i) as [[o|] Ho]; [lia| |done].
      exfalso. eauto. }
  unfold available in Hlen. lia.
Qed.

Lemma available_nonneg p : pool_wf p -> 0 <= available p.
Proof. intros [_ _ _ _ (free & _ & _ & _ & <-) _]. lia. Qed.

Lemma live_set_insert p p' i o :
  pool_slots_ p' = <[i := Some o]> (pool_slots_ p) -> (i < length (pool_slots_ p))%nat ->
  live_set p' = {[i]} ∪ live_set p.
Proof.
  intros E Hi. apply set_eq. intros j.
  rewrite elem_of_union, elem_of_singleton, !elem_of_live_set. unfold live_slot. rewrite E.
  destruct (decide (j = i)) as [->|Hj].
  - rewrite list_lookup_insert_eq by done. naive_solver.
  - rewrite list_lookup_insert_ne by done. naive_solver.
Qed.

Lemma live_set_delete p p' i :
  pool_slots_ p' = <[i := None]> (pool_slots_ p) -> (i < length (pool_slots_ p))%nat ->
  live_set p' = live_set p ∖ {[i]}.
Proof.
  intros E Hi. apply set_eq. intros j.
  rewrite elem_of_difference, elem_of_singleton, !elem_of_live_set. unfold live_slot. rewrite E.
  destruct (decide (j = i)) as [->|Hj].
  - rewrite list_lookup_insert_eq by done. naive_solver.
  - rewrite list_lookup_insert_ne by done. naive_solver.
Qed.

Lemma fail_allocation_wf p : pool_wf p -> pool_wf (fail_allocation p).
Proof. by intros []. Qed.

Lemma client_step_wf p p' : pool_wf p -> client_step p p' -> pool_wf p'.
Proof.
  intros Hw Hst. destruct Hst as [fresh p|i p Hi|p|p].
  - destruct (allocate fresh p) as [[a|] p'] eqn:E; simpl.
    + by destruct (allocate_some _ _ _ _ Hw E) as (i & ? & ? & ? & ? & ? & ? & ? & ?).
    + destruct (allocate_none _ _ _ Hw E) as [-> _]. by apply fail_allocation_wf.
  - by apply (deallocate_live i p Hw Hi).
  - done.
  - by destruct Hw.
Qed.

(** An update through a pointer keeps the pool's shape. *)
Lemma update_object_same f a p :
  pool_size_ (update_object f a p) = pool_size_ p /\
  pool_start_ (update_object f a p) = pool_start_ p /\
  slot_bytes_ (update_object f a p) = slot_bytes_ p /\
  pool_is_shutdown_ (update_object f a p) = pool_is_shutdown_ p.
Proof. unfold update_object. by destruct (slot_of p a). Qed.

Lemma slot_of_same p p' a :
  pool_size_ p' = pool_size_ p -> pool_start_ p' = pool_start_ p ->
  slot_bytes_ p' = slot_bytes_ p -> slot_of p' a = slot_of p a.
Proof. unfold slot_of, addr_of. by intros -> -> ->. Qed.

Lemma update_object_slot f a p a' : slot_of (update_object f a p) a' = slot_of p a'.
Proof. apply slot_of_same; apply update_object_same. Qed.

Lemma update_object_deref f a p : deref (update_object f a p) a = f <$> deref p a.
Proof.
  unfold deref. rewrite update_object_slot. unfold update_object.
  destruct (slot_of p a) as [i|]; [|done]. simpl. rewrite list_lookup_alter_eq.
  by destruct (pool_slots_ p !! Z.to_nat i) as [[o|]|].
Qed.

(** What any pointer sees after an update through [a]. *)
Lemma update_object_deref_cases f a p a' :
  deref (update_object f a p) a' = deref p a' \/
  deref (update_object f a p) a' = f <$> deref p a'.
Proof.
  unfold deref. rewrite update_object_slot. unfold update_object.
  destruct (slot_of p a) as [i|]; [|by left]. simpl.
  destruct (slot_of p a') as [j|]; [|by left]. simpl.
  destruct (decide (Z.to_nat j = Z.to_nat i)) as [->|Hj].
  - right. rewrite list_lookup_alter_eq. by destruct (pool_slots_ p !! Z.to_nat i) as [[o|]|].
  - left. by rewrite list_lookup_alter_ne by done.
Qed.

Lemma update_object_lookup f a p j :
  (exists o, pool_slots_ (update_object f a p) !! j = Some (Some o)) <->
  (exists o, pool_slots_ p !! j = Some (Some o)).
Proof.
  unfold update_object. destruct (slot_of p a) as [i|]; [|done]. simpl.
  destruct (decide (j = Z.to_nat i)) as [->|Hj].
  - rewrite list_lookup_alter_eq. destruct (pool_slots_ p !! Z.to_nat i) as [[o|]|]; simpl; naive_solver.
  - by rewrite list_lookup_alter_ne by done.
Qed.

Lemma update_object_none f a p j :
  pool_slots_ (update_object f a p) !! j = Some None <-> pool_slots_ p !! j = Some None.
Proof.
  unfold update_object. destruct (slot_of p a) as [i|]; [|done]. simpl.
  destruct (decide (j = Z.to_nat i)) as [->|Hj].
  - rewrite list_lookup_alter_eq. destruct (pool_slots_ p !! Z.to_nat i) as [[o|]|]; simpl; naive_solver.
  - by rewrite list_lookup_alter_ne by done.
Qed.

Lemma update_object_live f a p j : live_slot (update_object f a p) j <-> live_slot p j.
Proof. apply update_object_lookup. Qed.

Lemma update_object_wf f a p : pool_wf p -> pool_wf (update_object f a p).
Proof.
  intros [Hn Hb Hs Hl (free & Hc & Hd & Hf & Hlen) Ht].
  assert (length (pool_slots_ (update_object f a p)) = length (pool_slots_ p)) as El.
  { unfold update_object. destruct (slot_of p a); simpl; [apply length_alter|done]. }
  split; rewrite ?El; try (unfold update_object; by destruct (slot_of p a)).
  exists free. split_and!; try done.
  - unfold update_object. by destruct (slot_of p a).
  - intros i. by rewrite update_object_none, Hf.
  - unfold update_object, available in *. by destruct (slot_of p a).
Qed.

(** An object behind a pointer is in a live slot. *)
Lemma deref_live a p o :
  0 < slot_bytes_ p -> deref p a = Some o ->
  exists i, a = addr_of p (Z.of_nat i) /\ pool_slots_ p !! i = Some (Some o).
Proof.
  intros Hb. unfold deref. destruct (slot_of p a) as [z|] eqn:E; [|done]. simpl.
  destruct (pool_slots_ p !! Z.to_nat z) as [o'|] eqn:F; [|done]. simpl. intros ->.
  apply slot_of_inv in E as [Hz ->]; [|done]. exists (Z.to_nat z). rewrite Z2Nat.id by lia. done.
Qed.

(** Pointers and their slots. *)
Lemma slot_of_inj p a b i :
  0 < slot_bytes_ p -> slot_of p a = Some i -> slot_of p b = Some i -> a = b.
Proof. intros Hb [_ ->]%slot_of_inv [_ ->]%slot_of_inv; done. Qed.

(** What pointers see after an object was given back. *)
Lemma deallocate_deref a p o :
  pool_wf p -> deref p a = Some o ->
  let p' := deallocate (Some a) p in
  pool_wf p' /\ deref p' a = None /\ (forall b, b <> a -> deref p' b = deref p b) /\
  allocated_count_ p' = allocated_count_ p - 1.
Proof.
  intros Hw Hd. pose proof (pw_bytes _ Hw) as Hb.
  destruct (deref_live a p o Hb Hd) as (i & -> & Hi).
  pose proof (lookup_lt_Some _ _ _ Hi) as Hlt.
  destruct (deallocate_live i p Hw) as (Hs & Hc & _ & _ & Hz & Hst & Hsb & _ & Hw'); [by exists o|].
  set (a := addr_of p (Z.of_nat i)) in *. cbn zeta.
  assert (slot_of p a = Some (Z.of_nat i)) as Ha.
  { apply slot_of_addr; [done|]. rewrite <- (pw_slots _ Hw). lia. }
  assert (forall b, slot_of (deallocate (Some a) p) b = slot_of p b) as Hso
    by (intros b; by apply slot_of_same).
  split; [done|]. split_and!; [| |done].
  - unfold deref. rewrite Hso, Ha, Hs. simpl. by rewrite Nat2Z.id, list_lookup_insert_eq by done.
  - intros b Hne. unfold deref. rewrite Hso, Hs. destruct (slot_of p b) as [j|] eqn:Ej; [|done].
    simpl. rewrite list_lookup_insert_ne; [done|]. intros ->. apply Hne.
    pose proof (slot_of_inv _ _ _ Hb Ej). rewrite Z2Nat.id in Ha by lia. by eapply slot_of_inj.
Qed.

Lemma update_object_deref_ne f a p b : 0 < slot_bytes_ p -> b <> a ->
  deref (update_object f a p) b = deref p b.
Proof.
  intros Hb Hne. unfold deref. rewrite update_object_slot. unfold update_object.
  destruct (slot_of p a) as [i|] eqn:Ei; [|done]. simpl.
  destruct (slot_of p b) as [j|] eqn:Ej; [|done]. simpl.
  rewrite list_lookup_alter_ne; [done|]. intros E. apply Hne.
  pose proof (slot_of_inv _ _ _ Hb Ei). pose proof (slot_of_inv _ _ _ Hb Ej).
  assert (i = j) as -> by lia. by eapply slot_of_inj.
Qed.

(** * Properties *)

(** The pointer that an allocation returns leads to the constructed object. *)
Lemma allocate_deref fresh p a p' :
  pool_wf p -> allocate fresh p = (Some a, p') -> deref p' a = Some fresh.
Proof.
  intros Hw E. destruct (allocate_some _ _ _ _ Hw E) as (i & -> & Hi & Hs & _ & Hz & Hst & Hsb & Hw').
  pose proof (lookup_lt_Some _ _ _ Hi) as Hlt. unfold deref.
  replace (addr_of p (Z.of_nat i)) with (addr_of p' (Z.of_nat i))
    by (unfold addr_of; by rewrite Hst, Hsb).
  rewrite slot_of_addr; [|apply Hw'|destruct Hw; lia]. simpl.
  by rewrite Nat2Z.id, Hs, list_lookup_insert_eq.
Qed.

(** C13: allocation from a pool that is open and has a free slot hands out a slot that is
    not in use and constructs a fresh object there, leaving every live object alone; it
    fails, changing only the failure counter, exactly when the pool is shut down or all
    slots are live. *)
Theorem allocate_correct fresh p :
  pool_wf p ->
  match allocate fresh p with
  | (Some a, p') =>
      pool_is_shutdown_ p = false /\ Z.of_nat (base.size (live_set p)) < pool_size_ p /\
      exists i, a = addr_of p (Z.of_nat i) /\ i ∉ live_set p /\
        live_set p' = {[i]} ∪ live_set p /\ deref p' a = Some fresh /\
        (forall j, j ∈ live_set p -> pool_slots_ p' !! j = pool_slots_ p !! j) /\ pool_wf p'
  | (None, p') =>
      p' = fail_allocation p /\
      (pool_is_shutdown_ p = true \/ Z.of_nat (base.size (live_set p)) = pool_size_ p)
  end.
Proof.
  intros Hw. destruct (allocate fresh p) as [[a|] p'] eqn:E.
  - destruct (allocate_some _ _ _ _ Hw E) as (i & -> & Hi & Hs & _ & Hz & Hst & Hsb & Hw').
    pose proof (lookup_lt_Some _ _ _ Hi) as Hlt.
    pose proof (live_set_insert p p' i fresh Hs Hlt) as Hl.
    assert (i ∉ live_set p) as Hni by (rewrite elem_of_live_set; intros [o Ho]; congruence).
    split; [unfold allocate in E; by destruct (pool_is_shutdown_ p)|]. split.
    { pose proof (size_live_set p' Hw') as Hsz. pose proof (available_nonneg p' Hw') as Hav.
      unfold available in Hav. rewrite Hl, size_union, size_singleton in Hsz by set_solver. lia. }
    exists i. split_and!; try done.
    + by apply (allocate_deref _ p).
    + intros j Hj. rewrite Hs, list_lookup_insert_ne; [done|]. intros <-.
      apply elem_of_live_set in Hj as [o Ho]. congruence.
  - destruct (allocate_none _ _ _ Hw E) as [-> [Hsd|Ha]]; split; [done|by left|done|right].
    rewrite size_live_set by done. unfold available in Ha. lia.
Qed.

(** C14: deallocating a live object ends its life and no other, keeps the free list
    well-formed, and the next allocation of an open pool reuses that very slot. *)
Theorem deallocate_correct fresh i p :
  pool_wf p -> live_slot p i -> pool_is_shutdown_ p = false ->
  let a := addr_of p (Z.of_nat i) in
  let p' := deallocate (Some a) p in
  pool_wf p' /\ live_set p' = live_set p ∖ {[i]} /\
  (forall j, j <> i -> pool_slots_ p' !! j = pool_slots_ p !! j) /\
  fst (allocate fresh p') = Some a.
Proof.
  intros Hw Hi Hsd a p'.
  destruct (deallocate_live i p Hw Hi) as (Hs & _ & _ & _ & _ & _ & _ & _ & Hw').
  split_and!; [done| | |by apply allocate_after_deallocate].
  - apply live_set_delete; [done|]. destruct Hi as [o Ho]. by apply lookup_lt_Some in Ho.
  - intros j Hj. subst p' a. rewrite Hs. by apply list_lookup_insert_ne.
Qed.

(** C15: from a new pool of at most 2^31 slots (the indices are [int32_t]), after any
    sequence of allocations, deallocations of live objects and shutdown, the free list is
    acyclic and holds exactly the slots without an object, and the number of live objects
    is [allocated_count_], which is also allocations minus deallocations. *)
Theorem pool_reachable_wf n storage sz p0 p :
  0 < n <= 2147483648 -> 0 < sz -> newPool n storage sz = Some p0 -> rtc client_step p0 p ->
  pool_wf p /\ Z.of_nat (base.size (live_set p)) = allocated_count_ p /\
  total_allocations_ p - total_deallocations_ p = allocated_count_ p.
Proof.
  intros Hn Hz H0 H. assert (pool_wf p) as Hw.
  { pose proof (newPool_wf _ _ _ _ Hn Hz H0) as Hw. clear H0.
    induction H as [|p1 p2 p3 H12 _ IH]; [done|]. apply IH. by eapply client_step_wf. }
  split; [done|]. split; [by apply size_live_set|apply Hw].
Qed.
End Pool.
Arguments MessagePool : clear implicits.

(** A pool of three slots of 64 bytes at address 4096. *)
Definition pool3 : MessagePool Z := default (initializeFreeList
  {| pool_size_ := 0; pool_start_ := 0; slot_bytes_ := 0; pool_slots_ := [];
     free_list_head_ := 0; free_list_nodes_ := []; allocated_count_ := 0;
     total_allocations_ := 0; total_deallocations_ := 0; allocation_failures_ := 0;
     pool_is_shutdown_ := false |}) (newPool 3 (Some 4096) 64).

Lemma pool3_wf : pool_wf pool3.
Proof. by apply (newPool_wf 3 (Some 4096) 64). Qed.

Lemma pool3_two_wf : pool_wf (snd (allocate 8 (snd (allocate 7 pool3)))).
Proof.
  eapply client_step_wf; [|apply client_allocate].
  eapply client_step_wf; [|apply client_allocate]. apply pool3_wf.
Qed.

Lemma allocate_correct_witness :
  exists i, (4096 : Z) = addr_of pool3 (Z.of_nat i) /\ i ∉ live_set pool3.
Proof.
  pose proof (allocate_correct 7 pool3 pool3_wf) as H.
  change (allocate 7 pool3) with (Some 4096, (snd (allocate 7 pool3))) in H.
  destruct H as (_ & _ & i & H1 & H2 & _). exists i. split; [exact H1|exact H2].
Defined.

Lemma deallocate_correct_witness :
  let p := snd (allocate 8 (snd (allocate 7 pool3))) in
  fst (allocate 9 (deallocate (Some 4096) p)) = Some 4096.
Proof.
  apply (deallocate_correct 9 0 _ pool3_two_wf); [|reflexivity].
  exists 7. reflexivity.
Defined.

Lemma pool_reachable_wf_witness :
  let p := snd (allocate 8 (snd (allocate 7 pool3))) in
  Z.of_nat (base.size (live_set p)) = allocated_count_ p.
Proof.
  refine (proj1 (proj2 (pool_reachable_wf 3 (Some 4096) 64 pool3 _ ltac:(lia) ltac:(lia) eq_refl _))).
  eapply rtc_l; [apply client_allocate|]. eapply rtc_l; [apply client_allocate|]. apply rtc_refl.
Defined.
