(* ===== verification/PoolInterleaving.v ===== *)
(** Concurrent executions of [MessagePool]: threads inside [allocateRaw] and
    [deallocateRaw], interleaved at every access to the shared free list
    ([free_list_head_] and [next_free_index]).  [compare_exchange_weak] may also
    fail without a reason; that only repeats a loop iteration, which the retry
    transitions already allow. *)
From S2P Require Import Prelude MessagePool.

(** Where a thread is: the next access it makes. *)
Inductive pool_pc :=
  | TIdle
  | ALoadHead
  | ALoadNext (head_index : Z)
  | ACas (head_index next_index : Z)
  | DLoadHead (slot : nat)
  | DStoreNext (slot : nat) (current_head : Z)
  | DCas (slot : nat) (current_head : Z).

(** The shared free list, the threads, and the slots the clients hold (the results
    of successful allocations not yet passed to [deallocate]). *)
Record pconf := {
  pc_head : Z;
  pc_nodes : list Z;
  pc_threads : list pool_pc;
  pc_held : list nat
}.

(** One access of a thread: its next position, the free list after it, and the slot
    handed out when an allocation succeeds. *)
Definition pool_access (t : pool_pc) (head : Z) (nodes : list Z)
    : pool_pc * Z * list Z * list nat :=
  match t with
  | TIdle => (TIdle, head, nodes, [])
  | ALoadHead => (if 0 <=? head then ALoadNext head else TIdle, head, nodes, [])
  | ALoadNext h => (ACas h (default (-1) (nodes !! Z.to_nat h)), head, nodes, [])
  | ACas h nx =>
      if head =? h then (TIdle, nx, nodes, [Z.to_nat h])
      else (if 0 <=? head then ALoadNext head else TIdle, head, nodes, [])
  | DLoadHead s => (DStoreNext s head, head, nodes, [])
  | DStoreNext s c => (DCas s c, head, <[s := c]> nodes, [])
  | DCas s c =>
      if head =? c then (TIdle, wrap32 (Z.of_nat s), nodes, []) else (DStoreNext s head, head, nodes, [])
  end.

(** [frees] says whether clients call [deallocate]. *)
Inductive pstep (frees : bool) : pconf -> pconf -> Prop :=
  | pstep_call_allocate c i :
      pc_threads c !! i = Some TIdle ->
      pstep frees c {| pc_head := pc_head c; pc_nodes := pc_nodes c;
                       pc_threads := <[i := ALoadHead]> (pc_threads c);
                       pc_held := pc_held c |}
  | pstep_call_deallocate c i s h1 h2 :
      frees = true -> pc_threads c !! i = Some TIdle -> pc_held c = h1 ++ s :: h2 ->
      pstep frees c {| pc_head := pc_head c; pc_nodes := pc_nodes c;
                       pc_threads := <[i := DLoadHead s]> (pc_threads c);
                       pc_held := h1 ++ h2 |}
  | pstep_access c i t t' head' nodes' out :
      pc_threads c !! i = Some t ->
      pool_access t (pc_head c) (pc_nodes c) = (t', head', nodes', out) ->
      pstep frees c {| pc_head := head'; pc_nodes := nodes';
                       pc_threads := <[i := t']> (pc_threads c);
                       pc_held := pc_held c ++ out |}.

Definition pool_initial (n : Z) (threads : nat) : pconf :=
  {| pc_head := 0; pc_nodes := linked n; pc_threads := replicate threads TIdle;
     pc_held := [] |}.

(** The invariant when nobody frees: the remaining chain and the held slots are all
    different, and what an allocating thread read is still true. *)
Definition thread_ok (nodes : list Z) (t : pool_pc) : Prop :=
  match t with
  | TIdle | ALoadHead => True
  | ALoadNext h => 0 <= h
  | ACas h nx => 0 <= h /\ nx = default (-1) (nodes !! Z.to_nat h)
  | _ => False
  end.

(** Following [next_free_index] from [h] visits the slots of [l] and ends at a negative
    index: -1, or the wrapped index behind slot 2^31 - 1 of a larger pool. *)
Fixpoint walk (nodes : list Z) (h : Z) (l : list nat) : Prop :=
  match l with
  | [] => h < 0
  | i :: l' => h = Z.of_nat i /\ exists nx, nodes !! i = Some nx /\ walk nodes nx l'
  end.

Record pinv (c : pconf) : Prop := {
  pinv_chain : exists free, walk (pc_nodes c) (pc_head c) free /\ NoDup (pc_held c ++ free);
  pinv_threads : Forall (thread_ok (pc_nodes c)) (pc_threads c)
}.

(** * Lemmas *)

Lemma walk_linked n k :
  let m := Z.to_nat (Z.min n 2147483648) in
  0 < n -> (k <= m)%nat -> (0 < k)%nat -> walk (linked n) (Z.of_nat (m - k)) (seq (m - k) k).
Proof.
  intros m Hn. induction k as [|k IH]; intros Hk H0; [lia|].
  cbn [seq walk]. split; [done|]. eexists. rewrite linked_lookup by lia. split; [done|].
  destruct k as [|k].
  - cbn [seq walk]. destruct (Z.ltb_spec (Z.of_nat (m - 1)) (n - 1)); [|lia].
    replace (Z.of_nat (m - 1) + 1) with 2147483648 by lia. done.
  - destruct (Z.ltb_spec (Z.of_nat (m - S (S k))) (n - 1)); [|lia].
    rewrite wrap32_id by (unfold int32_range; lia).
    replace (S (m - S (S k))) with (m - S k)%nat by lia.
    replace (Z.of_nat (m - S (S k)) + 1) with (Z.of_nat (m - S k)) by lia. apply IH; lia.
Qed.

Lemma pinv_step c c' : pinv c -> pstep false c c' -> pinv c'.
Proof.
  intros [(free & Hc & Hd) Ht] Hst.
  inversion Hst as [? i Hi|? i s h1 h2 Hf|? i t t' hd nd out Hi E]; subst; [| done|].
  { split; simpl; [eauto|]. by apply Forall_insert. }
  pose proof (Forall_lookup_1 _ _ _ _ Ht Hi) as Hok.
  destruct t as [| |h|h nx|s|s cc|s cc]; simpl in *; try done.
  - injection E as <- <- <- <-. rewrite app_nil_r.
    split; simpl; rewrite ?app_nil_r; [eauto|]. by apply Forall_insert.
  - injection E as <- <- <- <-. split; simpl; rewrite ?app_nil_r; [eauto|].
    apply Forall_insert; [done|]. by destruct (Z.leb_spec 0 (pc_head c)).
  - injection E as <- <- <- <-. split; simpl; rewrite ?app_nil_r; [eauto|].
    by apply Forall_insert.
  - destruct Hok as [Hh ->]. destruct (Z.eqb_spec (pc_head c) h) as [Hhd|Hne].
    + injection E as <- <- <- <-. split; simpl; [|by apply Forall_insert].
      destruct free as [|i0 free]; simpl in Hc; [lia|].
      destruct Hc as (Heq & nx & Hn & Hc). rewrite <- Hhd, Heq, Nat2Z.id, Hn. simpl.
      exists free. split; [done|]. by rewrite <- app_assoc.
    + injection E as <- <- <- <-. split; simpl; rewrite ?app_nil_r; [eauto|].
      apply Forall_insert; [done|]. by destruct (Z.leb_spec 0 (pc_head c)).
Qed.

(** A computable run. *)
Inductive pmove := PAlloc (i : nat) | PFree (i : nat) (pos : nat) | PGo (i : nat).

Definition pmove_conf (m : pmove) (c : pconf) : pconf :=
  match m with
  | PAlloc i =>
      {| pc_head := pc_head c; pc_nodes := pc_nodes c;
         pc_threads := <[i := ALoadHead]> (pc_threads c); pc_held := pc_held c |}
  | PFree i pos =>
      {| pc_head := pc_head c; pc_nodes := pc_nodes c;
         pc_threads := <[i := DLoadHead (default O (pc_held c !! pos))]> (pc_threads c);
         pc_held := take pos (pc_held c) ++ drop (S pos) (pc_held c) |}
  | PGo i =>
      let '(t', head', nodes', out) :=
        pool_access (default TIdle (pc_threads c !! i)) (pc_head c) (pc_nodes c) in
      {| pc_head := head'; pc_nodes := nodes'; pc_threads := <[i := t']> (pc_threads c);
         pc_held := pc_held c ++ out |}
  end.

Definition pmove_allowed (frees : bool) (m : pmove) (c : pconf) : bool :=
  match m with
  | PAlloc i => match pc_threads c !! i with Some TIdle => true | _ => false end
  | PFree i pos =>
      frees && bool_decide (pos < length (pc_held c))%nat &&
      match pc_threads c !! i with Some TIdle => true | _ => false end
  | PGo i => bool_decide (is_Some (pc_threads c !! i))
  end.

Fixpoint pmoves_allowed (frees : bool) (ms : list pmove) (c : pconf) : bool :=
  match ms with
  | [] => true
  | m :: ms' => pmove_allowed frees m c && pmoves_allowed frees ms' (pmove_conf m c)
  end.

Lemma pmove_step frees m c :
  pmove_allowed frees m c = true -> pstep frees c (pmove_conf m c).
Proof.
  destruct m as [i|i pos|i]; simpl.
  - destruct (pc_threads c !! i) as [[]|] eqn:E; try done. intros _.
    by apply pstep_call_allocate.
  - rewrite !andb_true_iff, bool_decide_eq_true. intros [[Hf Hp] Ht].
    destruct (pc_threads c !! i) as [[]|] eqn:E; try done.
    destruct (lookup_lt_is_Some_2 (pc_held c) pos Hp) as [s Hs]. rewrite Hs. simpl.
    apply pstep_call_deallocate; [done|done|]. by rewrite take_drop_middle.
  - rewrite bool_decide_eq_true. intros [t Ht]. rewrite Ht. simpl.
    destruct (pool_access t (pc_head c) (pc_nodes c)) as [[[t' hd] nd] out] eqn:E.
    by apply pstep_access with (t := t).
Qed.

Lemma pmoves_steps frees ms c :
  pmoves_allowed frees ms c = true ->
  rtc (pstep frees) c (fold_left (fun c m => pmove_conf m c) ms c).
Proof.
  revert c. induction ms as [|m ms IH]; intros c; simpl; [intros _; apply rtc_refl|].
  rewrite andb_true_iff. intros [H1 H2].
  eapply rtc_l; [by apply pmove_step|by apply IH].
Qed.

(** * Properties *)

(** C16: while no thread is inside [deallocate], any number of threads may allocate
    concurrently: in every interleaving all slots handed out are different. *)
Theorem concurrent_allocation_unique n k c :
  0 < n -> rtc (pstep false) (pool_initial n k) c -> NoDup (pc_held c).
Proof.
  intros Hn H. enough (pinv c) as [(free & _ & Hd) _] by (by apply NoDup_app in Hd as [? _]).
  assert (pinv (pool_initial n k)) as I.
  { split; simpl; [|by apply Forall_replicate].
    exists (seq 0 (Z.to_nat (Z.min n 2147483648))). split.
    - pose proof (walk_linked n (Z.to_nat (Z.min n 2147483648)) Hn ltac:(lia) ltac:(lia)) as E.
      by rewrite Nat.sub_diag in E.
    - simpl. apply NoDup_ListNoDup, seq_NoDup. }
  clear Hn. revert I. induction H as [|c1 c2 c3 H12 _ IH]; [done|].
  intros I. apply IH. by eapply pinv_step.
Qed.

Lemma concurrent_allocation_unique_witness :
  exists c, rtc (pstep false) (pool_initial 3 2) c /\ pc_held c = [0; 1]%nat /\ NoDup (pc_held c).
Proof.
  pose (ms := [PAlloc 0; PAlloc 1; PGo 0; PGo 1; PGo 0; PGo 1; PGo 0; PGo 1; PGo 1; PGo 1]).
  pose (c := fold_left (fun c m => pmove_conf m c) ms (pool_initial 3 2)).
  assert (rtc (pstep false) (pool_initial 3 2) c) as Hs
    by (apply pmoves_steps; vm_compute; reflexivity).
  exists c. split; [exact Hs|]. split; [vm_compute; reflexivity|].
  apply (concurrent_allocation_unique 3 2 c); [lia|exact Hs].
Defined.

(** With deallocation running concurrently the free list suffers the ABA
    problem: there is an interleaving of two threads over a pool of three slots,
    every one of which frees only what it holds, after which one slot is held
    twice, so two live [FixMessage] pointers are the same object. *)
Lemma aba_double_allocation :
  exists c, rtc (pstep true) (pool_initial 3 2) c /\
  pc_threads c = [TIdle; TIdle] /\ pc_held c = [1; 0; 1]%nat.
Proof.
  pose (ms := [PAlloc 0; PGo 0; PGo 0;
               PAlloc 1; PGo 1; PGo 1; PGo 1;
               PAlloc 1; PGo 1; PGo 1; PGo 1;
               PFree 1 0; PGo 1; PGo 1; PGo 1;
               PGo 0;
               PAlloc 0; PGo 0; PGo 0; PGo 0]).
  exists (fold_left (fun c m => pmove_conf m c) ms (pool_initial 3 2)).
  split; [apply pmoves_steps; by vm_compute|]. by vm_compute.
Qed.
