(* ===== verification/GlobalPool.v ===== *)
(** The rest of [include/common/message_pool.h]: allocation with constructor
    arguments (and a constructor that throws), prewarming, the statistics, and
    [GlobalMessagePool<T>], the pool created on first use by double-checked
    locking, under every interleaving of threads that ask for it and of a thread
    that shuts it down. *)
From S2P Require Import Prelude FixFields Doubles MessagePool.

Section PoolRest.
Context {T : Type}.

(** [allocateWithArgs]: as [allocateRaw], but the object is built by a
    constructor that may throw ([None]); the slot has been taken by then and
    nothing gives it back. *)
Definition take_slot (p : MessagePool T) : MessagePool T :=
  let head_index := free_list_head_ p in
  let next_index := default (-1) (free_list_nodes_ p !! Z.to_nat head_index) in
  {| pool_size_ := pool_size_ p; pool_start_ := pool_start_ p; slot_bytes_ := slot_bytes_ p;
     pool_slots_ := pool_slots_ p; free_list_head_ := next_index;
     free_list_nodes_ := free_list_nodes_ p;
     allocated_count_ := allocated_count_ p + 1;
     total_allocations_ := total_allocations_ p + 1;
     total_deallocations_ := total_deallocations_ p;
     allocation_failures_ := allocation_failures_ p;
     pool_is_shutdown_ := pool_is_shutdown_ p |}.

Definition construct_at (i : Z) (obj : T) (p : MessagePool T) : MessagePool T :=
  {| pool_size_ := pool_size_ p; pool_start_ := pool_start_ p; slot_bytes_ := slot_bytes_ p;
     pool_slots_ := <[Z.to_nat i := Some obj]> (pool_slots_ p);
     free_list_head_ := free_list_head_ p; free_list_nodes_ := free_list_nodes_ p;
     allocated_count_ := allocated_count_ p; total_allocations_ := total_allocations_ p;
     total_deallocations_ := total_deallocations_ p;
     allocation_failures_ := allocation_failures_ p;
     pool_is_shutdown_ := pool_is_shutdown_ p |}.

Definition allocateWithArgs (construct : option T) : M (MessagePool T) (option Z) := fun p =>
  let head_index := free_list_head_ p in
  if 0 <=? head_index then
    let p := take_slot p in
    match construct with
    | Some obj => (Ret (Some (addr_of p head_index)), construct_at head_index obj p)
    | None => (Throw, p)
    end
  else (Ret None, fail_allocation p).

(** [allocate(args...)] *)
Definition allocateArgs (construct : option T) : M (MessagePool T) (option Z) := fun p =>
  if pool_is_shutdown_ p then (Ret None, fail_allocation p) else allocateWithArgs construct p.

(** [prewarm]: a zero is stored in the first byte of every slot, also of one
    that holds an object; [zero_first] is what that does to an object. *)
Definition prewarm (zero_first : T -> T) (p : MessagePool T) : MessagePool T :=
  {| pool_size_ := pool_size_ p; pool_start_ := pool_start_ p; slot_bytes_ := slot_bytes_ p;
     pool_slots_ := map (option_map zero_first) (pool_slots_ p);
     free_list_head_ := free_list_head_ p; free_list_nodes_ := free_list_nodes_ p;
     allocated_count_ := allocated_count_ p; total_allocations_ := total_allocations_ p;
     total_deallocations_ := total_deallocations_ p;
     allocation_failures_ := allocation_failures_ p;
     pool_is_shutdown_ := pool_is_shutdown_ p |}.

Definition capacity (p : MessagePool T) : Z := pool_size_ p.
Definition allocated (p : MessagePool T) : Z := allocated_count_ p.
Definition isEmpty (p : MessagePool T) : bool := available p =? 0.
Definition isFull (p : MessagePool T) : bool := allocated p =? pool_size_ p.

Record PoolStats := mkPoolStats {
  total_capacity : Z; available_count : Z; allocated_count : Z;
  total_allocations : Z; total_deallocations : Z; allocation_failures : Z
}.
Definition getStats (p : MessagePool T) : PoolStats :=
  mkPoolStats (pool_size_ p) (available p) (allocated p) (total_allocations_ p)
    (total_deallocations_ p) (allocation_failures_ p).

(** [toString]; [type_name] is [typeid(T).name()].  The percentage is printed in
    the stream's default format. *)
Definition poolToString (type_name pool_name nan_text : bytes) (p : MessagePool T) : bytes :=
  let stats := getStats p in
  str "MessagePool<" ++ type_name ++ str ">{" ++ str "name=" ++ pool_name ++
  str ", capacity=" ++ to_string (total_capacity stats) ++
  str ", allocated=" ++ to_string (allocated_count stats) ++
  str ", available=" ++ to_string (available_count stats) ++
  str ", total_allocs=" ++ to_string (total_allocations stats) ++
  str ", total_deallocs=" ++ to_string (total_deallocations stats) ++
  str ", failures=" ++ to_string (allocation_failures stats) ++
  str ", utilization=" ++
  print_general nan_text (ddiv (dmul (d_of_Z (allocated_count stats)) (d_of_Z 100))
                            (d_of_Z (total_capacity stats))) ++ str "%" ++ str "}".

(** ** Facts *)

(** With a constructor that succeeds, the two allocations are the same. *)
Lemma allocateArgs_allocate obj (p : MessagePool T) :
  allocateArgs (Some obj) p = (Ret (fst (allocate obj p)), snd (allocate obj p)).
Proof.
  unfold allocateArgs, allocateWithArgs, allocate, allocateRaw.
  destruct (pool_is_shutdown_ p) eqn:E; [done|].
  destruct (0 <=? free_list_head_ p); [|done].
  unfold construct_at, take_slot. simpl. by rewrite E.
Qed.

(** Exhausted and full are the same condition. *)
Lemma isEmpty_isFull (p : MessagePool T) : isEmpty p = isFull p.
Proof. unfold isEmpty, isFull, allocated, available. lia. Qed.

(** A constructor that throws leaks its slot: the slot leaves the free list and
    counts as allocated, but holds no object, so no pointer can give it back. *)
Lemma throwing_constructor_leaks (p : MessagePool T) i l :
  pool_wf p -> pool_is_shutdown_ p = false ->
  chain (free_list_nodes_ p) (free_list_head_ p) (i :: l) ->
  exists p', allocateArgs None p = (Throw, p') /\
    chain (free_list_nodes_ p') (free_list_head_ p') l /\
    available p' = available p - 1 /\ pool_slots_ p' = pool_slots_ p.
Proof.
  intros _ Hs [Hh (nx & Hnx & Hl)]. unfold allocateArgs, allocateWithArgs. rewrite Hs, Hh.
  destruct (Z.leb_spec 0 (Z.of_nat i)); [|lia]. eexists. split; [done|].
  unfold take_slot, available. simpl. rewrite Hh, Nat2Z.id, Hnx. simpl.
  split_and!; [done|lia|done].
Qed.

(** Prewarming changes neither the free list nor which slots are live. *)
Lemma prewarm_live zero_first (p : MessagePool T) i :
  (exists o, pool_slots_ (prewarm zero_first p) !! i = Some (Some o)) <-> live_slot p i.
Proof.
  unfold live_slot. simpl. rewrite (list_lookup_fmap (option_map zero_first)).
  destruct (pool_slots_ p !! i) as [[o|]|]; simpl; naive_solver.
Qed.
End PoolRest.

(** * [GlobalMessagePool] *)

(** A constructed pool: its capacity, whether it was prewarmed, shut down,
    destroyed. *)
Record pool_object := mkPool {
  po_size : Z; po_prewarmed : bool; po_shutdown : bool; po_destroyed : bool
}.

(** Where a thread is: inside [getInstance(pool_size)] or inside [shutdown()]. *)
Inductive gpc :=
| Check1 (pool_size : Z)      (* initialized_.load(acquire) *)
| Lock (pool_size : Z)        (* lock_guard *)
| Check2 (pool_size : Z)      (* initialized_.load(relaxed) *)
| Construct (pool_size : Z)   (* instance_ = make_unique(...) *)
| Prewarm                     (* instance_->prewarm() *)
| Publish                     (* initialized_.store(true, release) *)
| Unlock                      (* end of the lock_guard's scope *)
| Deref                       (* return *instance_ *)
| Got (pool : nat)
| Threw                       (* an exception of the constructor left getInstance *)
| NullReference               (* *instance_ of a null pointer *)
| SCheck                      (* if (instance_) *)
| SShutdown                   (* instance_->shutdown() *)
| SReset                      (* instance_.reset() *)
| SStore                      (* initialized_.store(false, release) *)
| SDone.

Record gconf := mkConf {
  initialized_ : bool;
  instance_ : option nat;
  mutex : option nat;
  pools : list pool_object;
  gthreads : list gpc
}.

(** Whether the call of thread [t] gets the memory of a pool of [n] slots; otherwise the
    constructor throws [std::bad_alloc] or [std::bad_array_new_length]. *)
Section Global.
Variable memory : nat -> Z -> bool.

Definition goto (t : nat) (pc : gpc) (c : gconf) : gconf :=
  mkConf (initialized_ c) (instance_ c) (mutex c) (pools c) (<[t := pc]> (gthreads c)).

(** One access of thread [t] inside [getInstance]: its next position and the shared state;
    [None] when it is elsewhere or has to wait. *)
Definition getInstance_access (t : nat) (pc : gpc) (c : gconf) : option gconf :=
  match pc with
  | Check1 n => Some (goto t (if initialized_ c then Deref else Lock n) c)
  | Lock n =>
      match mutex c with
      | Some _ => None
      | None => Some (mkConf (initialized_ c) (instance_ c) (Some t) (pools c)
                        (<[t := Check2 n]> (gthreads c)))
      end
  | Check2 n => Some (goto t (if initialized_ c then Unlock else Construct n) c)
  | Construct n =>
      if (n =? 0) || negb (memory t n) then
        (* the constructor throws; the lock_guard releases the mutex *)
        Some (mkConf (initialized_ c) (instance_ c) None (pools c) (<[t := Threw]> (gthreads c)))
      else
        Some (mkConf (initialized_ c) (Some (length (pools c))) (mutex c)
                (pools c ++ [mkPool n false false false]) (<[t := Prewarm]> (gthreads c)))
  | Prewarm =>
      match instance_ c with
      | Some i =>
          Some (mkConf (initialized_ c) (instance_ c) (mutex c)
                  (alter (fun p => mkPool (po_size p) true (po_shutdown p) (po_destroyed p)) i (pools c))
                  (<[t := Publish]> (gthreads c)))
      | None => Some (goto t NullReference c)
      end
  | Publish => Some (mkConf true (instance_ c) (mutex c) (pools c) (<[t := Unlock]> (gthreads c)))
  | Unlock => Some (mkConf (initialized_ c) (instance_ c) None (pools c) (<[t := Deref]> (gthreads c)))
  | Deref => Some (goto t (match instance_ c with Some i => Got i | None => NullReference end) c)
  | _ => None
  end.

(** The same inside [shutdown]. *)
Definition shutdown_access (t : nat) (pc : gpc) (c : gconf) : option gconf :=
  match pc with
  | SCheck => Some (goto t (match instance_ c with Some _ => SShutdown | None => SDone end) c)
  | SShutdown =>
      match instance_ c with
      | Some i =>
          Some (mkConf (initialized_ c) (instance_ c) (mutex c)
                  (alter (fun p => mkPool (po_size p) (po_prewarmed p) true (po_destroyed p)) i (pools c))
                  (<[t := SReset]> (gthreads c)))
      | None => Some (goto t NullReference c)
      end
  | SReset =>
      Some (mkConf (initialized_ c) None (mutex c)
              (match instance_ c with
               | Some i => alter (fun p => mkPool (po_size p) (po_prewarmed p) (po_shutdown p) true) i (pools c)
               | None => pools c
               end) (<[t := SStore]> (gthreads c)))
  | SStore => Some (mkConf false (instance_ c) (mutex c) (pools c) (<[t := SDone]> (gthreads c)))
  | _ => None
  end.

Definition gaccess (t : nat) (pc : gpc) (c : gconf) : option gconf :=
  match pc with
  | SCheck | SShutdown | SReset | SStore => shutdown_access t pc c
  | _ => getInstance_access t pc c
  end.

Inductive gstep : gconf -> gconf -> Prop :=
| g_access t pc c c' :
    gthreads c !! t = Some pc -> gaccess t pc c = Some c' -> gstep c c'.

(** The statics before any call, and threads that have just called [getInstance]
    (or [shutdown]). *)
Definition ginitial (ts : list gpc) : gconf := mkConf false None None [] ts.

Inductive greach (ts : list gpc) : gconf -> Prop :=
| gr_init : greach ts (ginitial ts)
| gr_step c c' : greach ts c -> gstep c c' -> greach ts c'.

(** * The invariant when nobody shuts the pool down *)

Definition starting (pc : gpc) : Prop := exists n, pc = Check1 n.

(** A pool in service. *)
Definition healthy (p : pool_object) : Prop :=
  po_size p <> 0 /\ po_shutdown p = false /\ po_destroyed p = false.

(** What is true when thread [t] is at [pc]. *)
Definition pc_ok (t : nat) (pc : gpc) (c : gconf) : Prop :=
  match pc with
  | Check1 _ | Lock _ => mutex c <> Some t
  | Check2 _ => mutex c = Some t
  | Construct _ => mutex c = Some t /\ initialized_ c = false /\ instance_ c = None
  | Prewarm => mutex c = Some t /\ initialized_ c = false /\ instance_ c = Some O
  | Publish => mutex c = Some t /\ initialized_ c = false /\ instance_ c = Some O /\
               exists p, pools c = [p] /\ po_prewarmed p = true
  | Unlock => mutex c = Some t /\ initialized_ c = true
  | Deref => mutex c <> Some t /\ initialized_ c = true
  | Got i => mutex c <> Some t /\ initialized_ c = true /\ i = O
  | Threw => mutex c <> Some t
  | _ => False
  end.

Record ginv (c : gconf) : Prop := {
  gi_threads : forall t pc, gthreads c !! t = Some pc -> pc_ok t pc c;
  gi_pools : match instance_ c with
             | None => pools c = [] /\ initialized_ c = false
             | Some i => i = O /\ exists p, pools c = [p] /\ healthy p /\
                         (initialized_ c = true -> po_prewarmed p = true)
             end;
  gi_pending : initialized_ c = false -> instance_ c = Some O ->
    exists t, mutex c = Some t /\
      (gthreads c !! t = Some Prewarm \/ gthreads c !! t = Some Publish)
}.

(** The invariant of the threads after a step of thread [t]: its own new position,
    and the others, whose condition must survive the change. *)
Lemma threads_update t pc c (c' : gconf) :
  gthreads c' = <[t := pc]> (gthreads c) -> (t < length (gthreads c))%nat ->
  pc_ok t pc c' ->
  (forall t' pc', t' <> t -> gthreads c !! t' = Some pc' -> pc_ok t' pc' c -> pc_ok t' pc' c') ->
  (forall t' pc', gthreads c !! t' = Some pc' -> pc_ok t' pc' c) ->
  forall t' pc', gthreads c' !! t' = Some pc' -> pc_ok t' pc' c'.
Proof.
  intros E Hlt Hpc Hothers Hall t' pc' H. rewrite E in H.
  destruct (decide (t' = t)) as [->|Hne].
  - rewrite list_lookup_insert_eq in H by done. by simplify_eq.
  - rewrite list_lookup_insert_ne in H by done. by eauto.
Qed.

Lemma pending_update t pc (m : option nat) (ts : list gpc) :
  m <> Some t ->
  (exists t0, m = Some t0 /\ (ts !! t0 = Some Prewarm \/ ts !! t0 = Some Publish)) ->
  exists t0, m = Some t0 /\
    (<[t := pc]> ts !! t0 = Some Prewarm \/ <[t := pc]> ts !! t0 = Some Publish).
Proof.
  intros Hne (t0 & Ht0 & H). exists t0. split; [done|].
  by rewrite list_lookup_insert_ne by congruence.
Qed.

Ltac other_threads := intros ? pc' ? ? ?; destruct pc'; simpl in *; naive_solver congruence.

(** Splits the invariant after a step of thread [t]: its own condition, the pools,
    the pending publication. *)
Ltac ginv_split Hi :=
  split; [eapply threads_update; [reflexivity|done| |other_threads|apply Hi] | |];
  simpl.

Lemma ginv_step c c' : ginv c -> gstep c c' -> ginv c'.
Proof.
  intros Hi Hs. destruct Hs as [t pc c c' Ht Ha].
  pose proof (lookup_lt_Some _ _ _ Ht) as Hlt.
  pose proof (gi_threads _ Hi t pc Ht) as Hpc.
  pose proof (gi_pools _ Hi) as Hp. pose proof (gi_pending _ Hi) as Hd.
  destruct pc as [n|n|n|n| | | | | | | | | | | |]; simpl in Hpc; try done; simpl in Ha; unfold goto in Ha.
  - (* Check1 *) simplify_eq. ginv_split Hi; [|done|].
    + destruct (initialized_ c); simpl; auto.
    + intros Hi0 Hi1. apply pending_update; auto.
  - (* Lock *) destruct (mutex c) eqn:Em; [done|]. simplify_eq. ginv_split Hi; [done|done|].
    intros Hi0 Hi1. destruct (Hd Hi0 Hi1) as (? & ? & _). done.
  - (* Check2 *) simplify_eq.
    assert (initialized_ c = false -> instance_ c = None) as Hnone.
    { intros Hf. destruct (instance_ c) as [i|]; [|done]. destruct Hp as [-> _].
      destruct (Hd Hf eq_refl) as (t0 & Ht0 & Hpc0). naive_solver. }
    ginv_split Hi; [|done|].
    + destruct (initialized_ c) eqn:E; simpl; auto.
    + intros Hi0 Hi1. specialize (Hnone Hi0). congruence.
  - (* Construct *) destruct Hpc as (Hm & Hf & Hn). rewrite Hn in Hp. destruct Hp as [Hp _].
    destruct ((n =? 0) || negb (memory t n)) eqn:Hz.
    + simplify_eq. ginv_split Hi; [done|by rewrite Hn|congruence].
    + apply orb_false_iff in Hz as [Hz _]. apply Z.eqb_neq in Hz. simplify_eq. ginv_split Hi.
      * by rewrite Hp.
      * rewrite Hp. split; [done|]. eexists. split; [done|]. split; [done|]. congruence.
      * intros _ _. exists t. split; [done|]. left. by apply list_lookup_insert_eq.
  - (* Prewarm *) destruct Hpc as (Hm & Hf & Hn). rewrite Hn in *.
    destruct Hp as (_ & p & Hp & Hh & _). simplify_eq. rewrite Hp. ginv_split Hi.
    + split_and!; try done. by eexists.
    + split; [done|]. eexists. split; [done|]. by split.
    + intros _ _. exists t. split; [done|]. right. by apply list_lookup_insert_eq.
  - (* Publish *) destruct Hpc as (Hm & Hf & Hn & p & Hp' & Hw). rewrite Hn in *.
    destruct Hp as (_ & p' & Hp & Hh & _). simplify_eq. ginv_split Hi; [done| |done].
    assert (p = p') as -> by congruence. split; [done|]. by exists p'.
  - (* Unlock *) destruct Hpc as (Hm & Hf). simplify_eq. ginv_split Hi; [done|done|congruence].
  - (* Deref *) destruct Hpc as (Hm & Hf). simplify_eq. ginv_split Hi; [|done|congruence].
    destruct (instance_ c) as [i|]; [by destruct Hp as [-> _]|destruct Hp; congruence].
Qed.

Lemma ginv_reach ts c : Forall starting ts -> greach ts c -> ginv c.
Proof.
  intros Hts Hr. induction Hr as [|c c' _ IH Hs]; [|by eapply ginv_step].
  split; simpl; [|done|done].
  intros t pc Ht. destruct (Forall_lookup_1 _ _ _ _ Hts Ht) as [n ->]. done.
Qed.

(** The calls whose constructor throws *)
Definition refused (t : nat) (n : Z) : Prop := n = 0 \/ memory t n = false.

(** Every requested size is the one a call was made with. *)
Definition requested (ts : list gpc) (c : gconf) : Prop :=
  (forall t pc, gthreads c !! t = Some pc ->
     match pc with
     | Check1 n | Lock n | Check2 n | Construct n => ts !! t = Some (Check1 n)
     | Threw => exists n, ts !! t = Some (Check1 n) /\ refused t n
     | _ => True
     end) /\
  (forall p, p ∈ pools c -> exists t, ts !! t = Some (Check1 (po_size p))).

Lemma requested_reach ts c : Forall starting ts -> greach ts c -> requested ts c.
Proof.
  intros Hts Hr. induction Hr as [|c c' Hr [IHt IHp] Hs].
  { split; simpl; [|by intros p ?%elem_of_nil]. intros t pc Ht.
    by destruct (Forall_lookup_1 _ _ _ _ Hts Ht) as [n ->]. }
  pose proof (ginv_reach ts c Hts Hr) as Hi. destruct Hs as [t pc c c' Ht Ha].
  pose proof (IHt t pc Ht) as Hpc. pose proof (gi_threads _ Hi t pc Ht) as Hok.
  pose proof (lookup_lt_Some _ _ _ Ht) as Hlt.
  assert (forall pc1, (match pc1 with
     | Check1 n | Lock n | Check2 n | Construct n => ts !! t = Some (Check1 n)
     | Threw => exists n, ts !! t = Some (Check1 n) /\ refused t n | _ => True end) ->
    forall t' pc', <[t := pc1]> (gthreads c) !! t' = Some pc' -> match pc' with
     | Check1 n | Lock n | Check2 n | Construct n => ts !! t' = Some (Check1 n)
     | Threw => exists n, ts !! t' = Some (Check1 n) /\ refused t' n | _ => True end) as Hup.
  { intros pc1 H1 t' pc' H. destruct (decide (t = t')) as [->|Hne].
    - rewrite list_lookup_insert_eq in H by done. by simplify_eq.
    - rewrite list_lookup_insert_ne in H by done. by apply IHt. }
  destruct pc; simpl in Ha, Hok; unfold goto in Ha; try done;
    repeat case_match; simplify_eq; split; simpl; try done;
    try (apply Hup; try done; by destruct (initialized_ c)).
  - apply Hup. exists pool_size. split; [done|]. unfold refused. by destruct (memory t pool_size); [left; lia|right].
  - intros p [Hp|Hp]%elem_of_app; [by apply IHp|]. apply list_elem_of_singleton in Hp as ->.
    by exists t.
  - intros p Hp. destruct Hok as (_ & _ & Hn). simplify_eq.
    pose proof (gi_pools _ Hi) as Hps.
    destruct (instance_ c) as [j|] eqn:E; [|done]. destruct Hps as (-> & q & Hq & _).
    simplify_eq. rewrite Hq in Hp. apply list_elem_of_singleton in Hp as ->. simpl.
    apply IHp. rewrite Hq. by left.
Qed.

Definition critical (pc : gpc) : Prop :=
  match pc with
  | Check2 _ | Construct _ | Prewarm | Publish | Unlock => True
  | _ => False
  end.

(** * Properties *)

(** C37: [getInstance] constructs one pool.  Whatever the interleaving of any
    number of threads that call it (and nobody shuts the pool down), at most one
    pool is ever constructed, with the size some caller asked for; every call
    that returns gives that pool, which is prewarmed and in service by then; no
    call dereferences a null pointer; a call throws only if its own size is zero or it
    got no memory for that size; and no two threads are inside the critical section. *)
Theorem global_pool_once ts c :
  Forall starting ts -> greach ts c ->
  (length (pools c) <= 1)%nat /\
  (forall t i, gthreads c !! t = Some (Got i) ->
     exists p t', i = O /\ pools c = [p] /\ healthy p /\ po_prewarmed p = true /\
                  ts !! t' = Some (Check1 (po_size p))) /\
  (forall t pc, gthreads c !! t = Some pc ->
     pc <> NullReference /\ (pc = Threw -> exists n, ts !! t = Some (Check1 n) /\ refused t n)) /\
  (forall t t' pc pc', gthreads c !! t = Some pc -> gthreads c !! t' = Some pc' ->
     critical pc -> critical pc' -> t = t').
Proof.
  intros Hts Hr. pose proof (ginv_reach ts c Hts Hr) as Hi. pose proof (gi_pools _ Hi) as Hp.
  destruct (requested_reach ts c Hts Hr) as [Hrt Hrp].
  split_and!.
  - destruct (instance_ c); [destruct Hp as (_ & p & -> & _)|destruct Hp as [-> _]]; simpl; lia.
  - intros t i Ht. destruct (gi_threads _ Hi t _ Ht) as (_ & Hinit & ->).
    destruct (instance_ c); [|destruct Hp; congruence].
    destruct Hp as (_ & p & Hps & Hh & Hw). destruct (Hrp p) as [t' Ht']; [rewrite Hps; by left|].
    eauto 10.
  - intros t pc Ht. pose proof (gi_threads _ Hi t _ Ht) as Hok. pose proof (Hrt t _ Ht).
    by split; intros ->.
  - intros t t' pc pc' Ht Ht' Hc Hc'.
    pose proof (gi_threads _ Hi t _ Ht) as Hok. pose proof (gi_threads _ Hi t' _ Ht') as Hok'.
    destruct pc; try done; destruct pc'; try done; simpl in Hok, Hok'; naive_solver congruence.
Qed.

(** Running a schedule: at each turn the named thread makes one access. *)
Fixpoint gtrace (schedule : list nat) (c : gconf) : option gconf :=
  match schedule with
  | [] => Some c
  | t :: schedule => pc ← gthreads c !! t; c' ← gaccess t pc c; gtrace schedule c'
  end.

Lemma gtrace_reach ts schedule c c' :
  greach ts c -> gtrace schedule c = Some c' -> greach ts c'.
Proof.
  revert c. induction schedule as [|t schedule IH]; intros c Hr H; simpl in H; [by simplify_eq|].
  destruct (gthreads c !! t) as [pc|] eqn:Ht; [|done]. simpl in H.
  destruct (gaccess t pc c) as [c1|] eqn:Ha; [|done]. simpl in H.
  apply (IH c1); [|done]. eapply gr_step; [done|]. by eapply g_access.
Qed.

End Global.

(** Two threads race: both see no pool, one constructs it, both get it. *)
Lemma global_pool_once_witness :
  exists c, greach (fun _ _ => true) [Check1 8; Check1 16] c /\ gthreads c = [Got 0; Got 0] /\
    (length (pools c) <= 1)%nat.
Proof.
  eexists. assert (greach (fun _ _ => true) [Check1 8; Check1 16]
    (mkConf true (Some O) None [mkPool 16 true false false] [Got 0; Got 0])) as Hr.
  { apply (gtrace_reach _ _ [0; 1; 1; 1; 1; 1; 1; 1; 1; 0; 0; 0; 0]%nat _ _ (gr_init _ _)). by vm_compute. }
  split; [exact Hr|]. split; [reflexivity|].
  apply (global_pool_once _ [Check1 8; Check1 16] _
           ltac:(repeat constructor; by eexists) Hr).
Defined.

(** [shutdown] clears the pointer before the flag: a call of [getInstance] in
    between sees the flag set and dereferences a null pointer. *)
Lemma shutdown_races :
  exists c, greach (fun _ _ => true) [Check1 8; SCheck; Check1 8] c /\ gthreads c !! 2%nat = Some NullReference.
Proof.
  eexists. split.
  - apply (gtrace_reach _ _ [0; 0; 0; 0; 0; 0; 0; 0; 1; 1; 1; 2; 2]%nat _ _ (gr_init _ _)).
    by vm_compute.
  - done.
Qed.

(** A reference returned before [shutdown] refers to a destroyed pool after it. *)
Lemma shutdown_dangles :
  exists c, greach (fun _ _ => true) [Check1 8; SCheck] c /\ gthreads c !! 0%nat = Some (Got 0) /\
    pools c = [mkPool 8 true true true].
Proof.
  eexists. split; [|split].
  - apply (gtrace_reach _ _ [0; 0; 0; 0; 0; 0; 0; 0; 1; 1; 1; 1]%nat _ _ (gr_init _ _)).
    by vm_compute.
  - done.
  - done.
Qed.
