(* ===== verification/FixMessage.v ===== *)
(** [protocol::FixMessage] of [fix_message.h] / [fix_message.cpp]: the field map,
    the caches of the serialised string and of the message type, field access,
    validation, serialisation with body length and checksum, the parser of the
    string constructor, copying and moving, and the factory methods that build
    messages in a [MessagePool].

    [std::unordered_map] iterates in an unspecified order: the interface
    [FieldOrder] gives that order, of which only that every field occurs once is
    known.  The four [time_point] members (creation, last modification, processing
    start and end) only feed latency reports and are in [FieldText], as are fields
    with floating-point values; the wall clock that fills [SendingTime] is an argument, in milliseconds since the epoch. *)
From S2P Require Import Prelude FixFields MessagePool.

(** The iteration order of [std::unordered_map<int, std::string>]. *)
Class FieldOrder := {
  field_iter : gmap Z bytes -> list (Z * bytes);
  field_iter_perm : forall m, field_iter m ≡ₚ map_to_list m
}.

(** One possible order, for running the definitions. *)
Definition canonical_order : FieldOrder :=
  {| field_iter := map_to_list; field_iter_perm := fun m => Permutation_refl _ |}.

(** * Wall-clock time *)

Definition pad (width : nat) (s : bytes) : bytes :=
  replicate (width - length s) 48 ++ s.

(** Year, month and day of a day number since 1970-01-01 ([gmtime]). *)
Definition civil_from_days (days : Z) : Z * Z * Z :=
  let z := days + 719468 in
  let era := z / 146097 in
  let doe := z - era * 146097 in
  let yoe := (doe - doe / 1460 + doe / 36524 - doe / 146096) / 365 in
  let y := yoe + era * 400 in
  let doy := doe - (365 * yoe + yoe / 4 - yoe / 100) in
  let mp := (5 * doy + 2) / 153 in
  let d := doy - (153 * mp + 2) / 5 + 1 in
  let m := if mp <? 10 then mp + 3 else mp - 9 in
  (if m <=? 2 then y + 1 else y, m, d).

(** [std::put_time(std::gmtime(&t), "%Y%m%d-%H:%M:%S")] *)
Definition put_time (secs : Z) : bytes :=
  let '(y, m, d) := civil_from_days (secs / 86400) in
  let t := secs mod 86400 in
  pad 4 (to_string y) ++ pad 2 (to_string m) ++ pad 2 (to_string d) ++ str "-" ++
  pad 2 (to_string (t / 3600)) ++ str ":" ++ pad 2 (to_string (t / 60 mod 60)) ++ str ":" ++
  pad 2 (to_string (t mod 60)).

(** * The message object *)

Record FixMessage := {
  fields_ : gmap Z bytes;
  checksumValid_ : bool;
  lengthValid_ : bool;
  cachedString_ : bytes;
  stringCacheValid_ : bool;
  cachedMsgType_ : FixMsgType;
  msgTypeCached_ : bool
}.

(** A message object with these fields and empty caches. *)
Definition with_fields (fs : gmap Z bytes) : FixMessage :=
  {| fields_ := fs; checksumValid_ := false; lengthValid_ := false; cachedString_ := [];
     stringCacheValid_ := false; cachedMsgType_ := UNKNOWN; msgTypeCached_ := false |}.

(** [invalidateCache] *)
Definition invalidateCache (m : FixMessage) : FixMessage := with_fields (fields_ m).

(** [setFieldInternal] *)
Definition setFieldInternal (tag : Z) (value : bytes) (m : FixMessage) : FixMessage :=
  with_fields (<[tag := value]> (fields_ m)).

(** [setField(int, const std::string &)] and [setField(int, std::string_view)] *)
Definition setField (tag : Z) (value : bytes) (m : FixMessage) : FixMessage :=
  setFieldInternal tag value m.
(** [setField(int, int)] *)
Definition setFieldInt (tag value : Z) (m : FixMessage) : FixMessage :=
  setFieldInternal tag (int_to_string value) m.
(** [setField(int, char)] *)
Definition setFieldChar (tag value : Z) (m : FixMessage) : FixMessage :=
  setFieldInternal tag [value] m.

(** [getField(int, std::string &)]: [None] when it returns false. *)
Definition getField (tag : Z) (m : FixMessage) : option bytes := fields_ m !! tag.
(** [getField(int, int &)] *)
Definition getFieldInt (tag : Z) (m : FixMessage) : option Z :=
  match getField tag m with
  | Some s => match stoi s with StoiOk v => Some v | _ => None end
  | None => None
  end.
(** [getField(int, char &)] *)
Definition getFieldChar (tag : Z) (m : FixMessage) : option Z :=
  match getField tag m with Some (c :: _) => Some c | _ => None end.
(** [hasField] *)
Definition hasField (tag : Z) (m : FixMessage) : bool :=
  match fields_ m !! tag with Some _ => true | None => false end.
(** [removeField] *)
Definition removeField (tag : Z) (m : FixMessage) : FixMessage :=
  if hasField tag m then with_fields (delete tag (fields_ m)) else m.
(** [getFieldValue] *)
Definition getFieldValue (tag : Z) (m : FixMessage) : bytes := default [] (fields_ m !! tag).

(** [getMsgType], [getClOrdID], [getSymbol], [getSide], [getOrderQty], [getPrice] *)
Definition getMsgType (m : FixMessage) : bytes := getFieldValue Tag.MsgType m.
Definition getClOrdID (m : FixMessage) : bytes := getFieldValue Tag.ClOrdID m.
Definition getSymbol (m : FixMessage) : bytes := getFieldValue Tag.Symbol m.
Definition getSide (m : FixMessage) : bytes := getFieldValue Tag.Side m.
Definition getOrderQty (m : FixMessage) : bytes := getFieldValue Tag.OrderQty m.
Definition getPrice (m : FixMessage) : bytes := getFieldValue Tag.Price m.
(** [getMsgSeqNum] *)
Definition getMsgSeqNum (m : FixMessage) : Z := default 0 (getFieldInt Tag.MsgSeqNum m).

(** [getMsgTypeEnum]: the enumerator, and the object with its cache filled. *)
Definition getMsgTypeEnum (m : FixMessage) : FixMsgType * FixMessage :=
  if msgTypeCached_ m then (cachedMsgType_ m, m)
  else
    let t := match fields_ m !! Tag.MsgType with None => UNKNOWN | Some s => fromString s end in
    (t, {| fields_ := fields_ m; checksumValid_ := checksumValid_ m;
           lengthValid_ := lengthValid_ m; cachedString_ := cachedString_ m;
           stringCacheValid_ := stringCacheValid_ m; cachedMsgType_ := t;
           msgTypeCached_ := true |}).

(** [setSenderCompID], [setTargetCompID], [setMsgSeqNum] *)
Definition setSenderCompID (v : bytes) (m : FixMessage) := setField Tag.SenderCompID v m.
Definition setTargetCompID (v : bytes) (m : FixMessage) := setField Tag.TargetCompID v m.
Definition setMsgSeqNum (v : Z) (m : FixMessage) := setFieldInt Tag.MsgSeqNum v m.

(** [setSendingTime]: [now] is the system clock in milliseconds. *)
Definition setSendingTime (now : Z) (m : FixMessage) : FixMessage :=
  setField Tag.SendingTime (put_time (now / 1000) ++ str "." ++ pad 3 (to_string (now mod 1000))) m.

(** The default constructor. *)
Definition newFixMessage (now : Z) : FixMessage := setSendingTime now (with_fields ∅).

(** * Validation *)

(** [FixMessageUtils::isSessionMessage] *)
Definition isSessionMessage (t : bytes) : bool :=
  bool_decide (t ∈ [MsgTypes.Heartbeat; MsgTypes.TestRequest; MsgTypes.ResendRequest;
                    MsgTypes.Reject; MsgTypes.SequenceReset; MsgTypes.Logout; MsgTypes.Logon]).
(** [isAdminMessage], [isApplicationMessage] *)
Definition isAdminMessage (m : FixMessage) : bool := isSessionMessage (getMsgType m).
Definition isApplicationMessage (m : FixMessage) : bool := negb (isAdminMessage m).
(** [hasRequiredSessionFields] *)
Definition hasRequiredSessionFields (m : FixMessage) : bool :=
  hasField Tag.MsgType m && hasField Tag.SenderCompID m && hasField Tag.TargetCompID m.
(** [hasValidFormat] *)
Definition hasValidFormat (m : FixMessage) : bool := negb (bool_decide (fields_ m = ∅)).

Definition is_nil (s : bytes) : bool := match s with [] => true | _ => false end.
Definition err_if (b : bool) (e : string) : list bytes := if b then [str e] else [].

(** [validate]: the list of errors. *)
Definition validate (m : FixMessage) : list bytes :=
  err_if (negb (hasRequiredSessionFields m)) "Missing required session fields" ++
  err_if (negb (hasValidFormat m)) "Invalid message format" ++
  err_if (is_nil (getMsgType m)) "Missing MsgType field" ++
  (if isApplicationMessage m && bool_decide (getMsgType m = MsgTypes.NewOrderSingle) then
     err_if (is_nil (getClOrdID m)) "Missing ClOrdID" ++
     err_if (is_nil (getSymbol m)) "Missing Symbol" ++
     err_if (is_nil (getSide m)) "Missing Side" ++
     err_if (is_nil (getOrderQty m)) "Missing OrderQty"
   else []).
(** [isValid] *)
Definition isValid (m : FixMessage) : bool :=
  match validate m with [] => true | _ => false end.

(** * Checksums *)

(** The [uint8_t] accumulator over the characters of a string. *)
Definition checksum8 (s : bytes) : Z := fold_left (fun acc c => u8 (acc + u8 c)) s 0.

(** [FixMessageUtils::calculateChecksum]: three digits, zero filled. *)
Definition utils_calculateChecksum (message : bytes) : bytes :=
  pad 3 (to_string (checksum8 message mod 256)).

(** [std::string::rfind] of a pattern. *)
Fixpoint rfind (pat l : bytes) : option nat :=
  match l with
  | [] => if prefix_of pat [] then Some O else None
  | _ :: l' =>
      match rfind pat l' with
      | Some i => Some (S i)
      | None => if prefix_of pat l then Some O else None
      end
  end.

(** [FixMessageUtils::verifyChecksum] *)
Definition verifyChecksum (message : bytes) : bool :=
  match rfind (str "10=") message with
  | None => false
  | Some checksumPos =>
      let bodyMessage := take checksumPos message in
      let expectedChecksum := utils_calculateChecksum bodyMessage in
      let rest := drop (checksumPos + 3) message in
      let actualChecksum :=
        match index_of FIX_SOH rest with Some i => take i rest | None => rest end in
      bool_decide (expectedChecksum = actualChecksum)
  end.

(** * Serialisation *)

Section Serialisation.
Context `{FieldOrder}.

(** [toStringWithoutChecksum] *)
Definition toStringWithoutChecksum (m : FixMessage) : bytes :=
  printFields (filter (fun f => fst f <> Tag.CheckSum) (field_iter (fields_ m))).

(** Whether [calculateBodyLength] counts the field. *)
Definition in_body (f : Z * bytes) : Prop :=
  fst f <> Tag.BeginString /\ fst f <> Tag.BodyLength /\ fst f <> Tag.CheckSum.
#[global] Instance in_body_dec f : Decision (in_body f).
Proof. unfold in_body. apply _. Defined.

(** [calculateBodyLength] *)
Definition calculateBodyLength (m : FixMessage) : Z :=
  fold_left (fun len f =>
    if decide (in_body f) then
      len + (Z.of_nat (length (to_string (fst f))) + 1 + Z.of_nat (length (snd f)) + 1)
    else len) (field_iter (fields_ m)) 0.

(** [calculateChecksum] *)
Definition calculateChecksum (m : FixMessage) : bytes :=
  utils_calculateChecksum (toStringWithoutChecksum m).

(** The fields [toString] prints after the MsgType. *)
Definition printed_later (f : Z * bytes) : Prop := in_body f /\ fst f <> Tag.MsgType.
#[global] Instance printed_later_dec f : Decision (printed_later f).
Proof. unfold printed_later. apply _. Defined.

(** What [toString] prints when its cache is not valid: header, MsgType and other
    fields, checksum. *)
Definition serialise (m : FixMessage) : bytes :=
  formatFixField Tag.BeginString
    (match fields_ m !! Tag.BeginString with Some v => v | None => FIX_VERSION_44 end) ++
  formatFixField Tag.BodyLength (to_string (calculateBodyLength m)) ++
  formatFixField Tag.MsgType (getMsgType m) ++
  printFields (filter printed_later (field_iter (fields_ m))) ++
  formatFixField Tag.CheckSum (calculateChecksum m).

(** [toString] *)
Definition toString (m : FixMessage) : bytes * FixMessage :=
  if stringCacheValid_ m then (cachedString_ m, m)
  else
    let s := serialise m in
    (s, {| fields_ := fields_ m; checksumValid_ := checksumValid_ m;
           lengthValid_ := lengthValid_ m; cachedString_ := s; stringCacheValid_ := true;
           cachedMsgType_ := cachedMsgType_ m; msgTypeCached_ := msgTypeCached_ m |}).

(** [updateLengthAndChecksum] *)
Definition updateLengthAndChecksum (m : FixMessage) : FixMessage := invalidateCache m.
End Serialisation.

(** * The parser of the string constructor *)

(** The loop of [parseFromString] from [pos], the position being the suffix [rest]
    of the raw message; every turn consumes at least one character. *)
Fixpoint parse_loop (fuel : nat) (rest : bytes) (fs : gmap Z bytes) : gmap Z bytes :=
  match fuel with
  | O => fs
  | S f =>
      match rest with
      | [] => fs
      | _ =>
          match index_of 61 rest with
          | None => fs
          | Some eqPos =>
              let after := drop eqPos rest in
              let sohPos := match index_of FIX_SOH after with
                            | Some i => eqPos + i
                            | None => length rest
                            end%nat in
              let fs' := match stoi (take eqPos rest) with
                         | StoiOk tag => <[tag := take (sohPos - eqPos - 1) (drop (eqPos + 1) rest)]> fs
                         | _ => fs
                         end in
              parse_loop f (drop (sohPos + 1) rest) fs'
          end
      end
  end.

(** [parseFromString] *)
Definition parseFromString (rawMessage : bytes) (m : FixMessage) : FixMessage :=
  with_fields (parse_loop (length rawMessage) rawMessage (fields_ m)).

(** The constructor from a raw message. *)
Definition newFromString (now : Z) (rawMessage : bytes) : FixMessage :=
  match rawMessage with
  | [] => newFixMessage now
  | _ => parseFromString rawMessage (newFixMessage now)
  end.

(** * Copying and moving *)

(** The copy constructor: caches are not copied. *)
Definition copyConstruct (other : FixMessage) : FixMessage := with_fields (fields_ other).
(** Copy assignment between different objects. *)
Definition copyAssign (this other : FixMessage) : FixMessage := with_fields (fields_ other).
(** The move constructor: the new object and the moved-from one. *)
Definition moveConstruct (other : FixMessage) : FixMessage * FixMessage :=
  ({| fields_ := fields_ other; checksumValid_ := checksumValid_ other;
      lengthValid_ := lengthValid_ other; cachedString_ := cachedString_ other;
      stringCacheValid_ := stringCacheValid_ other; cachedMsgType_ := UNKNOWN;
      msgTypeCached_ := false |},
   with_fields ∅).
(** Move assignment between different objects. *)
Definition moveAssign (this other : FixMessage) : FixMessage * FixMessage :=
  ({| fields_ := fields_ other; checksumValid_ := checksumValid_ other;
      lengthValid_ := lengthValid_ other; cachedString_ := cachedString_ other;
      stringCacheValid_ := stringCacheValid_ other;
      cachedMsgType_ := cachedMsgType_ this; msgTypeCached_ := msgTypeCached_ this |},
   with_fields ∅).

(** * Initialisers and factories *)

(** [initializeSessionFields] *)
Definition initializeSessionFields (now : Z) (senderID targetID : bytes) (seqNum : Z)
    (m : FixMessage) : FixMessage :=
  setSendingTime now (setMsgSeqNum seqNum (setTargetCompID targetID (setSenderCompID senderID m))).

(** [initializeAsNewOrderSingle] *)
Definition initializeAsNewOrderSingle
    (clOrdID symbol side orderQty price orderType timeInForce : bytes) (m : FixMessage)
    : FixMessage :=
  setField Tag.TimeInForce timeInForce (setField Tag.OrdType orderType
    (setField Tag.Price price (setField Tag.OrderQty orderQty (setField Tag.Side side
      (setField Tag.Symbol symbol (setField Tag.ClOrdID clOrdID
        (setField Tag.MsgType MsgTypes.NewOrderSingle m))))))).

(** [initializeAsOrderCancel] *)
Definition initializeAsOrderCancel (origClOrdID clOrdID symbol side : bytes) (m : FixMessage)
    : FixMessage :=
  setField Tag.Side side (setField Tag.Symbol symbol (setField Tag.ClOrdID clOrdID
    (setField Tag.OrigClOrdID origClOrdID
      (setField Tag.MsgType MsgTypes.OrderCancelRequest m)))).

Abbreviation FixMessagePool := (MessagePool FixMessage).

(** Allocate from the pool and initialise, or return [nullptr]. *)
Definition create_in_pool (now : Z) (init : FixMessage -> FixMessage) (pool : FixMessagePool)
    : option Z * FixMessagePool :=
  match allocate (newFixMessage now) pool with
  | (None, pool') => (None, pool')
  | (Some msg, pool') => (Some msg, update_object init msg pool')
  end.

(** [createLogon] *)
Definition createLogon (now : Z) (senderID targetID : bytes) (heartBeatInterval encryptMethod : Z) :=
  create_in_pool now (fun m =>
    setFieldInt Tag.EncryptMethod encryptMethod (setFieldInt Tag.HeartBtInt heartBeatInterval
      (setTargetCompID targetID (setSenderCompID senderID
        (setField Tag.MsgType MsgTypes.Logon m))))).
(** [createHeartbeat] *)
Definition createHeartbeat (now : Z) (senderID targetID : bytes) :=
  create_in_pool now (fun m =>
    setTargetCompID targetID (setSenderCompID senderID
      (setField Tag.MsgType MsgTypes.Heartbeat m))).
(** [createNewOrderSingle] *)
Definition createNewOrderSingle (now : Z)
    (clOrdID symbol side orderQty price orderType timeInForce : bytes) :=
  create_in_pool now
    (initializeAsNewOrderSingle clOrdID symbol side orderQty price orderType timeInForce).
(** [createOrderCancelRequest] *)
Definition createOrderCancelRequest (now : Z) (origClOrdID clOrdID symbol side : bytes) :=
  create_in_pool now (initializeAsOrderCancel origClOrdID clOrdID symbol side).
(** [FastFixPatterns::createFastOrder] *)
Definition createFastOrder (now : Z) (clOrdID symbol side qty price : bytes) :=
  create_in_pool now
    (initializeAsNewOrderSingle clOrdID symbol side qty price (str "2") (str "0")).

(** [FastFixPatterns::createFastCancel] *)
Definition createFastCancel (now : Z) (origClOrdID clOrdID symbol : bytes) :=
  create_in_pool now (fun m =>
    setField Tag.Symbol symbol (setField Tag.ClOrdID clOrdID
      (setField Tag.OrigClOrdID origClOrdID
        (setField Tag.MsgType MsgTypes.OrderCancelRequest m)))).

(** * The specification of the caches *)

Section Coherence.
Context `{FieldOrder}.

(** The message type the fields denote. *)
Definition field_type (m : FixMessage) : FixMsgType :=
  match fields_ m !! Tag.MsgType with None => UNKNOWN | Some s => fromString s end.

(** A valid string cache holds what would be printed now; a cached type is that of the
    fields, or the object is [stale]. *)
Definition coherent (stale : bool) (m : FixMessage) : Prop :=
  (stringCacheValid_ m = true -> cachedString_ m = serialise m) /\
  (msgTypeCached_ m = true -> stale = false -> cachedMsgType_ m = field_type m) /\
  (stale = true -> msgTypeCached_ m = true).

(** The objects a program can produce from fresh ones.  An object is [stale] when its type
    was cached at a move assignment to it and no field was written since: the assignment
    leaves the cache of the type alone. *)
Inductive produced : bool -> FixMessage -> Prop :=
  | produced_fields fs : produced false (with_fields fs)
  | produced_new now : produced false (newFixMessage now)
  | produced_raw now s : produced false (newFromString now s)
  | produced_set b tag v m : produced b m -> produced false (setField tag v m)
  | produced_set_int b tag v m : produced b m -> produced false (setFieldInt tag v m)
  | produced_set_char b tag v m : produced b m -> produced false (setFieldChar tag v m)
  | produced_time b now m : produced b m -> produced false (setSendingTime now m)
  | produced_remove b tag m : produced b m -> produced (b && negb (hasField tag m)) (removeField tag m)
  | produced_update b m : produced b m -> produced false (updateLengthAndChecksum m)
  | produced_print b m : produced b m -> produced b (snd (toString m))
  | produced_type b m : produced b m -> produced b (snd (getMsgTypeEnum m))
  | produced_copy b m : produced b m -> produced false (copyConstruct m)
  | produced_assign b b' m m' : produced b m -> produced b' m' -> produced false (copyAssign m m')
  | produced_move b m : produced b m -> produced false (fst (moveConstruct m))
  | produced_moved b m : produced b m -> produced false (snd (moveConstruct m))
  | produced_move_assign b b' m m' :
      produced b m -> produced b' m' -> produced (msgTypeCached_ m) (fst (moveAssign m m'))
  | produced_move_assigned b b' m m' :
      produced b m -> produced b' m' -> produced false (snd (moveAssign m m')).
End Coherence.

(** * Lemmas *)

Definition byte_sum (s : bytes) : Z := foldr Z.add 0 s.

Lemma byte_sum_app s t : byte_sum (s ++ t) = byte_sum s + byte_sum t.
Proof. induction s as [|x s IH]; simpl; [done|]. rewrite IH. lia. Qed.

Lemma checksum8_fold s acc :
  fold_left (fun acc c => u8 (acc + u8 c)) s (u8 acc) = u8 (acc + byte_sum s).
Proof.
  revert acc. induction s as [|c s IH]; intros acc; simpl; [by rewrite Z.add_0_r|].
  replace (u8 (u8 acc + u8 c)) with (u8 (acc + c)) by (unfold u8; by rewrite <- Z.add_mod).
  rewrite IH. by rewrite Z.add_assoc.
Qed.

Lemma checksum8_sum s : checksum8 s = byte_sum s mod 256.
Proof. unfold checksum8. apply (checksum8_fold s 0). Qed.

Lemma checksum8_range s : 0 <= checksum8 s < 256.
Proof. rewrite checksum8_sum. by apply Z.mod_pos_bound. Qed.

Lemma dec_value_leading_zeros n s : dec_value (replicate n 48 ++ s) = dec_value s.
Proof.
  unfold dec_value. rewrite fold_left_app. f_equal. induction n as [|n IH]; simpl; [done|].
  done.
Qed.

(** The three-digit form determines the checksum. *)
Lemma checksum_text_inj a b :
  0 <= a < 256 -> 0 <= b < 256 -> pad 3 (to_string a) = pad 3 (to_string b) -> a = b.
Proof.
  intros Ha Hb E. apply (f_equal dec_value) in E. unfold pad in E.
  rewrite !dec_value_leading_zeros, !to_string_value in E by lia. done.
Qed.

Lemma utils_checksum_eq s t :
  utils_calculateChecksum s = utils_calculateChecksum t <-> checksum8 s = checksum8 t.
Proof.
  unfold utils_calculateChecksum. pose proof (checksum8_range s). pose proof (checksum8_range t).
  rewrite !(Z.mod_small (checksum8 _)) by done. split; [by apply checksum_text_inj|by intros ->].
Qed.

(** The checksum text is three digits. *)
Lemma checksum_text_shape s :
  length (utils_calculateChecksum s) = 3%nat /\
  Forall (fun c => is_digit c = true) (utils_calculateChecksum s).
Proof.
  unfold utils_calculateChecksum, pad. pose proof (checksum8_range s) as Hr.
  rewrite Z.mod_small by done. split.
  - rewrite length_app, length_replicate.
    pose proof (to_string_length (checksum8 s) 3 ltac:(lia) ltac:(simpl; lia)). lia.
  - apply Forall_app. split; [|apply to_string_digits; lia].
    by apply Forall_replicate.
Qed.

Lemma rfind_app_skip pat l r i :
  rfind pat r = Some i -> rfind pat (l ++ r) = Some (length l + i)%nat.
Proof. intros E. induction l as [|x l IH]; simpl; [done|]. by rewrite IH. Qed.

Lemma digits3 c :
  length c = 3%nat -> Forall (fun c => is_digit c = true) c ->
  exists a b d, c = [a; b; d] /\ 48 <= a <= 57 /\ 48 <= b <= 57 /\ 48 <= d <= 57.
Proof.
  destruct c as [|a [|b [|d [|? ?]]]]; try done. intros _ Hc.
  rewrite !Forall_cons in Hc. destruct Hc as (H1 & H2 & H3 & _).
  apply is_digit_spec in H1, H2, H3. by exists a, b, d.
Qed.

(** The last [10=] of a message that ends with a three-digit checksum field. *)
Lemma rfind_trailer body c :
  length c = 3%nat -> Forall (fun c => is_digit c = true) c ->
  rfind (str "10=") (body ++ formatFixField Tag.CheckSum c) = Some (length body).
Proof.
  intros Hl Hd. destruct (digits3 c Hl Hd) as (a & b & d & -> & Ha & Hb & Hdd).
  rewrite <- (Nat.add_0_r (length body)). apply rfind_app_skip.
  change (formatFixField Tag.CheckSum [a; b; d]) with [49; 48; 61; a; b; d; 1].
  change (str "10=") with [49; 48; 61]. cbn [rfind prefix_of].
  assert ((61 =? a) = false /\ (61 =? b) = false /\ (61 =? d) = false) as (-> & -> & ->)
    by (rewrite !Z.eqb_neq; lia).
  change (61 =? 1) with false. simpl. by rewrite !andb_false_r.
Qed.

Lemma index_of_found c a b : c ∉ a -> index_of c (a ++ c :: b) = Some (length a).
Proof.
  induction a as [|x a IH]; intros Hc; simpl; [by rewrite Z.eqb_refl|].
  apply not_elem_of_cons in Hc as [Hx Ha]. destruct (Z.eqb_spec x c); [congruence|].
  by rewrite IH.
Qed.

Lemma digits_no_soh c : Forall (fun c => is_digit c = true) c -> FIX_SOH ∉ c.
Proof.
  intros Hc Hin. rewrite Forall_forall in Hc. specialize (Hc _ Hin). done.
Qed.

(** [verifyChecksum] compares the text with the checksum of what precedes it. *)
Lemma verifyChecksum_trailer body c :
  length c = 3%nat -> Forall (fun c => is_digit c = true) c ->
  verifyChecksum (body ++ formatFixField Tag.CheckSum c)
  = bool_decide (utils_calculateChecksum body = c).
Proof.
  intros Hl Hd. unfold verifyChecksum. rewrite rfind_trailer by done.
  rewrite take_app_length. rewrite <- drop_drop, drop_app_length.
  change (drop 3 (formatFixField Tag.CheckSum c)) with (c ++ [FIX_SOH]).
  rewrite index_of_found by (by apply digits_no_soh). by rewrite take_app_length.
Qed.

(** ** Fields of a map in iteration order *)

Lemma filter_key_list (m : gmap Z bytes) (k : Z) :
  filter (fun f : Z * bytes => fst f = k) (map_to_list m)
  ≡ₚ match m !! k with Some v => [(k, v)] | None => [] end.
Proof.
  apply NoDup_Permutation.
  - apply NoDup_filter, NoDup_map_to_list.
  - destruct (m !! k); [apply NoDup_singleton|apply NoDup_nil_2].
  - intros [k' v]. rewrite list_elem_of_filter, elem_of_map_to_list. simpl. split.
    + intros [-> E]. rewrite E. by apply list_elem_of_singleton.
    + destruct (m !! k) as [w|] eqn:E; [|by intros ?%not_elem_of_nil].
      intros Hin%list_elem_of_singleton. by injection Hin as -> ->.
Qed.

(** A measure of a list of fields that adds up over its elements. *)
Definition total (g : Z * bytes -> Z) (fs : list (Z * bytes)) : Z :=
  foldr (fun f acc => g f + acc) 0 fs.

#[export] Instance total_perm g : Proper ((≡ₚ) ==> (=)) (total g).
Proof. induction 1; simpl; lia. Qed.

Lemma total_cons g f fs : total g (f :: fs) = g f + total g fs.
Proof. done. Qed.

Lemma total_app g fs hs : total g (fs ++ hs) = total g fs + total g hs.
Proof. induction fs as [|f fs IH]; simpl; lia. Qed.

Lemma printFields_sum fs :
  byte_sum (printFields fs) = total (fun f => byte_sum (formatFixField (fst f) (snd f))) fs.
Proof.
  induction fs as [|f fs IH]; [done|].
  rewrite printFields_cons, byte_sum_app, IH. done.
Qed.

Lemma printFields_length fs :
  Z.of_nat (length (printFields fs))
  = total (fun f => Z.of_nat (length (formatFixField (fst f) (snd f)))) fs.
Proof.
  induction fs as [|f fs IH]; [done|].
  rewrite printFields_cons, length_app, Nat2Z.inj_add, IH. done.
Qed.

(** The total over the stored field with tag [k], 0 when there is none. *)
Definition field_total (g : Z * bytes -> Z) (k : Z) (m : gmap Z bytes) : Z :=
  match m !! k with Some v => g (k, v) | None => 0 end.

Lemma total_key g (m : gmap Z bytes) k l :
  l ≡ₚ map_to_list m -> total g (filter (fun f => fst f = k) l) = field_total g k m.
Proof.
  intros E. rewrite E, filter_key_list. unfold field_total.
  destruct (m !! k); simpl; lia.
Qed.

(** Induction over a field list, deciding for the head field every filter. *)
Ltac split_totals l :=
  induction l as [|[k v] l IH]; [done|];
  rewrite !filter_cons; repeat case_decide; rewrite ?total_cons, ?IH;
  unfold printed_later, in_body in *; cbn [fst] in *;
  unfold Tag.CheckSum, Tag.BeginString, Tag.BodyLength, Tag.MsgType in *; lia.

(** Splitting off the fields [toString] treats specially. *)
Lemma total_split g l :
  total g (filter (fun f => fst f <> Tag.CheckSum) l)
  = total g (filter (fun f => fst f = Tag.BeginString) l)
    + total g (filter (fun f => fst f = Tag.BodyLength) l)
    + total g (filter (fun f => fst f = Tag.MsgType) l)
    + total g (filter printed_later l).
Proof. split_totals l. Qed.

Lemma total_split_body g l :
  total g (filter in_body l)
  = total g (filter (fun f => fst f = Tag.MsgType) l) + total g (filter printed_later l).
Proof. split_totals l. Qed.

Section SerialisationLemmas.
Context `{FieldOrder}.

Abbreviation flen := (fun f : Z * bytes => Z.of_nat (length (formatFixField (fst f) (snd f)))).
Abbreviation fsum := (fun f : Z * bytes => byte_sum (formatFixField (fst f) (snd f))).

Lemma calculateBodyLength_total m :
  calculateBodyLength m = total flen (filter in_body (field_iter (fields_ m))).
Proof.
  unfold calculateBodyLength.
  enough (forall l acc, fold_left (fun len f => if decide (in_body f) then
      len + (Z.of_nat (length (to_string (fst f))) + 1 + Z.of_nat (length (snd f)) + 1)
    else len) l acc = acc + total flen (filter in_body l)) as E by apply E.
  induction l as [|f l IH]; intros acc; cbn [fold_left]; [simpl; lia|].
  rewrite IH, filter_cons. case_decide; [|done]. rewrite total_cons.
  unfold formatFixField. rewrite !length_app. simpl. lia.
Qed.

(** The body length counts the MsgType field and the fields printed after it. *)
Lemma body_length_printed m t :
  fields_ m !! Tag.MsgType = Some t ->
  calculateBodyLength m
  = Z.of_nat (length (formatFixField Tag.MsgType t ++
                      printFields (filter printed_later (field_iter (fields_ m))))).
Proof.
  intros Ht. rewrite calculateBodyLength_total, total_split_body.
  rewrite (total_key _ (fields_ m)) by apply field_iter_perm. unfold field_total. rewrite Ht.
  rewrite length_app, Nat2Z.inj_add, printFields_length. done.
Qed.

(** The bytes summed by [calculateChecksum], field by field. *)
Lemma checksum_input_sum m :
  byte_sum (toStringWithoutChecksum m)
  = field_total fsum Tag.BeginString (fields_ m) + field_total fsum Tag.BodyLength (fields_ m)
    + field_total fsum Tag.MsgType (fields_ m)
    + byte_sum (printFields (filter printed_later (field_iter (fields_ m)))).
Proof.
  unfold toStringWithoutChecksum. rewrite !printFields_sum, total_split.
  by rewrite !(total_key _ (fields_ m)) by apply field_iter_perm.
Qed.

(** Everything [toString] prints before the checksum field. *)
Definition printed_prefix (m : FixMessage) : bytes :=
  formatFixField Tag.BeginString
    (match fields_ m !! Tag.BeginString with Some v => v | None => FIX_VERSION_44 end) ++
  formatFixField Tag.BodyLength (to_string (calculateBodyLength m)) ++
  formatFixField Tag.MsgType (getMsgType m) ++
  printFields (filter printed_later (field_iter (fields_ m))).

Lemma serialise_prefix m :
  serialise m = printed_prefix m ++ formatFixField Tag.CheckSum (calculateChecksum m).
Proof. unfold serialise, printed_prefix. by rewrite <- !app_assoc. Qed.

(** Whether the printed checksum verifies. *)
Lemma verify_serialise m :
  verifyChecksum (serialise m) = true <->
  checksum8 (printed_prefix m) = checksum8 (toStringWithoutChecksum m).
Proof.
  rewrite serialise_prefix.
  destruct (checksum_text_shape (toStringWithoutChecksum m)) as [Hl Hd].
  rewrite verifyChecksum_trailer, bool_decide_eq_true by done. apply utils_checksum_eq.
Qed.

(** The digit sum of a body length below a million never makes the
    [9=...<SOH>] field vanish modulo 256. *)
Lemma digits_sum_bounds f v :
  let s := dec_loop f v [] in
  48 * Z.of_nat (length s) <= byte_sum s <= 57 * Z.of_nat (length s).
Proof.
  pose proof (dec_loop_digits f v) as Hd. cbv zeta.
  induction Hd as [|c s Hc Hd IH]; simpl; [lia|].
  apply is_digit_spec in Hc. lia.
Qed.

Lemma body_length_field_sum n :
  0 < n < 1000000 ->
  byte_sum (formatFixField Tag.BodyLength (to_string n)) mod 256 <> 0.
Proof.
  intros Hn. unfold formatFixField. rewrite !byte_sum_app.
  change (byte_sum (to_string Tag.BodyLength)) with 57.
  change (byte_sum [61]) with 61. change (byte_sum [FIX_SOH]) with 1.
  rewrite to_string_pos by lia.
  pose proof (digits_sum_bounds 20 n) as Hb. cbv zeta in Hb.
  pose proof (dec_loop_length 20 n 6 ltac:(simpl; lia)) as Hl.
  set (s := dec_loop 20 n []) in *. set (k := Z.of_nat (length s)) in *.
  assert (0 <= k <= 6) as Hk by lia. clearbody k. clear Hl.
  assert (k = 0 \/ k = 1 \/ k = 2 \/ k = 3 \/ k = 4 \/ k = 5 \/ k = 6) as Hcases by lia.
  intros E. apply Z.mod_divide in E as [z E]; [|done].
  destruct Hcases as [->|[->|[->|[->|[->|[->| ->]]]]]]; lia.
Qed.
End SerialisationLemmas.

(** ** Parsing what was printed *)

(** Fields the textual form can carry: an [int] tag, a value without SOH. *)
Definition printable (f : Z * bytes) : Prop := int32_range (fst f) /\ FIX_SOH ∉ snd f.

Definition set_all (fs : list (Z * bytes)) (m : gmap Z bytes) : gmap Z bytes :=
  fold_left (fun acc f => <[fst f := snd f]> acc) fs m.

(** The same as a test. *)
Definition printableb (f : Z * bytes) : bool :=
  (-2147483648 <=? fst f) && (fst f <=? 2147483647) && forallb (fun c => negb (c =? FIX_SOH)) (snd f).

Lemma printableb_spec f : printableb f = true -> printable f.
Proof.
  unfold printableb, printable, int32_range. rewrite !andb_true_iff, !Z.leb_le.
  intros [Ht Hf]. split; [done|]. intros Hin. rewrite forallb_forall in Hf.
  by specialize (Hf _ (proj1 (list_elem_of_In _ _) Hin)).
Qed.

Lemma printable_all (m : gmap Z bytes) :
  forallb printableb (map_to_list m) = true ->
  forall k v, m !! k = Some v -> printable (k, v).
Proof.
  rewrite forallb_forall. intros Hf k v Hk. apply printableb_spec, Hf.
  by apply list_elem_of_In, elem_of_map_to_list.
Qed.

Lemma to_string_no_special v c :
  c = 61 \/ c = FIX_SOH -> c ∉ to_string v.
Proof.
  intros Hc Hin.
  assert (forall w, c ∉ dec_loop 20 w []) as Hd.
  { intros w Hw. pose proof (dec_loop_digits 20 w) as Hd. rewrite Forall_forall in Hd.
    specialize (Hd _ Hw). apply is_digit_spec in Hd. destruct Hc as [-> | ->]; unfold FIX_SOH in *; lia. }
  unfold to_string in Hin. destruct (v =? 0).
  { apply list_elem_of_singleton in Hin. destruct Hc as [-> | ->]; done. }
  destruct (v <? 0); [|by apply (Hd v)].
  apply elem_of_cons in Hin as [-> | Hin]; [destruct Hc as [?|?]; done|by apply (Hd (- v))].
Qed.

Lemma parse_loop_nil f fs : parse_loop f [] fs = fs.
Proof. by destruct f. Qed.

Lemma formatFixField_length tag v : (3 <= length (formatFixField tag v))%nat.
Proof.
  unfold formatFixField. rewrite !length_app. simpl.
  pose proof (to_string_nonempty tag). destruct (to_string tag); [done|simpl; lia].
Qed.

(** One turn of the loop consumes one printed field. *)
Lemma parse_loop_field f tag v rest fs :
  printable (tag, v) ->
  parse_loop (S f) (formatFixField tag v ++ rest) fs = parse_loop f rest (<[tag := v]> fs).
Proof.
  intros [Ht Hv]. simpl in Ht, Hv.
  assert (formatFixField tag v ++ rest = to_string tag ++ 61 :: (v ++ FIX_SOH :: rest)) as E.
  { unfold formatFixField. by rewrite <- !app_assoc. }
  assert (formatFixField tag v ++ rest <> []) as Hne.
  { pose proof (to_string_nonempty tag). rewrite E. by destruct (to_string tag). }
  cbn [parse_loop]. destruct (formatFixField tag v ++ rest) as [|x l] eqn:Ex; [done|].
  rewrite E. rewrite index_of_found by (apply to_string_no_special; by left).
  rewrite drop_app_length, take_app_length.
  change (61 :: v ++ FIX_SOH :: rest) with ((61 :: v) ++ FIX_SOH :: rest).
  rewrite index_of_found by (by apply not_elem_of_cons).
  rewrite stoi_to_string by done.
  replace (length (to_string tag) + length (61%Z :: v) - length (to_string tag) - 1)%nat
    with (length v) by (simpl; lia).
  f_equal.
  - rewrite <- Nat.add_assoc, <- drop_drop, drop_app_length.
    replace (length (61%Z :: v) + 1)%nat with (length ((61 :: v) ++ [FIX_SOH]))
      by (rewrite length_app; simpl; lia).
    change (FIX_SOH :: rest) with ([FIX_SOH] ++ rest). rewrite app_assoc. apply drop_app_length.
  - f_equal. rewrite <- drop_drop, drop_app_length. simpl. apply take_app_length.
Qed.

Lemma parse_loop_fields fs f m :
  Forall printable fs -> (length fs <= f)%nat -> parse_loop f (printFields fs) m = set_all fs m.
Proof.
  revert f m. induction fs as [|[tag v] fs IH]; intros f m Hp Hf.
  { apply parse_loop_nil. }
  apply Forall_cons in Hp as [Hp1 Hp2]. destruct f as [|f]; [simpl in Hf; lia|].
  rewrite printFields_cons. cbn [fst snd]. rewrite parse_loop_field by done.
  rewrite IH; [done|done|simpl in Hf; lia].
Qed.

Lemma printFields_count fs : (length fs <= length (printFields fs))%nat.
Proof.
  induction fs as [|f fs IH]; [done|]. rewrite printFields_cons, length_app.
  pose proof (formatFixField_length (fst f) (snd f)). simpl. lia.
Qed.

Lemma set_all_notin fs m k : k ∉ fs.*1 -> set_all fs m !! k = m !! k.
Proof.
  revert m. induction fs as [|[t v] fs IH]; intros m Hk; [done|].
  cbn in Hk. apply not_elem_of_cons in Hk as [H1 H2].
  unfold set_all in *. simpl. rewrite IH by done. by rewrite lookup_insert_ne.
Qed.

Lemma set_all_lookup fs m k v :
  NoDup fs.*1 -> (k, v) ∈ fs -> set_all fs m !! k = Some v.
Proof.
  revert m. induction fs as [|[t w] fs IH]; intros m Hd Hin; [by apply not_elem_of_nil in Hin|].
  cbn in Hd. apply NoDup_cons in Hd as [Hn Hd].
  apply elem_of_cons in Hin as [[= -> ->]|Hin].
  - unfold set_all. simpl. fold (set_all fs (<[t := w]> m)).
    rewrite set_all_notin by done. apply lookup_insert_eq.
  - by apply (IH (<[t := w]> m)).
Qed.

Section RoundTrip.
Context `{FieldOrder}.

(** [toString] prints a list of fields. *)
Definition printed_list (m : FixMessage) (v8 : bytes) : list (Z * bytes) :=
  [(Tag.BeginString, v8); (Tag.BodyLength, to_string (calculateBodyLength m));
   (Tag.MsgType, getMsgType m)] ++
  filter printed_later (field_iter (fields_ m)) ++ [(Tag.CheckSum, calculateChecksum m)].

Lemma serialise_list m v8 :
  fields_ m !! Tag.BeginString = Some v8 -> serialise m = printFields (printed_list m v8).
Proof.
  intros H8. unfold serialise, printed_list. rewrite H8, !printFields_app, !printFields_cons.
  cbn [fst snd]. change (printFields []) with (@nil Z). by rewrite !app_nil_r, <- !app_assoc.
Qed.

Lemma printed_later_elem m k v :
  (k, v) ∈ filter printed_later (field_iter (fields_ m)) <->
  fields_ m !! k = Some v /\ printed_later (k, v).
Proof.
  rewrite list_elem_of_filter, field_iter_perm, elem_of_map_to_list. naive_solver.
Qed.

Lemma printed_list_nodup m v8 : NoDup (printed_list m v8).*1.
Proof.
  unfold printed_list. rewrite !fmap_app. simpl.
  assert (NoDup (filter printed_later (field_iter (fields_ m))).*1) as Hd.
  { rewrite field_iter_perm. pose proof (NoDup_fst_map_to_list (fields_ m)) as Hd.
    induction (map_to_list (fields_ m)) as [|f l IH]; [done|].
    cbn in Hd. apply NoDup_cons in Hd as [Hn Hd]. rewrite filter_cons. case_decide; [|by apply IH].
    cbn. apply NoDup_cons. split; [|by apply IH].
    intros (g & Hg1 & Hg2)%list_elem_of_fmap. apply list_elem_of_filter in Hg2 as [_ Hg2].
    apply Hn. rewrite Hg1. by apply list_elem_of_fmap_2. }
  assert (forall k, k ∈ (filter printed_later (field_iter (fields_ m))).*1 ->
            k <> Tag.BeginString /\ k <> Tag.BodyLength /\ k <> Tag.CheckSum /\ k <> Tag.MsgType) as Hk.
  { intros k ([k' v] & -> & Hf)%list_elem_of_fmap. apply printed_later_elem in Hf as [_ Hp].
    unfold printed_later, in_body in Hp. simpl in *. tauto. }
  set (ks := (filter _ _).*1) in *. clearbody ks.
  assert (Tag.BeginString ∉ ks /\ Tag.BodyLength ∉ ks /\ Tag.CheckSum ∉ ks /\ Tag.MsgType ∉ ks)
    as (H8 & H9 & H10 & H35) by (split_and!; intros Hin; apply Hk in Hin; tauto).
  rewrite !NoDup_cons, NoDup_app, !not_elem_of_cons, !not_elem_of_app, !not_elem_of_cons.
  split_and!; try done; try apply not_elem_of_nil; try apply NoDup_singleton.
  intros k Hin ->%list_elem_of_singleton. done.
Qed.
End RoundTrip.

(** * Properties *)

Section Properties.
Context `{FieldOrder}.

Lemma produced_coherent stale m : produced stale m -> coherent stale m.
Proof.
  induction 1 as [fs|now|now s|b tag v m _ _|b tag v m _ _|b tag v m _ _|b now m _ _|b tag m _ IH
    |b m _ _|b m _ IH|b m _ IH|b m _ _|b b' m m' _ _ _ _|b m _ IH|b m _ _
    |b b' m m' _ IH _ IH'|b b' m m' _ _ _ _]; try done.
  - by destruct s.
  - unfold removeField. destruct (hasField tag m); [by rewrite andb_false_r|by rewrite andb_true_r].
  - unfold toString. destruct (stringCacheValid_ m) eqn:E; [done|].
    split; simpl; [done|apply IH].
  - unfold getMsgTypeEnum. destruct (msgTypeCached_ m) eqn:E; [done|].
    split; simpl; [apply IH|done].
  - split; simpl; [apply IH|done].
  - split; [apply IH'|]. simpl. by destruct (msgTypeCached_ m).
Qed.


(** C34: the BodyLength field that [toString] prints is the number of bytes between
    the end of that field and the start of the checksum field, as the protocol
    requires, for every message that has a MsgType. *)
Theorem body_length_correct m t :
  fields_ m !! Tag.MsgType = Some t ->
  exists begin body,
    serialise m = formatFixField Tag.BeginString begin ++
                  formatFixField Tag.BodyLength (to_string (Z.of_nat (length body))) ++
                  body ++ formatFixField Tag.CheckSum (calculateChecksum m).
Proof.
  intros Ht. unfold serialise. rewrite (body_length_printed m t) by done.
  unfold getMsgType, getFieldValue. rewrite Ht. cbn [default from_option id].
  exists (match fields_ m !! Tag.BeginString with Some v => v | None => FIX_VERSION_44 end).
  exists (formatFixField Tag.MsgType t ++
          printFields (filter printed_later (field_iter (fields_ m)))).
  rewrite <- (app_assoc (formatFixField Tag.MsgType t)). reflexivity.
Qed.

(** The checksum of a message that stores the right BodyLength. *)
Lemma stored_length_verifies m v8 t :
  fields_ m !! Tag.BeginString = Some v8 -> fields_ m !! Tag.MsgType = Some t ->
  fields_ m !! Tag.BodyLength = Some (to_string (calculateBodyLength m)) ->
  verifyChecksum (serialise m) = true.
Proof.
  intros H8 H35 H9. rewrite verify_serialise, !checksum8_sum, checksum_input_sum.
  unfold printed_prefix, getMsgType, getFieldValue, field_total. rewrite H8, H35, H9.
  rewrite !byte_sum_app. f_equal. simpl. lia.
Qed.

(** The checksum of a message without BodyLength. *)
Lemma computed_length_rejected m v8 t :
  fields_ m !! Tag.BeginString = Some v8 -> fields_ m !! Tag.MsgType = Some t ->
  fields_ m !! Tag.BodyLength = None -> calculateBodyLength m < 1000000 ->
  verifyChecksum (serialise m) = false.
Proof.
  intros H8 H35 H9 Hlen. apply not_true_is_false.
  rewrite verify_serialise, !checksum8_sum, checksum_input_sum.
  unfold printed_prefix, getMsgType, getFieldValue, field_total. rewrite H8, H35, H9.
  rewrite !byte_sum_app. cbn [default from_option id fst snd].
  pose proof (body_length_printed m t H35) as Hb. rewrite length_app in Hb.
  pose proof (formatFixField_length Tag.MsgType t).
  assert (0 < calculateBodyLength m < 1000000) as Hr by lia.
  pose proof (body_length_field_sum _ Hr) as Hne.
  intros E. apply Hne. clear Hne Hb.
  set (x := byte_sum (formatFixField Tag.BodyLength _)) in *.
  match type of E with (?a + (x + (?b + ?c))) mod _ = (?a + 0 + ?b + ?c) mod _ =>
    replace x with ((a + (x + (b + c))) - (a + 0 + b + c)) by lia end.
  rewrite Zminus_mod, E, Z.sub_diag. done.
Qed.

(** C19: the checksum [toString] prints verifies when the message stores the right BodyLength,
    and not when [toString] computed it: the sum leaves out the BodyLength field it printed
    itself, so a message that stores BeginString and MsgType but no BodyLength (every
    message the session manager, the gap manager and the builder create) is printed with
    a checksum that [verifyChecksum] rejects, whatever its fields, as long as its body is
    shorter than a million bytes. *)
Theorem checksum_exact m v8 t :
  fields_ m !! Tag.BeginString = Some v8 -> fields_ m !! Tag.MsgType = Some t ->
  (fields_ m !! Tag.BodyLength = Some (to_string (calculateBodyLength m)) ->
     verifyChecksum (serialise m) = true) /\
  (fields_ m !! Tag.BodyLength = None -> calculateBodyLength m < 1000000 ->
     verifyChecksum (serialise m) = false).
Proof.
  intros H8 H35. split; [by eapply stored_length_verifies|by eapply computed_length_rejected].
Qed.

(** Printing and parsing back, for the properties here and of the builder. *)
Lemma parse_serialised m v8 now k v :
  fields_ m !! Tag.BeginString = Some v8 -> is_Some (fields_ m !! Tag.MsgType) ->
  (forall k v, fields_ m !! k = Some v -> printable (k, v)) ->
  fields_ m !! k = Some v -> k <> Tag.BodyLength -> k <> Tag.CheckSum ->
  fields_ (newFromString now (serialise m)) !! k = Some v.
Proof.
  intros H8 [t Ht] Hp Hk H9 H10.
  assert (getMsgType m = t) as Hty by (unfold getMsgType, getFieldValue; by rewrite Ht).
  assert (serialise m <> []) as Hne.
  { rewrite (serialise_list m v8) by done. done. }
  unfold newFromString. destruct (serialise m) as [|x l] eqn:E; [done|]. rewrite <- E.
  rewrite (serialise_list m v8) by done. unfold parseFromString, with_fields.
  cbn [fields_]. rewrite parse_loop_fields; [|clear - Hp H8 Ht Hty|apply printFields_count].
  - apply set_all_lookup; [apply printed_list_nodup|].
    unfold printed_list. rewrite elem_of_app, elem_of_app.
    destruct (decide (k = Tag.BeginString)) as [->|]; [left; rewrite H8 in Hk; set_solver|].
    destruct (decide (k = Tag.MsgType)) as [->|]; [left; rewrite Ht in Hk; set_solver|].
    right; left. apply printed_later_elem. split; [done|]. split; [|done]. split_and!; done.
  - unfold printed_list. rewrite !Forall_app, !Forall_cons, !Forall_nil. split_and!; try done.
    + by apply Hp.
    + split; [by unfold int32_range|]. apply to_string_no_special. by right.
    + rewrite Hty. by apply Hp.
    + apply Forall_forall. intros [k v] Hin. apply printed_later_elem in Hin as [Hin _].
      by apply Hp.
    + split; [by unfold int32_range|]. apply digits_no_soh, checksum_text_shape.
Qed.

(** C18: printing and parsing back with the string constructor keeps every field:
    for a message with BeginString whose tags are [int]s and whose values contain no
    SOH, each field other than the recomputed BodyLength and CheckSum is read back
    unchanged. *)
Theorem print_parse_round_trip m v8 now k v :
  fields_ m !! Tag.BeginString = Some v8 -> is_Some (fields_ m !! Tag.MsgType) ->
  (forall k v, fields_ m !! k = Some v -> printable (k, v)) ->
  fields_ m !! k = Some v -> k <> Tag.BodyLength -> k <> Tag.CheckSum ->
  fields_ (newFromString now (serialise m)) !! k = Some v.
Proof. apply parse_serialised. Qed.
End Properties.

(** An integer stored with [setField(tag, int)] is read back by
    [getField(tag, int &)], and no other field changes. *)
Lemma int_field_round_trip m tag v :
  int32_range v ->
  getFieldInt tag (setFieldInt tag v m) = Some v /\
  (forall tag', tag' <> tag -> getField tag' (setFieldInt tag v m) = getField tag' m).
Proof.
  intros Hv. unfold getFieldInt, setFieldInt, setFieldInternal, getField. simpl. split.
  - rewrite lookup_insert_eq, int_to_string_to_string, stoi_to_string by done. done.
  - intros tag' Hne. by rewrite lookup_insert_ne.
Qed.

(** Move assignment keeps the target's message-type cache: a heartbeat object
    whose type was asked for and that is then move-assigned from a new order still
    reports HEARTBEAT. *)
Lemma move_assign_stale_type :
  exists this other : FixMessage,
    let this' := snd (getMsgTypeEnum this) in
    fields_ (fst (moveAssign this' other)) !! Tag.MsgType = Some MsgTypes.NewOrderSingle /\
    fst (getMsgTypeEnum (fst (moveAssign this' other))) = HEARTBEAT.
Proof.
  exists (with_fields {[Tag.MsgType := MsgTypes.Heartbeat]}),
         (with_fields {[Tag.MsgType := MsgTypes.NewOrderSingle]}).
  by vm_compute.
Qed.

(** A session-style message: BeginString, MsgType, sender and sequence number. *)
Definition sample_message : FixMessage :=
  setField Tag.MsgSeqNum (str "2") (setField Tag.SenderCompID (str "ME")
    (setField Tag.MsgType MsgTypes.Heartbeat
      (setField Tag.BeginString FIX_VERSION_44 (with_fields ∅)))).

#[local] Instance sample_order : FieldOrder := canonical_order.


Lemma checksum_exact_witness :
  verifyChecksum (serialise (setField Tag.BodyLength (str "16") sample_message)) = true /\
  verifyChecksum (serialise sample_message) = false.
Proof.
  split.
  - refine (proj1 (checksum_exact (setField Tag.BodyLength (str "16") sample_message) FIX_VERSION_44
              MsgTypes.Heartbeat _ _) _); reflexivity.
  - refine (proj2 (checksum_exact sample_message FIX_VERSION_44 MsgTypes.Heartbeat _ _) _ _); reflexivity.
Defined.

Lemma print_parse_round_trip_witness :
  fields_ (newFromString 0 (serialise sample_message)) !! Tag.SenderCompID = Some (str "ME").
Proof.
  refine (print_parse_round_trip sample_message FIX_VERSION_44 0 Tag.SenderCompID (str "ME")
            _ _ _ _ _ _); try reflexivity; try discriminate.
  - eexists. reflexivity.
  - apply printable_all. vm_compute. reflexivity.
Defined.

Lemma body_length_correct_witness :
  exists begin body,
    serialise sample_message = formatFixField Tag.BeginString begin ++
      formatFixField Tag.BodyLength (to_string (Z.of_nat (length body))) ++
      body ++ formatFixField Tag.CheckSum (calculateChecksum sample_message).
Proof. exact (body_length_correct sample_message MsgTypes.Heartbeat eq_refl). Defined.
