(* ===== verification/FixBuilder.v ===== *)
(** [protocol::FixBuilder] ([fix_builder.h], [fix_builder.cpp]): building messages with
    standard header and trailer, sequence numbers, statistics, the builders of the session
    and trading messages, [MessageBuilder], and validation.

    The state is the builder object and the number of clock readings.  [buildMessage] on
    a null pointer and the constructor with an empty comp id throw.  The clock readings are
    in the unit of their call: milliseconds for [SendingTime], nanoseconds for the build
    time. *)
From S2P Require Import Prelude FixFields MessagePool FixMessage.

(** [struct BuilderConfig] *)
Record BuilderConfig := mkBuilderConfig {
  senderCompID : bytes;
  targetCompID : bytes;
  beginString : bytes;
  autoSequenceNumber : bool;
  autoTimestamp : bool;
  autoBodyLength : bool;
  autoChecksum : bool;
  enforceFieldOrder : bool
}.

(** The default member initialisers *)
Definition default_config (sender target : bytes) : BuilderConfig :=
  mkBuilderConfig sender target FIX_VERSION_44 true true true true true.

(** [struct BuilderStats] *)
Record BuilderStats := mkBuilderStats {
  messagesBuildAttempts : Z;
  messagesBuildSuccess : Z;
  messagesBuildFailure : Z;
  totalBuildTimeNanos : Z;
  averageBuildTimeNanos : Z;
  lastBuildTimeNanos : Z
}.

(** [BuilderStats::reset], [BuilderStats::updateTiming] *)
Definition builder_stats_reset : BuilderStats := mkBuilderStats 0 0 0 0 0 0.
Definition updateTiming (buildTimeNanos : Z) (s : BuilderStats) : BuilderStats :=
  let total := u64 (totalBuildTimeNanos s + buildTimeNanos) in
  mkBuilderStats (messagesBuildAttempts s) (messagesBuildSuccess s) (messagesBuildFailure s) total
    (if 0 <? messagesBuildSuccess s then total / messagesBuildSuccess s else averageBuildTimeNanos s)
    buildTimeNanos.

(** The members of the class *)
Record FixBuilder := mkBuilder {
  b_config : BuilderConfig;
  nextSeqNum_ : Z;
  b_stats : BuilderStats;
  buildStartTime_ : Z
}.

(** The constructors: the one that takes a configuration throws ([None]) when a comp id is
    empty. *)
Definition newBuilder (config : BuilderConfig) : option FixBuilder :=
  if is_nil (senderCompID config) || is_nil (targetCompID config) then None
  else Some (mkBuilder config 1 builder_stats_reset 0).
Definition newBuilderFor (sender target : bytes) : FixBuilder :=
  mkBuilder (default_config sender target) 1 builder_stats_reset 0.

(** [updateConfig], [setSenderCompID], [setTargetCompID], [setNextSeqNum], [getNextSeqNum],
    [getCurrentSeqNum], [resetStats] *)
Definition updateConfig (config : BuilderConfig) (b : FixBuilder) : FixBuilder :=
  mkBuilder config (nextSeqNum_ b) (b_stats b) (buildStartTime_ b).
Definition builder_setSender (id : bytes) (b : FixBuilder) : FixBuilder :=
  let c := b_config b in
  updateConfig (mkBuilderConfig id (targetCompID c) (beginString c) (autoSequenceNumber c)
    (autoTimestamp c) (autoBodyLength c) (autoChecksum c) (enforceFieldOrder c)) b.
Definition builder_setTarget (id : bytes) (b : FixBuilder) : FixBuilder :=
  let c := b_config b in
  updateConfig (mkBuilderConfig (senderCompID c) id (beginString c) (autoSequenceNumber c)
    (autoTimestamp c) (autoBodyLength c) (autoChecksum c) (enforceFieldOrder c)) b.
Definition setNextSeqNum (n : Z) (b : FixBuilder) : FixBuilder :=
  mkBuilder (b_config b) n (b_stats b) (buildStartTime_ b).
Definition getCurrentSeqNum (b : FixBuilder) : Z := wrap32 (nextSeqNum_ b - 1).
Definition builder_resetStats (b : FixBuilder) : FixBuilder :=
  mkBuilder (b_config b) (nextSeqNum_ b) builder_stats_reset (buildStartTime_ b).

Section Builder.
Context `{FieldOrder}.
Variable clock : nat -> Z.

Definition B := M (FixBuilder * nat).

Definition b_now : B Z := fun s => (Ret (clock (snd s)), (fst s, S (snd s))).
Definition get_builder : B FixBuilder := fun s => (Ret (fst s), s).
Definition update_builder (f : FixBuilder -> FixBuilder) : B unit :=
  fun s => (Ret tt, (f (fst s), snd s)).
Definition on_builder_stats (f : BuilderStats -> BuilderStats) : B unit :=
  update_builder (fun b => mkBuilder (b_config b) (nextSeqNum_ b) (f (b_stats b)) (buildStartTime_ b)).

(** [startTiming], [endTiming] *)
Definition startTiming : B unit :=
  t <-- b_now ;;
  update_builder (fun b => mkBuilder (b_config b) (nextSeqNum_ b) (b_stats b) t).
Definition endTiming : B unit :=
  t <-- b_now ;;
  b <-- get_builder ;;
  on_builder_stats (updateTiming (u64 (t - buildStartTime_ b))).

(** [addStandardHeader], on the message it changes *)
Definition addStandardHeader (msgType : bytes) (message : FixMessage) : B FixMessage :=
  b <-- get_builder ;;
  let c := b_config b in
  let m1 := setField Tag.BeginString (beginString c) message in
  let m2 := if negb (autoBodyLength c) && negb (hasField Tag.BodyLength m1)
            then setField Tag.BodyLength (str "0") m1 else m1 in
  let m3 := if is_nil msgType then m2 else setField Tag.MsgType msgType m2 in
  let m4 := if is_nil (senderCompID c) then m3 else setField Tag.SenderCompID (senderCompID c) m3 in
  let m5 := if is_nil (targetCompID c) then m4 else setField Tag.TargetCompID (targetCompID c) m4 in
  m6 <-- (if autoSequenceNumber c then
            update_builder (setNextSeqNum (wrap32 (nextSeqNum_ b + 1))) ;;;
            ret (setFieldInt Tag.MsgSeqNum (nextSeqNum_ b) m5)
          else ret m5) ;;
  if autoTimestamp c then t <-- b_now ;; ret (setSendingTime t m6) else ret m6.

(** [addStandardTrailer] *)
Definition addStandardTrailer (message : FixMessage) : B FixMessage :=
  b <-- get_builder ;;
  ret (if negb (autoChecksum (b_config b)) && negb (hasField Tag.CheckSum message)
       then setField Tag.CheckSum (str "000") message else message).

(** [orderFields]: its body is empty. *)
Definition orderFields (message : FixMessage) : FixMessage := message.

(** [buildImpl] *)
Definition buildImpl (message : FixMessage) : B bytes :=
  let workingMessage := copyConstruct message in
  m1 <-- addStandardHeader (getMsgType workingMessage) workingMessage ;;
  m2 <-- addStandardTrailer m1 ;;
  b <-- get_builder ;;
  let m3 := if enforceFieldOrder (b_config b) then orderFields m2 else m2 in
  let m4 := if autoBodyLength (b_config b) || autoChecksum (b_config b)
            then updateLengthAndChecksum m3 else m3 in
  ret (fst (toString m4)).

Definition count_build (attempts success failure : Z) : B unit :=
  on_builder_stats (fun s =>
    mkBuilderStats (messagesBuildAttempts s + attempts) (messagesBuildSuccess s + success)
      (messagesBuildFailure s + failure) (totalBuildTimeNanos s) (averageBuildTimeNanos s)
      (lastBuildTimeNanos s)).

(** [buildMessage(const FixMessage &)] *)
Definition buildMessage (message : FixMessage) : B bytes :=
  startTiming ;;;
  count_build 1 0 0 ;;;
  try_catch
    (result <-- buildImpl message ;;
     count_build 0 1 0 ;;;
     endTiming ;;;
     ret result)
    (count_build 0 0 1 ;;; endTiming ;;; throw).

(** [buildMessage(FixMessagePtr)], [buildMessage(const FixMessage &, std::string &)] *)
Definition buildMessagePtr (message : option FixMessage) : B bytes :=
  match message with None => throw | Some m => buildMessage m end.
Definition tryBuildMessage (message : FixMessage) : B (option bytes) :=
  try_catch (output <-- buildMessage message ;; ret (Some output)) (ret None).

(** ** Session messages *)

(** A new message object of this type *)
Definition fresh_message (type : bytes) : B FixMessage :=
  t <-- b_now ;; ret (setField Tag.MsgType type (newFixMessage t)).

(** A field that is set only when the text is not empty *)
Definition set_nonempty (tag : Z) (v : bytes) (m : FixMessage) : FixMessage :=
  if is_nil v then m else setField tag v m.

(** [buildLogon], [buildLogout], [buildHeartbeat], [buildTestRequest], [buildResendRequest],
    [buildSequenceReset], [buildReject] *)
Definition buildLogon (heartBeatInterval encryptMethod : Z) : B bytes :=
  m <-- fresh_message MsgTypes.Logon ;;
  buildMessage (setFieldInt Tag.HeartBtInt heartBeatInterval
                  (setFieldInt Tag.EncryptMethod encryptMethod m)).
Definition buildLogout (text : bytes) : B bytes :=
  m <-- fresh_message MsgTypes.Logout ;; buildMessage (set_nonempty Tag.Text text m).
Definition buildHeartbeat (testReqID : bytes) : B bytes :=
  m <-- fresh_message MsgTypes.Heartbeat ;; buildMessage (set_nonempty Tag.TestReqID testReqID m).
Definition buildTestRequest (testReqID : bytes) : B bytes :=
  m <-- fresh_message MsgTypes.TestRequest ;; buildMessage (setField Tag.TestReqID testReqID m).
Definition buildResendRequest (beginSeqNo endSeqNo : Z) : B bytes :=
  m <-- fresh_message MsgTypes.ResendRequest ;;
  buildMessage (setFieldInt Tag.EndSeqNo (if 0 <? endSeqNo then endSeqNo else 0)
                  (setFieldInt Tag.BeginSeqNo beginSeqNo m)).
Definition buildSequenceReset (newSeqNo : Z) (gapFillFlag : bool) : B bytes :=
  m <-- fresh_message MsgTypes.SequenceReset ;;
  let m1 := setFieldInt Tag.NewSeqNo newSeqNo m in
  buildMessage (if gapFillFlag then setField Tag.GapFillFlag (str "Y") m1 else m1).
Definition buildReject (refSeqNum : Z) (refMsgType reason : bytes) : B bytes :=
  m <-- fresh_message MsgTypes.Reject ;;
  buildMessage (set_nonempty Tag.Text reason (set_nonempty Tag.RefMsgType refMsgType
                  (setFieldInt Tag.RefSeqNum refSeqNum m))).

(** ** Trading messages *)

(** [buildNewOrderSingle] *)
Definition buildNewOrderSingle (clOrdID symbol side orderQty price orderType timeInForce account : bytes)
    : B bytes :=
  m <-- fresh_message MsgTypes.NewOrderSingle ;;
  let m1 := setField Tag.OrdType orderType (setField Tag.OrderQty orderQty (setField Tag.Side side
              (setField Tag.Symbol symbol (setField Tag.ClOrdID clOrdID m)))) in
  let m2 := if bool_decide (orderType = OrderType.Limit) || bool_decide (orderType = OrderType.StopLimit)
            then setField Tag.Price price m1 else m1 in
  buildMessage (set_nonempty Tag.Account account (setField Tag.TimeInForce timeInForce m2)).

(** [buildExecutionReport] *)
Definition buildExecutionReport (orderID execID execType ordStatus symbol side orderQty lastQty lastPx
    leavesQty cumQty avgPx : bytes) : B bytes :=
  m <-- fresh_message MsgTypes.ExecutionReport ;;
  buildMessage (fold_left (fun m f => setField (fst f) (snd f) m)
    [(Tag.OrderID, orderID); (Tag.ExecID, execID); (Tag.ExecType, execType);
     (Tag.OrdStatus, ordStatus); (Tag.Symbol, symbol); (Tag.Side, side);
     (Tag.OrderQty, orderQty); (Tag.LastQty, lastQty); (Tag.LastPx, lastPx);
     (Tag.LeavesQty, leavesQty); (Tag.CumQty, cumQty); (Tag.AvgPx, avgPx)] m).

(** ** [MessageBuilder]: a message under construction, and its parent the builder *)

(** [createMessage] and the constructor; [build], [buildMessage] *)
Definition createMessage (msgType : bytes) : B FixMessage := fresh_message msgType.
Definition mb_build (message_ : FixMessage) : B bytes := buildMessage message_.
Definition mb_buildMessage (message_ : FixMessage) : FixMessage := copyConstruct message_.
End Builder.

(** [MessageBuilder::setField] for a string, an [int], a [char] *)
Definition mb_setField (tag : Z) (v : bytes) (message_ : FixMessage) := setField tag v message_.
Definition mb_setFieldInt (tag v : Z) (message_ : FixMessage) := setFieldInt tag v message_.
Definition mb_setFieldChar (tag v : Z) (message_ : FixMessage) := setFieldChar tag v message_.

(** [setClOrdID], [setSymbol], [setSide], [setOrderQty], [setPrice], [setAccount], [setText] *)
Definition mb_setClOrdID (v : bytes) (m : FixMessage) := mb_setField Tag.ClOrdID v m.
Definition mb_setSymbol (v : bytes) (m : FixMessage) := mb_setField Tag.Symbol v m.
Definition mb_setSide (v : bytes) (m : FixMessage) := mb_setField Tag.Side v m.
Definition mb_setOrderQty (v : bytes) (m : FixMessage) := mb_setField Tag.OrderQty v m.
Definition mb_setPrice (v : bytes) (m : FixMessage) := mb_setField Tag.Price v m.
Definition mb_setAccount (v : bytes) (m : FixMessage) := mb_setField Tag.Account v m.
Definition mb_setText (v : bytes) (m : FixMessage) := mb_setField Tag.Text v m.

(** ** Field orders and validation *)

(** [getHeaderFieldOrder], [getTrailerFieldOrder], [getBodyFieldOrder] *)
Definition getHeaderFieldOrder : list Z :=
  [Tag.BeginString; Tag.BodyLength; Tag.MsgType; Tag.SenderCompID; Tag.TargetCompID;
   Tag.MsgSeqNum; Tag.SendingTime].
Definition getTrailerFieldOrder : list Z := [Tag.CheckSum].
Definition getBodyFieldOrder (msgType : bytes) : list Z :=
  if decide (msgType = MsgTypes.NewOrderSingle) then
    [Tag.ClOrdID; Tag.Symbol; Tag.Side; Tag.OrderQty; Tag.OrdType; Tag.Price; Tag.TimeInForce]
  else [].

(** [validateMessage], [getValidationErrors] *)
Definition builder_validateMessage (message : FixMessage) : bool :=
  hasField Tag.MsgType message &&
  forallb (fun tag => hasField tag message)
    [Tag.BeginString; Tag.BodyLength; Tag.MsgType; Tag.SenderCompID; Tag.TargetCompID;
     Tag.MsgSeqNum; Tag.SendingTime].
Definition getValidationErrors (message : FixMessage) : list bytes :=
  err_if (negb (hasField Tag.MsgType message)) "Missing MsgType field (35)" ++
  err_if (negb (hasField Tag.BeginString message)) "Missing BeginString field (8)" ++
  err_if (negb (hasField Tag.SenderCompID message)) "Missing SenderCompID field (49)" ++
  err_if (negb (hasField Tag.TargetCompID message)) "Missing TargetCompID field (56)".

(** * Lemmas *)

(** Every field of the message can be written and read back. *)
Definition printable_fields (m : FixMessage) : Prop :=
  forall k v, fields_ m !! k = Some v -> printable (k, v).

Lemma setField_printable tag v m :
  printable_fields m -> printable (tag, v) -> printable_fields (setField tag v m).
Proof.
  intros Hm Hv k w. unfold setField, setFieldInternal. simpl.
  intros [[<- <-] | [_ Hk]]%lookup_insert_Some; [done|by apply Hm].
Qed.

Lemma setField_lookup_eq tag v m : fields_ (setField tag v m) !! tag = Some v.
Proof. unfold setField, setFieldInternal. simpl. apply lookup_insert_eq. Qed.
Lemma setField_lookup_ne tag tag' v m :
  tag' <> tag -> fields_ (setField tag v m) !! tag' = fields_ m !! tag'.
Proof. intros H. unfold setField, setFieldInternal. simpl. by apply lookup_insert_ne. Qed.

Lemma setFieldInt_text tag v m : setFieldInt tag v m = setField tag (int_to_string v) m.
Proof. done. Qed.

(** Texts without a field separator. *)
Definition clean (s : bytes) : Prop := FIX_SOH ∉ s.

Lemma clean_app s t : clean s -> clean t -> clean (s ++ t).
Proof. unfold clean. rewrite elem_of_app. tauto. Qed.
Lemma clean_to_string v : clean (to_string v).
Proof. apply to_string_no_special. by right. Qed.
Lemma clean_pad w s : clean s -> clean (pad w s).
Proof.
  intros Hs. apply clean_app; [|done].
  intros H. apply elem_of_replicate in H as [H _]. by vm_compute in H.
Qed.
Lemma clean_str s : forallb (fun c => negb (c =? FIX_SOH)) (str s) = true -> clean (str s).
Proof.
  intros Hf Hin. rewrite forallb_forall in Hf.
  by specialize (Hf _ (proj1 (list_elem_of_In _ _) Hin)).
Qed.
#[local] Hint Resolve clean_app clean_to_string clean_pad : fixdb.
#[local] Hint Extern 1 (clean (str _)) => (apply clean_str; reflexivity) : fixdb.
#[local] Opaque pad.

(** What [setSendingTime] writes has no separator, whatever the time. *)
Lemma clean_sending_time now :
  clean (put_time (now / 1000) ++ str "." ++ pad 3 (to_string (now mod 1000))).
Proof.
  unfold put_time. destruct (civil_from_days _) as [[y m] d].
  auto 20 with fixdb.
Qed.


(** The fields of the message [buildImpl] serialises, when sequence number and time are
    filled in: header fields from the configuration, the others as they were. *)
Record header_written (c : BuilderConfig) (seq : Z) (m w : FixMessage) : Prop := {
  hw_begin : fields_ w !! Tag.BeginString = Some (beginString c);
  hw_type : fields_ w !! Tag.MsgType = Some (getMsgType m);
  hw_sender : fields_ w !! Tag.SenderCompID = Some (senderCompID c);
  hw_target : fields_ w !! Tag.TargetCompID = Some (targetCompID c);
  hw_seq : fields_ w !! Tag.MsgSeqNum = Some (int_to_string seq);
  hw_rest : forall k, k ∉ getHeaderFieldOrder -> k ∉ getTrailerFieldOrder ->
              fields_ w !! k = fields_ m !! k;
  hw_printable : printable_fields w
}.

(** A configuration that fills in everything, with texts that can be written. *)
Record auto_config (c : BuilderConfig) : Prop := {
  ac_seq : autoSequenceNumber c = true;
  ac_time : autoTimestamp c = true;
  ac_sender : senderCompID c <> [] /\ clean (senderCompID c);
  ac_target : targetCompID c <> [] /\ clean (targetCompID c);
  ac_begin : clean (beginString c)
}.

(** A message the builder can number: a type, fields that can be written. *)
Definition buildable (m : FixMessage) : Prop := getMsgType m <> [] /\ printable_fields m.

Lemma is_nil_false s : s <> [] -> is_nil s = false.
Proof. by destruct s. Qed.

Lemma tag_printable tag v : int32_range tag -> clean v -> printable (tag, v).
Proof. done. Qed.
#[local] Hint Resolve setField_printable tag_printable : fixdb.
#[local] Hint Extern 1 (int32_range _) => (by unfold int32_range) : fixdb.

Section BuilderLemmas.
Context `{FieldOrder}.
Variable clock : nat -> Z.

(** The object [addStandardHeader] makes, with sequence number and time filled in. *)
Definition headed (c : BuilderConfig) (seq now : Z) (msgType : bytes) (m : FixMessage) : FixMessage :=
  let m1 := setField Tag.BeginString (beginString c) m in
  let m2 := if negb (autoBodyLength c) && negb (hasField Tag.BodyLength m1)
            then setField Tag.BodyLength (str "0") m1 else m1 in
  setSendingTime now (setFieldInt Tag.MsgSeqNum seq (setField Tag.TargetCompID (targetCompID c)
    (setField Tag.SenderCompID (senderCompID c) (setField Tag.MsgType msgType m2)))).

Lemma headed_written c seq now m :
  auto_config c -> buildable m -> int32_range seq ->
  header_written c seq m (headed c seq now (getMsgType m) m).
Proof.
  intros Hc [Ht Hm] Hs. destruct Hc as [_ _ [_ Hc1] [_ Hc2] Hc3].
  unfold headed, setSendingTime. rewrite setFieldInt_text, int_to_string_to_string by done.
  set (m1 := setField Tag.BeginString _ m).
  set (m2 := if (_ : bool) then setField Tag.BodyLength _ m1 else m1).
  assert (printable_fields m2) as Hm2.
  { subst m2. case_goal; subst m1; auto 10 with fixdb. }
  assert (forall k, k <> Tag.BodyLength -> fields_ m2 !! k = fields_ m1 !! k) as H2.
  { intros k Hk. subst m2. case_goal; [|done]. by apply setField_lookup_ne. }
  split.
  all: try (rewrite !setField_lookup_ne by done; apply setField_lookup_eq).
  - rewrite !setField_lookup_ne by done. rewrite H2 by done. apply setField_lookup_eq.
  - rewrite !setField_lookup_ne by done. rewrite setField_lookup_eq.
    by rewrite int_to_string_to_string.
  - intros k Hk _. unfold getHeaderFieldOrder in Hk. rewrite !not_elem_of_cons in Hk.
    destruct_and! Hk. rewrite !setField_lookup_ne by done. rewrite H2 by done.
    by apply setField_lookup_ne.
  - repeat apply setField_printable; auto with fixdb.
    + apply tag_printable; [by unfold int32_range|]. unfold getMsgType, getFieldValue.
      unfold getMsgType, getFieldValue in Ht.
      destruct (fields_ m !! Tag.MsgType) as [t|] eqn:E; [|done]. by destruct (Hm _ _ E).
    + apply tag_printable; [by unfold int32_range|]. apply clean_sending_time.
Qed.

(** The trailer does not disturb the header. *)
Lemma trailed_written c seq m w :
  header_written c seq m w ->
  header_written c seq m
    (if negb (autoChecksum c) && negb (hasField Tag.CheckSum w)
     then setField Tag.CheckSum (str "000") w else w).
Proof.
  intros [H8 H35 H49 H56 H34 Hr Hp]. case_goal; [|done].
  split; try (by rewrite setField_lookup_ne).
  - intros k Hk Ht. rewrite setField_lookup_ne; [by apply Hr|].
    unfold getTrailerFieldOrder in Ht. rewrite not_elem_of_cons in Ht. tauto.
  - apply setField_printable; auto with fixdb.
Qed.

(** [buildImpl] serialises the message with the header written, and takes one number. *)
Lemma buildImpl_run m b n :
  auto_config (b_config b) -> buildable m -> int32_range (nextSeqNum_ b) ->
  exists w, header_written (b_config b) (nextSeqNum_ b) m w /\
    buildImpl clock m (b, n) =
      (Ret (serialise w), (setNextSeqNum (wrap32 (nextSeqNum_ b + 1)) b, S n)).
Proof.
  intros Hc Hm Hs. pose proof Hc as [Hseq Htime [Hse _] [Hta _] _].
  pose proof (headed_written _ _ (clock n) _ Hc Hm Hs) as Hw.
  pose proof (trailed_written _ _ _ _ Hw) as Hw'.
  eexists. split; [exact Hw'|].
  change (getMsgType m) with (getMsgType (copyConstruct m)) in *.
  unfold buildImpl, addStandardHeader, addStandardTrailer, bind, get_builder, update_builder, ret,
    b_now. cbn [fst snd].
  rewrite Hseq, Htime, !is_nil_false by (done || apply Hm). cbn [fst snd].
  change (b_config (setNextSeqNum _ b)) with (b_config b). unfold orderFields.
  fold (headed (b_config b) (nextSeqNum_ b) (clock n) (getMsgType (copyConstruct m)) (copyConstruct m)).
  set (h := headed _ _ _ _ _). f_equal. f_equal. clear.
  destruct (enforceFieldOrder _), (autoBodyLength _ || autoChecksum _);
    unfold updateLengthAndChecksum, toString; simpl;
    destruct (negb (autoChecksum (b_config b)) && negb (hasField Tag.CheckSum h)); reflexivity.
Qed.

(** The statistics count the calls. *)
Record counted (k : Z) (s s' : BuilderStats) : Prop := {
  ct_attempts : messagesBuildAttempts s' = messagesBuildAttempts s + k;
  ct_success : messagesBuildSuccess s' = messagesBuildSuccess s + k;
  ct_failure : messagesBuildFailure s' = messagesBuildFailure s
}.

Lemma buildMessage_run m b n :
  auto_config (b_config b) -> buildable m -> int32_range (nextSeqNum_ b) ->
  exists w b', header_written (b_config b) (nextSeqNum_ b) m w /\
    buildMessage clock m (b, n) = (Ret (serialise w), (b', S (S (S n)))) /\
    b_config b' = b_config b /\ nextSeqNum_ b' = wrap32 (nextSeqNum_ b + 1) /\
    counted 1 (b_stats b) (b_stats b').
Proof.
  intros Hc Hm Hs. unfold buildMessage, startTiming, count_build, on_builder_stats, endTiming,
    update_builder, get_builder, bind, b_now, ret, try_catch. cbn [fst snd].
  match goal with |- context [buildImpl clock m (?b1, ?n1)] =>
    destruct (buildImpl_run m b1 n1 Hc Hm Hs) as (w & Hw & ->) end.
  exists w. eexists. split; [exact Hw|]. split; [reflexivity|].
  split; [done|]. split; [done|]. split; cbn; lia.
Qed.

(** Calls of [buildMessage] one after the other. *)
Fixpoint build_all (ms : list FixMessage) : B (list bytes) :=
  match ms with
  | [] => ret []
  | m :: ms' => s <-- buildMessage clock m ;; l <-- build_all ms' ;; ret (s :: l)
  end.

(** The text carries the message with the header the builder fills in. *)
Definition carries (c : BuilderConfig) (seq : Z) (m : FixMessage) (s : bytes) : Prop :=
  forall now, let r := newFromString now s in
  getField Tag.BeginString r = Some (beginString c) /\
  getField Tag.MsgType r = Some (getMsgType m) /\
  getField Tag.SenderCompID r = Some (senderCompID c) /\
  getField Tag.TargetCompID r = Some (targetCompID c) /\
  getMsgSeqNum r = seq /\
  (forall k v, k ∉ getHeaderFieldOrder -> k ∉ getTrailerFieldOrder ->
     getField k m = Some v -> getField k r = Some v).

Lemma serialised_carries c seq m w :
  int32_range seq -> header_written c seq m w -> carries c seq m (serialise w).
Proof.
  intros Hs [H8 H35 H49 H56 H34 Hr Hp] now r.
  assert (forall k v, fields_ w !! k = Some v -> k <> Tag.BodyLength -> k <> Tag.CheckSum ->
            fields_ r !! k = Some v) as Hk.
  { intros. apply (parse_serialised w (beginString c)); eauto. }
  unfold getField. split_and!; try (by apply Hk).
  - unfold getMsgSeqNum, getFieldInt, getField. rewrite (Hk _ _ H34) by done.
    by rewrite int_to_string_to_string, stoi_to_string by done.
  - intros k v Hkh Hkt Hkm. apply Hk; [by rewrite Hr| |];
      intros ->; [apply Hkh|apply Hkt]; unfold getHeaderFieldOrder, getTrailerFieldOrder; set_solver.
Qed.

Lemma build_all_run ms b n :
  auto_config (b_config b) -> Forall buildable ms -> -2147483648 <= nextSeqNum_ b ->
  nextSeqNum_ b + Z.of_nat (length ms) <= 2147483647 ->
  exists texts b', build_all ms (b, n) = (Ret texts, (b', (n + 3 * length ms)%nat)) /\
    b_config b' = b_config b /\
    nextSeqNum_ b' = nextSeqNum_ b + Z.of_nat (length ms) /\
    counted (Z.of_nat (length ms)) (b_stats b) (b_stats b') /\
    length texts = length ms /\
    (forall i m s, ms !! i = Some m -> texts !! i = Some s ->
       carries (b_config b) (nextSeqNum_ b + Z.of_nat i) m s).
Proof.
  intros Hc Hms. revert b n Hc. induction Hms as [|m ms Hm Hms IH]; intros b n Hc Hlo Hhi.
  - exists [], b. cbn. replace (n + 0)%nat with n by lia. split_and!; try done; try lia.
    split; lia.
  - cbn [length] in Hhi.
    destruct (buildMessage_run m b n Hc Hm ltac:(unfold int32_range; lia))
      as (w & b1 & Hw & E1 & Hc1 & Hs1 & Hst1).
    rewrite wrap32_id in Hs1 by (unfold int32_range; lia).
    destruct (IH b1 (S (S (S n)))) as (texts & b' & E2 & Hc2 & Hs2 & Hst2 & Hl & Ht);
      [by rewrite Hc1|lia|lia|].
    exists (serialise w :: texts), b'. cbn [build_all]. unfold bind. rewrite E1, E2. unfold ret.
    replace (n + 3 * length (m :: ms))%nat with (S (S (S n)) + 3 * length ms)%nat by (simpl; lia).
    split; [done|]. split; [congruence|]. split; [simpl; lia|].
    split; [destruct Hst1, Hst2; split; simpl; lia|]. split; [simpl; lia|].
    intros [|i] m' s Hm' Hs'; simpl in Hm', Hs'.
    + simplify_eq. rewrite Z.add_0_r. apply serialised_carries; [unfold int32_range; lia|done].
    + specialize (Ht _ _ _ Hm' Hs'). rewrite Hc1, Hs1 in Ht.
      replace (nextSeqNum_ b + Z.of_nat (S i)) with (nextSeqNum_ b + 1 + Z.of_nat i) by lia. done.
Qed.

(** A built message without BodyLength prints a checksum that does not verify. *)
Lemma built_checksum_rejected m b n :
  auto_config (b_config b) -> buildable m -> int32_range (nextSeqNum_ b) ->
  exists w, fst (buildMessage clock m (b, n)) = Ret (serialise w) /\
    (fields_ w !! Tag.BodyLength = None -> calculateBodyLength w < 1000000 ->
     verifyChecksum (serialise w) = false).
Proof.
  intros Hc Hm Hs. destruct (buildMessage_run m b n Hc Hm Hs) as (w & b' & Hw & E & _).
  exists w. rewrite E. split; [done|]. intros. eapply computed_length_rejected; eauto; apply Hw.
Qed.
End BuilderLemmas.

(** C22: a builder that fills in sequence numbers and times turns every list of messages
    into texts without failing, one number per message: each text parses back to its
    message with the configured BeginString, SenderCompID and TargetCompID, the message's
    own type, the next sequence number in order, and every field outside header and trailer
    as it was; the counter ends after the last number and the statistics count the calls
    as successes. *)
Theorem builder_numbers_messages `{FieldOrder} (clock : nat -> Z) ms b n :
  auto_config (b_config b) -> Forall buildable ms -> -2147483648 <= nextSeqNum_ b ->
  nextSeqNum_ b + Z.of_nat (length ms) <= 2147483647 ->
  exists texts b', build_all clock ms (b, n) = (Ret texts, (b', (n + 3 * length ms)%nat)) /\
    nextSeqNum_ b' = nextSeqNum_ b + Z.of_nat (length ms) /\
    counted (Z.of_nat (length ms)) (b_stats b) (b_stats b') /\
    length texts = length ms /\
    (forall i m s, ms !! i = Some m -> texts !! i = Some s ->
       carries (b_config b) (nextSeqNum_ b + Z.of_nat i) m s).
Proof.
  intros Hc Hms Hlo Hhi.
  destruct (build_all_run clock ms b n Hc Hms Hlo Hhi) as (texts & b' & E & _ & Hrest).
  by exists texts, b'.
Qed.

(** * Witnesses *)

#[local] Instance builder_order : FieldOrder := canonical_order.

Definition sample_order_single : FixMessage :=
  setField Tag.Symbol (str "AAPL") (setField Tag.ClOrdID (str "A1")
    (setField Tag.MsgType MsgTypes.NewOrderSingle (newFixMessage 0))).

Lemma sample_buildable : buildable sample_order_single.
Proof. split; [done|]. intros k v. apply printable_all. vm_compute. reflexivity. Qed.

Lemma builder_numbers_messages_witness :
  exists texts b',
    build_all (fun _ => 0) [sample_order_single; sample_order_single]
      (newBuilderFor (str "ME") (str "YOU"), 0%nat) = (Ret texts, (b', 6%nat)) /\
    nextSeqNum_ b' = 3.
Proof.
  destruct (builder_numbers_messages (fun _ => 0) [sample_order_single; sample_order_single]
    (newBuilderFor (str "ME") (str "YOU")) 0) as (texts & b' & E & Hn & _).
  - split; [done|done|split; [done|]..|]; by apply clean_str.
  - pose proof sample_buildable. by rewrite !Forall_cons.
  - done.
  - done.
  - exists texts, b'. split; [exact E|exact Hn].
Defined.
