(* ===== verification/FieldText.v ===== *)
(** The text side of the protocol classes that the message path does not use:
    fields with floating-point values ([FixMessage::setField(int, double, int)],
    [MessageBuilder::setField(int, double, int)], [formatFixField] of numbers), the
    names of fields ([FieldNames]), the formatted dump of a message, the
    processing times of a message and [setCommonSessionFields]. *)
From S2P Require Import Prelude FixFields Doubles FastConversion MessagePool FixMessage FixBuilder.

(** * Numbers as fields *)

(** [setField(int tag, double value, int precision)]: the conversion goes through
    the thread's buffers. *)
Definition setFieldDouble (tag : Z) (value : double) (precision : Z) (st : conv_state)
    (m : FixMessage) : FixMessage * conv_state :=
  let '(text, st) := double_to_string value precision st in
  (setFieldInternal tag text m, st).
(** [MessageBuilder::setField(int tag, double value, int precision)] *)
Definition mb_setFieldDouble (tag : Z) (value : double) (precision : Z) (st : conv_state)
    (message_ : FixMessage) : FixMessage * conv_state :=
  setFieldDouble tag value precision st message_.

(** [getFieldPtr]: the field's string, or null. *)
Definition getFieldPtr (tag : Z) (m : FixMessage) : option bytes := fields_ m !! tag.

(** [formatFixField(int, int)] *)
Definition formatFixFieldInt (tag value : Z) : bytes :=
  to_string tag ++ [61] ++ to_string value ++ [FIX_SOH].

(** [snprintf("%.*f")] of any double; a negative precision is the default, 6. *)
Definition printf_f (nan_text : bytes) (precision : Z) (value : double) : bytes :=
  match value with
  | S754_nan => nan_text
  | S754_infinity s => if s then str "-inf" else str "inf"
  | _ => print_fixed (if precision <? 0 then 6%nat else Z.to_nat precision) value
  end.

(** [formatFixField(int, double, int)]: at most 31 characters fit its buffer, and
    the result of [snprintf] is not looked at. *)
Definition formatFixFieldDouble (nan_text : bytes) (tag : Z) (value : double) (precision : Z) :
    bytes :=
  to_string tag ++ [61] ++ take 31 (printf_f nan_text precision value) ++ [FIX_SOH].

(** * [FieldNames] *)

(** The two static maps; they are filled at the first look-up that finds the map
    it needs empty. *)
Record field_names := mkNames { tagToName_ : gmap Z bytes; nameToTag_ : gmap bytes Z }.

Definition noNames : field_names := mkNames ∅ ∅.

(** The assignments of [initializeMaps], in order. *)
Definition name_table : list (Z * bytes) :=
  [(Tag.BeginString, str "BeginString"); (Tag.BodyLength, str "BodyLength");
   (Tag.CheckSum, str "CheckSum"); (Tag.MsgType, str "MsgType");
   (Tag.MsgSeqNum, str "MsgSeqNum"); (Tag.SenderCompID, str "SenderCompID");
   (Tag.TargetCompID, str "TargetCompID"); (Tag.SendingTime, str "SendingTime");
   (Tag.ClOrdID, str "ClOrdID"); (Tag.OrderID, str "OrderID"); (Tag.Symbol, str "Symbol");
   (Tag.Side, str "Side"); (Tag.OrderQty, str "OrderQty"); (Tag.Price, str "Price");
   (Tag.OrdType, str "OrdType"); (Tag.TimeInForce, str "TimeInForce");
   (Tag.ExecType, str "ExecType"); (Tag.OrdStatus, str "OrdStatus")].

Section Names.
Context `{FO : FieldOrder}.

(** [initializeMaps]: the table, then the reverse map by a walk over the first
    one in the map's own order. *)
Definition initializeMaps (s : field_names) : field_names :=
  let t2n := fold_left (fun m x => <[fst x := snd x]> m) name_table (tagToName_ s) in
  mkNames t2n (fold_left (fun m x => <[snd x := fst x]> m) (field_iter t2n) (nameToTag_ s)).

Definition getFieldName (fieldTag : Z) (s : field_names) : bytes * field_names :=
  let s := if bool_decide (tagToName_ s = ∅) then initializeMaps s else s in
  (default (str "Unknown") (tagToName_ s !! fieldTag), s).

Definition getFieldTag (fieldName : bytes) (s : field_names) : Z * field_names :=
  let s := if bool_decide (nameToTag_ s = ∅) then initializeMaps s else s in
  (default 0 (nameToTag_ s !! fieldName), s).

(** [toFormattedString]: one line per field, in the map's order; the names are
    looked up one after the other. *)
Fixpoint formatted_fields (fs : list (Z * bytes)) (s : field_names) : bytes * field_names :=
  match fs with
  | [] => ([], s)
  | (tag, value) :: fs =>
      let '(name, s) := getFieldName tag s in
      let '(rest, s) := formatted_fields fs s in
      (str "  " ++ to_string tag ++ str " (" ++ name ++ str "): " ++ value ++ [10] ++ rest, s)
  end.
Definition toFormattedString (m : FixMessage) (s : field_names) : bytes * field_names :=
  let '(body, s) := formatted_fields (field_iter (fields_ m)) s in
  (str "FixMessage {" ++ [10] ++ body ++ str "}", s).

(** ** Lemmas *)

Definition names : gmap Z bytes := list_to_map name_table.

Lemma fold_insert_table :
  fold_left (fun m x => <[fst x := snd x]> m) name_table (∅ : gmap Z bytes) = names.
Proof. by vm_compute. Qed.

(** The reverse of an injective association does not depend on the order. *)
Lemma fold_reverse (l : list (Z * bytes)) (acc : gmap bytes Z) n :
  NoDup (map snd l) ->
  fold_left (fun m x => <[snd x := fst x]> m) l acc !! n =
    match list_find (fun x => snd x = n) l with
    | Some (_, x) => Some (fst x)
    | None => acc !! n
    end.
Proof.
  revert acc. induction l as [|[t v] l IH]; intros acc Hnd; [done|].
  simpl in Hnd. apply NoDup_cons in Hnd as [Hni Hnd]. simpl. rewrite IH by done.
  destruct (decide (v = n)) as [->|Hne].
  - destruct (list_find (fun x => snd x = n) l) as [[i x]|] eqn:E; simpl.
    + apply list_find_Some in E as (Hx & <- & _). destruct Hni.
      apply list_elem_of_fmap. exists x. split; [done|]. by eapply list_elem_of_lookup_2.
    + by rewrite lookup_insert_eq.
  - destruct (list_find (fun x => snd x = n) l) as [[i x]|]; simpl; [done|].
    by rewrite lookup_insert_ne.
Qed.

Lemma snd_injective (l : list (Z * bytes)) t t' n :
  NoDup (map snd l) -> (t, n) ∈ l -> (t', n) ∈ l -> t = t'.
Proof.
  intros Hnd [i Hi]%list_elem_of_lookup_1 [j Hj]%list_elem_of_lookup_1.
  assert (i = j) as ->; [|by simplify_eq].
  eapply (NoDup_lookup (map snd l)); [done|..]; by rewrite list_lookup_fmap, ?Hi, ?Hj.
Qed.

Lemma name_table_NoDup : NoDup (map fst name_table) /\ NoDup (map snd name_table).
Proof. split; refine (bool_decide_unpack _ _); by vm_compute. Qed.

Lemma names_table t n : names !! t = Some n <-> (t, n) ∈ name_table.
Proof.
  split; [apply elem_of_list_to_map_2|]. apply elem_of_list_to_map_1, name_table_NoDup.
Qed.

(** The maps when they are filled: inverse of each other. *)
Definition filled (s : field_names) : Prop :=
  tagToName_ s = names /\ forall n t, nameToTag_ s !! n = Some t <-> names !! t = Some n.

Lemma initializeMaps_filled : filled (initializeMaps noNames).
Proof.
  unfold initializeMaps. cbn [tagToName_ nameToTag_ noNames]. rewrite fold_insert_table.
  assert (NoDup (map snd (field_iter names))) as Hnd.
  { rewrite (Permutation_map snd (field_iter_perm names)). unfold names.
    rewrite map_to_list_to_map by apply name_table_NoDup. apply name_table_NoDup. }
  assert (forall x, x ∈ field_iter names <-> names !! fst x = Some (snd x)) as Hin.
  { intros [t n]. rewrite (field_iter_perm names). apply elem_of_map_to_list. }
  split; [done|]. intros n t. cbn [nameToTag_]. rewrite fold_reverse by done.
  destruct (list_find _ _) as [[i [t' n']]|] eqn:E.
  - apply list_find_Some in E as (Hx & Hn & _). simpl in *. subst n'.
    apply list_elem_of_lookup_2, Hin in Hx. simpl in Hx. split.
    + by intros [= ->].
    + intros Ht. f_equal. rewrite names_table in Hx, Ht.
      eapply (snd_injective name_table); [apply name_table_NoDup|done|done].
  - split; [by rewrite lookup_empty|]. intros Ht. apply list_find_None in E.
    rewrite Forall_forall in E. destruct (E (t, n)); [by apply Hin|done].
Qed.

(** The two states the statics can be in. *)
Definition names_state (s : field_names) : Prop := s = noNames \/ filled s.

Lemma filled_nonempty s : filled s -> tagToName_ s <> ∅ /\ nameToTag_ s <> ∅.
Proof.
  intros [-> Hr]. split; [done|]. intros E.
  assert (nameToTag_ s !! str "Side" = Some Tag.Side) as H by (apply Hr; by vm_compute).
  by rewrite E, lookup_empty in H.
Qed.

Lemma getFieldName_spec t s :
  names_state s ->
  fst (getFieldName t s) = default (str "Unknown") (names !! t) /\ filled (snd (getFieldName t s)).
Proof.
  intros [->|H]; unfold getFieldName.
  - rewrite bool_decide_eq_true_2 by done. pose proof initializeMaps_filled as Hf.
    split; [|done]. destruct Hf as [E _]. by cbn [fst]; rewrite E.
  - destruct (filled_nonempty s H) as [Hne _]. rewrite bool_decide_eq_false_2 by done.
    split; [|done]. destruct H as [E _]. by cbn [fst]; rewrite E.
Qed.

Lemma getFieldTag_spec n s :
  names_state s ->
  filled (snd (getFieldTag n s)) /\
  (forall t, names !! t = Some n -> fst (getFieldTag n s) = t) /\
  ((forall t, names !! t <> Some n) -> fst (getFieldTag n s) = 0).
Proof.
  intros Hs. unfold getFieldTag.
  assert (filled (if bool_decide (nameToTag_ s = ∅) then initializeMaps s else s)) as Hf.
  { destruct Hs as [->|H]; [rewrite bool_decide_eq_true_2 by done; apply initializeMaps_filled|].
    destruct (filled_nonempty s H) as [_ Hne]. by rewrite bool_decide_eq_false_2. }
  revert Hf. generalize (if bool_decide (nameToTag_ s = ∅) then initializeMaps s else s).
  intros s' Hf. cbn [fst snd]. split; [done|]. destruct Hf as [_ Hr]. split.
  - intros t Ht. by rewrite (proj2 (Hr n t) Ht).
  - intros Hn. destruct (nameToTag_ s' !! n) as [t|] eqn:E; [|done].
    by apply Hr, Hn in E.
Qed.

(** Names and tags convert back and forth, from the empty statics and ever
    after, and what is not in the table is [Unknown] or 0. *)
Lemma field_names_round_trip t s :
  names_state s ->
  let '(name, s') := getFieldName t s in
  let '(tag, s'') := getFieldTag name s' in
  names_state s'' /\
  match names !! t with
  | Some n => name = n /\ tag = t
  | None => name = str "Unknown" /\ tag = 0
  end.
Proof.
  intros Hs. destruct (getFieldName_spec t s Hs) as [Hname Hf].
  destruct (getFieldName t s) as [name s']. cbn [fst snd] in *.
  destruct (getFieldTag_spec name s' (or_intror Hf)) as (Hf' & Hk & Hu).
  destruct (getFieldTag name s') as [tag s'']. cbn [fst snd] in *. split; [by apply or_intror|].
  destruct (names !! t) as [n|] eqn:E; simpl in Hname; subst name.
  - split; [done|]. by apply Hk.
  - split; [done|]. apply Hu. intros t' Ht'%names_table.
    assert (Forall (fun x : Z * bytes => snd x <> str "Unknown") name_table) as Hall
      by (repeat constructor; done).
    rewrite Forall_forall in Hall. exact (Hall _ Ht' eq_refl).
Qed.
End Names.

(** * Floating-point fields *)

(** The text stored for a finite value that fits the buffer. *)
Lemma setFieldDouble_text tag value precision st msg :
  let p := Z.to_nat (Z.max 0 (Z.min precision 9)) in
  isnan value = false -> isinf value = false -> valid value -> conv_wf st ->
  scaled value p < 10 ^ 61 ->
  getField tag (fst (setFieldDouble tag value precision st msg)) = Some (print_fixed p value).
Proof.
  intros p Hnan Hinf Hv Hw Hb. unfold setFieldDouble, double_to_string.
  pose proof (double_to_view_finite value precision st Hnan Hinf Hw) as Hd.
  destruct (double_to_view value precision st) as [w st']. destruct Hd as (_ & _ & Ht).
  unfold getField. cbn [fst]. unfold make_permanent. rewrite Ht. fold p.
  pose proof (print_fixed_length p value 61 Hb ltac:(lia)).
  destruct (Nat.leb_spec DOUBLE_BUFFER_SIZE (length (print_fixed p value)));
    [unfold DOUBLE_BUFFER_SIZE in *; lia|].
  apply lookup_insert_eq.
Qed.

(** [formatFixField] of a double cuts a long text: [2 ^ 107] with two decimals
    loses its last digits and its point. *)
Lemma formatFixFieldDouble_truncates :
  formatFixFieldDouble [] 44 (S754_finite false 4503599627370496 55) 2 =
    str "44=1622592768292133633915780102881" ++ [FIX_SOH] /\
  read_fixed (print_fixed 2 (S754_finite false 4503599627370496 55)) =
    Some (false, 16225927682921336339157801028812800, 2%nat).
Proof. by vm_compute. Qed.

(** * Processing times *)

(** The four time points of a message, in nanoseconds of the steady clock. *)
Record MessageTimes := mkTimes {
  creationTime_ : Z; lastModified_ : Z; processingStart_ : Z; processingEnd_ : Z
}.
Definition newTimes (now : Z) : MessageTimes := mkTimes now now 0 0.
Definition touchModified (now : Z) (t : MessageTimes) : MessageTimes :=
  mkTimes (creationTime_ t) now (processingStart_ t) (processingEnd_ t).
Definition markProcessingStart (now : Z) (t : MessageTimes) : MessageTimes :=
  mkTimes (creationTime_ t) (lastModified_ t) now (processingEnd_ t).
Definition markProcessingEnd (now : Z) (t : MessageTimes) : MessageTimes :=
  mkTimes (creationTime_ t) (lastModified_ t) (processingStart_ t) now.
Definition getProcessingLatency (t : MessageTimes) : Z :=
  if (0 <? processingStart_ t) && (0 <? processingEnd_ t)
  then processingEnd_ t - processingStart_ t else 0.

(** Marking the end before the start is ever marked gives no latency. *)
Lemma processing_latency now1 now2 t :
  0 < now1 -> 0 < now2 -> processingStart_ t = 0 ->
  getProcessingLatency (markProcessingEnd now2 (markProcessingStart now1 t)) = now2 - now1 /\
  getProcessingLatency (markProcessingEnd now2 t) = 0.
Proof.
  intros H1 H2 H0. unfold getProcessingLatency. simpl. rewrite H0.
  destruct (Z.ltb_spec 0 now1), (Z.ltb_spec 0 now2); try lia. done.
Qed.

(** * [setCommonSessionFields] *)

(** Applied to the object behind a pointer that may be null. *)
Definition setCommonSessionFields (senderID targetID : bytes) (now : Z) (msg : option FixMessage) :
    option FixMessage :=
  match msg with
  | Some m => Some (setSendingTime now (setTargetCompID targetID (setSenderCompID senderID m)))
  | None => None
  end.
