(* ===== verification/NumberText.v ===== *)
(** Reading a field as a floating-point number: [FixMessage::getField(int, double &)].

    [std::stod] is [strtod] (in the ["C"] locale) with its errors turned into
    exceptions: leading white space, a sign, then a decimal or hexadecimal number
    with an optional exponent, an infinity or a NaN; the rest of the text is
    ignored.  The number read is rounded correctly, [of_fraction].  Whether a tiny
    inexact result sets [ERANGE] is left to the C library by the standard, so it
    is a parameter. *)
From S2P Require Import Prelude FixFields Doubles FastConversion MessagePool FixMessage FixBuilder FieldText.

(** * The double nearest to a fraction *)

(** [num / den] against [2 ^ k], without fractions. *)
Definition up (num k : Z) : Z := num * 2 ^ Z.max (- k) 0.
Definition down (den k : Z) : Z := den * 2 ^ Z.max k 0.

(** The [k] with [2 ^ k <= num / den < 2 ^ (k + 1)]. *)
Definition log2_fraction (num den : Z) : Z :=
  let k := Z.log2 num - Z.log2 den in
  if up num k <? down den k then k - 1 else k.

(** The exponent of the last place, not below that of the subnormals; the integer
    of the mantissa. *)
Definition last_place (num den : Z) : Z := Z.max (log2_fraction num den - 52) (-1074).
Definition mantissa_of (num den : Z) : Z :=
  let e := last_place num den in round_half_even (up num e) (down den e).

(** A mantissa rounded up to [2 ^ 53] moves to the next binade; an exponent above
    the largest is an infinity. *)
Definition assemble (s : bool) (m e : Z) : double :=
  let '(m, e) := if m =? 2 ^ 53 then (2 ^ 52, e + 1) else (m, e) in
  match m with
  | Zpos m => if 971 <? e then S754_infinity s else S754_finite s m e
  | _ => S754_zero s
  end.

Definition of_fraction (s : bool) (num den : Z) : double :=
  assemble s (mantissa_of num den) (last_place num den).

(** The result is tiny and the fraction is not a double. *)
Definition underflows (num den : Z) : bool :=
  let e := last_place num den in let m := mantissa_of num den in
  (m <? 2 ^ 52) && negb (m * down den e =? up num e).

(** * [strtod] *)

Definition dec_digit (c : Z) : option Z := if is_digit c then Some (c - 48) else None.
Definition hex_digit (c : Z) : option Z :=
  if is_digit c then Some (c - 48)
  else if (97 <=? c) && (c <=? 102) then Some (c - 87)
  else if (65 <=? c) && (c <=? 70) then Some (c - 55)
  else None.

Fixpoint digits_of (digit : Z -> option Z) (s : bytes) : list Z * bytes :=
  match s with
  | c :: s' =>
      match digit c with
      | Some d => let '(ds, rest) := digits_of digit s' in (d :: ds, rest)
      | None => ([], s)
      end
  | [] => ([], [])
  end.

(** The digits around an optional point: the integer they write, how many follow
    the point, what is left; there has to be a digit. *)
Definition number_part (base : Z) (digit : Z -> option Z) (s : bytes) : option (Z * nat * bytes) :=
  let '(ip, s1) := digits_of digit s in
  let '(fp, s2) := match s1 with
                   | c :: r => if c =? 46 then digits_of digit r else ([], s1)
                   | [] => ([], s1)
                   end in
  match ip ++ fp with
  | [] => None
  | ds => Some (fold_left (fun v d => v * base + d) ds 0, length fp, s2)
  end.

Definition sign_part (s : bytes) : bool * bytes :=
  match s with
  | c :: r => if c =? 45 then (true, r) else if c =? 43 then (false, r) else (false, s)
  | [] => (false, [])
  end.

(** [e], [E] (or [p], [P]), a sign and decimal digits; without digits it is not an
    exponent. *)
Definition exponent_part (lower upper : Z) (s : bytes) : Z :=
  match s with
  | c :: r =>
      if (c =? lower) || (c =? upper) then
        let '(neg, r) := sign_part r in
        let x := fold_left (fun v d => v * 10 + d) (fst (digits_of dec_digit r)) 0 in
        if neg then - x else x
      else 0
  | [] => 0
  end.

Definition to_lower (c : Z) : Z := if (65 <=? c) && (c <=? 90) then c + 32 else c.
Definition starts_with (word s : bytes) : bool :=
  bool_decide (map to_lower (take (length word) s) = word).

(** The text after [0x]. *)
Definition hex_part (s : bytes) : option (Z * nat * bytes) :=
  match s with
  | z :: x :: r =>
      if (z =? 48) && ((x =? 120) || (x =? 88)) then number_part 16 hex_digit r else None
  | _ => None
  end.

Inductive strtod_result := NoConversion | Converted (value : double) (erange : bool).

Section Stod.
Variable reports_underflow : bool.

Definition converted (s : bool) (num den : Z) : strtod_result :=
  let x := of_fraction s num den in
  Converted x (isinf x || (reports_underflow && underflows num den)).

Definition strtod (text : bytes) : strtod_result :=
  let '(s, r) := sign_part (skip_spaces text) in
  match hex_part r with
  | Some (v, k, rest) =>
      let x := exponent_part 112 80 rest - 4 * Z.of_nat k in
      converted s (v * 2 ^ Z.max x 0) (2 ^ Z.max (- x) 0)
  | None =>
      match number_part 10 dec_digit r with
      | Some (v, k, rest) =>
          let x := exponent_part 101 69 rest - Z.of_nat k in
          converted s (v * 10 ^ Z.max x 0) (10 ^ Z.max (- x) 0)
      | None =>
          if starts_with (str "inf") r then Converted (S754_infinity s) false
          else if starts_with (str "nan") r then Converted S754_nan false
          else NoConversion
      end
  end.

(** [std::stod], [None] for an exception ([invalid_argument], [out_of_range]);
    [getField] catches either. *)
Definition stod (text : bytes) : option double :=
  match strtod text with
  | Converted x false => Some x
  | Converted _ true | NoConversion => None
  end.

(** [getField(int tag, double &value)] *)
Definition getFieldDouble (tag : Z) (m : FixMessage) : option double :=
  match getField tag m with
  | Some strValue => stod strValue
  | None => None
  end.
End Stod.

Lemma stod_examples u :
  stod u (str "150.25") = Some (S754_finite false 5286451906347008 (-45)) /\
  stod u (str "  -1e3xyz") = stod u (str "-1000") /\
  stod u (str "0x1.8p1") = stod u (str "3") /\
  stod u (str "abc") = None /\ stod u [] = None /\ stod u (str "1e400") = None /\
  stod u (str "-Infinity") = Some (S754_infinity true) /\
  stod u (str "1e") = stod u (str "1") /\ stod u (str "0x") = Some (S754_zero false) /\
  stod true (str "1e-400") = None /\ stod false (str "1e-400") = Some (S754_zero false).
Proof. destruct u; vm_compute; repeat split. Qed.

(** * Rounding *)

Lemma pow2_balance a b c d :
  0 <= a -> 0 <= b -> 0 <= c -> 0 <= d -> a + b + 1 = c + d ->
  2 ^ a * 2 ^ b * 2 = 2 ^ c * 2 ^ d.
Proof.
  intros. rewrite <- !Z.pow_add_r by lia. rewrite Z.mul_comm, <- Z.pow_succ_r by lia. f_equal. lia.
Qed.

(** [num / den < 2 ^ (k + 1)] for the difference [k] of the logarithms, and
    [2 ^ (k - 1) <= num / den]. *)
Lemma log2_difference num den :
  0 < num -> 0 < den ->
  let k := Z.log2 num - Z.log2 den in
  up num (k + 1) < down den (k + 1) /\ down den (k - 1) <= up num (k - 1).
Proof.
  intros Hn Hd k.
  pose proof (Z.log2_spec num Hn) as [Hn1 Hn2]. pose proof (Z.log2_spec den Hd) as [Hd1 Hd2].
  pose proof (Z.log2_nonneg num). pose proof (Z.log2_nonneg den).
  set (a := Z.log2 num) in *. set (b := Z.log2 den) in *.
  rewrite !Z.pow_succ_r in * by lia.
  assert (forall j, 0 < 2 ^ Z.max j 0) as Hp by (intros; apply Z.pow_pos_nonneg; lia).
  unfold up, down. split.
  - assert (2 ^ a * 2 ^ Z.max (- (k + 1)) 0 * 2 = 2 ^ b * 2 ^ Z.max (k + 1) 0) as E
      by (apply pow2_balance; lia).
    pose proof (Hp (- (k + 1))). pose proof (Hp (k + 1)). nia.
  - assert (2 ^ b * 2 ^ Z.max (k - 1) 0 * 2 = 2 ^ a * 2 ^ Z.max (- (k - 1)) 0) as E
      by (apply pow2_balance; lia).
    pose proof (Hp (- (k - 1))). pose proof (Hp (k - 1)). nia.
Qed.

Lemma log2_fraction_spec num den :
  0 < num -> 0 < den ->
  let k := log2_fraction num den in
  down den k <= up num k /\ up num (k + 1) < down den (k + 1).
Proof.
  intros Hn Hd k. pose proof (log2_difference num den Hn Hd) as [H1 H2].
  subst k. unfold log2_fraction. set (j := Z.log2 num - Z.log2 den) in *.
  destruct (Z.ltb_spec (up num j) (down den j)); [|done].
  split; [done|]. by replace (j - 1 + 1) with j by lia.
Qed.

(** Decimals of ordinary size: less than [2 ^ 52] units of [1 / den]. *)
Section Decimal.
Context (n den : Z) (Hn : 0 < n < 2 ^ 52) (Hd : 0 < den <= 10 ^ 9).
Let e := last_place n den.

Lemma last_place_small :
  -83 <= e <= -1 /\ den < 2 ^ (- e) /\ den * 2 ^ 52 <= n * 2 ^ (- e) < den * 2 ^ 53.
Proof.
  subst e. unfold last_place.
  pose proof (log2_fraction_spec n den ltac:(lia) ltac:(lia)) as [H1 H2].
  set (k := log2_fraction n den) in *. unfold up, down in *.
  assert (-31 <= k) as Hlo.
  { destruct (Z.le_gt_cases (-31) k) as [|Hk]; [done|].
    rewrite (Z.max_r (k + 1)), (Z.max_l (- (k + 1))) in H2 by lia.
    assert (2 ^ 31 <= 2 ^ (- (k + 1))) by (apply Z.pow_le_mono_r; lia). nia. }
  assert (k <= 51) as Hhi.
  { destruct (Z.le_gt_cases k 51) as [|Hk]; [done|].
    rewrite (Z.max_l k), (Z.max_r (- k)) in H1 by lia.
    assert (2 ^ 52 <= 2 ^ k) by (apply Z.pow_le_mono_r; lia). nia. }
  rewrite Z.max_l by lia. replace (- (k - 52)) with (52 - k) by lia.
  split; [lia|].
  assert (den * 2 ^ 52 <= n * 2 ^ (52 - k) /\ n * 2 ^ (52 - k) < den * 2 ^ 53) as [H3 H4].
  { assert (0 < 2 ^ (52 - k)) by (apply Z.pow_pos_nonneg; lia).
    destruct (Z.le_gt_cases 0 k) as [Hk|Hk].
    - rewrite (Z.max_l k), (Z.max_r (- k)) in H1 by lia.
      rewrite (Z.max_l (k + 1)), (Z.max_r (- (k + 1))) in H2 by lia.
      assert (2 ^ k * 2 ^ (52 - k) = 2 ^ 52) by (rewrite <- Z.pow_add_r by lia; f_equal; lia).
      assert (2 ^ (k + 1) * 2 ^ (52 - k) = 2 ^ 53)
        by (rewrite <- Z.pow_add_r by lia; f_equal; lia).
      nia.
    - rewrite (Z.max_r k), (Z.max_l (- k)) in H1 by lia.
      rewrite (Z.max_r (k + 1)), (Z.max_l (- (k + 1))) in H2 by lia.
      assert (2 ^ (- k) * 2 ^ 52 = 2 ^ (52 - k)) by (rewrite <- Z.pow_add_r by lia; f_equal; lia).
      assert (2 ^ (- (k + 1)) * 2 ^ 53 = 2 ^ (52 - k))
        by (rewrite <- Z.pow_add_r by lia; f_equal; lia).
      nia. }
  split; [|done]. assert (0 < 2 ^ (52 - k)) by (apply Z.pow_pos_nonneg; lia). nia.
Qed.

Let m := mantissa_of n den.

Lemma mantissa_small :
  2 ^ 52 <= m <= 2 ^ 53 /\ 2 * Z.abs (m * den - n * 2 ^ (- e)) <= den.
Proof.
  pose proof last_place_small as (He & _ & Hb).
  subst m. unfold mantissa_of. fold e.
  assert (up n e = n * 2 ^ (- e)) as -> by (unfold up; by rewrite Z.max_l by lia).
  assert (down den e = den) as -> by (unfold down; rewrite Z.max_r by lia; lia).
  pose proof (round_half_even_nearest (n * 2 ^ (- e)) den ltac:(lia)) as Hr.
  set (r := round_half_even _ _) in *. split; [nia|done].
Qed.

(** The double is finite and not tiny. *)
Lemma of_fraction_small s :
  exists m' e', of_fraction s n den = S754_finite s m' e' /\ -83 <= e' <= 0 /\
    Z.pos m' < 2 ^ 53 /\ 2 * Z.abs (Z.pos m' * den - n * 2 ^ (- e')) < 2 ^ (- e') /\
    underflows n den = false.
Proof.
  pose proof last_place_small as (He & Hs & Hb). pose proof mantissa_small as [Hm Hr].
  assert (underflows n den = false) as Hu.
  { unfold underflows. fold m. by rewrite (proj2 (Z.ltb_ge m (2 ^ 52))) by lia. }
  unfold of_fraction, assemble. fold e m.
  destruct (Z.eqb_spec m (2 ^ 53)) as [E|E].
  - exists 4503599627370496%positive, (e + 1).
    change (2 ^ 52) with 4503599627370496. rewrite (proj2 (Z.ltb_ge 971 (e + 1))) by lia.
    assert (2 ^ (- e) = 2 * 2 ^ (- (e + 1)))
      by (rewrite <- Z.pow_succ_r by lia; f_equal; lia).
    repeat split; try done; lia.
  - destruct m as [|m'|m'] eqn:Em; [lia| |lia].
    rewrite (proj2 (Z.ltb_ge 971 e)) by lia. exists m', e. repeat split; try done; lia.
Qed.
End Decimal.

Lemma round_half_even_unique num den q :
  0 < den -> 2 * Z.abs (q * den - num) < den -> round_half_even num den = q.
Proof.
  intros Hd Hq. pose proof (round_half_even_nearest num den Hd) as Hr.
  set (r := round_half_even num den) in *.
  assert (Z.abs ((r - q) * den) < den) by lia. nia.
Qed.

(** A decimal of ordinary size is what the nearest double prints. *)
Lemma scaled_of_fraction s n p :
  0 <= n < 2 ^ 52 -> (p <= 9)%nat ->
  let x := of_fraction s n (10 ^ Z.of_nat p) in
  scaled x p = n /\ valid x /\ signbit x = s /\ isnan x = false /\ isinf x = false /\
  underflows n (10 ^ Z.of_nat p) = false.
Proof.
  intros Hn Hp x.
  assert (0 < 10 ^ Z.of_nat p <= 10 ^ 9) as Hd.
  { split; [apply Z.pow_pos_nonneg; lia|apply Z.pow_le_mono_r; lia]. }
  destruct (decide (n = 0)) as [->|Hne].
  { subst x. do 10 (destruct p as [|p]; [by vm_compute|]). lia. }
  pose proof (of_fraction_small n (10 ^ Z.of_nat p) ltac:(lia) Hd s)
    as (m & e & E & He & Hm & Hr & Hu).
  subst x. rewrite E. cbn [scaled valid signbit isnan isinf].
  split; [|repeat split; try done; lia].
  apply round_half_even_unique; [apply scaled_den_pos|].
  unfold scaled_num, scaled_den. rewrite (Z.max_r e), (Z.max_l (- e)) by lia. lia.
Qed.

(** * Reading what was printed *)

Lemma digits_of_decimal ds rest :
  Forall (fun c => is_digit c = true) ds ->
  match rest with c :: _ => is_digit c = false | [] => True end ->
  digits_of dec_digit (ds ++ rest) = (map (fun c => c - 48) ds, rest).
Proof.
  intros Hd Hr. induction Hd as [|c ds Hc Hd IH]; simpl.
  - destruct rest as [|c rest]; [done|]. simpl. unfold dec_digit. by rewrite Hr.
  - unfold dec_digit at 1. by rewrite Hc, IH.
Qed.

Lemma fold_digits ds v :
  fold_left (fun v d => v * 10 + d) (map (fun c => c - 48) ds) v
  = fold_left (fun v c => v * 10 + (c - 48)) ds v.
Proof. revert v. induction ds as [|c ds IH]; intros v; simpl; [done|apply IH]. Qed.

(** The digits, the point and the digits after it. *)
Lemma number_part_fixed ip fp p :
  Forall (fun c => is_digit c = true) (ip ++ fp) -> ip <> [] -> length fp = p ->
  number_part 10 dec_digit (ip ++ fraction p fp) = Some (dec_value (ip ++ fp), p, []).
Proof.
  intros Hd Hne Hp. pose proof Hd as [Hi Hf]%Forall_app. unfold number_part, fraction.
  destruct p as [|p].
  - apply nil_length_inv in Hp as ->. rewrite digits_of_decimal, !app_nil_r by done.
    destruct ip as [|c ip]; [done|]. cbn [map]. do 3 f_equal. apply (fold_digits (c :: ip)).
  - rewrite digits_of_decimal by done. cbn [Z.eqb Pos.eqb].
    replace (digits_of dec_digit fp) with (digits_of dec_digit (fp ++ [])) by by rewrite app_nil_r.
    rewrite digits_of_decimal, <- map_app by done.
    destruct ip as [|c ip]; [done|]. cbn [map app].
    rewrite length_map, Hp. do 3 f_equal. apply (fold_digits (c :: ip ++ fp)).
Qed.

(** A decimal text is not taken for a hexadecimal one. *)
Lemma hex_part_fixed ip fp p :
  Forall (fun c => is_digit c = true) ip -> ip <> [] -> hex_part (ip ++ fraction p fp) = None.
Proof.
  intros Hi Hne. destruct ip as [|c [|c' ip]]; [done| |]; cbn [app hex_part].
  - destruct p; simpl; [done|]. by rewrite andb_false_r.
  - inversion Hi as [|? ? _ Hi']; subst. inversion Hi' as [|? ? Hc' _]; subst.
    apply is_digit_spec in Hc'.
    rewrite (proj2 (Z.eqb_neq c' 120)), (proj2 (Z.eqb_neq c' 88)) by lia. by rewrite andb_false_r.
Qed.

Lemma sign_part_fixed (neg : bool) c rest :
  is_digit c = true ->
  sign_part (skip_spaces ((if neg then [45] else []) ++ c :: rest)) = (neg, c :: rest).
Proof.
  intros Hc. destruct neg; cbn [app skip_spaces]; [done|].
  apply is_digit_spec in Hc. unfold is_space.
  rewrite (proj2 (Z.eqb_neq c 32)), (proj2 (Z.leb_gt c 13)) by lia. rewrite andb_false_r.
  cbn [orb sign_part]. by rewrite (proj2 (Z.eqb_neq c 45)), (proj2 (Z.eqb_neq c 43)) by lia.
Qed.

Lemma strtod_fixed u (neg : bool) ip fp p :
  Forall (fun c => is_digit c = true) (ip ++ fp) -> ip <> [] -> length fp = p ->
  strtod u ((if neg then [45] else []) ++ ip ++ fraction p fp)
  = converted u neg (dec_value (ip ++ fp)) (10 ^ Z.of_nat p).
Proof.
  intros Hd Hne Hp. pose proof Hd as [Hi Hf]%Forall_app. unfold strtod.
  destruct ip as [|c ip]; [done|].
  assert (is_digit c = true) as Hc by (by inversion Hi).
  replace ((c :: ip) ++ fraction p fp) with (c :: ip ++ fraction p fp) by done.
  rewrite sign_part_fixed by done.
  change (c :: ip ++ fraction p fp) with ((c :: ip) ++ fraction p fp).
  rewrite hex_part_fixed, number_part_fixed by done. cbn [exponent_part].
  rewrite Z.max_r, Z.mul_1_r by lia. do 2 f_equal. lia.
Qed.

(** [stod] reads a printed double as the double nearest to the decimal. *)
Lemma strtod_print_fixed u p x :
  valid x ->
  strtod u (print_fixed p x) = converted u (signbit x) (scaled x p) (10 ^ Z.of_nat p).
Proof.
  intros Hv. unfold print_fixed. set (ds := print_digits p (scaled x p)).
  pose proof (scaled_bound x p Hv) as Hb. pose proof (scaled_nonneg x p) as H0.
  assert (S p <= length ds)%nat as Hl
    by (apply (print_digits_length p (scaled x p) (310 + p)); lia).
  rewrite strtod_fixed.
  - rewrite take_drop. subst ds. by rewrite print_digits_value by lia.
  - rewrite take_drop. apply print_digits_digits.
  - intros E. apply (f_equal length) in E. rewrite length_take in E. simpl in E. lia.
  - rewrite length_drop. lia.
Qed.

(** C35: a decimal value set as a double field survives the message.  Take the
    double nearest to a decimal of at most nine places (as many as [setField] is
    asked to print) and less than [2 ^ 52] units of the last place: the field holds
    exactly that decimal, sign and every digit, and [getField] reads back the very
    same double, whatever the message, the thread's buffers and the C library's
    treatment of underflow. *)
Theorem double_field_round_trip u tag (s : bool) n precision st msg :
  conv_wf st -> 0 <= n < 2 ^ 52 ->
  let p := Z.to_nat (Z.max 0 (Z.min precision 9)) in
  let value := of_fraction s n (10 ^ Z.of_nat p) in
  let msg' := fst (setFieldDouble tag value precision st msg) in
  (exists text, getField tag msg' = Some text /\ read_fixed text = Some (s, n, p)) /\
  getFieldDouble u tag msg' = Some value.
Proof.
  intros Hw Hn p value msg'.
  pose proof (scaled_of_fraction s n p Hn ltac:(lia)) as (Hs & Hv & Hg & Hnan & Hinf & Hu).
  fold value in Hs, Hv, Hg, Hnan, Hinf.
  assert (getField tag msg' = Some (print_fixed p value)) as Hf.
  { subst msg'. apply setFieldDouble_text; try done. fold p. rewrite Hs. lia. }
  split; [exists (print_fixed p value); split; [done|]; by rewrite print_fixed_read, Hg, Hs|].
  unfold getFieldDouble, stod. rewrite Hf, strtod_print_fixed by done. unfold converted.
  rewrite Hg, Hs. fold value. by rewrite Hinf, Hu, andb_false_r.
Qed.

(** The price 150.25. *)
Lemma double_field_round_trip_witness :
  getFieldDouble true 44
    (fst (setFieldDouble 44 (of_fraction false 15025 100) 2
            (mkConv (replicate 32 0) (replicate 64 0)) (with_fields ∅)))
  = Some (S754_finite false 5286451906347008 (-45)).
Proof.
  refine (proj2 (double_field_round_trip true 44 false 15025 2
    (mkConv (replicate 32 0) (replicate 64 0)) (with_fields ∅) _ _)); [by vm_compute|lia].
Defined.
