(* ===== verification/Logger.v ===== *)
(** [utils::Logger] ([include/utils/logger.h], [src/utils/logger.cpp]): the
    process-wide logger with its level filter, its console and file
    destinations, its timestamps, and the stream-like interface that collects
    text until [flush].

    The outside is a [sinks] record: what has been written to the standard
    output, to the standard error and to every file.  The clock (nanoseconds
    since the epoch) and whether a log file can be opened are arguments of the
    operations that ask for them; the offset of local time is a parameter.  Every
    operation but the stream interface runs under the mutex, so an execution is a
    sequence of operations. *)
From S2P Require Import Prelude FixFields FixMessage.

Inductive LogLevel := DEBUG | INFO | WARN | ERROR | FATAL.

#[export] Instance LogLevel_eq_dec : EqDecision LogLevel.
Proof. solve_decision. Defined.

(** The enumerators' values, on which [<] and [>=] compare. *)
Definition level_value (l : LogLevel) : Z :=
  match l with DEBUG => 0 | INFO => 1 | WARN => 2 | ERROR => 3 | FATAL => 4 end.

(** [file_stream_]: null, a stream that failed to open, or one open on a file. *)
Inductive file_stream := NoStream | Closed | Open (filename : bytes).

Record Logger := mkLogger {
  current_level_ : LogLevel;
  console_output_ : bool;
  timestamp_enabled_ : bool;
  file_stream_ : file_stream;
  stream_ : bytes;
  pending_level_ : LogLevel
}.

(** [Logger() = default] with the members' initialisers. *)
Definition newLogger : Logger := mkLogger INFO true true NoStream [] INFO.

Record sinks := mkSinks { out : bytes; err : bytes; files : gmap bytes bytes }.

Definition to_out (s : bytes) (w : sinks) : sinks := mkSinks (out w ++ s) (err w) (files w).
Definition to_err (s : bytes) (w : sinks) : sinks := mkSinks (out w) (err w ++ s) (files w).
(** A stream opened with [std::ios::app] creates the file and adds at its end. *)
Definition to_file (name s : bytes) (w : sinks) : sinks :=
  mkSinks (out w) (err w) (<[name := default [] (files w !! name) ++ s]> (files w)).

(** [std::endl] *)
Definition endl : bytes := [10].

Definition levelToString (level : LogLevel) : bytes :=
  match level with
  | DEBUG => str "DEBUG"
  | INFO => str "INFO "
  | WARN => str "WARN "
  | ERROR => str "ERROR"
  | FATAL => str "FATAL"
  end.

Section Logger.
(** Seconds to add to a UTC time for [std::localtime]. *)
Variable utc_offset : Z -> Z.

(** [std::put_time(std::localtime(&t), "%Y-%m-%d %H:%M:%S")] *)
Definition put_local_time (secs : Z) : bytes :=
  let secs := secs + utc_offset secs in
  let '(y, m, d) := civil_from_days (secs / 86400) in
  let t := secs mod 86400 in
  pad 4 (to_string y) ++ str "-" ++ pad 2 (to_string m) ++ str "-" ++ pad 2 (to_string d) ++
  str " " ++ pad 2 (to_string (t / 3600)) ++ str ":" ++ pad 2 (to_string (t / 60 mod 60)) ++
  str ":" ++ pad 2 (to_string (t mod 60)).

Definition getCurrentTimestamp (now : Z) : bytes :=
  let time_t := Z.quot now 1000000000 in
  let ms := Z.rem (Z.quot now 1000000) 1000 in
  put_local_time time_t ++ str "." ++ pad 3 (to_string ms).

Definition formatMessage (l : Logger) (level : LogLevel) (message : bytes) (now : Z) : bytes :=
  (if timestamp_enabled_ l then str "[" ++ getCurrentTimestamp now ++ str "] " else []) ++
  str "[" ++ levelToString level ++ str "] " ++ message.

(** [log(level, message)]; the logger itself does not change. *)
Definition log (level : LogLevel) (message : bytes) (now : Z) (l : Logger) (w : sinks) : sinks :=
  if level_value level <? level_value (current_level_ l) then w
  else
    let formatted_message := formatMessage l level message now in
    let w :=
      if console_output_ l then
        if level_value ERROR <=? level_value level then to_err (formatted_message ++ endl) w
        else to_out (formatted_message ++ endl) w
      else w in
    match file_stream_ l with
    | Open name => to_file name (formatted_message ++ endl) w
    | _ => w
    end.

(** [debug], [info], [warn], [error], [fatal] *)
Definition debug (message : bytes) := log DEBUG message.
Definition info (message : bytes) := log INFO message.
Definition warn (message : bytes) := log WARN message.
Definition error (message : bytes) := log ERROR message.
Definition fatal (message : bytes) := log FATAL message.

Definition setLogLevel (level : LogLevel) (l : Logger) : Logger :=
  mkLogger level (console_output_ l) (timestamp_enabled_ l) (file_stream_ l) (stream_ l)
    (pending_level_ l).
Definition enableConsoleOutput (enable : bool) (l : Logger) : Logger :=
  mkLogger (current_level_ l) enable (timestamp_enabled_ l) (file_stream_ l) (stream_ l)
    (pending_level_ l).
Definition enableTimestamp (enable : bool) (l : Logger) : Logger :=
  mkLogger (current_level_ l) (console_output_ l) enable (file_stream_ l) (stream_ l)
    (pending_level_ l).
Definition with_stream (f : file_stream) (l : Logger) : Logger :=
  mkLogger (current_level_ l) (console_output_ l) (timestamp_enabled_ l) f (stream_ l)
    (pending_level_ l).

(** [setLogFile(filename)]: an open stream is closed first (its text is already
    written: every line is flushed); [opened] is whether the new file opens. *)
Definition setLogFile (filename : bytes) (opened : bool) (l : Logger) (w : sinks) :
    Logger * sinks :=
  if opened then (with_stream (Open filename) l, to_file filename [] w)
  else (with_stream Closed l, to_err (str "Failed to open log file: " ++ filename ++ endl) w).

(** [operator<<(const T &)], after [T] has been printed, and
    [operator<<(LogLevel)]. *)
Definition stream_put (text : bytes) (l : Logger) : Logger :=
  mkLogger (current_level_ l) (console_output_ l) (timestamp_enabled_ l) (file_stream_ l)
    (stream_ l ++ text) (pending_level_ l).
Definition stream_level (level : LogLevel) (l : Logger) : Logger :=
  mkLogger (current_level_ l) (console_output_ l) (timestamp_enabled_ l) (file_stream_ l)
    (stream_ l) level.

Definition flush (now : Z) (l : Logger) (w : sinks) : Logger * sinks :=
  let content := stream_ l in
  if bool_decide (content = []) then (l, w)
  else
    (mkLogger (current_level_ l) (console_output_ l) (timestamp_enabled_ l) (file_stream_ l)
       [] (pending_level_ l),
     log (pending_level_ l) content now l w).

(** The destructor closes an open stream. *)
Definition destroyLogger (l : Logger) : Logger :=
  match file_stream_ l with Open _ => with_stream Closed l | _ => l end.

(** * Executions *)

Inductive op :=
| SetLevel (level : LogLevel)
| SetFile (filename : bytes) (opened : bool)
| Console (enable : bool)
| Timestamp (enable : bool)
| Log (level : LogLevel) (message : bytes) (now : Z)
| Put (text : bytes)
| PutLevel (level : LogLevel)
| Flush (now : Z).

Definition step (o : op) (s : Logger * sinks) : Logger * sinks :=
  let '(l, w) := s in
  match o with
  | SetLevel level => (setLogLevel level l, w)
  | SetFile filename opened => setLogFile filename opened l w
  | Console enable => (enableConsoleOutput enable l, w)
  | Timestamp enable => (enableTimestamp enable l, w)
  | Log level message now => (l, log level message now l w)
  | Put text => (stream_put text l, w)
  | PutLevel level => (stream_level level l, w)
  | Flush now => flush now l w
  end.

Definition run (ops : list op) (s : Logger * sinks) : Logger * sinks :=
  fold_left (fun s o => step o s) ops s.

(** * The contract

    What is written is a function of the history of calls: a message is written
    when its level reaches the level set last, to the destinations set last;
    collected text goes out with the level given last. *)
Inductive line :=
| Entry (level : LogLevel) (text : bytes) (console : bool) (file : option bytes)
| OpenFailure (filename : bytes).

(** The argument of the last call that [f] selects. *)
Definition latest {A} (f : op -> option A) (dflt : A) (h : list op) : A :=
  default dflt (last (omap f h)).

Definition level_of := latest (fun o => match o with SetLevel v => Some v | _ => None end) INFO.
Definition console_of := latest (fun o => match o with Console b => Some b | _ => None end) true.
Definition stamp_of := latest (fun o => match o with Timestamp b => Some b | _ => None end) true.
Definition stream_of := latest (fun o => match o with
  | SetFile n true => Some (Open n) | SetFile n false => Some Closed | _ => None end) NoStream.
Definition pending_of := latest (fun o => match o with PutLevel v => Some v | _ => None end) INFO.
(** The text put since the last [flush]. *)
Definition text_of (h : list op) : bytes :=
  fold_left (fun acc o => match o with Put s => acc ++ s | Flush _ => [] | _ => acc end) h [].
Definition file_of (h : list op) : option bytes :=
  match stream_of h with Open n => Some n | _ => None end.

Definition entry (h : list op) (level : LogLevel) (message : bytes) (now : Z) : list line :=
  if level_value level <? level_value (level_of h) then []
  else
    let stamp := if stamp_of h then str "[" ++ getCurrentTimestamp now ++ str "] " else [] in
    [Entry level (stamp ++ str "[" ++ levelToString level ++ str "] " ++ message)
       (console_of h) (file_of h)].

(** The lines call [o] produces after history [h]. *)
Definition produced (h : list op) (o : op) : list line :=
  match o with
  | Log level message now => entry h level message now
  | Flush now => if bool_decide (text_of h = []) then []
                 else entry h (pending_of h) (text_of h) now
  | SetFile filename false => [OpenFailure filename]
  | _ => []
  end.

Fixpoint lines_from (h rest : list op) : list line :=
  match rest with
  | [] => []
  | o :: rest => produced h o ++ lines_from (h ++ [o]) rest
  end.
Definition lines (ops : list op) : list line := lines_from [] ops.

(** What a line adds to the standard output, to the standard error and to the
    file [n]. *)
Definition on_out (x : line) : bytes :=
  match x with
  | Entry level text true _ => if level_value level <? 3 then text ++ endl else []
  | _ => []
  end.
Definition on_err (x : line) : bytes :=
  match x with
  | Entry level text true _ => if level_value level <? 3 then [] else text ++ endl
  | OpenFailure n => str "Failed to open log file: " ++ n ++ endl
  | _ => []
  end.
Definition on_file (n : bytes) (x : line) : bytes :=
  match x with
  | Entry _ text _ f => if bool_decide (f = Some n) then text ++ endl else []
  | _ => []
  end.

Definition written (f : line -> bytes) (ls : list line) : bytes := mjoin (map f ls).

(** * Lemmas *)

Lemma latest_snoc {A} (f : op -> option A) d h o :
  latest f d (h ++ [o]) = match f o with Some a => a | None => latest f d h end.
Proof.
  unfold latest. rewrite omap_app. simpl.
  destruct (f o); simpl; [by rewrite last_snoc|by rewrite app_nil_r].
Qed.

Lemma lines_from_snoc h rest o :
  lines_from h (rest ++ [o]) = lines_from h rest ++ produced (h ++ rest) o.
Proof.
  revert h. induction rest as [|x rest IH]; intros h; simpl.
  - by rewrite !app_nil_r.
  - rewrite IH, <- !app_assoc. done.
Qed.

Lemma lines_snoc h o : lines (h ++ [o]) = lines h ++ produced h o.
Proof. apply lines_from_snoc. Qed.

Lemma text_of_snoc h o :
  text_of (h ++ [o]) =
    match o with Put s => text_of h ++ s | Flush _ => [] | _ => text_of h end.
Proof. unfold text_of. by rewrite fold_left_app. Qed.

Lemma run_snoc ops o s : run (ops ++ [o]) s = step o (run ops s).
Proof. unfold run. by rewrite fold_left_app. Qed.

Lemma written_app f a b : written f (a ++ b) = written f a ++ written f b.
Proof. unfold written. by rewrite map_app, join_app. Qed.

(** The logger's fields are the latest settings. *)
Definition logger_of (h : list op) : Logger :=
  mkLogger (level_of h) (console_of h) (stamp_of h) (stream_of h) (text_of h) (pending_of h).

Lemma run_logger ops w : fst (run ops (newLogger, w)) = logger_of ops.
Proof.
  induction ops as [|o ops IH] using rev_ind; [done|].
  rewrite run_snoc. destruct (run ops (newLogger, w)) as [l w'] eqn:E. simpl in IH. subst l.
  unfold logger_of, level_of, console_of, stamp_of, stream_of, pending_of.
  rewrite !latest_snoc, text_of_snoc.
  destruct o; simpl; try reflexivity.
  - by destruct opened.
  - unfold flush. simpl. case_bool_decide as Ht; simpl; [|done].
    unfold logger_of. rewrite Ht. done.
Qed.

(** One call adds what its lines say. *)
Definition adds (w w' : sinks) (ls : list line) : Prop :=
  out w' = out w ++ written on_out ls /\
  err w' = err w ++ written on_err ls /\
  forall n, default [] (files w' !! n) = default [] (files w !! n) ++ written (on_file n) ls.

Lemma adds_nil w : adds w w [].
Proof. by split_and!; [rewrite app_nil_r|rewrite app_nil_r|intros n; rewrite app_nil_r]. Qed.

Lemma to_file_content name s w n :
  default [] (files (to_file name s w) !! n) =
    default [] (files w !! n) ++ (if bool_decide (Some name = Some n) then s else []).
Proof.
  simpl. destruct (decide (name = n)) as [->|Hne].
  - by rewrite lookup_insert_eq, bool_decide_eq_true_2.
  - rewrite lookup_insert_ne, bool_decide_eq_false_2, app_nil_r by congruence. done.
Qed.

Lemma log_adds h level message now w :
  adds w (log level message now (logger_of h) w) (entry h level message now).
Proof.
  unfold log, entry. simpl.
  destruct (level_value level <? level_value (level_of h)); [apply adds_nil|].
  unfold formatMessage, file_of. simpl.
  set (text := (if stamp_of h then _ else _) ++ _). clearbody text.
  assert ((3 <=? level_value level) = negb (level_value level <? 3)) as -> by lia.
  unfold adds, written. simpl. rewrite !app_nil_r.
  destruct (console_of h), (level_value level <? 3), (stream_of h) as [| |name]; simpl;
    rewrite ?app_nil_r; split_and!; try done; intros n;
    rewrite ?app_nil_r; try done; apply to_file_content.
Qed.

Lemma step_adds h o w :
  adds w (snd (step o (logger_of h, w))) (produced h o).
Proof.
  destruct o as [|filename []| | |level message now| | |now]; simpl; try apply adds_nil.
  - split_and!; [by rewrite app_nil_r..|]. intros n.
    etrans; [apply (to_file_content filename [] w n)|]. by case_bool_decide.
  - unfold adds, written. simpl. split_and!; [..|intros n]; by rewrite ?app_nil_r.
  - apply log_adds.
  - unfold flush. simpl. case_bool_decide; simpl; [apply adds_nil|apply log_adds].
Qed.

(** * Properties *)

(** C38: the logger implements its contract.  After any sequence of calls,
    the standard output, the standard error and every log file hold exactly
    the lines the history calls for, once each and in the order of the calls:
    a message is written when its level reaches the level set last, to the
    standard error from [ERROR] on and to the standard output below, and to
    the file opened last; and text collected by [<<] is written at the next
    [flush], as one message with the level given last. *)
Theorem logger_refines_history ops w :
  let '(l, w') := run ops (newLogger, w) in
  l = logger_of ops /\
  out w' = out w ++ written on_out (lines ops) /\
  err w' = err w ++ written on_err (lines ops) /\
  forall n, default [] (files w' !! n) =
              default [] (files w !! n) ++ written (on_file n) (lines ops).
Proof.
  enough (adds w (snd (run ops (newLogger, w))) (lines ops)) as H.
  { pose proof (run_logger ops w) as Hl. destruct (run ops (newLogger, w)). by split. }
  induction ops as [|o ops (Ho & He & Hf)] using rev_ind; [apply adds_nil|].
  rewrite run_snoc, lines_snoc. pose proof (run_logger ops w) as Hl.
  destruct (run ops (newLogger, w)) as [l w1]. cbn [fst snd] in *. subst l.
  destruct (step_adds ops o w1) as (Ho' & He' & Hf'). unfold adds.
  rewrite !written_app, Ho', He', Ho, He, !app_assoc. split_and!; [done..|].
  intros n. by rewrite Hf', Hf, written_app, app_assoc.
Qed.
End Logger.

(** A level put into the stream does not start a new entry: text collected
    before it is written with the new level. *)
Lemma stream_level_relabels off w now :
  let ops := [Timestamp false; PutLevel ERROR; Put (str "a"); PutLevel INFO; Put (str "b"); Flush now] in
  lines off ops = [Entry INFO (str "[INFO ] ab") true None] /\
  out (snd (run off ops (newLogger, w))) = out w ++ str "[INFO ] ab" ++ endl.
Proof. by split. Qed.
