(* ===== verification/AtomicCells.v ===== *)
(** The atomic metrics of [include/utils/performance_counters.h]: [AtomicCounter]
    (a 64-bit counter, every operation one atomic instruction) and [Gauge] (an
    atomic double whose [increment] and [decrement] are compare-exchange loops),
    under every interleaving of any number of threads.

    One machine serves both: a cell, and threads that each run a program of
    operations.  An atomic operation is one step; a loop loads the cell and then
    retries [compare_exchange_weak], which may also fail spuriously, each failure
    reloading the expected value. *)
From S2P Require Import Prelude FixFields Doubles.

(** * [AtomicCounter] *)

Inductive counter_op :=
| Increment | CAdd (delta : Z) | Decrement | Subtract (delta : Z) | CReset | CSet (v : Z).

(** The value after the operation. *)
Definition counter_apply (o : counter_op) (v : Z) : Z :=
  match o with
  | Increment => u64 (v + 1)
  | CAdd delta => u64 (v + delta)
  | Decrement => u64 (v - 1)
  | Subtract delta => u64 (v - delta)
  | CReset => 0
  | CSet n => n
  end.

(** What the call returns: the new value ([++], [+=], [--], [-=]), the old one
    ([exchange]), nothing ([store]). *)
Definition counter_result (o : counter_op) (v : Z) : option Z :=
  match o with
  | CReset => Some v
  | CSet _ => None
  | _ => Some (counter_apply o v)
  end.

(** * [Gauge] *)

Inductive gauge_op := GSet (v : double) | GIncrement (delta : double) | GDecrement (delta : double).

(** [set] stores; [increment] and [decrement] try to replace [current] by
    [current + delta], [current - delta]. *)
Definition gauge_apply (o : gauge_op) (v : double) : double :=
  match o with
  | GSet x => x
  | GIncrement delta => dadd v delta
  | GDecrement delta => dsub v delta
  end.
Definition gauge_loops (o : gauge_op) : bool :=
  match o with GSet _ => false | _ => true end.

(** * The machine *)

Section Machine.
Context {V op : Type} (apply : op -> V -> V) (loops : op -> bool).

(** A thread: the operations it still has to do, the first one possibly begun,
    with the value it expects the cell to hold. *)
Record thread := mkThread { todo : list op; expected : option V }.

(** [history]: the completed operations with their threads, in the order in
    which they took effect. *)
Record machine := mkMachine { cell : V; threads : list thread; history : list (nat * op) }.

Inductive mstep : machine -> machine -> Prop :=
| st_atomic t o rest m :
    threads m !! t = Some (mkThread (o :: rest) None) -> loops o = false ->
    mstep m (mkMachine (apply o (cell m)) (<[t := mkThread rest None]> (threads m))
               (history m ++ [(t, o)]))
| st_load t o rest m :
    threads m !! t = Some (mkThread (o :: rest) None) -> loops o = true ->
    mstep m (mkMachine (cell m) (<[t := mkThread (o :: rest) (Some (cell m))]> (threads m))
               (history m))
| st_exchange t o rest current m :
    threads m !! t = Some (mkThread (o :: rest) (Some current)) -> cell m = current ->
    mstep m (mkMachine (apply o current) (<[t := mkThread rest None]> (threads m))
               (history m ++ [(t, o)]))
| st_retry t o rest current m :
    threads m !! t = Some (mkThread (o :: rest) (Some current)) ->
    mstep m (mkMachine (cell m) (<[t := mkThread (o :: rest) (Some (cell m))]> (threads m))
               (history m)).

Definition initial (v0 : V) (progs : list (list op)) : machine :=
  mkMachine v0 (map (fun p => mkThread p None) progs) [].

Inductive reaches (v0 : V) (progs : list (list op)) : machine -> Prop :=
| r_init : reaches v0 progs (initial v0 progs)
| r_step m m' : reaches v0 progs m -> mstep m m' -> reaches v0 progs m'.

(** The operations thread [t] has completed. *)
Definition completed (t : nat) (h : list (nat * op)) : list op :=
  map snd (filter (fun x => fst x = t) h).

Definition replay (v0 : V) (h : list (nat * op)) : V :=
  fold_left (fun v o => apply o v) (map snd h) v0.

Lemma completed_snoc t h t' o :
  completed t (h ++ [(t', o)]) = completed t h ++ (if decide (t' = t) then [o] else []).
Proof.
  unfold completed. rewrite filter_app, map_app. f_equal.
  rewrite filter_cons. simpl. by case_decide.
Qed.

Lemma replay_snoc v0 h t o : replay v0 (h ++ [(t, o)]) = apply o (replay v0 h).
Proof. unfold replay. by rewrite map_app, fold_left_app. Qed.

(** No update is lost or applied twice: the cell is the sequential replay of the
    completed operations, and each thread has completed a prefix of its program. *)
Definition linearised (v0 : V) (progs : list (list op)) (m : machine) : Prop :=
  cell m = replay v0 (history m) /\
  length (threads m) = length progs /\
  forall t p, progs !! t = Some p ->
    exists th, threads m !! t = Some th /\ p = completed t (history m) ++ todo th.

Lemma linearised_complete v0 progs m t o rest x :
  linearised v0 progs m -> threads m !! t = Some (mkThread (o :: rest) x) ->
  linearised v0 progs
    (mkMachine (apply o (cell m)) (<[t := mkThread rest None]> (threads m))
       (history m ++ [(t, o)])).
Proof.
  intros (Hc & Hl & Hp) Ht. unfold linearised. simpl. rewrite replay_snoc, Hc, length_insert.
  split_and!; [done..|]. intros t' p Hp'. destruct (Hp t' p Hp') as (th & Hth & ->).
  rewrite completed_snoc. destruct (decide (t = t')) as [->|Hne].
  - rewrite list_lookup_insert_eq by (by eapply lookup_lt_Some). simplify_eq. simpl.
    eexists. split; [done|]. simpl. by rewrite <- app_assoc.
  - rewrite list_lookup_insert_ne by done. exists th. by rewrite app_nil_r.
Qed.

Lemma linearised_reload v0 progs m t o rest x y :
  linearised v0 progs m -> threads m !! t = Some (mkThread (o :: rest) x) ->
  linearised v0 progs
    (mkMachine (cell m) (<[t := mkThread (o :: rest) y]> (threads m)) (history m)).
Proof.
  intros (Hc & Hl & Hp) Ht. unfold linearised. simpl. rewrite length_insert.
  split_and!; [done..|]. intros t' p Hp'. destruct (Hp t' p Hp') as (th & Hth & ->).
  destruct (decide (t = t')) as [->|Hne].
  - rewrite list_lookup_insert_eq by (by eapply lookup_lt_Some). simplify_eq. by eexists.
  - rewrite list_lookup_insert_ne by done. by exists th.
Qed.

Lemma reaches_linearised v0 progs m : reaches v0 progs m -> linearised v0 progs m.
Proof.
  induction 1 as [|m m' _ IH Hs].
  - split_and!; [done|by simpl; rewrite length_map|].
    intros t p Hp. exists (mkThread p None). simpl. by rewrite list_lookup_fmap, Hp.
  - destruct Hs as [t o rest m Ht _|t o rest m Ht _|t o rest current m Ht <-|t o rest current m Ht];
      eauto using linearised_complete, linearised_reload.
Qed.

(** The machine never blocks: while a thread has work, it can take a step that
    either completes its operation or is a (re)load, and after a load it
    completes unless another thread's operation took effect in between. *)
Lemma machine_progress m t o rest x :
  threads m !! t = Some (mkThread (o :: rest) x) ->
  exists m', mstep m m' /\
    (history m' = history m ++ [(t, o)] \/
     (threads m' !! t = Some (mkThread (o :: rest) (Some (cell m'))) /\
      exists m'', mstep m' m'' /\ history m'' = history m' ++ [(t, o)])).
Proof.
  intros Ht. pose proof (lookup_lt_Some _ _ _ Ht) as Hlt.
  assert (forall m1, threads m1 !! t = Some (mkThread (o :: rest) (Some (cell m1))) ->
    exists m2, mstep m1 m2 /\ history m2 = history m1 ++ [(t, o)]) as Hx
    by (intros m1 H1; eexists; split; [by eapply st_exchange|done]).
  destruct x as [current|].
  - eexists. split; [by eapply st_retry|]. right.
    split; [by apply list_lookup_insert_eq|]. apply Hx. by apply list_lookup_insert_eq.
  - destruct (loops o) eqn:E.
    + eexists. split; [by eapply st_load|]. right.
      split; [by apply list_lookup_insert_eq|]. apply Hx. by apply list_lookup_insert_eq.
    + eexists. split; [by eapply st_atomic|]. by left.
Qed.
End Machine.

Arguments thread : clear implicits.
Arguments machine : clear implicits.

(** * The two metrics *)

(** Every counter operation is atomic. *)
Definition counter_reaches := reaches counter_apply (fun _ => false).
Definition gauge_reaches := reaches gauge_apply gauge_loops.

(** What an operation adds to a counter, when it only adds. *)
Definition counter_delta (o : counter_op) : option Z :=
  match o with
  | Increment => Some 1
  | CAdd d => Some d
  | Decrement => Some (-1)
  | Subtract d => Some (- d)
  | _ => None
  end.
Definition total_delta (os : list counter_op) : Z :=
  fold_right Z.add 0 (omap counter_delta os).

Lemma total_delta_app a b : total_delta (a ++ b) = total_delta a + total_delta b.
Proof.
  unfold total_delta. rewrite omap_app. induction (omap counter_delta a); simpl; lia.
Qed.

Lemma total_delta_cons x a :
  total_delta (x :: a) = default 0 (counter_delta x) + total_delta a.
Proof. unfold total_delta. simpl. by destruct (counter_delta x). Qed.

Lemma total_delta_perm a b : a ≡ₚ b -> total_delta a = total_delta b.
Proof. induction 1; rewrite ?total_delta_cons; lia. Qed.

Lemma counter_replay_sum h v0 :
  0 <= v0 < 18446744073709551616 ->
  Forall (fun x => is_Some (counter_delta (snd x))) h ->
  replay counter_apply v0 h = u64 (v0 + total_delta (map snd h)).
Proof.
  intros Hv0. induction h as [|[t o] h IH] using rev_ind; intros Hf.
  { unfold replay, total_delta, u64. simpl. rewrite Z.add_0_r, Z.mod_small by lia. done. }
  apply Forall_app in Hf as [Hf Ho]. inversion Ho as [|? ? Ho' _]; subst. simpl in Ho'.
  rewrite replay_snoc, IH, map_app, total_delta_app by done.
  simpl map. rewrite total_delta_cons. change (total_delta []) with 0.
  destruct o; simpl; try (by destruct Ho'); unfold u64;
    rewrite ?Zplus_mod_idemp_l, ?Zminus_mod_idemp_l; f_equal; lia.
Qed.

(** When all threads are done, the history is the programs, shuffled. *)
Lemma completed_perm {op} (h : list (nat * op)) (progs : list (list op)) :
  (forall x, x ∈ h -> (fst x < length progs)%nat) ->
  (forall t p, progs !! t = Some p -> p = completed t h) ->
  map snd h ≡ₚ mjoin progs.
Proof.
  revert progs. induction h as [|[t o] h IH]; intros progs Hin Hp.
  - simpl. replace (mjoin progs) with (@nil op); [done|].
    symmetry. apply join_nil. apply Forall_lookup. intros t p Ht. by apply (Hp t p).
  - destruct (lookup_lt_is_Some_2 progs t) as [p Ht]; [apply (Hin (t, o)); left|].
    pose proof (Hp t p Ht) as Ep. unfold completed in Ep. rewrite filter_cons in Ep. simpl in Ep.
    rewrite decide_True in Ep by done. simpl in Ep. fold (completed t h) in Ep.
    rewrite <- (take_drop_middle progs t p Ht), join_app, Ep. simpl.
    rewrite <- Permutation_middle. constructor.
    rewrite (IH (<[t := completed t h]> progs)).
    + rewrite (insert_take_drop progs t) by (by eapply lookup_lt_Some).
      by rewrite join_app.
    + intros x Hx. rewrite length_insert. apply Hin. by right.
    + intros t' p' Ht'. destruct (decide (t = t')) as [->|Hne].
      * rewrite list_lookup_insert_eq in Ht' by (by eapply lookup_lt_Some). by simplify_eq.
      * rewrite list_lookup_insert_ne in Ht' by done.
        rewrite (Hp t' p' Ht'). unfold completed. rewrite filter_cons. simpl.
        by rewrite decide_False.
Qed.

Lemma history_threads {V op} (apply : op -> V -> V) loops v0 progs m x :
  reaches apply loops v0 progs m -> x ∈ history m -> (fst x < length progs)%nat.
Proof.
  intros Hr. induction Hr as [|m m' Hr IH Hs]; [by intros ?%elem_of_nil|].
  destruct (reaches_linearised _ _ _ _ _ Hr) as (_ & Hl & _).
  destruct Hs as [t o rest m Ht _|t o rest m Ht _|t o rest current m Ht <-|t o rest current m Ht];
    simpl; try done; rewrite elem_of_app, list_elem_of_singleton; intros [?| ->]; auto; simpl;
    rewrite <- Hl; by eapply lookup_lt_Some.
Qed.

(** * Properties *)

(** A counter loses no update.  Whatever the interleaving of threads that
    increment, add, decrement and subtract, the counter always equals its
    starting value plus the deltas of the operations that have taken effect,
    modulo [2 ^ 64], and once every thread has finished that is the sum of the
    deltas of all the programs. *)
Lemma counter_sums_updates v0 progs m :
  0 <= v0 < 18446744073709551616 ->
  Forall (Forall (fun o => is_Some (counter_delta o))) progs ->
  counter_reaches v0 progs m ->
  cell m = u64 (v0 + total_delta (map snd (history m))) /\
  (Forall (fun th => todo th = []) (threads m) ->
     cell m = u64 (v0 + total_delta (mjoin progs))).
Proof.
  intros Hv0 Hprogs Hr.
  pose proof (reaches_linearised _ _ _ _ _ Hr) as (Hc & Hl & Hp).
  assert (cell m = u64 (v0 + total_delta (map snd (history m)))) as Hsum.
  { rewrite Hc. apply counter_replay_sum; [done|]. apply Forall_forall. intros [t o] Hin.
    pose proof (history_threads _ _ _ _ _ _ Hr Hin) as Ht. simpl in Ht.
    destruct (lookup_lt_is_Some_2 progs t Ht) as [p Hpt].
    destruct (Hp t p Hpt) as (th & _ & Ep).
    pose proof (Forall_lookup_1 _ _ _ _ Hprogs Hpt) as Hall.
    rewrite Forall_forall in Hall. apply Hall. rewrite Ep. apply elem_of_app. left.
    apply list_elem_of_fmap. exists (t, o). split; [done|]. by apply list_elem_of_filter. }
  split; [done|]. intros Hdone. rewrite Hsum. do 2 f_equal. apply total_delta_perm, completed_perm.
  - intros x. by eapply history_threads.
  - intros t p Hpt. destruct (Hp t p Hpt) as (th & Hth & Ep).
    rewrite (Forall_lookup_1 _ _ _ _ Hdone Hth), app_nil_r in Ep. done.
Qed.

Lemma counter_sums_updates_witness :
  exists m, counter_reaches 18446744073709551615 [[Increment]; [CAdd 5]] m /\
    cell m = 5 /\ cell m = u64 (18446744073709551615 + total_delta (mjoin [[Increment]; [CAdd 5]])).
Proof.
  eexists (mkMachine 5 [mkThread [] None; mkThread [] None] [(0%nat, Increment); (1%nat, CAdd 5)]).
  assert (counter_reaches 18446744073709551615 [[Increment]; [CAdd 5]]
    (mkMachine 5 [mkThread [] None; mkThread [] None] [(0%nat, Increment); (1%nat, CAdd 5)])) as Hr.
  { apply (r_step _ _ _ _ (mkMachine 0 [mkThread [] None; mkThread [CAdd 5] None]
                             [(0%nat, Increment)])).
    - apply (r_step _ _ _ _ _ _ (r_init _ _ _ _)).
      exact (st_atomic counter_apply (fun _ => false) 0 Increment []
        (initial 18446744073709551615 [[Increment]; [CAdd 5]]) eq_refl eq_refl).
    - exact (st_atomic counter_apply (fun _ => false) 1 (CAdd 5) []
        (mkMachine 0 [mkThread [] None; mkThread [CAdd 5] None] [(0%nat, Increment)])
        eq_refl eq_refl). }
  split; [exact Hr|]. split; [done|].
  apply (counter_sums_updates 18446744073709551615 [[Increment]; [CAdd 5]]
           (mkMachine 5 [mkThread [] None; mkThread [] None] [(0%nat, Increment); (1%nat, CAdd 5)]));
    [lia| |exact Hr|repeat constructor].
  repeat constructor; by eexists.
Defined.

(** A gauge is linearisable: the compare-exchange loops of [increment] and
    [decrement] neither lose nor repeat an update, so the gauge holds the value
    of a sequential run of the completed operations, in an order in which each
    thread's are in program order; and a loop that has just (re)loaded completes
    at its next exchange unless another operation took effect first. *)
Lemma gauge_linearisable v0 progs m :
  gauge_reaches v0 progs m ->
  cell m = fold_left (fun v o => gauge_apply o v) (map snd (history m)) v0 /\
  (forall t p, progs !! t = Some p ->
     exists th, threads m !! t = Some th /\ p = completed t (history m) ++ todo th) /\
  (forall t o rest x, threads m !! t = Some (mkThread (o :: rest) x) ->
     exists m', mstep gauge_apply gauge_loops m m').
Proof.
  intros Hr. destruct (reaches_linearised _ _ _ _ _ Hr) as (Hc & _ & Hp).
  split_and!; [done..|]. intros t o rest x Ht.
  destruct (machine_progress gauge_apply gauge_loops m t o rest x Ht) as (m' & Hs & _). by exists m'.
Qed.
