(* ===== verification/Timing.v ===== *)
(** [include/utils/performance_timer.h] and [src/utils/performance_timer.cpp]:
    [PerformanceTimer] (conversions of durations and timestamps), [ScopedTimer]
    (measures a scope and reports it to a callback or to the statistics) and
    [PerformanceStats] (per-name count, extremes, sum and deviation).

    Time points and durations are nanoseconds.  [PerformanceStats] works under one
    mutex, so an execution is a sequence of its calls.  The order in which an
    [std::unordered_map] is walked is the interface [MapOrder]; the text an
    [std::ostream] prints for a NaN (which depends on its sign bit, not
    represented) is a parameter. *)
From S2P Require Import Prelude FixFields Doubles FixMessage Logger.

(** The iteration order of [std::unordered_map<std::string, A>]. *)
Class MapOrder := {
  map_iter : forall {A}, gmap bytes A -> list (bytes * A);
  map_iter_perm : forall {A} (m : gmap bytes A), map_iter m ≡ₚ map_to_list m
}.

(** * Formatted output *)

(** [std::left << std::setw(width) << s] *)
Definition setw_left (width : nat) (s : bytes) : bytes :=
  s ++ replicate (width - length s) 32.
(** [std::string(n, c)] *)
Definition rule (n : nat) (c : Z) : bytes := replicate n c.

Section Output.
Variable nan_text : bytes.
(** [std::fixed << std::setprecision(p) << x] *)
Definition put_double (p : nat) (x : double) : bytes :=
  if isnan x then nan_text
  else if isinf x then if signbit x then str "-inf" else str "inf"
  else print_fixed p x.
End Output.

(** * [PerformanceTimer] *)
Module PerformanceTimer.
Definition duration (start stop : Z) : Z := stop - start.

(** [std::chrono::duration<double, std::micro>(d).count()]: the count is
    converted and divided. *)
Definition toMicroseconds (d : Z) : double := ddiv (d_of_Z d) (d_of_Z 1000).
Definition toMilliseconds (d : Z) : double := ddiv (d_of_Z d) (d_of_Z 1000000).

Definition toMicrosecondsSinceEpoch (timestamp : Z) : Z := u64 (Z.quot timestamp 1000).

(** [formatTimestamp(timestamp)]: the seconds printed are those of the system
    clock at the call, [system_now]; only the microseconds are the argument's. *)
Definition formatTimestamp (utc_offset : Z -> Z) (system_now timestamp : Z) : bytes :=
  let time_t := Z.quot system_now 1000000000 in
  let microseconds := Z.rem (Z.quot timestamp 1000) 1000000 in
  put_local_time utc_offset time_t ++ str "." ++ pad 6 (to_string microseconds).
End PerformanceTimer.

(** * [PerformanceStats] *)

Record Stats := mkStats {
  count : Z;
  min_us : double;
  max_us : double;
  sum_us : double;
  sum_squared_us : double
}.

(** [Stats{}] *)
Definition newStats : Stats := mkStats 0 d_max d_zero d_zero d_zero.

Definition mean (s : Stats) : double :=
  if 0 <? count s then ddiv (sum_us s) (d_of_Z (count s)) else d_zero.

Definition variance (s : Stats) : double :=
  if count s <? 2 then d_zero
  else
    let mean_val := mean s in
    ddiv (dsub (sum_squared_us s) (dmul (dmul (d_of_Z (count s)) mean_val) mean_val))
      (d_of_Z (count s - 1)).

Definition stddev (s : Stats) : double := dsqrt (variance s).

(** The body of [record] on one entry. *)
Definition add_sample (duration_us : double) (s : Stats) : Stats :=
  mkStats (u64 (count s + 1)) (dmin (min_us s) duration_us) (dmax (max_us s) duration_us)
    (dadd (sum_us s) duration_us) (dadd (sum_squared_us s) (dmul duration_us duration_us)).

(** [statistics_] *)
Abbreviation PerformanceStats := (gmap bytes Stats).

(** [record(name, duration_us)]; [statistics_[name]] creates an empty entry. *)
Definition record (name : bytes) (duration_us : double) (s : PerformanceStats) :
    PerformanceStats :=
  <[name := add_sample duration_us (default newStats (s !! name))]> s.

Definition getStats (name : bytes) (s : PerformanceStats) : Stats :=
  default newStats (s !! name).
Definition getAllStats (s : PerformanceStats) : PerformanceStats := s.
Definition reset (s : PerformanceStats) : PerformanceStats := ∅.

Section Report.
Context `{!MapOrder} (nan_text : bytes).
Let nl : bytes := [10].

(** One data row of [printReport]. *)
Definition report_row (x : bytes * Stats) : bytes :=
  let '(name, stats) := x in
  setw_left 25 name ++ setw_left 10 (to_string (count stats)) ++
  setw_left 12 (put_double nan_text 2 (min_us stats)) ++
  setw_left 12 (put_double nan_text 2 (mean stats)) ++
  setw_left 12 (put_double nan_text 2 (max_us stats)) ++
  setw_left 12 (put_double nan_text 2 (stddev stats)) ++ nl.

(** [printReport(title)], as the text it sends to the standard output. *)
Definition printReport (title : bytes) (s : PerformanceStats) : bytes :=
  let all_stats := getAllStats s in
  nl ++ rule 80 61 ++ nl ++ title ++ nl ++ rule 80 61 ++ nl ++
  if bool_decide (all_stats = ∅) then str "No performance data recorded." ++ nl
  else
    setw_left 25 (str "Operation") ++ setw_left 10 (str "Count") ++
    setw_left 12 (str "Min (μs)") ++ setw_left 12 (str "Mean (μs)") ++
    setw_left 12 (str "Max (μs)") ++ setw_left 12 (str "StdDev (μs)") ++ nl ++
    rule 80 45 ++ nl ++
    mjoin (map report_row (map_iter all_stats)) ++
    rule 80 61 ++ nl ++ nl.
End Report.

(** * [ScopedTimer] *)

(** How a callback ends: normally, or with an exception derived from
    [std::exception] whose [what()] is given. *)
Inductive callback_end := Returned | Raised (what : bytes).

Section ScopedTimer.
(** The callback changes a state [W] of its own. *)
Context {W : Type}.

Record ScopedTimer := mkTimer {
  name_ : bytes;
  start_time_ : Z;
  callback_ : option (bytes -> double -> W -> callback_end * W)
}.

(** The two constructors. *)
Definition newTimer (name : bytes) (now : Z) : ScopedTimer := mkTimer name now None.
Definition newTimerWith (name : bytes) (callback : bytes -> double -> W -> callback_end * W)
    (now : Z) : ScopedTimer := mkTimer name now (Some callback).

Definition getElapsedMicroseconds (now : Z) (t : ScopedTimer) : double :=
  PerformanceTimer.toMicroseconds (PerformanceTimer.duration (start_time_ t) now).

(** The destructor at time [now]: the statistics, the callback's state, and the
    message logged at level [ERROR] if there is one. *)
Definition destroyTimer (now : Z) (t : ScopedTimer) (s : PerformanceStats) (w : W) :
    PerformanceStats * W * option bytes :=
  let duration := PerformanceTimer.duration (start_time_ t) now in
  let duration_us := PerformanceTimer.toMicroseconds duration in
  match callback_ t with
  | Some callback =>
      let '(r, w) := callback (name_ t) duration_us w in
      (s, w, match r with
             | Raised what => Some (str "Exception in ScopedTimer callback: " ++ what)
             | Returned => None
             end)
  | None => (record (name_ t) duration_us s, w, None)
  end.
End ScopedTimer.

(** * Lemmas *)

(** A sequence of measurements. *)
Definition recordAll (xs : list (bytes * double)) (s : PerformanceStats) : PerformanceStats :=
  fold_left (fun s x => record (fst x) (snd x) s) xs s.

(** The measurements of one name, in order. *)
Definition samples (name : bytes) (xs : list (bytes * double)) : list double :=
  map snd (filter (fun x => fst x = name) xs).

Lemma recordAll_name name xs s :
  getStats name (recordAll xs s) =
    fold_left (fun st d => add_sample d st) (samples name xs) (getStats name s).
Proof.
  revert s. induction xs as [|[n d] xs IH]; intros s; [done|]. simpl. rewrite IH.
  unfold samples, getStats. rewrite filter_cons. simpl. case_decide as E; simpl.
  - subst. unfold record. simpl. by rewrite lookup_insert_eq.
  - unfold record. simpl. by rewrite lookup_insert_ne.
Qed.

Lemma fold_samples_fields ds s :
  let r := fold_left (fun st d => add_sample d st) ds s in
  0 <= count s < 18446744073709551616 ->
  count r = u64 (count s + Z.of_nat (length ds)) /\
  sum_us r = fold_left dadd ds (sum_us s) /\
  sum_squared_us r = fold_left (fun a d => dadd a (dmul d d)) ds (sum_squared_us s) /\
  min_us r = fold_left dmin ds (min_us s) /\
  max_us r = fold_left dmax ds (max_us s).
Proof.
  revert s. induction ds as [|d ds IH]; intros s r Hc; subst r.
  { simpl. unfold u64. by rewrite Z.add_0_r, Z.mod_small by lia. }
  simpl fold_left. destruct (IH (add_sample d s)) as (-> & -> & -> & -> & ->).
  { simpl. apply Z.mod_pos_bound. lia. }
  split_and!; [|done..]. simpl. unfold u64. rewrite Zplus_mod_idemp_l. f_equal. lia.
Qed.

(** Folding [std::min] over ordered doubles gives a lower bound that is one of
    them; dually for [std::max]. *)
Lemma fold_dmin_spec ds a :
  isnan a = false -> Forall (fun d => isnan d = false) ds ->
  let r := fold_left dmin ds a in
  isnan r = false /\ r ∈ a :: ds /\ Forall (dle r) (a :: ds).
Proof.
  revert a. induction ds as [|d ds IH]; intros a Ha Hd r; subst r; simpl.
  { split_and!; [done|by left|]. repeat constructor. apply dle_refl. }
  inversion Hd as [|? ? Hn Hds]; subst.
  destruct (dmin_spec a d Ha Hn) as (H1 & H2 & H3).
  assert (isnan (dmin a d) = false) as Hm by (by destruct H3 as [->| ->]).
  destruct (IH (dmin a d) Hm Hds) as (Hr & Hin & Hall).
  inversion Hall as [|? ? Hle Hall']; subst.
  split_and!; [done| |].
  - apply elem_of_cons in Hin as [Hin|Hin]; [|by right; right].
    rewrite Hin. destruct H3 as [->| ->]; [by left|by right; left].
  - repeat constructor; [by apply (dle_trans _ (dmin a d))..|done].
Qed.

Lemma fold_dmax_spec ds a :
  isnan a = false -> Forall (fun d => isnan d = false) ds ->
  let r := fold_left dmax ds a in
  isnan r = false /\ r ∈ a :: ds /\ Forall (fun d => dle d r) (a :: ds).
Proof.
  revert a. induction ds as [|d ds IH]; intros a Ha Hd r; subst r; simpl.
  { split_and!; [done|by left|]. repeat constructor. apply dle_refl. }
  inversion Hd as [|? ? Hn Hds]; subst.
  destruct (dmax_spec a d Ha Hn) as (H1 & H2 & H3).
  assert (isnan (dmax a d) = false) as Hm by (by destruct H3 as [->| ->]).
  destruct (IH (dmax a d) Hm Hds) as (Hr & Hin & Hall).
  inversion Hall as [|? ? Hle Hall']; subst.
  split_and!; [done| |].
  - apply elem_of_cons in Hin as [Hin|Hin]; [|by right; right].
    rewrite Hin. destruct H3 as [->| ->]; [by left|by right; left].
  - repeat constructor; [by apply (dle_trans _ (dmax a d))..|done].
Qed.

(** * Properties *)

(** The statistics summarise the measurements.  After any sequence of
    recordings without NaNs, the entry of a name counts its measurements
    (modulo [2 ^ 64]), sums them and their squares in order, and its extremes
    bound every measurement and are attained (or are the starting values,
    [DBL_MAX] and zero, which also bound them); other names do not interfere. *)
Lemma stats_summarise name xs :
  let ds := samples name xs in
  let st := getStats name (recordAll xs ∅) in
  Forall (fun d => isnan d = false) ds ->
  count st = u64 (Z.of_nat (length ds)) /\
  sum_us st = fold_left dadd ds d_zero /\
  sum_squared_us st = fold_left (fun a d => dadd a (dmul d d)) ds d_zero /\
  (min_us st ∈ d_max :: ds /\ Forall (dle (min_us st)) (d_max :: ds)) /\
  (max_us st ∈ d_zero :: ds /\ Forall (fun d => dle d (max_us st)) (d_zero :: ds)).
Proof.
  intros ds st Hn. subst st. rewrite recordAll_name.
  destruct (fold_samples_fields ds newStats ltac:(done)) as (Hc & Hs & Hq & Hmin & Hmax).
  change (getStats name ∅) with newStats. fold ds. rewrite Hc, Hs, Hq, Hmin, Hmax.
  destruct (fold_dmin_spec ds d_max ltac:(done) Hn) as (_ & ? & ?).
  destruct (fold_dmax_spec ds d_zero ltac:(done) Hn) as (_ & ? & ?).
  done.
Qed.

Lemma stats_summarise_witness :
  let xs := [(str "a", d_of_Z 3); (str "b", d_of_Z 9); (str "a", d_of_Z 1)] in
  samples (str "a") xs = [d_of_Z 3; d_of_Z 1] /\
  count (getStats (str "a") (recordAll xs ∅)) = u64 2.
Proof.
  split; [by vm_compute|].
  apply (stats_summarise (str "a") [(str "a", d_of_Z 3); (str "b", d_of_Z 9); (str "a", d_of_Z 1)]).
  repeat constructor.
Defined.

(** Three equal measurements of 11 ns: the computed variance is negative by
    rounding and the deviation is not a number. *)
Lemma stddev_of_equal_samples :
  let x := PerformanceTimer.toMicroseconds 11 in
  let st := getStats (str "t") (recordAll [(str "t", x); (str "t", x); (str "t", x)] ∅) in
  dlt (variance st) d_zero = true /\ isnan (stddev st) = true.
Proof. by vm_compute. Qed.

(** [formatTimestamp] prints the seconds of the call, not of its argument: two
    timestamps a day apart print alike. *)
Lemma formatTimestamp_ignores_seconds off system_now ts k :
  0 <= ts -> 0 <= k ->
  PerformanceTimer.formatTimestamp off system_now (ts + k * 1000000000) =
  PerformanceTimer.formatTimestamp off system_now ts.
Proof.
  intros Hts Hk. unfold PerformanceTimer.formatTimestamp. do 4 f_equal.
  rewrite !Z.quot_div_nonneg, !Z.rem_mod_nonneg by (try apply Z.div_pos; lia).
  replace (ts + k * 1000000000) with (ts + k * 1000000 * 1000) by lia.
  rewrite Z.div_add by lia. apply Z.mod_add. lia.
Qed.

(** A timer without callback records exactly one measurement, its elapsed time;
    one with a callback leaves the statistics alone whatever the callback does. *)
Lemma destroyTimer_effect {W} now (t : @ScopedTimer W) s w :
  fst (fst (destroyTimer now t s w)) =
    match callback_ t with
    | Some _ => s
    | None => record (name_ t) (getElapsedMicroseconds now t) s
    end.
Proof. unfold destroyTimer. destruct (callback_ t) as [cb|]; [by destruct (cb _ _ _)|done]. Qed.
