(* ===== verification/Metrics.v ===== *)
(** [include/utils/performance_counters.h] and
    [src/utils/performance_counters.cpp]: [RateTracker] (events per second over a
    window), the registry [PerformanceCounters] (counters, rates and gauges by
    name, created on first use) and [SystemMonitor] (a thread that samples
    [/proc], or the Mach kernel on macOS, and publishes gauges; the Linux and
    the Apple branch of the conditional compilation).

    Each of the registry's maps is used under its own mutex, so an execution is a
    sequence of calls ([AtomicCells] has the interleavings inside one metric).
    The clock is an argument, in nanoseconds; what [/proc] shows, or the kernel
    answers, is an argument of the monitor's updates. *)
From S2P Require Import Prelude FixFields Doubles FixMessage Logger AtomicCells Timing.

(** * [RateTracker] *)

Record RateTracker := mkRate {
  window_duration_ : Z; (* seconds *)
  total_events_ : Z;
  last_calculation_ : Z;
  events_in_window_ : Z;
  current_rate_ : double
}.

Definition newRateTracker (window_duration now : Z) : RateTracker :=
  mkRate window_duration 0 now 0 d_zero.

Definition recordEvent (n : Z) (r : RateTracker) : RateTracker :=
  mkRate (window_duration_ r) (counter_apply (CAdd n) (total_events_ r)) (last_calculation_ r)
    (u64 (events_in_window_ r + n)) (current_rate_ r).

Definition getCurrentRate (now : Z) (r : RateTracker) : double * RateTracker :=
  let elapsed := Z.quot (now - last_calculation_ r) 1000000000 in
  if window_duration_ r <=? elapsed then
    let seconds_elapsed := d_of_Z elapsed in
    let rate := ddiv (d_of_Z (events_in_window_ r)) seconds_elapsed in
    (rate, mkRate (window_duration_ r) (total_events_ r) now 0 rate)
  else (current_rate_ r, r).

Definition getTotalEvents (r : RateTracker) : Z := total_events_ r.

Definition resetRate (now : Z) (r : RateTracker) : RateTracker :=
  mkRate (window_duration_ r) (counter_apply CReset (total_events_ r)) now 0 d_zero.

(** * [PerformanceCounters] *)

Record PerformanceCounters := mkCounters {
  counters_ : gmap bytes Z;
  rate_trackers_ : gmap bytes RateTracker;
  gauges_ : gmap bytes double
}.

(** The singleton before its first use. *)
Definition newCounters : PerformanceCounters := mkCounters ∅ ∅ ∅.

(** [getCounter], [getRateTracker], [getGauge] return a reference to the entry,
    which they create when it is missing: the value it holds, and the registry. *)
Definition getCounter (name : bytes) (p : PerformanceCounters) : Z * PerformanceCounters :=
  let v := default 0 (counters_ p !! name) in
  (v, mkCounters (<[name := v]> (counters_ p)) (rate_trackers_ p) (gauges_ p)).
Definition getRateTracker (name : bytes) (now : Z) (p : PerformanceCounters) :
    RateTracker * PerformanceCounters :=
  let r := default (newRateTracker 1 now) (rate_trackers_ p !! name) in
  (r, mkCounters (counters_ p) (<[name := r]> (rate_trackers_ p)) (gauges_ p)).
Definition getGauge (name : bytes) (p : PerformanceCounters) : double * PerformanceCounters :=
  let g := default d_zero (gauges_ p !! name) in
  (g, mkCounters (counters_ p) (rate_trackers_ p) (<[name := g]> (gauges_ p))).

(** An operation on the counter behind the reference. *)
Definition updateCounter (name : bytes) (o : counter_op) (p : PerformanceCounters) :
    PerformanceCounters :=
  let '(v, p) := getCounter name p in
  mkCounters (<[name := counter_apply o v]> (counters_ p)) (rate_trackers_ p) (gauges_ p).
Definition incrementCounter (name : bytes) (delta : Z) : PerformanceCounters -> PerformanceCounters :=
  updateCounter name (CAdd delta).
Definition getCounterValue (name : bytes) (p : PerformanceCounters) : Z :=
  default 0 (counters_ p !! name).

Definition recordRate (name : bytes) (n now : Z) (p : PerformanceCounters) :
    PerformanceCounters :=
  let '(r, p) := getRateTracker name now p in
  mkCounters (counters_ p) (<[name := recordEvent n r]> (rate_trackers_ p)) (gauges_ p).
(** Reading a rate recomputes it, which changes the tracker. *)
Definition getRateValue (name : bytes) (now : Z) (p : PerformanceCounters) :
    double * PerformanceCounters :=
  match rate_trackers_ p !! name with
  | Some r =>
      let '(rate, r) := getCurrentRate now r in
      (rate, mkCounters (counters_ p) (<[name := r]> (rate_trackers_ p)) (gauges_ p))
  | None => (d_zero, p)
  end.

Definition setGauge (name : bytes) (value : double) (p : PerformanceCounters) :
    PerformanceCounters :=
  let '(g, p) := getGauge name p in
  mkCounters (counters_ p) (rate_trackers_ p) (<[name := gauge_apply (GSet value) g]> (gauges_ p)).
Definition getGaugeValue (name : bytes) (p : PerformanceCounters) : double :=
  default d_zero (gauges_ p !! name).

Definition getAllCounters (p : PerformanceCounters) : gmap bytes Z := counters_ p.
(** [clock name] is the time at which the tracker of [name] is read. *)
Definition getAllRates (clock : bytes -> Z) (p : PerformanceCounters) :
    gmap bytes double * PerformanceCounters :=
  (map_imap (fun name r => Some (fst (getCurrentRate (clock name) r))) (rate_trackers_ p),
   mkCounters (counters_ p)
     (map_imap (fun name r => Some (snd (getCurrentRate (clock name) r))) (rate_trackers_ p))
     (gauges_ p)).
Definition getAllGauges (p : PerformanceCounters) : gmap bytes double := gauges_ p.

(** [reset] keeps every entry and zeroes it. *)
Definition resetCounters (clock : bytes -> Z) (p : PerformanceCounters) : PerformanceCounters :=
  mkCounters (counter_apply CReset <$> counters_ p)
    (map_imap (fun name r => Some (resetRate (clock name) r)) (rate_trackers_ p))
    (gauge_apply (GSet d_zero) <$> gauges_ p).

Section Report.
Context `{!MapOrder} (nan_text : bytes).
Let nl : bytes := [10].

(** One table of the report; an empty one is left out. *)
Definition report_section {A} (title value_title : bytes) (show : A -> bytes)
    (m : gmap bytes A) : bytes :=
  if bool_decide (map_to_list m = []) then []
  else
    nl ++ title ++ nl ++ rule 50 45 ++ nl ++
    setw_left 35 (str "Name") ++ setw_left 15 value_title ++ nl ++ rule 50 45 ++ nl ++
    mjoin (map (fun x => setw_left 35 (fst x) ++ setw_left 15 (show (snd x)) ++ nl) (map_iter m)).

(** [printReport(title)]: the text, and the registry, whose rates it recomputes
    although the method is [const]. *)
Definition printReport (title : bytes) (clock : bytes -> Z) (p : PerformanceCounters) :
    bytes * PerformanceCounters :=
  let counters := getAllCounters p in
  let '(rates, p) := getAllRates clock p in
  let gauges := getAllGauges p in
  (nl ++ rule 90 61 ++ nl ++ title ++ nl ++ rule 90 61 ++ nl ++
   report_section (str "COUNTERS:") (str "Value") to_string counters ++
   report_section (str "RATES (per second):") (str "Rate") (put_double nan_text 2) rates ++
   report_section (str "GAUGES:") (str "Value") (put_double nan_text 2) gauges ++
   rule 90 61 ++ nl ++ nl, p).
End Report.

(** * [SystemMonitor] *)

(** The predefined gauge names of [namespace metrics] the monitor publishes. *)
Definition SYSTEM_CPU_USAGE : bytes := str "system.cpu_usage".
Definition SYSTEM_MEMORY_MB : bytes := str "system.memory_mb".
Definition SYSTEM_THREAD_COUNT : bytes := str "system.thread_count".

(** [sscanf]'s [%lu]: white space, an optional sign, digits ([strtoul]: a value
    too large is [ULONG_MAX], a negative one wraps); the rest of the input. *)
Definition ULONG_MAX : Z := 18446744073709551615.
Definition scan_ulong (s : bytes) : option (Z * bytes) :=
  let s := skip_spaces s in
  let '(neg, s) := match s with
                   | c :: s' => if c =? 45 then (true, s') else if c =? 43 then (false, s') else (false, s)
                   | [] => (false, s)
                   end in
  match digit_prefix s with
  | [] => None
  | ds =>
      let v := dec_value ds in
      let v := if ULONG_MAX <? v then ULONG_MAX else if neg then u64 (- v) else v in
      Some (v, drop (length ds) s)
  end.
(** [n] conversions in a row; [None] when fewer succeed. *)
Fixpoint scan_ulongs (n : nat) (s : bytes) : option (list Z) :=
  match n with
  | O => Some []
  | S n => '(v, s) ← scan_ulong s; vs ← scan_ulongs n s; Some (v :: vs)
  end.
(** A literal of the format. *)
Definition scan_literal (p s : bytes) : option bytes :=
  if prefix_of p s then Some (drop (length p) s) else None.

Record SystemMonitor := mkMonitor {
  update_interval_ : Z; (* seconds between turns *)
  running_ : bool;
  joinable : bool; (* monitor_thread_ *)
  cpu_usage_ : double;
  memory_usage_mb_ : Z;
  thread_count_ : Z
}.
Definition newMonitor (update_interval : Z) : SystemMonitor :=
  mkMonitor update_interval false false d_zero 0 0.

(** The [static] variables of [updateCpuUsage]. *)
Record cpu_statics := mkCpu { prev_idle : Z; prev_total : Z }.

Definition set_cpu (x : double) (m : SystemMonitor) : SystemMonitor :=
  mkMonitor (update_interval_ m) (running_ m) (joinable m) x (memory_usage_mb_ m) (thread_count_ m).
Definition set_memory (x : Z) (m : SystemMonitor) : SystemMonitor :=
  mkMonitor (update_interval_ m) (running_ m) (joinable m) (cpu_usage_ m) x (thread_count_ m).
Definition set_threads (x : Z) (m : SystemMonitor) : SystemMonitor :=
  mkMonitor (update_interval_ m) (running_ m) (joinable m) (cpu_usage_ m) (memory_usage_mb_ m) x.

(** [100.0 * (1.0 - static_cast<double>(idle_diff) / total_diff)], clamped. *)
Definition cpu_percentage (idle_diff total_diff : Z) : double :=
  let usage := dmul (d_of_Z 100)
                 (dsub (d_of_Z 1) (ddiv (d_of_Z idle_diff) (d_of_Z total_diff))) in
  dmax d_zero (dmin (d_of_Z 100) usage).

(** The readings [idle] and [total] against the last ones. *)
Definition sample_cpu (idle total : Z) (s : SystemMonitor * cpu_statics) : SystemMonitor * cpu_statics :=
  let '(m, st) := s in
  let m :=
    if 0 <? prev_total st then
      let idle_diff := u64 (idle - prev_idle st) in
      let total_diff := u64 (total - prev_total st) in
      if 0 <? total_diff then set_cpu (cpu_percentage idle_diff total_diff) m else m
    else m in
  (m, mkCpu idle total).

(** [updateCpuUsage]; [stat] is the first line of [/proc/stat], [None] when the
    file does not open. *)
Definition updateCpuUsage (stat : option bytes) (s : SystemMonitor * cpu_statics) :
    SystemMonitor * cpu_statics :=
  match stat with
  | None => s
  | Some line =>
      match rest ← scan_literal (str "cpu") line; scan_ulongs 8 rest with
      | Some [user; nice; system; idle; iowait; irq; softirq; steal] =>
          sample_cpu idle (u64 (user + nice + system + idle + iowait + irq + softirq + steal)) s
      | _ => s
      end
  end.

(** The first line that starts with [key] ([line.substr(0, n) == key]). *)
Definition find_line (key : bytes) (ls : list bytes) : option bytes :=
  snd <$> list_find (fun l => prefix_of key l = true) ls.

(** [updateMemoryUsage] and [updateThreadCount]; [status] is the lines of
    [/proc/self/status]. *)
Definition updateMemoryUsage (status : list bytes) (m : SystemMonitor) : SystemMonitor :=
  match find_line (str "VmRSS:") status with
  | Some line =>
      match scan_literal (str "VmRSS:") line ≫= scan_ulong with
      | Some (rss_kb, _) => set_memory (rss_kb / 1024) m
      | None => m
      end
  | None => m
  end.
(** [%u] keeps the low 32 bits. *)
Definition updateThreadCount (status : list bytes) (m : SystemMonitor) : SystemMonitor :=
  match find_line (str "Threads:") status with
  | Some line =>
      match scan_literal (str "Threads:") line ≫= scan_ulong with
      | Some (threads, _) => set_threads (threads mod 4294967296) m
      | None => m
      end
  | None => m
  end.

(** The Apple branches.  [ticks] is [cpu_ticks] of [host_statistics], indexed by
    [CPU_STATE_USER], [CPU_STATE_SYSTEM], [CPU_STATE_IDLE] and [CPU_STATE_NICE];
    [footprint] is [phys_footprint] of the task's [TASK_VM_INFO]; [times] are the seconds of
    [user_time] and [system_time] of its [TASK_BASIC_INFO]; [None] when the call fails. *)
Definition updateCpuUsage_mach (ticks : option (list Z)) (s : SystemMonitor * cpu_statics)
    : SystemMonitor * cpu_statics :=
  match ticks with
  | Some [user; system; idle; nice] => sample_cpu idle (u64 (user + system + idle + nice)) s
  | _ => s
  end.
Definition updateMemoryUsage_mach (footprint : option Z) (m : SystemMonitor) : SystemMonitor :=
  match footprint with
  | Some phys_footprint => set_memory (phys_footprint / (1024 * 1024)) m
  | None => m
  end.
Definition updateThreadCount_mach (times : option (Z * Z)) (m : SystemMonitor) : SystemMonitor :=
  match times with
  | Some (user_seconds, system_seconds) =>
      set_threads (wrap32 (user_seconds + system_seconds) mod 4294967296) m
  | None => m
  end.

Definition getCpuUsage (m : SystemMonitor) : double := cpu_usage_ m.
Definition getMemoryUsageMB (m : SystemMonitor) : Z := memory_usage_mb_ m.
Definition getThreadCount (m : SystemMonitor) : Z := thread_count_ m.

(** What one turn of the loop sees: [/proc/stat], and [/proc/self/status] at the
    two times it is read. *)
Record proc := mkProc { stat : option bytes; status1 : list bytes; status2 : list bytes }.

(** What it sees on macOS. *)
Record mach := mkMach {
  cpu_ticks : option (list Z);
  phys_footprint : option Z;
  task_times : option (Z * Z)
}.

(** The process-wide part: the monitor, the statics, the registry. *)
Record monitor_state := mkMon {
  monitor : SystemMonitor;
  statics : cpu_statics;
  registry : PerformanceCounters
}.

(** The second half of the body of [monitorLoop]: the global gauges. *)
Definition publish (m : SystemMonitor) (st : cpu_statics) (s : monitor_state) : monitor_state :=
  let p := setGauge SYSTEM_CPU_USAGE (getCpuUsage m) (registry s) in
  let p := setGauge SYSTEM_MEMORY_MB (d_of_Z (getMemoryUsageMB m)) p in
  let p := setGauge SYSTEM_THREAD_COUNT (d_of_Z (getThreadCount m)) p in
  mkMon m st p.

(** The body of [monitorLoop], on Linux and on macOS. *)
Definition monitorTurn (pr : proc) (s : monitor_state) : monitor_state :=
  let '(m, st) := updateCpuUsage (stat pr) (monitor s, statics s) in
  let m := updateMemoryUsage (status1 pr) m in
  let m := updateThreadCount (status2 pr) m in
  publish m st s.
Definition monitorTurn_mach (mr : mach) (s : monitor_state) : monitor_state :=
  let '(m, st) := updateCpuUsage_mach (cpu_ticks mr) (monitor s, statics s) in
  let m := updateMemoryUsage_mach (phys_footprint mr) m in
  let m := updateThreadCount_mach (task_times mr) m in
  publish m st s.

(** [start] and [stop] with the line they log. *)
Definition start (m : SystemMonitor) : SystemMonitor * option (LogLevel * bytes) :=
  if running_ m then (m, Some (WARN, str "SystemMonitor already running"))
  else (mkMonitor (update_interval_ m) true true (cpu_usage_ m) (memory_usage_mb_ m) (thread_count_ m),
        Some (INFO, str "SystemMonitor started")).
Definition stop (m : SystemMonitor) : SystemMonitor * option (LogLevel * bytes) :=
  if negb (running_ m) then (m, None)
  else (mkMonitor (update_interval_ m) false false (cpu_usage_ m) (memory_usage_mb_ m) (thread_count_ m),
        Some (INFO, str "SystemMonitor stopped")).

Definition with_monitor (m : SystemMonitor) (s : monitor_state) : monitor_state :=
  mkMon m (statics s) (registry s).

(** The monitor's life: calls of [start] and [stop], and turns of the loop while
    it runs, on either system. *)
Inductive sysmon_step : monitor_state -> monitor_state -> Prop :=
| ms_start s : sysmon_step s (with_monitor (fst (start (monitor s))) s)
| ms_stop s : sysmon_step s (with_monitor (fst (stop (monitor s))) s)
| ms_turn pr s : running_ (monitor s) = true -> sysmon_step s (monitorTurn pr s)
| ms_turn_mach mr s : running_ (monitor s) = true -> sysmon_step s (monitorTurn_mach mr s).

Inductive sysmon_reachable : monitor_state -> Prop :=
| mr_init n p : sysmon_reachable (mkMon (newMonitor n) (mkCpu 0 0) p)
| mr_step s s' : sysmon_reachable s -> sysmon_step s s' -> sysmon_reachable s'.

(** * Lemmas *)

(** ** The registry *)

Lemma getCounterValue_update n n' o p :
  getCounterValue n' (updateCounter n o p) =
    if decide (n = n') then counter_apply o (getCounterValue n p) else getCounterValue n' p.
Proof.
  unfold updateCounter, getCounterValue. simpl. case_decide as E.
  - subst. by rewrite lookup_insert_eq.
  - by rewrite !lookup_insert_ne.
Qed.

Lemma getGaugeValue_set n n' v p :
  getGaugeValue n' (setGauge n v p) = if decide (n = n') then v else getGaugeValue n' p.
Proof.
  unfold setGauge, getGaugeValue. simpl. case_decide as E.
  - subst. by rewrite lookup_insert_eq.
  - by rewrite !lookup_insert_ne.
Qed.

(** Resetting keeps the names. *)
Lemma reset_keeps_names clock p n :
  getCounterValue n (resetCounters clock p) = 0 /\
  getGaugeValue n (resetCounters clock p) = d_zero /\
  (is_Some (counters_ (resetCounters clock p) !! n) <-> is_Some (counters_ p !! n)).
Proof.
  unfold getCounterValue, getGaugeValue, resetCounters. simpl. rewrite !lookup_fmap.
  split_and!; [by destruct (counters_ p !! n)|by destruct (gauges_ p !! n)|].
  by rewrite fmap_is_Some.
Qed.

(** ** Rates *)

(** The events of a window, recorded one call after another, over the whole
    seconds that passed; the division starts a new window. *)
Lemma rate_over_window now ns r :
  0 <= events_in_window_ r < 18446744073709551616 ->
  let r' := fold_left (fun r n => recordEvent n r) ns r in
  let elapsed := Z.quot (now - last_calculation_ r) 1000000000 in
  window_duration_ r <= elapsed ->
  getCurrentRate now r' =
    (ddiv (d_of_Z (u64 (events_in_window_ r + fold_right Z.add 0 ns))) (d_of_Z elapsed),
     mkRate (window_duration_ r) (total_events_ r') now 0
       (ddiv (d_of_Z (u64 (events_in_window_ r + fold_right Z.add 0 ns))) (d_of_Z elapsed))).
Proof.
  intros Hr r' elapsed Hw.
  assert (window_duration_ r' = window_duration_ r /\ last_calculation_ r' = last_calculation_ r /\
    events_in_window_ r' = u64 (events_in_window_ r + fold_right Z.add 0 ns)) as (E1 & E2 & E3).
  { subst r' elapsed. revert r Hr Hw. induction ns as [|n ns IH]; intros r Hr Hw; simpl.
    - unfold u64. by rewrite Z.add_0_r, Z.mod_small by lia.
    - destruct (IH (recordEvent n r)) as (-> & -> & ->); [apply Z.mod_pos_bound; lia|done|].
      split_and!; [done..|]. simpl. unfold u64. rewrite Zplus_mod_idemp_l. f_equal. lia. }
  unfold getCurrentRate. rewrite E1, E2, E3. fold elapsed.
  destruct (Z.leb_spec (window_duration_ r) elapsed); [done|lia].
Qed.

(** Whole seconds are counted: 15 events in 1.5 s are reported as 15 per second. *)
Lemma rate_truncates_seconds :
  fst (getCurrentRate 1500000000 (recordEvent 15 (newRateTracker 1 0))) = d_of_Z 15.
Proof. by vm_compute. Qed.

(** ** Scanning [/proc] *)

Lemma digit_prefix_stop ds rest :
  Forall (fun c => is_digit c = true) ds ->
  match rest with c :: _ => is_digit c = false | [] => True end ->
  digit_prefix (ds ++ rest) = ds.
Proof.
  intros Hd Hr. induction Hd as [|c ds Hc _ IH]; simpl.
  - destruct rest as [|c rest]; [done|]. simpl. by rewrite Hr.
  - by rewrite Hc, IH.
Qed.

(** [%lu] reads back what [std::to_string] prints. *)
Lemma scan_ulong_to_string v rest :
  0 <= v <= ULONG_MAX ->
  match rest with c :: _ => is_digit c = false | [] => True end ->
  scan_ulong (32 :: to_string v ++ rest) = Some (v, rest).
Proof.
  unfold ULONG_MAX. intros Hv Hr.
  pose proof (to_string_digits v ltac:(lia)) as Hd.
  pose proof (to_string_nonempty v) as Hne.
  pose proof (to_string_value v ltac:(lia)) as Hval.
  unfold scan_ulong. change (skip_spaces (32 :: to_string v ++ rest))
    with (skip_spaces (to_string v ++ rest)).
  destruct (to_string v) as [|c ds] eqn:E; [done|].
  pose proof Hd as [Hc _]%Forall_cons.
  destruct (digit_not_special _ Hc) as (Hs & H45 & H43). simpl app.
  cbn [skip_spaces]. rewrite Hs.
  destruct (Z.eqb_spec c 45); [lia|]. destruct (Z.eqb_spec c 43); [lia|].
  change (c :: ds ++ rest) with ((c :: ds) ++ rest). rewrite digit_prefix_stop by done.
  rewrite Hval. unfold ULONG_MAX. destruct (Z.ltb_spec 18446744073709551615 v); [lia|].
  by rewrite drop_app_length.
Qed.

(** The numbers of a line as the kernel prints them. *)
Definition print_numbers (vs : list Z) : bytes := mjoin (map (fun v => 32 :: to_string v) vs).

Lemma scan_ulongs_print vs rest :
  Forall (fun v => 0 <= v <= ULONG_MAX) vs ->
  match rest with c :: _ => is_digit c = false | [] => True end ->
  scan_ulongs (length vs) (print_numbers vs ++ rest) = Some vs.
Proof.
  intros Hv Hr. induction Hv as [|v vs Hv Hvs IH]; [done|].
  unfold print_numbers in *. simpl in *. rewrite <- app_assoc.
  rewrite scan_ulong_to_string; [by simpl; rewrite IH|done|].
  by destruct vs.
Qed.

(** ** The monitor *)

Lemma cpu_percentage_bounds a b :
  isnan (cpu_percentage a b) = false /\
  dle d_zero (cpu_percentage a b) /\ dle (cpu_percentage a b) (d_of_Z 100).
Proof. by apply dclamp_spec. Qed.

(** What holds of a monitor at every moment. *)
Definition monitor_ok (m : SystemMonitor) : Prop :=
  isnan (cpu_usage_ m) = false /\ dle d_zero (cpu_usage_ m) /\
  dle (cpu_usage_ m) (d_of_Z 100) /\ joinable m = running_ m /\
  0 <= thread_count_ m < 4294967296.

Lemma sample_cpu_ok idle total m c :
  monitor_ok m -> monitor_ok (fst (sample_cpu idle total (m, c))).
Proof.
  intros H. cbn [sample_cpu fst]. case_goal; [|done]. case_goal; [|done].
  destruct H as (_ & _ & _ & Hj & Ht).
  match goal with |- monitor_ok (set_cpu (cpu_percentage ?i ?t) _) =>
    destruct (cpu_percentage_bounds i t) as (? & ? & ?) end. done.
Qed.

Lemma updateCpuUsage_ok st m c :
  monitor_ok m -> monitor_ok (fst (updateCpuUsage st (m, c))).
Proof.
  intros H. unfold updateCpuUsage. destruct st as [line|]; [|done].
  destruct (_ ≫= _) as [vs|]; [|done].
  do 8 (destruct vs as [|? vs]; [done|]). destruct vs; [|done]. by apply sample_cpu_ok.
Qed.

Lemma updateCpuUsage_mach_ok ticks m c :
  monitor_ok m -> monitor_ok (fst (updateCpuUsage_mach ticks (m, c))).
Proof.
  intros H. destruct ticks as [vs|]; [|done].
  do 4 (destruct vs as [|? vs]; [done|]). destruct vs; [|done]. by apply sample_cpu_ok.
Qed.

Lemma updateMemoryUsage_ok ls m : monitor_ok m -> monitor_ok (updateMemoryUsage ls m).
Proof. intros H. unfold updateMemoryUsage. by repeat case_goal. Qed.

Lemma updateMemoryUsage_mach_ok f m : monitor_ok m -> monitor_ok (updateMemoryUsage_mach f m).
Proof. by destruct f. Qed.

Lemma set_threads_ok x m : monitor_ok m -> monitor_ok (set_threads (x mod 4294967296) m).
Proof.
  intros (? & ? & ? & ? & ?). unfold monitor_ok. simpl.
  split_and!; try done; apply Z.mod_pos_bound; lia.
Qed.

Lemma updateThreadCount_ok ls m : monitor_ok m -> monitor_ok (updateThreadCount ls m).
Proof. intros H. unfold updateThreadCount. repeat case_goal; try done. by apply set_threads_ok. Qed.

Lemma updateThreadCount_mach_ok t m : monitor_ok m -> monitor_ok (updateThreadCount_mach t m).
Proof. intros H. destruct t as [[]|]; [|done]. by apply set_threads_ok. Qed.

Lemma monitorTurn_ok pr s : monitor_ok (monitor s) -> monitor_ok (monitor (monitorTurn pr s)).
Proof.
  intros H. pose proof (updateCpuUsage_ok (stat pr) (monitor s) (statics s) H) as H1.
  unfold monitorTurn. destruct (updateCpuUsage _ _) as [m st].
  by apply updateThreadCount_ok, updateMemoryUsage_ok.
Qed.

Lemma monitorTurn_mach_ok mr s : monitor_ok (monitor s) -> monitor_ok (monitor (monitorTurn_mach mr s)).
Proof.
  intros H. pose proof (updateCpuUsage_mach_ok (cpu_ticks mr) (monitor s) (statics s) H) as H1.
  unfold monitorTurn_mach. destruct (updateCpuUsage_mach _ _) as [m st].
  by apply updateThreadCount_mach_ok, updateMemoryUsage_mach_ok.
Qed.

(** The three gauges show the monitor, and no other gauge has changed since [s]. *)
Definition published (s s' : monitor_state) : Prop :=
  getGaugeValue SYSTEM_CPU_USAGE (registry s') = getCpuUsage (monitor s') /\
  getGaugeValue SYSTEM_MEMORY_MB (registry s') = d_of_Z (getMemoryUsageMB (monitor s')) /\
  getGaugeValue SYSTEM_THREAD_COUNT (registry s') = d_of_Z (getThreadCount (monitor s')) /\
  (forall n, n ∉ [SYSTEM_CPU_USAGE; SYSTEM_MEMORY_MB; SYSTEM_THREAD_COUNT] ->
     getGaugeValue n (registry s') = getGaugeValue n (registry s)).

Lemma publish_gauges m st s : published s (publish m st s).
Proof.
  unfold published, publish. cbn [registry monitor].
  rewrite !getGaugeValue_set. split_and!; [done..|].
  intros n Hn. rewrite !not_elem_of_cons in Hn. destruct Hn as (? & ? & ? & _).
  rewrite !getGaugeValue_set, !decide_False by congruence. done.
Qed.

(** * Properties *)

(** Whatever [/proc] shows or the Mach kernel answers, and however often the monitor is
    started and stopped, the processor usage it reports is a number between 0 and 100, the
    thread exists exactly while it runs, and every turn publishes the three
    measured values as gauges and touches no other gauge. *)
Lemma system_monitor_sound s :
  sysmon_reachable s ->
  monitor_ok (monitor s) /\
  (forall pr, published s (monitorTurn pr s)) /\ (forall mr, published s (monitorTurn_mach mr s)).
Proof.
  intros Hr. split; [|split; intros r; unfold monitorTurn, monitorTurn_mach; case_match; apply publish_gauges].
  induction Hr as [n p|s s' Hr IH Hs]; [by split_and!|].
  destruct Hs as [s|s|pr s Hrun|mr s Hrun]; [| |by apply monitorTurn_ok|by apply monitorTurn_mach_ok].
  - destruct IH as (? & ? & ? & ? & ?). simpl. unfold start.
    destruct (running_ (monitor s)) eqn:E; simpl; unfold monitor_ok; simpl; rewrite ?E; done.
  - destruct IH as (? & ? & ? & ? & ?). simpl. unfold stop.
    destruct (running_ (monitor s)) eqn:E; simpl; unfold monitor_ok; simpl; rewrite ?E; done.
Qed.

(** On macOS the number reported as threads is the processor time the task has used, in
    seconds. *)
Lemma mach_threads_are_seconds cpu memory user system s :
  0 <= user -> 0 <= system -> user + system <= 2147483647 ->
  thread_count_ (monitor (monitorTurn_mach (mkMach cpu memory (Some (user, system))) s)) = user + system.
Proof.
  intros Hu Hs Hm. unfold monitorTurn_mach. case_match. cbn.
  rewrite wrap32_id by (unfold int32_range; lia). apply Z.mod_small. lia.
Qed.

(** Two readings of [/proc/stat] as the kernel prints them: the usage is the
    share of the ticks in between that were not idle. *)
Lemma updateCpuUsage_exact m st vs rest a b c idle d e f g :
  vs = [a; b; c; idle; d; e; f; g] ->
  Forall (fun v => 0 <= v <= ULONG_MAX) vs ->
  match rest with x :: _ => is_digit x = false | [] => True end ->
  let total := u64 (a + b + c + idle + d + e + f + g) in
  0 < prev_total st < total -> 0 <= prev_total st <= ULONG_MAX -> prev_idle st <= idle -> 0 <= prev_idle st ->
  updateCpuUsage (Some (str "cpu" ++ print_numbers vs ++ rest)) (m, st) =
    (set_cpu (cpu_percentage (idle - prev_idle st) (total - prev_total st)) m, mkCpu idle total).
Proof.
  intros Evs Hvs Hrest total Ht Hpt Hi Hpi.
  assert (scan_literal (str "cpu") (str "cpu" ++ print_numbers vs ++ rest)
          = Some (print_numbers vs ++ rest)) as E1 by done.
  unfold updateCpuUsage. rewrite E1. cbn [mbind option_bind].
  assert (scan_ulongs 8 (print_numbers vs ++ rest) = Some vs) as E2
    by (rewrite <- (scan_ulongs_print vs rest) by done; by rewrite Evs).
  rewrite E2, Evs. fold total. cbn [sample_cpu].
  assert (0 <= total < 18446744073709551616) by (apply Z.mod_pos_bound; lia).
  rewrite Evs in Hvs. do 4 (apply Forall_cons in Hvs as [? Hvs]). unfold ULONG_MAX in *.
  assert (u64 (idle - prev_idle st) = idle - prev_idle st) as -> by (apply Z.mod_small; lia).
  assert (u64 (total - prev_total st) = total - prev_total st) as -> by (apply Z.mod_small; lia).
  destruct (Z.ltb_spec 0 (prev_total st)); [|lia].
  destruct (Z.ltb_spec 0 (total - prev_total st)); [done|lia].
Qed.

(** A monitor that is started and makes two turns, half of the ticks between
    them idle. *)
Definition sample_run : monitor_state :=
  let s0 := mkMon (newMonitor 1) (mkCpu 0 0) newCounters in
  let s1 := with_monitor (fst (start (monitor s0))) s0 in
  let turn l := monitorTurn (mkProc (Some (str l)) [str "VmRSS:      2048 kB"]
                               [str "VmRSS:      2048 kB"; str "Threads:  7"]) in
  turn "cpu  150 0 0 150 0 0 0 0"%string (turn "cpu  100 0 0 100 0 0 0 0"%string s1).

Lemma system_monitor_sound_witness :
  sysmon_reachable sample_run /\
  cpu_usage_ (monitor sample_run) = d_of_Z 50 /\
  memory_usage_mb_ (monitor sample_run) = 2 /\ thread_count_ (monitor sample_run) = 7 /\
  monitor_ok (monitor sample_run).
Proof.
  assert (sysmon_reachable sample_run) as Hr.
  { unfold sample_run.
    eapply mr_step; [eapply mr_step; [eapply mr_step; [apply mr_init|apply ms_start]|]|].
    - apply ms_turn. reflexivity.
    - apply ms_turn. vm_compute. reflexivity. }
  split; [exact Hr|]. do 3 (split; [vm_compute; reflexivity|]).
  apply (system_monitor_sound sample_run Hr).
Defined.
