(* ===== verification/MainProgram.v ===== *)
(** [src/main.cpp]: the program that measures a baseline.  [MessageGenerator] makes
    messages in the style of FIX, [BaselineTest] times loops over them and over
    allocations, locks and atomics, [demonstrateSystemMonitoring] runs the monitor for
    three seconds, and [main] calls them in turn.

    The world is what outlives a function: the counters of the generator (function
    statics), the singletons [PerformanceStats] and [PerformanceCounters], the statics of
    the monitor, the lines logged and the reports printed, and the number of clock
    readings.  The random numbers are the interface [RandomSource]; the readings the
    monitor's thread makes while [main] sleeps are an argument.  What a loop computes only
    to keep it from being optimised away (volatile locals) is the result of its body. *)
From S2P Require Import Prelude FixFields Doubles FixMessage Logger AtomicCells Timing Metrics.

(** [std::mt19937] seeded from [std::random_device], and the two distributions: an
    integer of a closed interval, a double. *)
Class RandomSource (R : Type) := {
  new_engine : nat -> R;
  draw_int : Z -> Z -> R -> Z * R;
  draw_real : double -> double -> R -> double * R;
  draw_int_range lo hi r : lo <= hi -> lo <= fst (draw_int lo hi r) <= hi
}.

Inductive output := Logged (level : LogLevel) (line : bytes) | Shown (text : bytes).

Record MainWorld := mkMain {
  seeds : nat;
  order_id : Z;
  cancel_id : Z;
  perf_stats : PerformanceStats;
  perf_counters : PerformanceCounters;
  cpu_state : cpu_statics;
  shown : list output;
  readings : nat
}.

(** The world when [main] is entered *)
Definition newMain : MainWorld := mkMain 0 1000 2000 ∅ newCounters (mkCpu 0 0) [] 0.

Definition with_ids (o c : Z) (w : MainWorld) : MainWorld :=
  mkMain (seeds w) o c (perf_stats w) (perf_counters w) (cpu_state w) (shown w) (readings w).
Definition with_stats (s : PerformanceStats) (w : MainWorld) : MainWorld :=
  mkMain (seeds w) (order_id w) (cancel_id w) s (perf_counters w) (cpu_state w) (shown w) (readings w).
Definition with_counters (p : PerformanceCounters) (w : MainWorld) : MainWorld :=
  mkMain (seeds w) (order_id w) (cancel_id w) (perf_stats w) p (cpu_state w) (shown w) (readings w).
Definition with_shown (x : output) (w : MainWorld) : MainWorld :=
  mkMain (seeds w) (order_id w) (cancel_id w) (perf_stats w) (perf_counters w) (cpu_state w)
    (shown w ++ [x]) (readings w).

Section Main.
Context {R : Type} `{RS : RandomSource R} `{MO : MapOrder}.
Variables (clock : nat -> Z) (nan_text what : bytes).

Abbreviation B := (M MainWorld).

Definition now : B Z :=
  fun w => (Ret (clock (readings w)),
            mkMain (seeds w) (order_id w) (cancel_id w) (perf_stats w) (perf_counters w)
              (cpu_state w) (shown w) (S (readings w))).
Definition get_world : B MainWorld := fun w => (Ret w, w).
Definition LOG_INFO (line : bytes) : B unit := modify (with_shown (Logged INFO line)).
Definition LOG_ERROR (line : bytes) : B unit := modify (with_shown (Logged ERROR line)).
Definition show (text : bytes) : B unit := modify (with_shown (Shown text)).

(** [std::to_string(double)] *)
Definition to_string_double (x : double) : bytes := put_double nan_text 6 x.

(** * [MessageGenerator]; the engine is its member [rng_] *)

Definition newGenerator : B R :=
  fun w => (Ret (new_engine (seeds w)),
            mkMain (S (seeds w)) (order_id w) (cancel_id w) (perf_stats w) (perf_counters w)
              (cpu_state w) (shown w) (readings w)).

Definition order_text (id qty : Z) (price : double) : bytes :=
  str "8=FIX.4.4|9=178|35=D|" ++ str "11=" ++ to_string id ++ str "|" ++ str "55=AAPL|" ++
  str "54=1|" ++ str "38=" ++ to_string qty ++ str "|" ++ str "44=" ++ to_string_double price ++
  str "|" ++ str "10=123|".
Definition cancel_text (id orig : Z) : bytes :=
  str "8=FIX.4.4|9=145|35=F|" ++ str "11=" ++ to_string id ++ str "|" ++ str "41=" ++
  to_string orig ++ str "|" ++ str "55=AAPL|" ++ str "54=1|" ++ str "10=456|".

Definition generateOrder (rng_ : R) : B (bytes * R) :=
  w <-- get_world ;;
  modify (with_ids (u64 (order_id w + 1)) (cancel_id w)) ;;;
  let '(qty, rng_) := draw_int 100 10000 rng_ in
  let '(price, rng_) := draw_real (d_of_Z 100) (d_of_Z 1000) rng_ in
  ret (order_text (order_id w) qty price, rng_).
Definition generateCancel (rng_ : R) : B (bytes * R) :=
  w <-- get_world ;;
  modify (with_ids (order_id w) (u64 (cancel_id w + 1))) ;;;
  let '(orig, rng_) := draw_int 1000 1500 rng_ in
  ret (cancel_text (cancel_id w) orig, rng_).
Definition generateRandomMessage (rng_ : R) : B (bytes * R) :=
  let '(type, rng_) := draw_int 0 1 rng_ in
  if type =? 0 then generateOrder rng_ else generateCancel rng_.

(** * Timers *)

(** [PERF_SCOPED_TIMER(name)] around a scope; [PERF_TIMER_START(name)] and
    [PERF_TIMER_END(name)] record the same. *)
Definition scoped_timer {A} (name : bytes) (body : B A) : B A :=
  start_time <-- now ;;
  a <-- body ;;
  end_time <-- now ;;
  w <-- get_world ;;
  modify (with_stats (fst (fst (destroyTimer end_time (newTimer name start_time) (perf_stats w) tt)))) ;;;
  ret a.
Definition perf_timer {A} (name : bytes) (body : B A) : B A :=
  start_time <-- now ;;
  a <-- body ;;
  end_time <-- now ;;
  w <-- get_world ;;
  modify (with_stats (record name
    (PerformanceTimer.toMicroseconds (PerformanceTimer.duration start_time end_time)) (perf_stats w))) ;;;
  ret a.

(** [for (int i = 0; i < n; ++i) body] over a local state *)
Fixpoint loop {A} (n : nat) (body : A -> B A) (a : A) : B A :=
  match n with
  | O => ret a
  | S n => a <-- body a ;; loop n body a
  end.

(** The reset and the report of the counters; no rate is registered in this program, so the
    clock is not read. *)
Definition reset_counters : B unit :=
  modify (fun w => with_counters (resetCounters (fun _ => clock (readings w)) (perf_counters w)) w).
Definition report_counters (title : bytes) : B unit :=
  w <-- get_world ;;
  let '(text, p) := Metrics.printReport nan_text title (fun _ => clock (readings w)) (perf_counters w) in
  modify (with_counters p) ;;;
  show text.
Definition reset_stats : B unit := modify (fun w => with_stats (Timing.reset (perf_stats w)) w).
Definition report_stats (title : bytes) : B unit :=
  w <-- get_world ;; show (Timing.printReport nan_text title (perf_stats w)).

(** * [BaselineTest] *)

Definition simulateMessageProcessing (message : bytes) : B (bool * nat) :=
  valid <-- perf_timer (str "message_validation")
    (ret ((10 <? Z.of_nat (length message)) && bool_decide (search (str "FIX") message <> None))) ;;
  len <-- perf_timer (str "message_formatting") (ret (length (message ++ [10]))) ;;
  ret (valid, len).

Definition generate_messages (n : nat) (rng_ : R) : B (list bytes * R) :=
  loop n (fun '(messages, rng_) =>
    r <-- generateRandomMessage rng_ ;; ret (messages ++ [fst r], snd r)) ([], rng_).

Fixpoint send_all (messages : list bytes) : B unit :=
  match messages with
  | [] => ret tt
  | message :: messages =>
      scoped_timer (str "baseline_send_simulation") (simulateMessageProcessing message) ;;;
      send_all messages
  end.

Definition runSendLatencyTest (num_messages_ : nat) : B unit :=
  LOG_INFO (str "=== PHASE 1: Send Latency Baseline Test ===") ;;;
  reset_stats ;;; reset_counters ;;;
  generator <-- newGenerator ;;
  r <-- generate_messages num_messages_ generator ;;
  let num := to_string (Z.of_nat num_messages_) in
  LOG_INFO (str "Generated " ++ num ++ str " test messages") ;;;
  start_time <-- now ;;
  send_all (fst r) ;;;
  end_time <-- now ;;
  let total_ms := PerformanceTimer.toMilliseconds (PerformanceTimer.duration start_time end_time) in
  let avg_latency_us := ddiv (dmul total_ms (d_of_Z 1000)) (d_of_Z (Z.of_nat num_messages_)) in
  let throughput := ddiv (dmul (d_of_Z (Z.of_nat num_messages_)) (d_of_Z 1000)) total_ms in
  LOG_INFO (str "=== BASELINE RESULTS ===") ;;;
  LOG_INFO (str "Total messages: " ++ num) ;;;
  LOG_INFO (str "Total time: " ++ to_string_double total_ms ++ str " ms") ;;;
  LOG_INFO (str "Average latency: " ++ to_string_double avg_latency_us ++ str " μs") ;;;
  LOG_INFO (str "Throughput: " ++ to_string_double throughput ++ str " messages/sec") ;;;
  report_stats (str "Send Simulation Baseline").

Definition testStringAllocation : B R :=
  LOG_INFO (str "Testing string allocation patterns...") ;;;
  generator <-- newGenerator ;;
  loop 1000 (fun rng_ => scoped_timer (str "string_allocation")
    (r <-- generateRandomMessage rng_ ;; ret (snd r))) generator.
Definition testVectorAllocation : B nat :=
  LOG_INFO (str "Testing vector allocation patterns...") ;;;
  loop 1000 (fun _ => scoped_timer (str "vector_allocation") (ret 2048%nat)) 0%nat.
Definition testMessageCopying : B bool :=
  LOG_INFO (str "Testing message copying overhead...") ;;;
  generator <-- newGenerator ;;
  r <-- generateRandomMessage generator ;;
  loop 1000 (fun _ => scoped_timer (str "message_copying")
    (let buffer := fst r in let reconstructed := buffer in
     ret (bool_decide (reconstructed = fst r)))) true.
Definition testMutexContention : B Z :=
  LOG_INFO (str "Testing mutex contention...") ;;;
  loop 1000 (fun counter => scoped_timer (str "mutex_operation") (ret (wrap32 (counter + 1)))) 0.
Definition testAtomicOperations : B Z :=
  LOG_INFO (str "Testing atomic operations...") ;;;
  loop 1000 (fun counter => scoped_timer (str "atomic_operation") (ret (u64 (u64 (counter + 1) + 2)))) 0.

Definition runMemoryAllocationTest : B unit :=
  LOG_INFO (str "=== Memory Allocation Baseline Test ===") ;;;
  reset_counters ;;;
  testStringAllocation ;;; testVectorAllocation ;;; testMessageCopying ;;;
  report_counters (str "Memory Allocation Baseline").

Definition runThreadingOverheadTest : B unit :=
  LOG_INFO (str "=== Threading Overhead Baseline Test ===") ;;;
  reset_stats ;;;
  testMutexContention ;;; testAtomicOperations ;;;
  report_stats (str "Threading Overhead Baseline").

(** * [demonstrateSystemMonitoring] and [main] *)

Definition log_line (x : option (LogLevel * bytes)) : B unit :=
  match x with Some (level, line) => modify (with_shown (Logged level line)) | None => ret tt end.

(** [turns] is what the monitor's thread reads in its turns before it is stopped. *)
Definition demonstrateSystemMonitoring (turns : list proc) : B unit :=
  LOG_INFO (str "=== System Monitoring Demonstration ===") ;;;
  let '(monitor, line) := Metrics.start (newMonitor 1) in
  log_line line ;;;
  w <-- get_world ;;
  let s := fold_left (fun s pr => monitorTurn pr s) turns
             (mkMon monitor (cpu_state w) (perf_counters w)) in
  modify (fun w => mkMain (seeds w) (order_id w) (cancel_id w) (perf_stats w) (registry s) (statics s)
                     (shown w) (readings w)) ;;;
  log_line (snd (Metrics.stop (Metrics.monitor s))) ;;;
  report_counters (str "System Resource Usage").

Definition main (turns : list proc) : B Z :=
  LOG_INFO (str "=== FIX Gateway Phase 1: Performance Baseline Measurement ===") ;;;
  LOG_INFO (str "Starting comprehensive performance instrumentation test...") ;;;
  try_catch
    (runSendLatencyTest 5000 ;;;
     runMemoryAllocationTest ;;;
     runThreadingOverheadTest ;;;
     demonstrateSystemMonitoring turns ;;;
     LOG_INFO (str "=== Phase 1 Baseline Measurement Complete ===") ;;;
     LOG_INFO (str "Next steps:") ;;;
     LOG_INFO (str "1. Review performance metrics above") ;;;
     LOG_INFO (str "2. Document baseline latency numbers") ;;;
     LOG_INFO (str "3. Identify optimization opportunities") ;;;
     LOG_INFO (str "4. Proceed to Phase 2: Async Send Architecture") ;;;
     ret 0)
    (LOG_ERROR (str "Exception during baseline testing: " ++ what) ;;; ret 1).

(** * Lemmas *)

Definition logged (x : output) : Prop := match x with Logged _ _ => True | Shown _ => False end.

(** [m] returns; it records one measurement under each of [names], in this order, writes
    log lines only, and leaves the counters alone. *)
Definition records {A} (m : B A) (names : list bytes) : Prop :=
  forall w, exists a w' ds lines,
    m w = (Ret a, w') /\ length ds = length names /\
    perf_stats w' = recordAll (zip names ds) (perf_stats w) /\
    perf_counters w' = perf_counters w /\ cpu_state w' = cpu_state w /\
    shown w' = shown w ++ lines /\ Forall logged lines.

Lemma records_ret {A} (a : A) : records (ret a) [].
Proof. intros w. exists a, w, [], []. by rewrite app_nil_r. Qed.

Lemma records_quiet {A} (m : B A) :
  (forall w, exists a w', m w = (Ret a, w') /\ perf_stats w' = perf_stats w /\
     perf_counters w' = perf_counters w /\ cpu_state w' = cpu_state w /\ shown w' = shown w) ->
  records m [].
Proof.
  intros Hm w. destruct (Hm w) as (a & w' & E & H1 & H2 & H3 & H4). exists a, w', [], [].
  by rewrite app_nil_r.
Qed.

Lemma records_bind {A C} (m : B A) (k : A -> B C) names1 names2 :
  records m names1 -> (forall a, records (k a) names2) -> records (bind m k) (names1 ++ names2).
Proof.
  intros Hm Hk w. destruct (Hm w) as (a & w1 & ds1 & l1 & E1 & L1 & S1 & C1 & U1 & O1 & F1).
  destruct (Hk a w1) as (c & w2 & ds2 & l2 & E2 & L2 & S2 & C2 & U2 & O2 & F2).
  exists c, w2, (ds1 ++ ds2), (l1 ++ l2). rewrite (bind_ret _ _ _ _ _ E1), E2.
  split; [done|]. split; [by rewrite !length_app, L1, L2|].
  split; [by rewrite S2, S1, zip_with_app by done; unfold recordAll; rewrite fold_left_app|].
  split; [congruence|]. split; [congruence|]. split; [by rewrite O2, O1, app_assoc|by apply Forall_app].
Qed.

Lemma records_then {A C} (m : B A) (k : B C) names1 names2 :
  records m names1 -> records k names2 -> records (m ;;; k) (names1 ++ names2).
Proof. intros Hm Hk. by apply records_bind. Qed.

Lemma records_log line : records (LOG_INFO line) [].
Proof. intros w. exists tt, (with_shown (Logged INFO line) w), [], [Logged INFO line]. by repeat constructor. Qed.

Lemma records_now : records now [].
Proof. apply records_quiet. intros w. eexists _, _. split; [done|done]. Qed.

Lemma records_generator : records newGenerator [].
Proof. apply records_quiet. intros w. eexists _, _. split; [done|done]. Qed.

Lemma records_message rng_ : records (generateRandomMessage rng_) [].
Proof.
  apply records_quiet. intros w. unfold generateRandomMessage.
  destruct (draw_int 0 1 rng_) as [type rng1]. destruct (type =? 0).
  - unfold generateOrder, bind, get_world, modify, ret.
    destruct (draw_int 100 10000 rng1) as [qty rng2]. destruct (draw_real _ _ rng2) as [price rng3].
    eexists _, _. split; [done|done].
  - unfold generateCancel, bind, get_world, modify, ret.
    destruct (draw_int 1000 1500 rng1) as [orig rng2]. eexists _, _. split; [done|done].
Qed.

(** What a timer records after its body. *)
Lemma records_record name t0 t1 :
  records (w <-- get_world ;; modify (with_stats (record name
    (PerformanceTimer.toMicroseconds (PerformanceTimer.duration t0 t1)) (perf_stats w)))) [name].
Proof.
  intros w. eexists tt, _, [PerformanceTimer.toMicroseconds (PerformanceTimer.duration t0 t1)], [].
  split; [done|]. split; [done|]. split; [done|]. by rewrite app_nil_r.
Qed.

Lemma records_timer {A} name (body : B A) names :
  records body names -> records (perf_timer name body) (names ++ [name]).
Proof.
  intros Hb. unfold perf_timer. apply (records_bind _ _ [] _); [apply records_now|]. intros t0.
  apply records_bind; [done|]. intros a. apply (records_bind _ _ [] _); [apply records_now|]. intros t1.
  intros w. destruct (records_record name t0 t1 w) as (u & w' & ds & l & E & H).
  exists a, w', ds, l. split; [|exact H]. injection E as _ <-. done.
Qed.

Lemma records_scoped {A} name (body : B A) names :
  records body names -> records (scoped_timer name body) (names ++ [name]).
Proof. apply records_timer. Qed.

Lemma records_loop {A} n (body : A -> B A) a names :
  (forall a, records (body a) names) -> records (loop n body a) (mjoin (replicate n names)).
Proof.
  intros Hb. revert a. induction n as [|n IH]; intros a; [apply records_ret|].
  apply records_bind; [apply Hb|exact IH].
Qed.

Lemma join_replicate {A} n (x : A) : mjoin (replicate n [x]) = replicate n x.
Proof. induction n as [|n IH]; [done|]. change ([x] ++ mjoin (replicate n [x]) = [x] ++ replicate n x). by rewrite IH. Qed.

(** A loop whose body is one timed scope. *)
Lemma records_timed_loop {A} n name (body : A -> B A) a :
  (forall a, records (body a) []) ->
  records (loop n (fun a => scoped_timer name (body a)) a) (replicate n name).
Proof.
  intros Hb. rewrite <- join_replicate. apply records_loop. intros a'. by apply (records_scoped _ _ []).
Qed.

Lemma records_send_one message :
  records (scoped_timer (str "baseline_send_simulation") (simulateMessageProcessing message))
    [str "message_validation"; str "message_formatting"; str "baseline_send_simulation"].
Proof.
  apply (records_scoped _ _ [str "message_validation"; str "message_formatting"]).
  unfold simulateMessageProcessing.
  apply (records_bind _ _ [str "message_validation"]); [apply (records_timer _ _ []), records_ret|]. intros valid.
  apply (records_bind _ _ [str "message_formatting"] []); [apply (records_timer _ _ []), records_ret|].
  intros len. apply records_ret.
Qed.

Definition send_names (n : nat) : list bytes :=
  mjoin (replicate n [str "message_validation"; str "message_formatting"; str "baseline_send_simulation"]).

Lemma records_send_all messages : records (send_all messages) (send_names (length messages)).
Proof.
  induction messages as [|message messages IH]; [apply records_ret|].
  apply records_then; [apply records_send_one|done].
Qed.

(** The generator makes as many messages as it is asked for. *)
Lemma generate_count n rng_ w :
  exists ms rng' w', generate_messages n rng_ w = (Ret (ms, rng'), w') /\ length ms = n.
Proof.
  assert (forall ms rng1 w1, exists ms' rng' w',
    loop n (fun '(messages, rng2) =>
      r <-- generateRandomMessage rng2 ;; ret (messages ++ [fst r], snd r)) (ms, rng1) w1
    = (Ret (ms', rng'), w') /\ length ms' = (length ms + n)%nat) as H.
  { induction n as [|n IH]; intros ms rng1 w1; [exists ms, rng1, w1; split; [done|lia]|].
    destruct (records_message rng1 w1) as ([m rng2] & w2 & ds & l & E & _).
    destruct (IH (ms ++ [m]) rng2 w2) as (ms' & rng' & w' & E' & Hl). exists ms', rng', w'.
    cbn [loop]. split; [|rewrite Hl, length_app; cbn [length]; lia].
    unfold bind at 1 2. rewrite E. exact E'. }
  apply H.
Qed.

(** The messages made from the ids [o] and [c] on, and the ids after them: every message
    has the next number of its kind, a quantity of 100 to 10000 or the number of an original
    order of 1000 to 1500. *)
Inductive generated (o c : Z) : list bytes -> Z -> Z -> Prop :=
  | generated_none : generated o c [] o c
  | generated_order ms o' c' qty price :
      generated o c ms o' c' -> 100 <= qty <= 10000 ->
      generated o c (ms ++ [order_text o' qty price]) (u64 (o' + 1)) c'
  | generated_cancel ms o' c' orig :
      generated o c ms o' c' -> 1000 <= orig <= 1500 ->
      generated o c (ms ++ [cancel_text c' orig]) o' (u64 (c' + 1)).

Lemma generate_numbers n rng_ w ms rng' w' :
  generate_messages n rng_ w = (Ret (ms, rng'), w') ->
  generated (order_id w) (cancel_id w) ms (order_id w') (cancel_id w').
Proof.
  unfold generate_messages. set (body := fun x : list bytes * R => _).
  assert (forall o c ms0 rng1 w1, generated o c ms0 (order_id w1) (cancel_id w1) ->
    loop n body (ms0, rng1) w1 = (Ret (ms, rng'), w') ->
    generated o c ms (order_id w') (cancel_id w')) as H; [|apply H; constructor].
  induction n as [|n IH]; intros o c ms0 rng1 w1 Hg E; [by injection E as -> _ ->|].
  cbn [loop] in E. apply bind_returns in E as ([ms1 rng2] & w2 & E1 & E).
  eapply IH; [|exact E]. clear E IH. subst body. cbn beta in E1.
  apply bind_returns in E1 as ([m rng3] & w3 & E1 & E2). injection E2 as <- <- <-. cbn [fst].
  unfold generateRandomMessage in E1. destruct (draw_int 0 1 rng1) as [type rng4].
  destruct (type =? 0); unfold generateOrder, generateCancel, bind, get_world, modify, ret in E1.
  - pose proof (draw_int_range 100 10000 rng4 ltac:(lia)) as Hq.
    destruct (draw_int 100 10000 rng4) as [qty rng5]. destruct (draw_real _ _ rng5) as [price rng6].
    injection E1 as <- _ <-. by apply (generated_order o c ms0 _ _ qty price).
  - pose proof (draw_int_range 1000 1500 rng4 ltac:(lia)) as Hq.
    destruct (draw_int 1000 1500 rng4) as [orig rng5].
    injection E1 as <- _ <-. by apply (generated_cancel o c ms0 _ _ orig).
Qed.

Lemma records_generate n rng_ : records (generate_messages n rng_) [].
Proof.
  unfold generate_messages. pose proof (records_loop n (fun '(messages, rng2) =>
    r <-- generateRandomMessage rng2 ;; ret (messages ++ [fst r], snd r)) ([], rng_) []) as H.
  assert (mjoin (replicate n (@nil bytes)) = []) as E.
  { clear. induction n as [|n IH]; [done|exact IH]. }
  rewrite E in H. apply H. intros [messages rng2].
  apply (records_bind _ _ [] []); [apply records_message|]. intros r. apply records_ret.
Qed.

Lemma memory_records :
  records (testStringAllocation ;;; testVectorAllocation ;;; testMessageCopying)
    (replicate 1000 (str "string_allocation") ++ replicate 1000 (str "vector_allocation") ++
     replicate 1000 (str "message_copying")).
Proof.
  apply records_then; [|apply records_then].
  - apply (records_then _ _ []); [apply records_log|].
    apply (records_bind _ _ []); [apply records_generator|]. intros rng1. apply records_timed_loop.
    intros rng2. apply (records_bind _ _ [] []); [apply records_message|]. intros r. apply records_ret.
  - apply (records_then _ _ []); [apply records_log|]. apply records_timed_loop. intros _. apply records_ret.
  - apply (records_then _ _ []); [apply records_log|].
    apply (records_bind _ _ []); [apply records_generator|]. intros rng1.
    apply (records_bind _ _ []); [apply records_message|]. intros r.
    apply records_timed_loop. intros _. apply records_ret.
Qed.

Lemma threading_records :
  records (testMutexContention ;;; testAtomicOperations)
    (replicate 1000 (str "mutex_operation") ++ replicate 1000 (str "atomic_operation")).
Proof.
  apply records_then; (apply (records_then _ _ []); [apply records_log|]; apply records_timed_loop;
    intros ?; apply records_ret).
Qed.

(** ** What is in the statistics *)

Lemma samples_zip name (names : list bytes) (ds : list double) :
  length ds = length names ->
  length (samples name (zip names ds)) = length (filter (fun x => x = name) names).
Proof.
  unfold samples. rewrite length_map. revert ds.
  induction names as [|x names IH]; intros [|d ds] E; try done. injection E as E.
  cbn [zip_with]. rewrite !filter_cons. cbn [fst].
  destruct (decide (x = name)); cbn [length]; by rewrite IH.
Qed.

Lemma count_replicate (name x : bytes) n :
  length (filter (fun y => y = name) (replicate n x)) = if decide (x = name) then n else O.
Proof.
  induction n as [|n IH]; [by case_decide|]. cbn [replicate]. rewrite filter_cons.
  destruct (decide (x = name)); cbn [length]; by rewrite IH.
Qed.

Lemma recorded_count name names ds :
  length ds = length names -> Z.of_nat (length names) < 2 ^ 64 ->
  count (getStats name (recordAll (zip names ds) ∅))
  = Z.of_nat (length (filter (fun x => x = name) names)).
Proof.
  intros E Hb. rewrite recordAll_name.
  replace (getStats name ∅) with newStats by (unfold getStats; by rewrite lookup_empty).
  destruct (fold_samples_fields (samples name (zip names ds)) newStats) as [-> _]; [by vm_compute|].
  rewrite (samples_zip name names ds E). pose proof (length_filter (fun x => x = name) names).
  cbn [newStats count]. unfold u64. rewrite Z.mod_small; lia.
Qed.

Lemma recorded_absent name names ds s :
  name ∉ names -> recordAll (zip names ds) s !! name = s !! name.
Proof.
  revert ds s. induction names as [|x names IH]; intros [|d ds] s Hn; try done.
  apply not_elem_of_cons in Hn as [H1 H2]. cbn [zip_with recordAll fold_left fst snd].
  fold (recordAll (zip names ds) (record x d s)). rewrite IH by done. unfold record.
  by rewrite lookup_insert_ne.
Qed.

Ltac quiet := erewrite bind_ret by reflexivity.

(** The latency test measures every message under its three names. *)
Lemma latency_measured n w :
  exists w' ds, runSendLatencyTest n w = (Ret tt, w') /\ length ds = length (send_names n) /\
    perf_stats w' = recordAll (zip (send_names n) ds) ∅ /\
    perf_counters w' = resetCounters (fun _ => clock (readings w)) (perf_counters w).
Proof.
  unfold runSendLatencyTest. do 4 quiet.
  match goal with |- context [generate_messages n ?g] => set (g0 := g) end.
  match goal with |- context [bind (generate_messages n g0) ?k ?x] => set (w1 := x) end.
  destruct (generate_count n g0 w1) as (ms & rng' & w2 & E2 & Hl).
  destruct (records_generate n g0 w1) as (a & w2' & ds2 & l2 & E2' & L2 & S2 & C2 & _).
  rewrite E2 in E2'. injection E2' as <- <-. destruct ds2; [|done].
  rewrite (bind_ret _ _ _ _ _ E2). cbn [fst]. do 2 quiet.
  match goal with |- context [bind (send_all ms) ?k ?x] => set (w3 := x) end.
  destruct (records_send_all ms w3) as (b & w4 & ds & l4 & E4 & L4 & S4 & C4 & _).
  rewrite (bind_ret _ _ _ _ _ E4). rewrite Hl in *. do 6 quiet.
  eexists _, ds. split; [reflexivity|]. split; [done|]. cbn. rewrite S4, C4. cbn. by rewrite S2, C2.
Qed.

Lemma reset_new c : resetCounters c newCounters = newCounters.
Proof. unfold resetCounters, newCounters. cbn. by rewrite !fmap_empty, map_imap_empty. Qed.

(** The report of an empty registry: the title and three rules *)
Definition bare_report (title : bytes) : bytes :=
  [10] ++ rule 90 61 ++ [10] ++ title ++ [10] ++ rule 90 61 ++ [10] ++ rule 90 61 ++ [10] ++ [10].

Lemma report_new title c :
  Metrics.printReport nan_text title c newCounters = (bare_report title, newCounters).
Proof. reflexivity. Qed.

Definition memory_names : list bytes :=
  replicate 1000 (str "string_allocation") ++ replicate 1000 (str "vector_allocation") ++
  replicate 1000 (str "message_copying").

(** The memory test reports nothing: its measurements go to the statistics, and the report
    it prints is that of the counters, which has a title and no row. *)
Lemma memory_unreported w :
  perf_counters w = newCounters ->
  exists w' ds lines, runMemoryAllocationTest w = (Ret tt, w') /\ length ds = length memory_names /\
    perf_stats w' = recordAll (zip memory_names ds) (perf_stats w) /\ perf_counters w' = newCounters /\
    shown w' = shown w ++ lines ++ [Shown (bare_report (str "Memory Allocation Baseline"))] /\
    Forall logged lines.
Proof.
  intros Hc. unfold runMemoryAllocationTest. do 2 quiet.
  match goal with |- context [bind testStringAllocation ?k ?x] => set (w1 := x) end.
  destruct (memory_records w1) as (c & w2 & ds & l & E & L & S2 & C2 & _ & O2 & F2).
  assert (perf_counters w2 = newCounters) as Hc2 by (rewrite C2; cbn; by rewrite Hc, reset_new).
  exists (with_shown (Shown (bare_report (str "Memory Allocation Baseline"))) (with_counters newCounters w2)),
    ds, (Logged INFO (str "=== Memory Allocation Baseline Test ===") :: l).
  split; [|split_and!; [done|exact S2|done| |by constructor]].
  - apply bind_returns in E as (a & w3 & Ea & E). apply bind_returns in E as (b & w4 & Eb & E).
    rewrite (bind_ret _ _ _ _ _ Ea), (bind_ret _ _ _ _ _ Eb), (bind_ret _ _ _ _ _ E).
    unfold report_counters, bind, get_world. by rewrite Hc2, report_new.
  - cbn. rewrite O2. cbn. by rewrite <- !app_assoc.
Qed.

Definition threading_names : list bytes :=
  replicate 1000 (str "mutex_operation") ++ replicate 1000 (str "atomic_operation").

Lemma threading_measured w :
  exists w' ds, runThreadingOverheadTest w = (Ret tt, w') /\ length ds = length threading_names /\
    perf_stats w' = recordAll (zip threading_names ds) ∅ /\ perf_counters w' = perf_counters w.
Proof.
  unfold runThreadingOverheadTest. do 2 quiet.
  match goal with |- context [bind testMutexContention ?k ?x] => set (w1 := x) end.
  destruct (threading_records w1) as (b & w2 & ds & l & E & L & S2 & C2 & _).
  eexists _, ds. split; [|split; [done|split]].
  - apply bind_returns in E as (a & w3 & Ea & E).
    rewrite (bind_ret _ _ _ _ _ Ea), (bind_ret _ _ _ _ _ E). reflexivity.
  - exact S2.
  - exact C2.
Qed.

Lemma monitoring_returns turns w :
  exists w', demonstrateSystemMonitoring turns w = (Ret tt, w') /\ perf_stats w' = perf_stats w.
Proof.
  unfold demonstrateSystemMonitoring. quiet. cbn [Metrics.start newMonitor running_ log_line].
  do 3 quiet. set (s := fold_left _ _ _).
  assert (forall w, report_counters (str "System Resource Usage") w =
    (Ret tt, snd (report_counters (str "System Resource Usage") w))) as Hr.
  { intros x. unfold report_counters, bind, get_world. by destruct (Metrics.printReport _ _ _ _). }
  assert (forall w, perf_stats (snd (report_counters (str "System Resource Usage") w)) = perf_stats w) as Hs.
  { intros x. unfold report_counters, bind, get_world. by destruct (Metrics.printReport _ _ _ _). }
  destruct (snd (Metrics.stop (monitor s))) as [[level line]|].
  - quiet. rewrite Hr. eexists. split; [reflexivity|]. by rewrite Hs.
  - quiet. rewrite Hr. eexists. split; [reflexivity|]. by rewrite Hs.
Qed.

(** The program runs to its end: whatever the clock, the random numbers and the system
    show, [main] returns 0, and what is left in the statistics are the thousand
    measurements of the mutex and the thousand of the atomics; those of the send and
    memory tests have been cleared. *)
Lemma main_completes turns :
  exists w', main turns newMain = (Ret 0, w') /\
    count (getStats (str "mutex_operation") (perf_stats w')) = 1000 /\
    count (getStats (str "atomic_operation") (perf_stats w')) = 1000 /\
    forall name, name <> str "mutex_operation" -> name <> str "atomic_operation" ->
      perf_stats w' !! name = None.
Proof.
  unfold main. do 2 quiet. match goal with |- context [try_catch _ _ ?x] => set (w1 := x) end.
  destruct (latency_measured 5000 w1) as (w2 & ds2 & E2 & _ & _ & C2).
  assert (perf_counters w2 = newCounters) as Hc2 by (rewrite C2; apply reset_new).
  destruct (memory_unreported w2 Hc2) as (w3 & ds3 & l3 & E3 & _ & _ & C3 & _).
  destruct (threading_measured w3) as (w4 & ds & E4 & L4 & S4 & _).
  destruct (monitoring_returns turns w4) as (w5 & E5 & S5).
  assert (Z.of_nat (length threading_names) < 2 ^ 64) as Hl
    by (unfold threading_names; rewrite length_app, !length_replicate; lia).
  unfold try_catch. rewrite (bind_ret _ _ _ _ _ E2), (bind_ret _ _ _ _ _ E3), (bind_ret _ _ _ _ _ E4),
    (bind_ret _ _ _ _ _ E5). do 6 quiet.
  eexists. split; [reflexivity|]. cbn [perf_stats with_shown]. rewrite S5, S4.
  split; [|split].
  - rewrite recorded_count; [|exact L4|exact Hl].
    unfold threading_names. by rewrite filter_app, length_app, !count_replicate.
  - rewrite recorded_count; [|exact L4|exact Hl].
    unfold threading_names. by rewrite filter_app, length_app, !count_replicate.
  - intros name H1 H2. rewrite recorded_absent; [apply lookup_empty|].
    unfold threading_names. rewrite elem_of_app, !elem_of_replicate.
    intros [[E _]|[E _]]; [exact (H1 E)|exact (H2 E)].
Qed.
End Main.

(** ** An instance: the lowest number of every interval *)

#[export] Program Instance lowest_source : RandomSource unit := {|
  new_engine := fun _ => tt;
  draw_int := fun lo _ r => (lo, r);
  draw_real := fun lo _ r => (lo, r)
|}.
Next Obligation. intros lo hi r H. simpl. lia. Qed.

Lemma two_orders :
  exists w', generate_messages [] 2 tt newMain =
    (Ret ([str "8=FIX.4.4|9=178|35=D|11=1000|55=AAPL|54=1|38=100|44=100.000000|10=123|";
           str "8=FIX.4.4|9=178|35=D|11=1001|55=AAPL|54=1|38=100|44=100.000000|10=123|"], tt), w') /\
    order_id w' = 1002.
Proof. eexists. split; vm_compute; reflexivity. Qed.
