(* ===== verification/Platform.v ===== *)
(** [utils::PlatformDetector] ([include/utils/platform_detector.h],
    [src/utils/platform_detector.cpp]).

    The preprocessor's predefined macros are the record [macros] and what the
    running system answers (files, environment variables, [uname], [getuid]) the
    record [host]; every [#ifdef] chain becomes a chain of tests in its order. *)
From S2P Require Import Prelude FixFields.

Inductive PlatformType := MACOS | LINUX | WINDOWS | FREEBSD | UNKNOWN_PLATFORM.
Inductive ArchitectureType := X86_64 | ARM64 | X86_32 | ARM32 | UNKNOWN_ARCH.
Inductive CompilerType := GCC | CLANG | MSVC | UNKNOWN_COMPILER.

#[export] Instance PlatformType_eq_dec : EqDecision PlatformType.
Proof. solve_decision. Defined.

(** Which macros the compiler predefines; [None] for one that is not defined. *)
Record macros := {
  APPLE : bool; linux : bool; WIN32 : bool; WIN64 : bool; FreeBSD : bool;
  x86_64 : bool; M_X64 : bool; aarch64 : bool; M_ARM64 : bool;
  i386 : bool; M_IX86 : bool; arm : bool; M_ARM : bool;
  GNUC : option (Z * Z * Z); (* __GNUC__, __GNUC_MINOR__, __GNUC_PATCHLEVEL__ *)
  clang : option (Z * Z * Z); (* __clang_major__, _minor__, _patchlevel__ *)
  MSC_VER : option Z
}.

(** What the system answers at run time: whether files open ([good()]) and their
    lines, whether environment variables are set, [uname]'s [sysname] and
    [release], [getuid()], [hardware_concurrency()]. *)
Record host := {
  hugepages : bool;
  dockerenv : bool;
  cgroup : option (list bytes);
  osrelease : option (list bytes);
  env : bytes -> bool;
  uname : option (bytes * bytes);
  uid : Z;
  hardware_concurrency : Z
}.

Definition getCompileTimePlatform (mc : macros) : PlatformType :=
  if APPLE mc then MACOS
  else if linux mc then LINUX
  else if WIN32 mc || WIN64 mc then WINDOWS
  else if FreeBSD mc then FREEBSD
  else UNKNOWN_PLATFORM.

Definition getCompileTimeArchitecture (mc : macros) : ArchitectureType :=
  if x86_64 mc || M_X64 mc then X86_64
  else if aarch64 mc || M_ARM64 mc then ARM64
  else if i386 mc || M_IX86 mc then X86_32
  else if arm mc || M_ARM mc then ARM32
  else UNKNOWN_ARCH.

Definition getCompileTimeCompiler (mc : macros) : CompilerType :=
  match GNUC mc with
  | Some _ => match clang mc with Some _ => CLANG | None => GCC end
  | None => match MSC_VER mc with Some _ => MSVC | None => UNKNOWN_COMPILER end
  end.

Definition platformToString (p : PlatformType) : bytes :=
  match p with
  | MACOS => str "macOS" | LINUX => str "Linux" | WINDOWS => str "Windows"
  | FREEBSD => str "FreeBSD" | UNKNOWN_PLATFORM => str "Unknown"
  end.
Definition architectureToString (a : ArchitectureType) : bytes :=
  match a with
  | X86_64 => str "x86_64" | ARM64 => str "ARM64" | X86_32 => str "x86_32"
  | ARM32 => str "ARM32" | UNKNOWN_ARCH => str "Unknown"
  end.
Definition compilerToString (c : CompilerType) : bytes :=
  match c with
  | GCC => str "GCC" | CLANG => str "Clang" | MSVC => str "MSVC"
  | UNKNOWN_COMPILER => str "Unknown"
  end.

(** The feature macros of the header: [PLATFORM_MACOS], [PLATFORM_LINUX],
    [PLATFORM_WINDOWS], [HAS_THREAD_AFFINITY], [HAS_REAL_TIME_PRIORITY],
    [HAS_HUGE_PAGES]. *)
Record feature_macros := mkFeatures {
  PLATFORM_MACOS : bool; PLATFORM_LINUX : bool; PLATFORM_WINDOWS : bool;
  HAS_THREAD_AFFINITY : bool; HAS_REAL_TIME_PRIORITY : bool; HAS_HUGE_PAGES : bool
}.
Definition features (mc : macros) : feature_macros :=
  if APPLE mc then mkFeatures true false false false false false
  else if linux mc then mkFeatures false true false true true true
  else if WIN32 mc || WIN64 mc then mkFeatures false false true true true true
  else mkFeatures false false false false false false.

(** * Feature detection *)

Definition supportsThreadPinning (mc : macros) : bool :=
  if linux mc then true
  else if APPLE mc then false
  else if WIN32 mc || WIN64 mc then true
  else false.

Definition supportsRealTimePriority (mc : macros) (h : host) : bool :=
  if linux mc then uid h =? 0
  else if APPLE mc then false
  else if WIN32 mc || WIN64 mc then true
  else false.

Definition supportsHugePages (mc : macros) (h : host) : bool :=
  if linux mc then hugepages h
  else if APPLE mc then false
  else if WIN32 mc || WIN64 mc then true
  else false.

(** [line.find(pat) != std::string::npos] *)
Definition contains (pat line : bytes) : bool :=
  match search pat line with Some _ => true | None => false end.

Definition container_line (line : bytes) : bool :=
  contains (str "docker") line || contains (str "containerd") line ||
  contains (str "kubepods") line.

Definition isContainerEnvironment (h : host) : bool :=
  if dockerenv h then true
  else if match cgroup h with Some ls => existsb container_line ls | None => false end then true
  else if env h (str "CONTAINER") || env h (str "DOCKER_CONTAINER") ||
          env h (str "KUBERNETES_SERVICE_HOST") then true
  else false.

(** * System information *)

Definition getNumberOfCores (h : host) : Z := wrap32 (hardware_concurrency h).

Definition getKernelVersion (h : host) : bytes :=
  match uname h with Some (_, release) => release | None => str "Unknown" end.

(** [s.substr(pos, n)]: [std::out_of_range] when [pos > s.size()]; [n] is a
    [size_t]. *)
Definition substr {St} (s : bytes) (pos n : Z) : M St bytes :=
  if Z.of_nat (length s) <? pos then throw
  else ret (take (Z.to_nat (Z.min n (Z.of_nat (length s) - pos))) (drop (Z.to_nat pos) s)).

Definition PRETTY_NAME : bytes := str "PRETTY_NAME=".

(** The loop over the lines of [/etc/os-release]. *)
Fixpoint pretty_name {St} (ls : list bytes) : M St (option bytes) :=
  match ls with
  | [] => ret None
  | line :: ls =>
      if bool_decide (search PRETTY_NAME line = Some O) then
        r <-- substr line 13 (u64 (Z.of_nat (length line) - 14)) ;; ret (Some r)
      else pretty_name ls
  end.

Definition uname_text (h : host) : bytes :=
  match uname h with
  | Some (sysname, release) => sysname ++ str " " ++ release
  | None => str "Unknown"
  end.

Definition getDistributionInfo {St} (mc : macros) (h : host) : M St bytes :=
  if linux mc then
    r <-- match osrelease h with Some ls => pretty_name ls | None => ret None end ;;
    match r with
    | Some name => ret name
    | None => ret (uname_text h)
    end
  else if APPLE mc then ret (uname_text h)
  else ret (str "Unknown").

Definition version_text (name : bytes) (v : Z * Z * Z) : bytes :=
  let '(major, minor, patch) := v in
  name ++ to_string major ++ str "." ++ to_string minor ++ str "." ++ to_string patch.
Definition getCompilerVersion (mc : macros) : bytes :=
  match GNUC mc with
  | Some g =>
      match clang mc with
      | Some c => version_text (str "Clang ") c
      | None => version_text (str "GCC ") g
      end
  | None =>
      match MSC_VER mc with
      | Some v => str "MSVC " ++ to_string v
      | None => str "Unknown"
      end
  end.

(** * Reports *)

Record PlatformInfo := mkInfo {
  platform : PlatformType;
  architecture : ArchitectureType;
  compiler : CompilerType;
  platform_name : bytes;
  arch_name : bytes;
  compiler_name : bytes;
  compiler_version : bytes;
  supports_thread_pinning : bool;
  supports_real_time_priority : bool;
  supports_huge_pages : bool;
  is_container_environment : bool
}.

Definition detectPlatform (mc : macros) (h : host) : PlatformInfo :=
  let p := getCompileTimePlatform mc in
  let a := getCompileTimeArchitecture mc in
  let c := getCompileTimeCompiler mc in
  mkInfo p a c (platformToString p) (architectureToString a) (compilerToString c)
    (getCompilerVersion mc) (supportsThreadPinning mc) (supportsRealTimePriority mc h)
    (supportsHugePages mc h) (isContainerEnvironment h).
Definition getRuntimePlatformInfo := detectPlatform.

Definition bool_text (b : bool) : bytes := if b then str "true" else str "false".

(** [exportPlatformInfo]: a [std::map]. *)
Definition exportPlatformInfo {St} (mc : macros) (h : host) : M St (gmap bytes bytes) :=
  let info := detectPlatform mc h in
  distribution <-- getDistributionInfo mc h ;;
  ret (list_to_map
    [(str "platform", platform_name info);
     (str "architecture", arch_name info);
     (str "compiler", compiler_name info);
     (str "compiler_version", compiler_version info);
     (str "kernel_version", getKernelVersion h);
     (str "distribution", distribution);
     (str "cpu_cores", to_string (getNumberOfCores h));
     (str "supports_thread_pinning", bool_text (supports_thread_pinning info));
     (str "supports_real_time_priority", bool_text (supports_real_time_priority info));
     (str "supports_huge_pages", bool_text (supports_huge_pages info));
     (str "is_container_environment", bool_text (is_container_environment info))]).

(** The standard output as the state: [std::cout << text << std::endl]. *)
Definition print_line (text : bytes) : M bytes unit := modify (fun out => out ++ text ++ [10]).
Definition yes_no (b : bool) : bytes := if b then str "✅ Yes" else str "❌ No".
Definition defined_text (b : bool) : bytes := if b then str "defined" else str "undefined".

Definition printCompileTimeInfo (mc : macros) : M bytes unit :=
  let f := features mc in
  print_line (str "📋 COMPILE-TIME DETECTION:") ;;;
  print_line (str "   Platform: " ++ platformToString (getCompileTimePlatform mc)) ;;;
  print_line (str "   Architecture: " ++ architectureToString (getCompileTimeArchitecture mc)) ;;;
  print_line (str "   Compiler: " ++ compilerToString (getCompileTimeCompiler mc)) ;;;
  print_line (str "🔧 FEATURE SUPPORT (Compile-time):") ;;;
  print_line (str "   Thread Pinning: " ++ yes_no (HAS_THREAD_AFFINITY f)) ;;;
  print_line (str "   Real-time Priority: " ++ yes_no (HAS_REAL_TIME_PRIORITY f)) ;;;
  print_line (str "   Huge Pages: " ++ yes_no (HAS_HUGE_PAGES f)) ;;;
  print_line (str "🏗️ PREPROCESSOR MACROS:") ;;;
  print_line (str "   __APPLE__: " ++ defined_text (PLATFORM_MACOS f)) ;;;
  print_line (str "   __linux__: " ++ defined_text (PLATFORM_LINUX f)) ;;;
  print_line (str "   _WIN32/_WIN64: " ++ defined_text (PLATFORM_WINDOWS f)).

Definition printRuntimeInfo (mc : macros) (h : host) : M bytes unit :=
  let info := detectPlatform mc h in
  print_line (str "🚀 RUNTIME DETECTION:") ;;;
  print_line (str "   Platform: " ++ platform_name info) ;;;
  print_line (str "   Architecture: " ++ arch_name info) ;;;
  print_line (str "   Compiler: " ++ compiler_name info ++ str " (" ++ compiler_version info ++ str ")") ;;;
  print_line (str "   Kernel: " ++ getKernelVersion h) ;;;
  modify (fun out => out ++ str "   Distribution: ") ;;;
  distribution <-- getDistributionInfo mc h ;;
  print_line distribution ;;;
  print_line (str "   CPU Cores: " ++ to_string (getNumberOfCores h)) ;;;
  print_line (str "⚙️ FEATURE SUPPORT (Runtime):") ;;;
  print_line (str "   Thread Pinning: " ++ yes_no (supports_thread_pinning info)) ;;;
  print_line (str "   Real-time Priority: " ++ yes_no (supports_real_time_priority info)) ;;;
  print_line (str "   Huge Pages: " ++ yes_no (supports_huge_pages info)) ;;;
  print_line (str "   Container Environment: " ++ yes_no (is_container_environment info)).

Definition printPlatformInfo (mc : macros) (h : host) : M bytes unit :=
  print_line (str "=== Platform Detection Information ===") ;;;
  printCompileTimeInfo mc ;;;
  print_line [] ;;;
  printRuntimeInfo mc h.

(** * Lemmas *)

Lemma isContainerEnvironment_spec h :
  isContainerEnvironment h = true <->
  dockerenv h = true \/
  (exists ls line, cgroup h = Some ls /\ line ∈ ls /\ container_line line = true) \/
  env h (str "CONTAINER") = true \/ env h (str "DOCKER_CONTAINER") = true \/
  env h (str "KUBERNETES_SERVICE_HOST") = true.
Proof.
  unfold isContainerEnvironment. destruct (dockerenv h); [by split; [left|]|].
  destruct (env h (str "CONTAINER")), (env h (str "DOCKER_CONTAINER")),
    (env h (str "KUBERNETES_SERVICE_HOST")); simpl;
    try (by split; [intros _; do 2 right; auto|by destruct (match cgroup h with Some _ => _ | None => _ end)]).
  destruct (cgroup h) as [ls|]; [|naive_solver].
  destruct (existsb container_line ls) eqn:E.
  - apply existsb_exists in E as (line & Hin & Hl). split; [|done]. intros _. right. left.
    exists ls, line. split_and!; [done| |done]. by apply list_elem_of_In.
  - split; [done|]. intros [?|[(ls' & line & ? & Hin & Hl)|?]]; [done| |naive_solver]. simplify_eq.
    apply not_true_iff_false in E. destruct E. apply existsb_exists.
    exists line. split; [by apply list_elem_of_In|done].
Qed.

(** The header's feature macros and the run-time answers agree on thread pinning,
    for any compiler that does not claim to target two systems at once. *)
Lemma pinning_macro_agrees mc :
  ~ (APPLE mc = true /\ linux mc = true) ->
  HAS_THREAD_AFFINITY (features mc) = supportsThreadPinning mc.
Proof.
  intros H. unfold features, supportsThreadPinning.
  destruct (APPLE mc), (linux mc), (WIN32 mc || WIN64 mc); try done; by destruct H.
Qed.

(** The name without its first and last character (the quotes of a quoted one). *)
Definition unquote (value : bytes) : bytes := take (length value - 2) (drop 1 value).

Lemma substr_pretty {St} (value : bytes) (s : St) :
  Z.of_nat (length value) < 2 ^ 60 ->
  substr (PRETTY_NAME ++ value) 13 (u64 (Z.of_nat (length (PRETTY_NAME ++ value)) - 14)) s =
    match value with [] => (Throw, s) | _ => (Ret (unquote value), s) end.
Proof.
  intros Hlen. unfold substr, unquote. rewrite length_app. change (length PRETTY_NAME) with 12%nat.
  destruct value as [|c value]; [done|]. cbn [length] in *.
  rewrite (proj2 (Z.ltb_ge (Z.of_nat (12 + S (length value))) 13)) by lia. unfold ret.
  change (drop (Z.to_nat 13) (PRETTY_NAME ++ c :: value)) with value.
  change (drop 1 (c :: value)) with value. do 3 f_equal.
  destruct (length value) as [|k]; [done|].
  unfold u64. rewrite Z.mod_small by lia. lia.
Qed.

Lemma pretty_name_skip {St} pre ls (s : St) :
  Forall (fun l => search PRETTY_NAME l <> Some O) pre ->
  pretty_name (pre ++ ls) s = pretty_name ls s.
Proof.
  induction 1 as [|l pre Hl _ IH]; [done|]. simpl. by rewrite bool_decide_eq_false_2.
Qed.

(** * Properties *)

(** The distribution name.  On Linux the first line of [/etc/os-release]
    that starts with [PRETTY_NAME=] decides: the name is the value without its
    first and last character, so a quoted value gives the text between the
    quotes; a line with nothing after the equals sign makes the function (and
    the exporting and printing functions that call it) throw
    [std::out_of_range]; without such a line the answer is [uname]'s. *)
Lemma distribution_name_exact {St} mc h pre value post (s : St) out :
  linux mc = true ->
  Forall (fun l => search PRETTY_NAME l <> Some O) pre ->
  Z.of_nat (length value) < 2 ^ 60 ->
  (osrelease h = Some (pre ++ (PRETTY_NAME ++ value) :: post) ->
     fst (getDistributionInfo mc h s) =
       match value with [] => Throw | _ => Ret (unquote value) end /\
     (forall name q, value = q :: name ++ [q] -> fst (getDistributionInfo mc h s) = Ret name) /\
     (value = [] -> fst (exportPlatformInfo mc h s) = Throw /\ fst (printPlatformInfo mc h out) = Throw)) /\
  (osrelease h = Some pre \/ osrelease h = None ->
     fst (getDistributionInfo mc h s) = Ret (uname_text h)).
Proof.
  intros Hl Hpre Hlen. split.
  - intros Ho.
    assert (forall St' (s' : St'), getDistributionInfo mc h s' =
      match value with [] => (Throw, s') | _ => (Ret (unquote value), s') end) as E.
    { intros St' s'. unfold getDistributionInfo. rewrite Hl, Ho. unfold bind at 1.
      rewrite pretty_name_skip by done. cbn [pretty_name].
      rewrite bool_decide_eq_true_2 by apply search_prefix. unfold bind.
      rewrite substr_pretty by done. by destruct value. }
    rewrite E. split_and!.
    + by destruct value.
    + intros name q ->. simpl. unfold unquote. simpl. rewrite length_app. simpl.
      rewrite drop_0. replace (_ - _)%nat with (length name) by lia. by rewrite take_app_length.
    + intros ->. split; [unfold exportPlatformInfo, bind; by rewrite E|].
      unfold printPlatformInfo, printRuntimeInfo, printCompileTimeInfo, print_line, modify, bind.
      cbn -[getDistributionInfo str]. by rewrite E.
  - intros Ho. unfold getDistributionInfo. rewrite Hl.
    destruct Ho as [Ho|Ho]; rewrite Ho; [|done].
    unfold bind. rewrite <- (app_nil_r pre), pretty_name_skip by done. done.
Qed.

(** A Linux host whose [/etc/os-release] has the given lines. *)
Definition linux_macros : macros :=
  {| APPLE := false; linux := true; WIN32 := false; WIN64 := false; FreeBSD := false;
     x86_64 := true; M_X64 := false; aarch64 := false; M_ARM64 := false; i386 := false;
     M_IX86 := false; arm := false; M_ARM := false; GNUC := Some (13, 2, 0); clang := None;
     MSC_VER := None |}.
Definition linux_host (ls : list bytes) : host :=
  {| hugepages := true; dockerenv := false; cgroup := None; osrelease := Some ls;
     env := fun _ => false; uname := Some (str "Linux", str "6.1"); uid := 1000;
     hardware_concurrency := 8 |}.

Lemma distribution_name_exact_witness :
  fst (getDistributionInfo linux_macros
         (linux_host [str "ID=debian"; str "PRETTY_NAME='Debian 12'"]) tt) = Ret (str "Debian 12") /\
  fst (exportPlatformInfo linux_macros (linux_host [str "PRETTY_NAME="]) tt) = Throw.
Proof.
  split.
  - apply (distribution_name_exact linux_macros
             (linux_host [str "ID=debian"; str "PRETTY_NAME='Debian 12'"])
             [str "ID=debian"] (str "'Debian 12'") [] tt []) with (q := 39);
      [done|repeat constructor; done|done|done|done].
  - apply (distribution_name_exact linux_macros (linux_host [str "PRETTY_NAME="])
             [] [] [] tt []); [done|constructor|done|done|done].
Defined.
