(* ===== verification/ParserState.v ===== *)
(** The data of [protocol::StreamFixParser] ([stream_fix_parser.h]) and the
    operations on it that parse no bytes: the enumerations, [ParseResult],
    [ParserStats], [ParseContext], the members of the class, the state transition
    table, the error statistics and the circuit breaker.

    All parser routines run in the monad [P] over a [World]: the parser object, the
    message pool it points to, and the number of clock readings so far.  The clock is
    an arbitrary sequence of readings.  [error_detail] texts are left out: no code
    branches on them. *)
From S2P Require Import Prelude FixFields MessagePool FixMessage.

(** [enum class ParseState] *)
Inductive ParseState :=
  | IDLE
  | PARSING_BEGIN_STRING
  | PARSING_BODY_LENGTH
  | PARSING_TAG
  | EXPECTING_EQUALS
  | PARSING_VALUE
  | EXPECTING_SOH
  | PARSING_CHECKSUM
  | MESSAGE_COMPLETE
  | ERROR_RECOVERY
  | CORRUPTED_SKIP.

#[export] Instance ParseState_eq_dec : EqDecision ParseState.
Proof. solve_decision. Defined.

(** [enum class ParseStatus] *)
Inductive ParseStatus :=
  | Success
  | NeedMoreData
  | FinishedParsingFields
  | InvalidFormat
  | ChecksumError
  | AllocationFailed
  | MessageTooLarge
  | UnsupportedVersion
  | StateTransitionError
  | FieldParseError
  | RecoverySuccess
  | CorruptedData.

#[export] Instance ParseStatus_eq_dec : EqDecision ParseStatus.
Proof. solve_decision. Defined.

(** The two enumerations are keys of [std::map]s: their values. *)
Definition state_code (s : ParseState) : nat :=
  match s with
  | IDLE => 0 | PARSING_BEGIN_STRING => 1 | PARSING_BODY_LENGTH => 2 | PARSING_TAG => 3
  | EXPECTING_EQUALS => 4 | PARSING_VALUE => 5 | EXPECTING_SOH => 6 | PARSING_CHECKSUM => 7
  | MESSAGE_COMPLETE => 8 | ERROR_RECOVERY => 9 | CORRUPTED_SKIP => 10
  end.
Definition state_decode (n : nat) : ParseState :=
  match n with
  | 0 => IDLE | 1 => PARSING_BEGIN_STRING | 2 => PARSING_BODY_LENGTH | 3 => PARSING_TAG
  | 4 => EXPECTING_EQUALS | 5 => PARSING_VALUE | 6 => EXPECTING_SOH | 7 => PARSING_CHECKSUM
  | 8 => MESSAGE_COMPLETE | 9 => ERROR_RECOVERY | _ => CORRUPTED_SKIP
  end%nat.
#[export] Instance ParseState_countable : Countable ParseState.
Proof. apply (inj_countable' state_code state_decode). by intros []. Defined.

Definition status_code (s : ParseStatus) : nat :=
  match s with
  | Success => 0 | NeedMoreData => 1 | FinishedParsingFields => 2 | InvalidFormat => 3
  | ChecksumError => 4 | AllocationFailed => 5 | MessageTooLarge => 6
  | UnsupportedVersion => 7 | StateTransitionError => 8 | FieldParseError => 9
  | RecoverySuccess => 10 | CorruptedData => 11
  end.
Definition status_decode (n : nat) : ParseStatus :=
  match n with
  | 0 => Success | 1 => NeedMoreData | 2 => FinishedParsingFields | 3 => InvalidFormat
  | 4 => ChecksumError | 5 => AllocationFailed | 6 => MessageTooLarge
  | 7 => UnsupportedVersion | 8 => StateTransitionError | 9 => FieldParseError
  | 10 => RecoverySuccess | _ => CorruptedData
  end%nat.
#[export] Instance ParseStatus_countable : Countable ParseStatus.
Proof. apply (inj_countable' status_code status_decode). by intros []. Defined.

(** [struct ParseResult]; a [nullptr] message is [None]. *)
Record ParseResult := mkResult {
  status : ParseStatus;
  bytes_consumed : Z;
  parsed_message : option Z;
  final_state : ParseState;
  error_position : Z
}.

(** [size_t] arithmetic wraps. *)
Definition size_t (z : Z) : Z := z mod 18446744073709551616.

(** [struct ParserStats] *)
Record ParserStats := {
  messages_parsed : Z;
  parse_errors : Z;
  checksum_errors : Z;
  allocation_failures : Z;
  total_parse_time_ns : Z;
  max_parse_time_ns : Z;
  min_parse_time_ns : Z;
  state_transitions : Z;
  partial_messages_handled : Z;
  error_recoveries : Z;
  corrupted_data_skipped : Z;
  field_parse_errors : Z;
  errors_by_state : gmap ParseState Z;
  error_frequency : gmap ParseStatus Z
}.

(** The initial statistics, also [ParserStats::reset]. *)
Definition stats_reset : ParserStats :=
  {| messages_parsed := 0; parse_errors := 0; checksum_errors := 0; allocation_failures := 0;
     total_parse_time_ns := 0; max_parse_time_ns := 0;
     min_parse_time_ns := 18446744073709551615;
     state_transitions := 0; partial_messages_handled := 0; error_recoveries := 0;
     corrupted_data_skipped := 0; field_parse_errors := 0;
     errors_by_state := ∅; error_frequency := ∅ |}.

(** [struct ParseContext] *)
Record ParseContext := {
  current_state : ParseState;
  buffer_position : Z;
  message_start_pos : Z;
  expected_body_length : Z;
  current_message_length : Z;
  msg_type : bytes;
  current_field_tag : Z;
  partial_field_value : bytes;
  field_start_position : Z;
  parsed_fields : list (Z * bytes);
  total_body_bytes_parsed : Z;
  error_count_in_session : Z;
  consecutive_errors : Z;
  last_error_time : Z
}.

(** [ParseContext::reset]: the error tracking stays. *)
Definition context_reset (c : ParseContext) : ParseContext :=
  {| current_state := IDLE; buffer_position := 0; message_start_pos := 0;
     expected_body_length := 0; current_message_length := 0; msg_type := [];
     current_field_tag := 0; partial_field_value := []; field_start_position := 0;
     parsed_fields := []; total_body_bytes_parsed := 0;
     error_count_in_session := error_count_in_session c;
     consecutive_errors := consecutive_errors c; last_error_time := last_error_time c |}.

Definition set_state (s : ParseState) (c : ParseContext) : ParseContext :=
  {| current_state := s; buffer_position := buffer_position c;
     message_start_pos := message_start_pos c;
     expected_body_length := expected_body_length c;
     current_message_length := current_message_length c; msg_type := msg_type c;
     current_field_tag := current_field_tag c; partial_field_value := partial_field_value c;
     field_start_position := field_start_position c; parsed_fields := parsed_fields c;
     total_body_bytes_parsed := total_body_bytes_parsed c;
     error_count_in_session := error_count_in_session c;
     consecutive_errors := consecutive_errors c; last_error_time := last_error_time c |}.

Definition set_body_length (n : Z) (c : ParseContext) : ParseContext :=
  {| current_state := current_state c; buffer_position := buffer_position c;
     message_start_pos := message_start_pos c; expected_body_length := n;
     current_message_length := current_message_length c; msg_type := msg_type c;
     current_field_tag := current_field_tag c; partial_field_value := partial_field_value c;
     field_start_position := field_start_position c; parsed_fields := parsed_fields c;
     total_body_bytes_parsed := total_body_bytes_parsed c;
     error_count_in_session := error_count_in_session c;
     consecutive_errors := consecutive_errors c; last_error_time := last_error_time c |}.

(** The three error-tracking members. *)
Definition set_errors (session consecutive time : Z) (c : ParseContext) : ParseContext :=
  {| current_state := current_state c; buffer_position := buffer_position c;
     message_start_pos := message_start_pos c;
     expected_body_length := expected_body_length c;
     current_message_length := current_message_length c; msg_type := msg_type c;
     current_field_tag := current_field_tag c; partial_field_value := partial_field_value c;
     field_start_position := field_start_position c; parsed_fields := parsed_fields c;
     total_body_bytes_parsed := total_body_bytes_parsed c;
     error_count_in_session := session; consecutive_errors := consecutive;
     last_error_time := time |}.

(** The members of the class.  [partial_buffer_] holds the bytes written to the
    array so far: what lies behind them is uninitialised. *)
Record StreamFixParser := {
  max_message_size_ : Z;
  validate_checksum_ : bool;
  strict_validation_ : bool;
  max_consecutive_errors_ : Z;
  error_recovery_enabled_ : bool;
  error_recovery_timeout_ : Z;
  partial_buffer_ : bytes;
  partial_buffer_size_ : nat;
  stats_ : ParserStats;
  parse_start_time_ : Z;
  parse_context_ : ParseContext;
  circuit_breaker_last_reset_ : Z;
  circuit_breaker_active_ : bool
}.

Definition PARTIAL_BUFFER_SIZE : Z := 65536.

(** The constructor, with a pool; it reads the clock for [now]. *)
Definition newParser (now : Z) : StreamFixParser :=
  {| max_message_size_ := 8192; validate_checksum_ := true; strict_validation_ := true;
     max_consecutive_errors_ := 10; error_recovery_enabled_ := true;
     error_recovery_timeout_ := 1000; partial_buffer_ := []; partial_buffer_size_ := 0;
     stats_ := stats_reset; parse_start_time_ := 0;
     parse_context_ := context_reset
       {| current_state := IDLE; buffer_position := 0; message_start_pos := 0;
          expected_body_length := 0; current_message_length := 0; msg_type := [];
          current_field_tag := 0; partial_field_value := []; field_start_position := 0;
          parsed_fields := []; total_body_bytes_parsed := 0; error_count_in_session := 0;
          consecutive_errors := 0; last_error_time := 0 |};
     circuit_breaker_last_reset_ := now; circuit_breaker_active_ := false |}.

Definition with_stats (f : ParserStats -> ParserStats) (p : StreamFixParser)
    : StreamFixParser :=
  {| max_message_size_ := max_message_size_ p; validate_checksum_ := validate_checksum_ p;
     strict_validation_ := strict_validation_ p;
     max_consecutive_errors_ := max_consecutive_errors_ p;
     error_recovery_enabled_ := error_recovery_enabled_ p;
     error_recovery_timeout_ := error_recovery_timeout_ p;
     partial_buffer_ := partial_buffer_ p; partial_buffer_size_ := partial_buffer_size_ p;
     stats_ := f (stats_ p); parse_start_time_ := parse_start_time_ p;
     parse_context_ := parse_context_ p;
     circuit_breaker_last_reset_ := circuit_breaker_last_reset_ p;
     circuit_breaker_active_ := circuit_breaker_active_ p |}.

Definition with_context (f : ParseContext -> ParseContext) (p : StreamFixParser)
    : StreamFixParser :=
  {| max_message_size_ := max_message_size_ p; validate_checksum_ := validate_checksum_ p;
     strict_validation_ := strict_validation_ p;
     max_consecutive_errors_ := max_consecutive_errors_ p;
     error_recovery_enabled_ := error_recovery_enabled_ p;
     error_recovery_timeout_ := error_recovery_timeout_ p;
     partial_buffer_ := partial_buffer_ p; partial_buffer_size_ := partial_buffer_size_ p;
     stats_ := stats_ p; parse_start_time_ := parse_start_time_ p;
     parse_context_ := f (parse_context_ p);
     circuit_breaker_last_reset_ := circuit_breaker_last_reset_ p;
     circuit_breaker_active_ := circuit_breaker_active_ p |}.

Definition with_partial (b : bytes) (n : nat) (p : StreamFixParser) : StreamFixParser :=
  {| max_message_size_ := max_message_size_ p; validate_checksum_ := validate_checksum_ p;
     strict_validation_ := strict_validation_ p;
     max_consecutive_errors_ := max_consecutive_errors_ p;
     error_recovery_enabled_ := error_recovery_enabled_ p;
     error_recovery_timeout_ := error_recovery_timeout_ p;
     partial_buffer_ := b; partial_buffer_size_ := n;
     stats_ := stats_ p; parse_start_time_ := parse_start_time_ p;
     parse_context_ := parse_context_ p;
     circuit_breaker_last_reset_ := circuit_breaker_last_reset_ p;
     circuit_breaker_active_ := circuit_breaker_active_ p |}.

Definition with_start_time (t : Z) (p : StreamFixParser) : StreamFixParser :=
  {| max_message_size_ := max_message_size_ p; validate_checksum_ := validate_checksum_ p;
     strict_validation_ := strict_validation_ p;
     max_consecutive_errors_ := max_consecutive_errors_ p;
     error_recovery_enabled_ := error_recovery_enabled_ p;
     error_recovery_timeout_ := error_recovery_timeout_ p;
     partial_buffer_ := partial_buffer_ p; partial_buffer_size_ := partial_buffer_size_ p;
     stats_ := stats_ p; parse_start_time_ := t; parse_context_ := parse_context_ p;
     circuit_breaker_last_reset_ := circuit_breaker_last_reset_ p;
     circuit_breaker_active_ := circuit_breaker_active_ p |}.

Definition with_breaker (active : bool) (last_reset : Z) (p : StreamFixParser)
    : StreamFixParser :=
  {| max_message_size_ := max_message_size_ p; validate_checksum_ := validate_checksum_ p;
     strict_validation_ := strict_validation_ p;
     max_consecutive_errors_ := max_consecutive_errors_ p;
     error_recovery_enabled_ := error_recovery_enabled_ p;
     error_recovery_timeout_ := error_recovery_timeout_ p;
     partial_buffer_ := partial_buffer_ p; partial_buffer_size_ := partial_buffer_size_ p;
     stats_ := stats_ p; parse_start_time_ := parse_start_time_ p;
     parse_context_ := parse_context_ p; circuit_breaker_last_reset_ := last_reset;
     circuit_breaker_active_ := active |}.

(** The members that configure the parser *)
Definition configure (max_size : Z) (validate strict : bool) (max_errors : Z)
    (recovery : bool) (timeout : Z) (p : StreamFixParser) : StreamFixParser :=
  {| max_message_size_ := max_size; validate_checksum_ := validate;
     strict_validation_ := strict; max_consecutive_errors_ := max_errors;
     error_recovery_enabled_ := recovery; error_recovery_timeout_ := timeout;
     partial_buffer_ := partial_buffer_ p; partial_buffer_size_ := partial_buffer_size_ p;
     stats_ := stats_ p; parse_start_time_ := parse_start_time_ p;
     parse_context_ := parse_context_ p;
     circuit_breaker_last_reset_ := circuit_breaker_last_reset_ p;
     circuit_breaker_active_ := circuit_breaker_active_ p |}.

(** The setters *)
Definition setMaxMessageSize (max_size : Z) (p : StreamFixParser) : StreamFixParser :=
  configure max_size (validate_checksum_ p) (strict_validation_ p) (max_consecutive_errors_ p) (error_recovery_enabled_ p) (error_recovery_timeout_ p) p.
Definition setValidateChecksum (validate : bool) (p : StreamFixParser) : StreamFixParser :=
  configure (max_message_size_ p) validate (strict_validation_ p) (max_consecutive_errors_ p) (error_recovery_enabled_ p) (error_recovery_timeout_ p) p.
Definition setStrictValidation (strict : bool) (p : StreamFixParser) : StreamFixParser :=
  configure (max_message_size_ p) (validate_checksum_ p) strict (max_consecutive_errors_ p) (error_recovery_enabled_ p) (error_recovery_timeout_ p) p.
Definition setMaxConsecutiveErrors (max_errors : Z) (p : StreamFixParser) : StreamFixParser :=
  configure (max_message_size_ p) (validate_checksum_ p) (strict_validation_ p) max_errors (error_recovery_enabled_ p) (error_recovery_timeout_ p) p.
Definition setErrorRecoveryEnabled (enabled : bool) (p : StreamFixParser) : StreamFixParser :=
  configure (max_message_size_ p) (validate_checksum_ p) (strict_validation_ p) (max_consecutive_errors_ p) enabled (error_recovery_timeout_ p) p.
Definition setErrorRecoveryTimeout (timeout : Z) (p : StreamFixParser) : StreamFixParser :=
  configure (max_message_size_ p) (validate_checksum_ p) (strict_validation_ p) (max_consecutive_errors_ p) (error_recovery_enabled_ p) timeout p.

(** [hasPartialMessage] *)
Definition hasPartialMessage (p : StreamFixParser) : bool :=
  (0 <? Z.of_nat (partial_buffer_size_ p)) ||
  negb (bool_decide (current_state (parse_context_ p) = IDLE)).

(** * The state and the monad *)

Record World := mkWorld {
  w_parser : StreamFixParser;
  w_pool : FixMessagePool;
  w_ticks : nat
}.

Abbreviation P := (M World).

Definition get_parser : P StreamFixParser := fun w => (Ret (w_parser w), w).
Definition update_parser (f : StreamFixParser -> StreamFixParser) : P unit :=
  fun w => (Ret tt, mkWorld (f (w_parser w)) (w_pool w) (w_ticks w)).

(** [message_pool_->deallocate(message)] *)
Definition pool_deallocate (msg : Z) : P unit :=
  fun w => (Ret tt, mkWorld (w_parser w) (deallocate (Some msg) (w_pool w)) (w_ticks w)).
(** [message->setField(tag, value)] *)
Definition msg_setField (msg tag : Z) (value : bytes) : P unit :=
  fun w => (Ret tt, mkWorld (w_parser w) (update_object (setField tag value) msg (w_pool w))
                     (w_ticks w)).
(** [message->hasField(tag)] *)
Definition msg_hasField (msg tag : Z) : P bool :=
  fun w => match deref (w_pool w) msg with
           | Some m => (Ret (hasField tag m), w)
           | None => (Ub, w)
           end.

Section Clocked.
(** The readings of the clocks, in the order of the calls. *)
Variable clock : nat -> Z.

Definition now : P Z :=
  fun w => (Ret (clock (w_ticks w)), mkWorld (w_parser w) (w_pool w) (S (w_ticks w))).

(** [message_pool_->allocate()]: the constructor of the message reads the clock. *)
Definition pool_allocate : P (option Z) :=
  fun w =>
    let '(r, pool) := allocate (newFixMessage (clock (w_ticks w))) (w_pool w) in
    (Ret r, mkWorld (w_parser w) pool (S (w_ticks w))).

(** * Statistics *)

(** [updateStats] *)
Definition updateStats (st : ParseStatus) (parse_time_ns : Z) (s : ParserStats) : ParserStats :=
  match st with
  | Success =>
      {| messages_parsed := messages_parsed s + 1; parse_errors := parse_errors s;
         checksum_errors := checksum_errors s; allocation_failures := allocation_failures s;
         total_parse_time_ns := size_t (total_parse_time_ns s + parse_time_ns);
         max_parse_time_ns := Z.max (max_parse_time_ns s) parse_time_ns;
         min_parse_time_ns := Z.min (min_parse_time_ns s) parse_time_ns;
         state_transitions := state_transitions s;
         partial_messages_handled := partial_messages_handled s;
         error_recoveries := error_recoveries s;
         corrupted_data_skipped := corrupted_data_skipped s;
         field_parse_errors := field_parse_errors s;
         errors_by_state := errors_by_state s; error_frequency := error_frequency s |}
  | _ =>
      {| messages_parsed := messages_parsed s; parse_errors := parse_errors s + 1;
         checksum_errors := checksum_errors s + (if decide (st = ChecksumError) then 1 else 0);
         allocation_failures :=
           allocation_failures s + (if decide (st = AllocationFailed) then 1 else 0);
         total_parse_time_ns := total_parse_time_ns s;
         max_parse_time_ns := max_parse_time_ns s; min_parse_time_ns := min_parse_time_ns s;
         state_transitions := state_transitions s;
         partial_messages_handled := partial_messages_handled s;
         error_recoveries := error_recoveries s;
         corrupted_data_skipped := corrupted_data_skipped s;
         field_parse_errors := field_parse_errors s;
         errors_by_state := errors_by_state s; error_frequency := error_frequency s |}
  end.

(** The counters of [updateErrorStats]. *)
Definition error_counters (st : ParseStatus) (ps : ParseState) (s : ParserStats) : ParserStats :=
  {| messages_parsed := messages_parsed s;
     parse_errors := parse_errors s +
       match st with FieldParseError | ChecksumError | AllocationFailed => 0 | _ => 1 end;
     checksum_errors := checksum_errors s + match st with ChecksumError => 1 | _ => 0 end;
     allocation_failures :=
       allocation_failures s + match st with AllocationFailed => 1 | _ => 0 end;
     total_parse_time_ns := total_parse_time_ns s; max_parse_time_ns := max_parse_time_ns s;
     min_parse_time_ns := min_parse_time_ns s; state_transitions := state_transitions s;
     partial_messages_handled := partial_messages_handled s;
     error_recoveries := error_recoveries s;
     corrupted_data_skipped := corrupted_data_skipped s;
     field_parse_errors :=
       field_parse_errors s + match st with FieldParseError => 1 | _ => 0 end;
     errors_by_state := <[ps := default 0 (errors_by_state s !! ps) + 1]> (errors_by_state s);
     error_frequency := <[st := default 0 (error_frequency s !! st) + 1]> (error_frequency s) |}.

(** The counters that grow one at a time: [recordStateTransition],
    [recordPartialMessageHandled], the recoveries and the skipped bytes. *)
Definition add_counters (transitions partials recoveries skipped : Z) (s : ParserStats)
    : ParserStats :=
  {| messages_parsed := messages_parsed s; parse_errors := parse_errors s;
     checksum_errors := checksum_errors s; allocation_failures := allocation_failures s;
     total_parse_time_ns := total_parse_time_ns s; max_parse_time_ns := max_parse_time_ns s;
     min_parse_time_ns := min_parse_time_ns s;
     state_transitions := state_transitions s + transitions;
     partial_messages_handled := partial_messages_handled s + partials;
     error_recoveries := error_recoveries s + recoveries;
     corrupted_data_skipped := corrupted_data_skipped s + skipped;
     field_parse_errors := field_parse_errors s;
     errors_by_state := errors_by_state s; error_frequency := error_frequency s |}.

(** [updateErrorStats] *)
Definition updateErrorStats (st : ParseStatus) (ps : ParseState) : P unit :=
  t <-- now ;;
  update_parser (fun p =>
    with_context (fun c => set_errors (error_count_in_session c + 1) (consecutive_errors c + 1) t c)
      (with_stats (error_counters st ps) p)).

(** [recordErrorRecovery] *)
Definition recordErrorRecovery (successful : bool) : P unit :=
  if successful then
    update_parser (fun p =>
      with_context (fun c => set_errors (error_count_in_session c) 0 (last_error_time c) c)
        (with_stats (add_counters 0 0 1 0) p))
  else ret tt.

(** [recordStateTransition], also [updateStateStatistics] *)
Definition recordStateTransition : P unit := update_parser (with_stats (add_counters 1 0 0 0)).
(** [recordPartialMessageHandled] *)
Definition recordPartialMessageHandled : P unit :=
  update_parser (with_stats (add_counters 0 1 0 0)).

(** * State transitions *)

(** [isValidStateTransition] *)
Definition isValidStateTransition (from to : ParseState) : bool :=
  match from with
  | IDLE =>
      bool_decide (to = PARSING_BEGIN_STRING \/ to = PARSING_BODY_LENGTH \/ to = ERROR_RECOVERY)
  | PARSING_BEGIN_STRING => bool_decide (to = PARSING_BODY_LENGTH \/ to = ERROR_RECOVERY)
  | PARSING_BODY_LENGTH => bool_decide (to = PARSING_TAG \/ to = ERROR_RECOVERY)
  | PARSING_TAG => bool_decide (to = EXPECTING_EQUALS \/ to = ERROR_RECOVERY)
  | EXPECTING_EQUALS => bool_decide (to = PARSING_VALUE \/ to = ERROR_RECOVERY)
  | PARSING_VALUE => bool_decide (to = EXPECTING_SOH \/ to = ERROR_RECOVERY)
  | EXPECTING_SOH =>
      bool_decide (to = PARSING_TAG \/ to = PARSING_CHECKSUM \/ to = ERROR_RECOVERY)
  | PARSING_CHECKSUM => bool_decide (to = MESSAGE_COMPLETE \/ to = ERROR_RECOVERY)
  | MESSAGE_COMPLETE => bool_decide (to = IDLE)
  | ERROR_RECOVERY => bool_decide (to = IDLE \/ to = CORRUPTED_SKIP)
  | CORRUPTED_SKIP => bool_decide (to = IDLE \/ to = ERROR_RECOVERY)
  end.

(** [transitionToState] on [parse_context_], the only context the code passes. *)
Definition transitionToState (new_state : ParseState) : P bool :=
  p <-- get_parser ;;
  if isValidStateTransition (current_state (parse_context_ p)) new_state then
    recordStateTransition ;;;
    update_parser (with_context (set_state new_state)) ;;;
    ret true
  else ret false.

(** * Circuit breaker *)

(** [shouldActivateCircuitBreaker] *)
Definition shouldActivateCircuitBreaker (p : StreamFixParser) : bool :=
  if negb (error_recovery_enabled_ p) then false
  else max_consecutive_errors_ p <=? consecutive_errors (parse_context_ p).

(** [isCircuitBreakerActive]: clock readings in nanoseconds; the clock is read only
    when the flag is set. *)
Definition isCircuitBreakerActive : P bool :=
  p <-- get_parser ;;
  if circuit_breaker_active_ p then
    t <-- now ;;
    if 5000000000 <? t - circuit_breaker_last_reset_ p then
      t' <-- now ;;
      update_parser (fun p =>
        with_breaker false t'
          (with_context (fun c => set_errors (error_count_in_session c) 0 (last_error_time c) c) p)) ;;;
      ret false
    else ret true
  else ret (shouldActivateCircuitBreaker p).

(** [resetErrorRecovery] *)
Definition resetErrorRecovery : P unit :=
  t <-- now ;;
  t' <-- now ;;
  update_parser (fun p =>
    with_breaker false t'
      (with_context (fun c => set_errors (error_count_in_session c) 0 t c) p)).

(** [reset] *)
Definition reset_parser : P unit :=
  update_parser (fun p =>
    with_context context_reset
      (with_partial (replicate (Z.to_nat PARTIAL_BUFFER_SIZE) 0) 0 p)) ;;;
  resetErrorRecovery.

(** [canRecoverFromError] *)
Definition canRecoverFromError (p : StreamFixParser) (error_status : ParseStatus)
    (state : ParseState) : bool :=
  if negb (error_recovery_enabled_ p) then false
  else bool_decide (error_status = InvalidFormat \/ error_status = FieldParseError \/
                    error_status = ChecksumError) &&
       negb (bool_decide (state = MESSAGE_COMPLETE)).

(** [isValidFieldTag], [isRequiredField] *)
Definition isValidFieldTag (tag : Z) : bool := (0 <? tag) && (tag <=? 99999).
Definition isRequiredField (tag : Z) : bool :=
  bool_decide (tag ∈ [Tag.BeginString; Tag.BodyLength; Tag.MsgType; Tag.CheckSum]).
End Clocked.
