(* ===== verification/Framing.v ===== *)
(** Stage 1 of [StreamFixParser]: reading the network buffer, [parseInteger],
    [findCompleteMessage] (where a message starts and ends), [extractMsgType],
    [validateMessageChecksum], [validateBeginString], [validateBodyLength] and
    [skipToNextPotentialMessage].

    A [const char *] is an index into the byte array [mem] it points into; a read
    outside [mem] is undefined behaviour and yields [Ub].  A [size_t] that counts bytes
    of the array is a [nat]. *)
From S2P Require Import Prelude FixFields MessagePool FixMessage ParserState.

(** * Reading memory *)

(** [memchr] and [std::find]; [None] stands for the null pointer or the end pointer. *)
Definition find (mem : bytes) (p : nat) (c : Z) (n : nat) : P (option nat) :=
  match memchr mem p c n with
  | Found i => ret (Some i)
  | NotFound => ret None
  | OutOfBounds => ub
  end.

Definition read (mem : bytes) (p : nat) : P Z :=
  match mem !! p with Some c => ret c | None => ub end.

Definition substr (mem : bytes) (p n : nat) : P bytes :=
  match read_bytes mem p n with Some s => ret s | None => ub end.

(** Character-by-character comparison with a literal, stopping at the first
    difference: [strncmp], and chains of [p[0] == .. && p[1] == ..]. *)
Fixpoint match_at (pat l : bytes) : option bool :=
  match pat with
  | [] => Some true
  | x :: pat' =>
      match l with
      | [] => None
      | y :: l' => if y =? x then match_at pat' l' else Some false
      end
  end.

Definition looking_at (mem : bytes) (p : nat) (pat : bytes) : P bool :=
  match match_at pat (drop p mem) with Some b => ret b | None => ub end.

(** [std::search] in [[p, p + n)]. *)
Definition search_in (mem : bytes) (p n : nat) (pat : bytes) : P (option nat) :=
  s <-- substr mem p n ;;
  ret ((fun i => p + i)%nat <$> search pat s).

Definition FIX_BEGIN_STRING : bytes := str "8=FIX.4.4".
Definition FIX_CHECKSUM_TAG : bytes := str "10=".

(** * Numbers *)

(** The loop of [parseInteger]; [None] when it meets a character that is no digit.
    [int] arithmetic wraps. *)
Fixpoint integer_loop (ds : bytes) (result : Z) : option Z :=
  match ds with
  | [] => Some result
  | c :: ds' =>
      if is_digit c then integer_loop ds' (wrap32 (wrap32 (result * 10) + (c - 48))) else None
  end.

(** [parseInteger]; [None] when it returns false. *)
Definition parseInteger (ds : bytes) : option Z :=
  match ds with [] => None | _ => integer_loop ds 0 end.

(** [parseInteger(mem + p, n, result)] *)
Definition parseIntegerAt (mem : bytes) (p n : nat) : P (option Z) :=
  ds <-- substr mem p n ;; ret (parseInteger ds).

(** * Framing *)

Definition frame_result (st : ParseStatus) (consumed : nat) (fs : ParseState) : ParseResult :=
  mkResult st (Z.of_nat consumed) None fs 0.

(** Steps 2 and 3 of [findCompleteMessage], once the BeginString was found at
    [start]: the result with [message_start] and [message_end], relative to [base].  Step 4
    looks at the last seven bytes of the message, inside the buffer, and returns the same
    result with another text either way. *)
Definition frame_body (mem : bytes) (base length start : nat) : P (ParseResult * nat * nat) :=
  let limit := (base + length)%nat in
  let message_start := (start - base)%nat in
  let stop r := ret (r, message_start, O) in
  soh <-- find mem start FIX_SOH (limit - start) ;;
  match soh with
  | None => stop (frame_result NeedMoreData 0 PARSING_BEGIN_STRING)
  | Some s =>
      let cur := (s + 1)%nat in
      if decide (limit < cur + 4)%nat then
        stop (frame_result NeedMoreData 0 PARSING_BODY_LENGTH)
      else
        tag9 <-- looking_at mem cur (str "9=") ;;
        if negb tag9 then stop (frame_result InvalidFormat (cur - base) ERROR_RECOVERY)
        else
          let bl_start := (cur + 2)%nat in
          bl_end <-- find mem bl_start FIX_SOH (limit - bl_start) ;;
          match bl_end with
          | None => stop (frame_result NeedMoreData 0 PARSING_BODY_LENGTH)
          | Some e =>
              n <-- parseIntegerAt mem bl_start (e - bl_start) ;;
              p <-- get_parser ;;
              match n with
              | None => stop (frame_result InvalidFormat (bl_start - base) ERROR_RECOVERY)
              | Some body_length =>
                  if (body_length <=? 0) || (wrap32 (max_message_size_ p) <? body_length) then
                    stop (frame_result InvalidFormat (bl_start - base) ERROR_RECOVERY)
                  else
                    update_parser (with_context (set_body_length body_length)) ;;;
                    let header_size := (e + 1 - start)%nat in
                    let message_end :=
                      (message_start + header_size + Z.to_nat body_length)%nat in
                    if decide (length < message_end)%nat then
                      ret (frame_result NeedMoreData 0 PARSING_TAG, message_start, message_end)
                    else
                      (* the look at the checksum field changes only the text *)
                      ret (frame_result Success 0 IDLE, message_start, message_end)
              end
          end
  end.

(** [findCompleteMessage(mem + base, length, message_start, message_end)] *)
Definition findCompleteMessage (mem : bytes) (base length : nat) : P (ParseResult * nat * nat) :=
  if decide (length < 10)%nat then ret (frame_result NeedMoreData 0 IDLE, O, O)
  else
    tag_8 <-- search_in mem base length (str "8=") ;;
    match tag_8 with
    | None => ret (frame_result InvalidFormat 0 IDLE, O, O)
    | Some start =>
        if decide (base + length - start < 9)%nat then
          ret (frame_result NeedMoreData 0 PARSING_BEGIN_STRING, O, O)
        else
          ok <-- looking_at mem start FIX_BEGIN_STRING ;;
          if negb ok then
            ret (frame_result InvalidFormat (start - base) ERROR_RECOVERY, O, O)
          else frame_body mem base length start
    end.

(** [StreamParserUtils::extractMsgType]; an empty view when there is none. *)
Definition extractMsgType (mem : bytes) (base length : nat) : P bytes :=
  pos <-- search_in mem base length (str "35=") ;;
  match pos with
  | None => ret []
  | Some p =>
      let value_start := (p + 3)%nat in
      soh <-- find mem value_start FIX_SOH (base + length - value_start) ;;
      match soh with
      | None => ret []
      | Some s => substr mem value_start (s - value_start)
      end
  end.

(** * Validation *)

(** [validateMessageChecksum(mem + base, length)] *)
Definition validateMessageChecksum (mem : bytes) (base length : nat) : P bool :=
  if decide (length < 7)%nat then ret false
  else
    let checksum_pos := (base + length - 7)%nat in
    tagged <-- looking_at mem checksum_pos FIX_CHECKSUM_TAG ;;
    if negb tagged then ret false
    else
      body <-- substr mem base (length - 7) ;;
      expected <-- parseIntegerAt mem (checksum_pos + 3) 3 ;;
      match expected with
      | None => ret false
      | Some v => ret (checksum8 body mod 256 =? u8 v)
      end.

(** [validateBeginString]: whether it holds, and the bytes consumed. *)
Definition validateBeginString (mem : bytes) (p length : nat) : P (bool * nat) :=
  if decide (length < 10)%nat then ret (false, O)
  else
    ok <-- looking_at mem p FIX_BEGIN_STRING ;;
    if negb ok then ret (false, O)
    else
      soh <-- find mem (p + 9) FIX_SOH (length - 9) ;;
      match soh with
      | None => ret (false, O)
      | Some s => ret (true, (s - p + 1)%nat)
      end.

(** [validateBodyLength]: it stores the length in the context. *)
Definition validateBodyLength (mem : bytes) (p length : nat) : P (bool * nat) :=
  if decide (length < 3)%nat then ret (false, O)
  else
    ok <-- looking_at mem p (str "9=") ;;
    if negb ok then ret (false, O)
    else
      soh <-- find mem (p + 2) FIX_SOH (length - 2) ;;
      match soh with
      | None => ret (false, O)
      | Some s =>
          n <-- parseIntegerAt mem (p + 2) (s - (p + 2)) ;;
          q <-- get_parser ;;
          match n with
          | None => ret (false, O)
          | Some body_length =>
              if body_length <=? 0 then ret (false, O)
              else if wrap32 (max_message_size_ q) <? body_length then ret (false, O)
              else
                update_parser (with_context (set_body_length body_length)) ;;;
                ret (true, (s - p + 1)%nat)
          end
      end.

(** * Looking for the next message *)

(** The loop of [skipToNextPotentialMessage] over the bytes [l] at index [i]. *)
Fixpoint skip_loop (l : bytes) (i limit : Z) : outcome (option Z) :=
  if i <? limit then
    match match_at (str "8=FIX") l with
    | None => Ub
    | Some true => Ret (Some i)
    | Some false => match l with [] => Ub | _ :: l' => skip_loop l' (i + 1) limit end
    end
  else Ret None.

(** [skipToNextPotentialMessage(mem + base, length, start_pos)]; the bound
    [length - 5] is computed in [size_t]. *)
Definition skipToNextPotentialMessage (mem : bytes) (base length start_pos : nat) : P Z :=
  match skip_loop (drop (base + start_pos) mem) (Z.of_nat start_pos)
          (size_t (Z.of_nat length - 5)) with
  | Ret (Some i) => ret i
  | Ret None => ret (Z.of_nat length)
  | _ => ub
  end.

(** * Lemmas *)

Ltac wp_step := apply wp_bind.

Lemma wp_find mem p c n (Q : option nat -> World -> Prop) E w :
  (p + n <= length mem)%nat ->
  (forall a b, drop p mem = a ++ c :: b -> c ∉ a -> (length a < n)%nat ->
               Q (Some (p + length a)%nat) w) ->
  (c ∉ take n (drop p mem) -> Q None w) ->
  wp (find mem p c n) Q E w.
Proof.
  intros Hb Hs Hn. unfold find, wp.
  destruct (memchr mem p c n) as [i| |] eqn:F.
  - apply memchr_split in F as (a & b & H1 & -> & H2 & H3). by apply (Hs a b).
  - apply Hn. by apply memchr_none_inv.
  - by apply memchr_in_bounds in F.
Qed.

Lemma find_eval mem p c n a b w :
  drop p mem = a ++ c :: b -> c ∉ a -> (length a < n)%nat ->
  find mem p c n w = (Ret (Some (p + length a)%nat), w).
Proof. intros H Hc Hn. unfold find. by rewrite (memchr_found _ _ _ _ _ _ H Hc Hn). Qed.

Lemma find_none_eval mem p c n l w :
  drop p mem = l -> (n <= length l)%nat -> c ∉ take n l -> find mem p c n w = (Ret None, w).
Proof. intros H Hn Hc. unfold find. by rewrite (memchr_none _ _ _ _ _ H Hn Hc). Qed.

Lemma substr_eval mem p n a b w :
  (p <= length mem)%nat -> drop p mem = a ++ b -> n = length a ->
  substr mem p n w = (Ret a, w).
Proof. intros Hp H ->. unfold substr. by rewrite (read_bytes_prefix _ _ _ _ Hp H). Qed.

Lemma wp_substr mem p n (Q : bytes -> World -> Prop) E w :
  (p + n <= length mem)%nat -> Q (take n (drop p mem)) w -> wp (substr mem p n) Q E w.
Proof. intros H HQ. unfold substr, read_bytes. by rewrite decide_True. Qed.

Lemma match_at_true pat l : match_at pat l = Some true <-> exists r, l = pat ++ r.
Proof.
  revert l. induction pat as [|x pat IH]; intros l; simpl.
  { split; [by exists l|done]. }
  destruct l as [|y l]; [split; [done|by intros [? ?]]|].
  destruct (Z.eqb_spec y x) as [->|Hne].
  - rewrite IH. split; intros [r Hr]; exists r; congruence.
  - split; [done|]. intros [r Hr]. congruence.
Qed.

Lemma match_at_bounds pat l : (length pat <= length l)%nat -> match_at pat l <> None.
Proof.
  revert l. induction pat as [|x pat IH]; intros [|y l] H; simpl in *; try done; [lia|].
  destruct (y =? x); [|done]. apply IH. lia.
Qed.

Lemma wp_looking_at mem p pat (Q : bool -> World -> Prop) E w :
  (p + length pat <= length mem)%nat ->
  (forall r, drop p mem = pat ++ r -> Q true w) -> Q false w ->
  wp (looking_at mem p pat) Q E w.
Proof.
  intros Hb Ht Hf. unfold looking_at, wp.
  destruct (match_at pat (drop p mem)) as [[]|] eqn:F; simpl.
  - apply match_at_true in F as [r Hr]. by eapply Ht.
  - done.
  - apply match_at_bounds in F; [done|]. rewrite length_drop. lia.
Qed.

Lemma looking_at_eval mem p pat r w :
  drop p mem = pat ++ r -> looking_at mem p pat w = (Ret true, w).
Proof.
  intros H. unfold looking_at. rewrite H.
  by rewrite (proj2 (match_at_true pat (pat ++ r))) by (by exists r).
Qed.

Lemma wp_search_in mem p n pat (Q : option nat -> World -> Prop) E w :
  (p + n <= length mem)%nat ->
  (forall i, search pat (take n (drop p mem)) = Some i -> Q (Some (p + i)%nat) w) ->
  (search pat (take n (drop p mem)) = None -> Q None w) ->
  wp (search_in mem p n pat) Q E w.
Proof.
  intros Hb Hs Hn. unfold search_in. wp_step. apply wp_substr; [done|].
  destruct (search pat (take n (drop p mem))) as [i|]; [by apply Hs|by apply Hn].
Qed.

(** ** Numbers *)

Lemma wrap32_step r c : wrap32 (wrap32 (r * 10) + c) = wrap32 (r * 10 + c).
Proof.
  unfold wrap32. f_equal.
  replace ((r * 10 + 2147483648) mod 4294967296 - 2147483648 + c + 2147483648)
    with ((r * 10 + 2147483648) mod 4294967296 + c) by lia.
  rewrite Zplus_mod_idemp_l. f_equal. lia.
Qed.

Lemma wrap32_mul r c : wrap32 (wrap32 r * 10 + c) = wrap32 (r * 10 + c).
Proof.
  unfold wrap32. f_equal.
  replace (((r + 2147483648) mod 4294967296 - 2147483648) * 10 + c + 2147483648)
    with (((r + 2147483648) mod 4294967296) * 10 + (c - 2147483648 * 10 + 2147483648)) by lia.
  rewrite <- Zplus_mod_idemp_l, Zmult_mod_idemp_l, Zplus_mod_idemp_l. f_equal. lia.
Qed.

Lemma integer_loop_value ds r :
  Forall (fun c => is_digit c = true) ds ->
  integer_loop ds (wrap32 r) = Some (wrap32 (fold_left (fun acc c => acc * 10 + (c - 48)) ds r)).
Proof.
  intros Hd. revert r. induction Hd as [|c ds Hc _ IH]; intros r; simpl; [done|].
  by rewrite Hc, wrap32_step, wrap32_mul, IH.
Qed.

Lemma integer_loop_none ds r :
  ~ Forall (fun c => is_digit c = true) ds -> integer_loop ds r = None.
Proof.
  revert r. induction ds as [|c ds IH]; intros r H; simpl.
  { by destruct H. }
  destruct (is_digit c) eqn:E; [|done]. apply IH. intros ?. apply H. by constructor.
Qed.

Lemma parseInteger_digits ds :
  ds <> [] -> Forall (fun c => is_digit c = true) ds ->
  parseInteger ds = Some (wrap32 (dec_value ds)).
Proof.
  intros Hne Hd. unfold parseInteger, dec_value. destruct ds as [|c ds]; [done|].
  by rewrite <- integer_loop_value.
Qed.

Lemma parseInteger_to_string v : 0 <= v <= 2147483647 -> parseInteger (to_string v) = Some v.
Proof.
  intros Hv. rewrite parseInteger_digits; [|apply to_string_nonempty|apply to_string_digits; lia].
  rewrite to_string_value by lia. f_equal. apply wrap32_id. unfold int32_range. lia.
Qed.

Lemma parseIntegerAt_eval mem p n ds b w :
  (p <= length mem)%nat -> drop p mem = ds ++ b -> n = length ds ->
  parseIntegerAt mem p n w = (Ret (parseInteger ds), w).
Proof.
  intros Hp H Hn. unfold parseIntegerAt. by rewrite (bind_ret _ _ _ _ _ (substr_eval _ _ _ _ _ _ Hp H Hn)).
Qed.

Lemma wp_parseIntegerAt mem p n (Q : option Z -> World -> Prop) E w :
  (p + n <= length mem)%nat -> Q (parseInteger (take n (drop p mem))) w ->
  wp (parseIntegerAt mem p n) Q E w.
Proof. intros Hb HQ. unfold parseIntegerAt. wp_step. by apply wp_substr. Qed.

(** ** Frames *)

(** A complete message as [findCompleteMessage] delimits it: the BeginString (with
    anything up to its SOH), the BodyLength field, and as many bytes as it says. *)
Inductive framed (max : Z) : bytes -> Prop :=
  | framed_intro x ds n body :
      FIX_SOH ∉ x -> FIX_SOH ∉ ds -> parseInteger ds = Some n -> 0 < n <= max ->
      Z.of_nat (length body) = n ->
      framed max (FIX_BEGIN_STRING ++ x ++ [FIX_SOH] ++ str "9=" ++ ds ++ [FIX_SOH] ++ body).

Lemma begin_string_split r a b :
  FIX_BEGIN_STRING ++ r = a ++ FIX_SOH :: b -> FIX_SOH ∉ a ->
  exists x, a = FIX_BEGIN_STRING ++ x /\ r = x ++ FIX_SOH :: b.
Proof.
  intros H Ha. exists (drop 9 a).
  do 9 (destruct a as [|? a]; [simplify_eq/=|]).
  simplify_eq/=. done.
Qed.

(** What [frame_body] returns for a BeginString at [start]. *)
Definition frame_spec (mem : bytes) (base length start : nat) (w : World)
    (out : ParseResult * nat * nat) (w' : World) : Prop :=
  let '(r, s, e) := out in
  w_pool w' = w_pool w /\ parsed_message r = None /\
  (status r = Success \/ status r = NeedMoreData \/ status r = InvalidFormat) /\
  (status r = Success ->
     (s = start - base /\ base <= start /\ s < e <= length)%nat /\
     framed (wrap32 (max_message_size_ (w_parser w))) (take (e - s) (drop start mem))).

Lemma wp_frame_body mem base len start r0 w :
  (base <= start)%nat -> (base + len <= length mem)%nat -> (start + 9 <= base + len)%nat ->
  drop start mem = FIX_BEGIN_STRING ++ r0 ->
  wp (frame_body mem base len start) (frame_spec mem base len start w) (fun _ => False) w.
Proof.
  intros Hs Hb H9 Hr. unfold frame_body. wp_step.
  apply wp_find; [lia| |intros _; apply wp_ret; naive_solver].
  intros a b Hab Ha Hlen. rewrite Hr in Hab.
  destruct (begin_string_split _ _ _ Hab Ha) as (x & -> & Hx).
  assert (drop (start + length (FIX_BEGIN_STRING ++ x) + 1) mem = b) as Hcur.
  { eapply (drop_step mem ((FIX_BEGIN_STRING ++ x) ++ [FIX_SOH])).
    - rewrite Hr, Hx. by rewrite <- !app_assoc.
    - rewrite !length_app. simpl. lia. }
  set (cur := (start + length (FIX_BEGIN_STRING ++ x) + 1)%nat) in *.
  case_decide; [apply wp_ret; naive_solver|]. wp_step.
  apply wp_looking_at; [simpl; lia| |apply wp_ret; naive_solver].
  intros r1 Hr1. cbn [negb]. rewrite Hr1 in Hcur. wp_step.
  assert (drop (cur + 2) mem = r1) as Hr2 by (by eapply drop_step).
  apply wp_find; [lia| |intros _; apply wp_ret; naive_solver].
  intros ds body' Hds Hsoh Hdl. rewrite Hr2 in Hds. wp_step.
  apply wp_parseIntegerAt; [lia|]. rewrite Hr2, Hds.
  replace (cur + 2 + length ds - (cur + 2))%nat with (length ds) by lia.
  rewrite take_app_length. wp_step.
  change (wp get_parser ?Q ?E w) with (Q (w_parser w) w). cbv beta.
  destruct (parseInteger ds) as [n|] eqn:Hn; [|apply wp_ret; naive_solver].
  destruct ((n <=? 0) || _) eqn:Hrange; [apply wp_ret; naive_solver|]. bool_props. wp_step.
  unfold update_parser, wp at 1. case_decide; apply wp_ret; [naive_solver|].
  split; [done|]. split; [done|]. split; [by left|]. intros _.
  assert (length mem = start + 9 + length x + 1 + 2 + length ds + 1 + length body')%nat as Hmem.
  { apply (f_equal length) in Hr. rewrite length_drop in Hr. rewrite Hx, <- Hcur, Hds in Hr.
    rewrite !length_app in Hr. simpl in Hr. rewrite !length_app in Hr. simpl in Hr.
    clear - Hr Hb H9. lia. }
  assert (length (FIX_BEGIN_STRING ++ x) = 9 + length x)%nat as Hlx by (by rewrite length_app).
  assert (cur = start + 9 + length x + 1)%nat as Hc by (subst cur; rewrite Hlx; lia).
  clearbody cur. split; [lia|]. rewrite Hr, Hx, <- Hcur, Hds.
  replace (FIX_BEGIN_STRING ++ x ++ FIX_SOH :: str "9=" ++ ds ++ FIX_SOH :: body')
    with ((FIX_BEGIN_STRING ++ x ++ [FIX_SOH] ++ str "9=" ++ ds ++ [FIX_SOH]) ++ body')
    by (rewrite <- !app_assoc; done).
  rewrite take_app_ge by (rewrite !length_app; simpl; lia).
  rewrite <- !app_assoc. apply not_elem_of_app in Ha as [_ Ha].
  apply (framed_intro _ x ds n); try done.
  rewrite length_take, !length_app. simpl. lia.
Qed.

(** ** Evaluating the framing on a message *)

(** The header of a message with a body of [n] bytes. *)
Definition wire_header (n : nat) : bytes :=
  formatFixField Tag.BeginString FIX_VERSION_44 ++
  formatFixField Tag.BodyLength (to_string (Z.of_nat n)).

Lemma wire_header_split n :
  wire_header n = FIX_BEGIN_STRING ++ [FIX_SOH] ++ str "9=" ++ to_string (Z.of_nat n) ++ [FIX_SOH].
Proof. reflexivity. Qed.

Lemma digits_no_soh_text n : FIX_SOH ∉ to_string (Z.of_nat n).
Proof. apply digits_no_soh, to_string_digits. lia. Qed.

Lemma length_wire_header n : length (wire_header n) = (13 + length (to_string (Z.of_nat n)))%nat.
Proof. rewrite wire_header_split, !length_app. simpl. lia. Qed.

Lemma soh_begin : FIX_SOH ∉ FIX_BEGIN_STRING.
Proof. apply (bool_decide_unpack _). vm_compute. exact I. Qed.

(** The world after a body length was read. *)
Definition length_seen (n : nat) (w : World) : World :=
  mkWorld (with_context (set_body_length (Z.of_nat n)) (w_parser w)) (w_pool w) (w_ticks w).

Lemma find_begins mem base len rest w :
  drop base mem = FIX_BEGIN_STRING ++ FIX_SOH :: rest -> (10 <= len)%nat ->
  (base + len <= length mem)%nat ->
  findCompleteMessage mem base len w = frame_body mem base len base w.
Proof.
  intros HD Hlen Hmem. unfold findCompleteMessage. rewrite decide_False by lia.
  assert (search_in mem base len (str "8=") w = (Ret (Some base), w)) as Hs.
  { unfold search_in. rewrite (bind_ret _ _ w (take len (drop base mem)) w).
    2: { unfold substr, read_bytes. by rewrite decide_True. }
    rewrite HD, take_app_ge by (simpl; lia).
    change FIX_BEGIN_STRING with (str "8=" ++ FIX_VERSION_44). rewrite <- app_assoc, search_prefix.
    unfold ret. do 2 f_equal. simpl. by rewrite Nat.add_0_r. }
  rewrite (bind_ret _ _ _ _ _ Hs). rewrite decide_False by lia.
  by rewrite (bind_ret _ _ _ _ _ (looking_at_eval _ _ _ _ _ HD)).
Qed.

Lemma frame_body_tag9 mem base len rest w :
  drop base mem = FIX_BEGIN_STRING ++ FIX_SOH :: str "9=" ++ rest -> (14 <= len)%nat ->
  frame_body mem base len base w =
  bind (find mem (base + 12) FIX_SOH (len - 12)) (fun bl_end =>
    match bl_end with
    | None => ret (frame_result NeedMoreData 0 PARSING_BODY_LENGTH, O, O)
    | Some e =>
        n <-- parseIntegerAt mem (base + 12) (e - (base + 12)) ;;
        p <-- get_parser ;;
        match n with
        | None => ret (frame_result InvalidFormat 12 ERROR_RECOVERY, O, O)
        | Some body_length =>
            if (body_length <=? 0) || (wrap32 (max_message_size_ p) <? body_length) then
              ret (frame_result InvalidFormat 12 ERROR_RECOVERY, O, O)
            else
              update_parser (with_context (set_body_length body_length)) ;;;
              let message_end := (e + 1 - base + Z.to_nat body_length)%nat in
              if decide (len < message_end)%nat then
                ret (frame_result NeedMoreData 0 PARSING_TAG, O, message_end)
              else ret (frame_result Success 0 IDLE, O, message_end)
        end
    end) w.
Proof.
  intros HD Hlen. unfold frame_body.
  assert (length FIX_BEGIN_STRING < base + len - base)%nat as Hl
    by (change (length FIX_BEGIN_STRING) with 9%nat; lia).
  rewrite (bind_ret _ _ _ _ _ (find_eval _ _ _ _ _ _ _ HD soh_begin Hl)).
  change (length FIX_BEGIN_STRING) with 9%nat. rewrite Nat.sub_diag.
  rewrite decide_False by lia.
  assert (drop (base + 9 + 1) mem = str "9=" ++ rest) as H10.
  { eapply (drop_step mem (FIX_BEGIN_STRING ++ [FIX_SOH])); [by rewrite HD|].
    change (length (FIX_BEGIN_STRING ++ [FIX_SOH])) with 10%nat. lia. }
  rewrite (bind_ret _ _ _ _ _ (looking_at_eval _ _ _ _ _ H10)). cbn [negb].
  replace (base + 9 + 1 + 2)%nat with (base + 12)%nat by lia.
  replace (base + len - (base + 12))%nat with (len - 12)%nat by lia.
  replace (base + 12 - base)%nat with 12%nat by lia. reflexivity.
Qed.

(** A complete message is framed exactly, whatever follows it. *)
Lemma frame_complete mem base len n rest w :
  drop base mem = wire_header n ++ rest -> (base + len <= length mem)%nat ->
  (0 < n)%nat -> Z.of_nat n <= wrap32 (max_message_size_ (w_parser w)) ->
  (length (wire_header n) + n <= len)%nat ->
  findCompleteMessage mem base len w
  = (Ret (frame_result Success 0 IDLE, O, (length (wire_header n) + n)%nat), length_seen n w).
Proof.
  intros HD Hmem Hn Hmax Hlen. rewrite wire_header_split, <- !app_assoc in HD.
  rewrite length_wire_header in *. pose proof (wrap32_range (max_message_size_ (w_parser w))) as Hw.
  pose proof (to_string_nonempty (Z.of_nat n)) as Hne.
  destruct (to_string (Z.of_nat n)) as [|d0 ds0] eqn:Eds; [done|]. rewrite <- Eds in *.
  assert (1 <= length (to_string (Z.of_nat n)))%nat by (rewrite Eds; simpl; lia). clear Eds Hne.
  rewrite (find_begins _ _ _ _ _ HD) by lia.
  rewrite (frame_body_tag9 _ _ _ _ _ HD) by lia.
  assert (drop (base + 12) mem = to_string (Z.of_nat n) ++ FIX_SOH :: rest) as H12.
  { by eapply (drop_step mem (FIX_BEGIN_STRING ++ FIX_SOH :: str "9=")). }
  rewrite (bind_ret _ _ _ _ _ (find_eval mem (base + 12) FIX_SOH (len - 12) _ _ w H12
    (digits_no_soh_text n) ltac:(lia))).
  rewrite (bind_ret _ _ _ _ _ (parseIntegerAt_eval mem (base + 12)
    (base + 12 + length (to_string (Z.of_nat n)) - (base + 12)) _ _ w ltac:(lia) H12 ltac:(lia))).
  unfold int32_range in Hw. rewrite parseInteger_to_string by lia.
  unfold get_parser at 1. unfold bind at 1.
  destruct (Z.leb_spec (Z.of_nat n) 0); [lia|].
  destruct (Z.ltb_spec (wrap32 (max_message_size_ (w_parser w))) (Z.of_nat n)); [lia|]. cbn [orb].
  unfold update_parser, bind. rewrite decide_False by lia.
  unfold ret, length_seen. do 3 f_equal. lia.
Qed.

Lemma notin_take (c : Z) n (l : bytes) : c ∉ l -> c ∉ take n l.
Proof. intros H Hin. apply H. rewrite <- (take_drop n l). apply elem_of_app. by left. Qed.

(** A message cut short asks for more data. *)
Lemma frame_incomplete mem base len n body tail w :
  drop base mem = take len (wire_header n ++ body) ++ tail -> (base + len <= length mem)%nat ->
  (0 < n)%nat -> Z.of_nat n <= wrap32 (max_message_size_ (w_parser w)) -> length body = n ->
  (len < length (wire_header n) + n)%nat ->
  exists st e w', findCompleteMessage mem base len w = (Ret (frame_result NeedMoreData 0 st, O, e), w')
    /\ (w' = w \/ w' = length_seen n w).
Proof.
  intros HD Hmem Hn Hmax Hb Hlen. rewrite length_wire_header in Hlen.
  rewrite wire_header_split, <- !app_assoc in HD.
  pose proof (wrap32_range (max_message_size_ (w_parser w))) as Hw. unfold int32_range in Hw.
  destruct (decide (len < 10)%nat) as [H10|H10].
  { unfold findCompleteMessage. rewrite decide_True by done. eauto 10. }
  rewrite take_app_ge in HD by (change (length FIX_BEGIN_STRING) with 9%nat; lia).
  change (length FIX_BEGIN_STRING) with 9%nat in HD.
  replace (len - 9)%nat with (S (len - 10)) in HD by lia. cbn [app take] in HD.
  rewrite <- app_assoc in HD. cbn [app] in HD. rewrite (find_begins _ _ _ _ _ HD) by lia.
  destruct (decide (len < 14)%nat) as [H14|H14].
  { unfold frame_body.
    rewrite (bind_ret _ _ _ _ _ (find_eval mem base FIX_SOH (base + len - base) _ _ w HD soh_begin
      ltac:(change (length FIX_BEGIN_STRING) with 9%nat; lia))).
    change (length FIX_BEGIN_STRING) with 9%nat. rewrite decide_True by lia.
    rewrite Nat.sub_diag. eauto 10. }
  assert (drop base mem = FIX_BEGIN_STRING ++ FIX_SOH :: str "9=" ++
            take (len - 12) (to_string (Z.of_nat n) ++ FIX_SOH :: body) ++ tail) as HD2.
  { rewrite HD. replace (len - 10)%nat with (S (S (len - 12))) by lia. reflexivity. }
  clear HD. rewrite (frame_body_tag9 _ _ _ _ _ HD2) by lia.
  assert (drop (base + 12) mem = take (len - 12) (to_string (Z.of_nat n) ++ FIX_SOH :: body) ++ tail)
    as H12 by (by eapply (drop_step mem (FIX_BEGIN_STRING ++ FIX_SOH :: str "9="))).
  set (ds := to_string (Z.of_nat n)) in *.
  destruct (decide (len - 12 <= length ds)%nat) as [Hshort|Hlong].
  - rewrite take_app_le in H12 by done.
    rewrite (bind_ret _ _ _ _ _ (find_none_eval mem (base + 12) FIX_SOH (len - 12) _ w H12
      ltac:(rewrite length_app, length_take; lia)
      ltac:(rewrite take_app_le, take_take by (rewrite length_take; lia);
            apply notin_take, digits_no_soh_text))).
    eauto 10.
  - rewrite take_app_ge in H12 by lia. replace (len - 12 - length ds)%nat
      with (S (len - 13 - length ds)) in H12 by lia. cbn [take] in H12.
    rewrite <- app_assoc in H12. cbn [app] in H12.
    rewrite (bind_ret _ _ _ _ _ (find_eval mem (base + 12) FIX_SOH (len - 12) _ _ w H12
      (digits_no_soh_text n) ltac:(lia))).
    rewrite (bind_ret _ _ _ _ _ (parseIntegerAt_eval mem (base + 12)
      (base + 12 + length ds - (base + 12)) _ _ w ltac:(lia) H12 ltac:(lia))).
    subst ds. rewrite parseInteger_to_string by lia.
    unfold get_parser at 1. unfold bind at 1.
    destruct (Z.leb_spec (Z.of_nat n) 0); [lia|].
    destruct (Z.ltb_spec (wrap32 (max_message_size_ (w_parser w))) (Z.of_nat n)); [lia|]. cbn [orb].
    unfold update_parser, bind. rewrite decide_True by lia. eauto 10.
Qed.

(** * Properties *)

(** C7: framing never reads outside the buffer, allocates nothing, and reports only
    success, missing data or a format error; when it succeeds the delimited bytes are
    a BeginString field, a BodyLength field and exactly as many bytes as that field
    says, inside the buffer, and no earlier [8=] was passed over. *)
Theorem framing_sound mem base len w :
  (base + len <= length mem)%nat ->
  exists r s e w', findCompleteMessage mem base len w = (Ret (r, s, e), w') /\
    w_pool w' = w_pool w /\ parsed_message r = None /\
    (status r = Success \/ status r = NeedMoreData \/ status r = InvalidFormat) /\
    (status r = Success ->
       (s < e <= len)%nat /\ search (str "8=") (take len (drop base mem)) = Some s /\
       framed (wrap32 (max_message_size_ (w_parser w))) (take (e - s) (drop (base + s) mem))).
Proof.
  intros Hb.
  assert (wp (findCompleteMessage mem base len) (fun out w' =>
    let '(r, s, e) := out in
    w_pool w' = w_pool w /\ parsed_message r = None /\
    (status r = Success \/ status r = NeedMoreData \/ status r = InvalidFormat) /\
    (status r = Success ->
       (s < e <= len)%nat /\ search (str "8=") (take len (drop base mem)) = Some s /\
       framed (wrap32 (max_message_size_ (w_parser w))) (take (e - s) (drop (base + s) mem))))
    (fun _ => False) w) as H; [|apply wp_run in H as ([[r s] e] & w' & -> & H); eauto 10].
  unfold findCompleteMessage. case_decide as H10; [apply wp_ret; naive_solver|]. wp_step.
  apply wp_search_in; [done| |intros _; apply wp_ret; naive_solver]. intros i Hi.
  case_decide as H9; [apply wp_ret; naive_solver|]. wp_step.
  apply wp_looking_at; [change (length FIX_BEGIN_STRING) with 9%nat; lia| |apply wp_ret; naive_solver].
  intros r0 Hr0. cbn [negb].
  eapply wp_mono; [eapply wp_frame_body; [lia|done|lia|exact Hr0]| |done].
  intros [[r s] e] w' (H1 & H2 & H3 & H4). split_and!; try done. intros Hok.
  destruct (H4 Hok) as ((-> & _ & Hse) & Hf).
  replace (base + i - base)%nat with i in * by lia. split_and!; [lia..|done|done].
Qed.

(** C8: framing is exact on FIX messages: a message with a standard header whose
    BodyLength is the length of its body and within the size limit is delimited at its
    body's end, whatever bytes follow; and every shorter piece of it, down to one byte,
    makes framing ask for more data instead of failing. *)
Theorem framing_exact body len rest w :
  let n := length body in
  let stream := wire_header n ++ body ++ rest in
  (0 < n)%nat -> Z.of_nat n <= wrap32 (max_message_size_ (w_parser w)) ->
  (len <= length stream)%nat ->
  exists r e w', findCompleteMessage (take len stream) 0 len w = (Ret (r, O, e), w') /\
    if decide (length (wire_header n) + n <= len)%nat
    then status r = Success /\ e = (length (wire_header n) + n)%nat
    else status r = NeedMoreData.
Proof.
  intros n stream Hn Hmax Hlen.
  assert (length (take len stream) = len) as Hl by (rewrite length_take; lia).
  case_decide as Hc.
  - eexists _, _, _. split; [eapply (frame_complete _ _ _ _ (take (len - length (wire_header n))
      (body ++ rest)))|done].
    all: try lia; try done.
    rewrite drop_0. unfold stream. by rewrite take_app_ge by lia.
  - edestruct (frame_incomplete (take len stream) 0 len n body [] w) as (st & e & w' & E & _);
      [|lia|done|done|done|lia|].
    + rewrite app_nil_r, drop_0. unfold stream. rewrite app_assoc, take_app_le; [done|].
      rewrite length_app. lia.
    + eauto 10.
Qed.

(** [parseInteger] accepts exactly the non-empty digit strings and returns their
    value reduced to 32 bits, so numbers below 2^31 are exact and longer ones wrap:
    [4294967306] is accepted as 10. *)
Lemma parseInteger_spec :
  (forall ds v, parseInteger ds = Some v <->
     ds <> [] /\ Forall (fun c => is_digit c = true) ds /\ v = wrap32 (dec_value ds)) /\
  (forall ds, ds <> [] -> Forall (fun c => is_digit c = true) ds -> dec_value ds < 2147483648 ->
     0 <= dec_value ds -> parseInteger ds = Some (dec_value ds)) /\
  parseInteger (str "4294967306") = Some 10.
Proof.
  split_and!; [|intros ds Hne Hd H1 H2|reflexivity].
  - intros ds v. split; [|intros (Hne & Hd & ->); by apply parseInteger_digits].
    intros H. assert (ds <> []) as Hne by (by intros ->). split; [done|].
    destruct (decide (Forall (fun c => is_digit c = true) ds)) as [Hd|Hd].
    + rewrite parseInteger_digits in H by done. split; congruence.
    + unfold parseInteger in H. destruct ds; [done|]. by rewrite integer_loop_none in H.
  - rewrite parseInteger_digits by done. f_equal. apply wrap32_id. unfold int32_range. lia.
Qed.

(** A world with a fresh parser and a pool of two messages. *)
Definition sample_pool : FixMessagePool := initializeFreeList
  {| pool_size_ := 2; pool_start_ := 4096; slot_bytes_ := 64; pool_slots_ := [None; None];
     free_list_head_ := 0; free_list_nodes_ := [-1; -1]; allocated_count_ := 0;
     total_allocations_ := 0; total_deallocations_ := 0; allocation_failures_ := 0;
     pool_is_shutdown_ := false |}.
Lemma sample_pool_wf : pool_wf sample_pool.
Proof. by apply initializeFreeList_wf. Qed.
Definition sample_world : World := mkWorld (newParser 0) sample_pool 0.

Lemma framing_sound_witness :
  exists r s e w', findCompleteMessage (str "noise 8=FIX.4.4") 0 15 sample_world
                   = (Ret (r, s, e), w') /\ w_pool w' = sample_pool.
Proof.
  destruct (framing_sound (str "noise 8=FIX.4.4") 0 15 sample_world ltac:(simpl; lia))
    as (r & s & e & w' & H1 & H2 & _).
  exists r, s, e, w'. exact (conj H1 H2).
Defined.

Lemma framing_exact_witness :
  exists r e w',
    findCompleteMessage (take 22 (wire_header 5 ++ str "35=0;" ++ str "tail")) 0 22 sample_world
    = (Ret (r, O, e), w').
Proof.
  destruct (framing_exact (str "35=0;") 22 (str "tail") sample_world) as (r & e & w' & H & _).
  - simpl. lia.
  - vm_compute. discriminate.
  - vm_compute. lia.
  - exists r, e, w'. exact H.
Defined.
