(* ===== verification/OptimizedParser.v ===== *)
(** The template specialisations [OptimizedParser<...>] of [stream_fix_parser.h]:
    the parsers of ExecutionReport, Heartbeat, OrderCancelReject, Reject,
    TestRequest and ResendRequest.

    The six functions repeat one text with small differences, which a
    [Specialisation] records: the minimum length, the message type, whether a missing
    final SOH asks for more data, whether errors report a position, and whether the
    MsgType is checked again.  Each function is its own definition. *)
From S2P Require Import Prelude FixFields MessagePool FixMessage ParserState Framing.

Record Specialisation := {
  sp_min_length : nat;
  sp_type : bytes;
  sp_soh_incomplete : bool;
  sp_positions : bool;
  sp_check_type : bool
}.

(** The [bytes_consumed] of an error met at [p] in a message at [base]. *)
Definition error_offset (sp : Specialisation) (base : nat) (p : Z) : Z :=
  if sp_positions sp then size_t (p - Z.of_nat base) else 0.

Definition parse_error (st : ParseStatus) (consumed : Z) (fs : ParseState) : ParseResult :=
  mkResult st consumed None fs 0.

(** Give the message back and return an error. *)
Definition abandon (msg : Z) (r : ParseResult) : P ParseResult :=
  pool_deallocate msg ;;; ret r.

(** The field loop, [while (current_ptr < body_end)]: [None] when it ran to the end,
    the result to return otherwise. *)
Fixpoint parse_fields (fuel : nat) (sp : Specialisation) (mem : bytes) (base : nat)
    (body_end : Z) (msg : Z) (cur : nat) : P (option ParseResult) :=
  match fuel with
  | O => nofuel
  | S f =>
      if Z.of_nat cur <? body_end then
        equals <-- find mem cur 61 (Z.to_nat (body_end - Z.of_nat cur)) ;;
        match equals with
        | None =>
            r <-- abandon msg (parse_error InvalidFormat (error_offset sp base (Z.of_nat cur))
                                 ERROR_RECOVERY) ;;
            ret (Some r)
        | Some e =>
            tag <-- parseIntegerAt mem cur (e - cur) ;;
            match tag with
            | None =>
                r <-- abandon msg (parse_error FieldParseError
                                     (error_offset sp base (Z.of_nat cur)) ERROR_RECOVERY) ;;
                ret (Some r)
            | Some field_tag =>
                let value_start := (e + 1)%nat in
                soh <-- find mem value_start FIX_SOH
                          (Z.to_nat (body_end - Z.of_nat value_start)) ;;
                match soh with
                | None =>
                    r <-- abandon msg (parse_error InvalidFormat
                                         (error_offset sp base (Z.of_nat value_start))
                                         ERROR_RECOVERY) ;;
                    ret (Some r)
                | Some s =>
                    v <-- substr mem value_start (s - value_start) ;;
                    msg_setField msg field_tag v ;;;
                    parse_fields f sp mem base body_end msg (s + 1)
                end
            end
        end
      else ret None
  end.

(** [mem[z]] for a pointer that may have left the array on either side. *)
Definition in_array (z : Z) : P nat :=
  if z <? 0 then ub else ret (Z.to_nat z).

(** The checksum block and the final result. *)
Definition finish_message (sp : Specialisation) (mem : bytes) (base : nat) (body_end msg : Z)
    : P ParseResult :=
  let total_message_length := size_t (size_t (body_end - Z.of_nat base) + 7) in
  let success := mkResult Success total_message_length (Some msg) IDLE 0 in
  let bad := parse_error ChecksumError (error_offset sp base body_end) ERROR_RECOVERY in
  p <-- get_parser ;;
  checksum_start <-- in_array body_end ;;
  if validate_checksum_ p then
    tagged <-- looking_at mem checksum_start FIX_CHECKSUM_TAG ;;
    if negb tagged then abandon msg bad
    else
      checksum_value <-- substr mem (checksum_start + 3) 3 ;;
      msg_setField msg Tag.CheckSum checksum_value ;;;
      if body_end <? Z.of_nat base then ub  (* the [size_t] loop bound wraps *)
      else
        summed <-- substr mem base (checksum_start - base) ;;
        match stoi checksum_value with
        | StoiOk received_checksum =>
            if checksum8 summed mod 256 =? u8 received_checksum then ret success
            else abandon msg bad
        | _ => throw
        end
  else
    checksum_value <-- substr mem (checksum_start + 3) 3 ;;
    msg_setField msg Tag.CheckSum checksum_value ;;;
    ret success.

(** From the allocated message on: header fields, BodyLength, fields, checksum. *)
Definition parse_allocated (sp : Specialisation) (mem : bytes) (base length : nat) (msg : Z)
    : P ParseResult :=
  msg_setField msg Tag.BeginString FIX_VERSION_44 ;;;
  msg_setField msg Tag.MsgType (sp_type sp) ;;;
  let cur := (base + 12)%nat in
  body_length_end <-- find mem cur FIX_SOH (base + length - cur) ;;
  match body_length_end with
  | None => abandon msg (parse_error NeedMoreData 0 PARSING_BODY_LENGTH)
  | Some e =>
      n <-- parseIntegerAt mem cur (e - cur) ;;
      match n with
      | None => abandon msg (parse_error InvalidFormat 0 ERROR_RECOVERY)
      | Some body_length =>
          msg_setField msg Tag.BodyLength (int_to_string body_length) ;;;
          let body_end := Z.of_nat e + 1 + body_length in
          r <-- parse_fields (S (List.length mem)) sp mem base body_end msg (e + 1) ;;
          match r with
          | Some err => ret err
          | None =>
              typed <-- (if sp_check_type sp then msg_hasField msg Tag.MsgType else ret true) ;;
              if negb typed then abandon msg (parse_error InvalidFormat 0 ERROR_RECOVERY)
              else finish_message sp mem base body_end msg
          end
      end
  end.

Section Clocked.
Variable clock : nat -> Z.

(** The whole function. *)
Definition parse_special (sp : Specialisation) (mem : bytes) (base length : nat)
    : P ParseResult :=
  if decide (length < sp_min_length sp)%nat then ret (parse_error InvalidFormat 0 IDLE)
  else
    last <-- read mem (base + length - 1) ;;
    if negb (last =? FIX_SOH) then
      ret (if sp_soh_incomplete sp then parse_error NeedMoreData 0 PARSING_TAG
           else parse_error InvalidFormat 0 ERROR_RECOVERY)
    else
      begins <-- looking_at mem base FIX_BEGIN_STRING ;;
      if negb begins then ret (parse_error InvalidFormat 0 ERROR_RECOVERY)
      else
        message <-- pool_allocate clock ;;
        match message with
        | None => ret (parse_error AllocationFailed 0 ERROR_RECOVERY)
        | Some msg => parse_allocated sp mem base length msg
        end.

Definition sp_execution_report : Specialisation :=
  {| sp_min_length := 40; sp_type := str "8"; sp_soh_incomplete := true;
     sp_positions := true; sp_check_type := true |}.
Definition sp_heartbeat : Specialisation :=
  {| sp_min_length := 30; sp_type := str "0"; sp_soh_incomplete := true;
     sp_positions := true; sp_check_type := false |}.
Definition sp_order_cancel_reject : Specialisation :=
  {| sp_min_length := 30; sp_type := str "9"; sp_soh_incomplete := true;
     sp_positions := true; sp_check_type := true |}.
Definition sp_reject : Specialisation :=
  {| sp_min_length := 25; sp_type := str "3"; sp_soh_incomplete := true;
     sp_positions := true; sp_check_type := false |}.
Definition sp_test_request : Specialisation :=
  {| sp_min_length := 25; sp_type := str "1"; sp_soh_incomplete := false;
     sp_positions := false; sp_check_type := false |}.
Definition sp_resend_request : Specialisation :=
  {| sp_min_length := 25; sp_type := str "2"; sp_soh_incomplete := false;
     sp_positions := false; sp_check_type := false |}.

Definition parseExecutionReport := parse_special sp_execution_report.
Definition parseHeartbeat := parse_special sp_heartbeat.
Definition parseOrderCancelReject := parse_special sp_order_cancel_reject.
Definition parseReject := parse_special sp_reject.
Definition parseTestRequest := parse_special sp_test_request.
Definition parseResendRequest := parse_special sp_resend_request.
End Clocked.

(** * Lemmas *)

(** A field that can travel: a tag the parser reads back, a value without SOH. *)
Definition wire_field (f : Z * bytes) : Prop := 0 <= fst f <= 2147483647 /\ FIX_SOH ∉ snd f.

(** The world after the fields were stored in the message. *)
Definition store (msg : Z) (f : Z * bytes) (w : World) : World :=
  mkWorld (w_parser w) (update_object (setField (fst f) (snd f)) msg (w_pool w)) (w_ticks w).
Definition store_fields (msg : Z) (fs : list (Z * bytes)) (w : World) : World :=
  fold_left (fun w f => store msg f w) fs w.

Lemma msg_setField_eval msg tag v w : msg_setField msg tag v w = (Ret tt, store msg (tag, v) w).
Proof. reflexivity. Qed.

Lemma store_fields_app msg fs gs w :
  store_fields msg (fs ++ gs) w = store_fields msg gs (store_fields msg fs w).
Proof. apply fold_left_app. Qed.

Lemma store_fields_parser msg fs w : w_parser (store_fields msg fs w) = w_parser w.
Proof. revert w. induction fs as [|f fs IH]; intros w; [done|]. apply (IH (store msg f w)). Qed.

Lemma store_fields_ticks msg fs w : w_ticks (store_fields msg fs w) = w_ticks w.
Proof. revert w. induction fs as [|f fs IH]; intros w; [done|]. apply (IH (store msg f w)). Qed.

Lemma store_fields_wf msg fs w :
  pool_wf (w_pool w) -> pool_wf (w_pool (store_fields msg fs w)).
Proof.
  revert w. induction fs as [|f fs IH]; intros w Hw; [done|].
  apply (IH (store msg f w)). by apply update_object_wf.
Qed.

Lemma store_fields_live msg fs w i :
  live_slot (w_pool (store_fields msg fs w)) i <-> live_slot (w_pool w) i.
Proof.
  revert w. induction fs as [|f fs IH]; intros w; [done|].
  change (store_fields msg (f :: fs) w) with (store_fields msg fs (store msg f w)).
  rewrite IH. apply update_object_live.
Qed.

Lemma store_fields_shape msg fs w :
  pool_size_ (w_pool (store_fields msg fs w)) = pool_size_ (w_pool w) /\
  pool_start_ (w_pool (store_fields msg fs w)) = pool_start_ (w_pool w) /\
  slot_bytes_ (w_pool (store_fields msg fs w)) = slot_bytes_ (w_pool w) /\
  pool_is_shutdown_ (w_pool (store_fields msg fs w)) = pool_is_shutdown_ (w_pool w).
Proof.
  revert w. induction fs as [|f fs IH]; intros w; [done|].
  change (store_fields msg (f :: fs) w) with (store_fields msg fs (store msg f w)).
  destruct (IH (store msg f w)) as (-> & -> & -> & ->). apply update_object_same.
Qed.

Lemma store_fields_other msg fs w i j :
  slot_of (w_pool w) msg = Some (Z.of_nat i) -> j <> i ->
  pool_slots_ (w_pool (store_fields msg fs w)) !! j = pool_slots_ (w_pool w) !! j.
Proof.
  intros Hs Hj. revert w Hs. induction fs as [|f fs IH]; intros w Hs; [done|].
  change (store_fields msg (f :: fs) w) with (store_fields msg fs (store msg f w)).
  rewrite IH by (simpl; by rewrite update_object_slot).
  simpl. unfold update_object. rewrite Hs. simpl. rewrite Nat2Z.id. by apply list_lookup_alter_ne.
Qed.

(** The message holds the stored fields over those it had. *)
Lemma store_fields_deref msg fs w m :
  deref (w_pool w) msg = Some m ->
  exists m', deref (w_pool (store_fields msg fs w)) msg = Some m' /\
             fields_ m' = set_all fs (fields_ m) /\
             (m = with_fields (fields_ m) -> m' = with_fields (fields_ m')).
Proof.
  revert w m. induction fs as [|f fs IH]; intros w m Hm; [by exists m|].
  assert (deref (w_pool (store msg f w)) msg = Some (setField (fst f) (snd f) m)) as Hs.
  { simpl. by rewrite update_object_deref, Hm. }
  destruct (IH _ _ Hs) as (m' & H1 & H2 & H3). exists m'. split; [done|]. split; [done|].
  intros _. by apply H3.
Qed.

(** One printed field as the parser reads it. *)
Lemma printed_field_split tag v rest :
  formatFixField tag v ++ rest = to_string tag ++ 61 :: v ++ FIX_SOH :: rest.
Proof. unfold formatFixField. by rewrite <- !app_assoc. Qed.

Lemma length_formatFixField tag v :
  length (formatFixField tag v) = (length (to_string tag) + length v + 2)%nat.
Proof. unfold formatFixField. rewrite !length_app. simpl. lia. Qed.

(** The field loop reads back printed fields, and its fuel is enough. *)
Lemma parse_fields_eval fuel sp mem base msg fs cur rest w :
  Forall wire_field fs -> (length fs < fuel)%nat -> (cur <= length mem)%nat ->
  drop cur mem = printFields fs ++ rest ->
  parse_fields fuel sp mem base (Z.of_nat (cur + length (printFields fs))) msg cur w
  = (Ret None, store_fields msg fs w).
Proof.
  revert fuel cur w. induction fs as [|[tag v] fs IH]; intros fuel cur w Hf Hfuel Hcur HD.
  { destruct fuel as [|f]; [simpl in Hfuel; lia|]. cbn [parse_fields].
    change (length (printFields [])) with O. rewrite Nat.add_0_r.
    by destruct (Z.ltb_spec (Z.of_nat cur) (Z.of_nat cur)); [lia|]. }
  apply Forall_cons in Hf as [[Ht Hv] Hf]. cbn [fst snd] in Ht, Hv.
  destruct fuel as [|f]; [simpl in Hfuel; lia|]. rewrite printFields_cons in *. cbn [fst snd] in *.
  rewrite <- app_assoc, printed_field_split in HD. set (ts := to_string tag) in *.
  rewrite length_app, length_formatFixField. fold ts.
  set (body_end := (cur + (length ts + length v + 2 + length (printFields fs)))%nat).
  assert (length mem = cur + length ts + 1 + length v + 1 + length (printFields fs ++ rest))%nat as Hm.
  { apply (f_equal length) in HD. rewrite length_drop in HD. rewrite !length_app in HD. simpl in HD.
    rewrite length_app in HD. simpl in HD. lia. }
  cbn [parse_fields]. destruct (Z.ltb_spec (Z.of_nat cur) (Z.of_nat body_end)); [|lia].
  rewrite (bind_ret _ _ _ _ _ (find_eval mem cur 61 (Z.to_nat (Z.of_nat body_end - Z.of_nat cur))
    _ _ w HD (to_string_no_special tag 61 ltac:(by left)) ltac:(fold ts; lia))). fold ts.
  rewrite (bind_ret _ _ _ _ _ (parseIntegerAt_eval mem cur (cur + length ts - cur) _ _ w Hcur HD ltac:(lia))).
  subst ts. rewrite parseInteger_to_string by done. set (ts := to_string tag) in *.
  assert (drop (cur + length ts + 1) mem = v ++ FIX_SOH :: printFields fs ++ rest) as Hvs.
  { eapply (drop_step mem (ts ++ [61])); [rewrite HD; by rewrite <- app_assoc|].
    rewrite length_app. simpl. lia. }
  rewrite (bind_ret _ _ _ _ _ (find_eval mem (cur + length ts + 1) FIX_SOH
    (Z.to_nat (Z.of_nat body_end - Z.of_nat (cur + length ts + 1))) _ _ w Hvs Hv ltac:(lia))).
  rewrite (bind_ret _ _ _ _ _ (substr_eval mem (cur + length ts + 1)
    (cur + length ts + 1 + length v - (cur + length ts + 1)) v _ w ltac:(lia) Hvs ltac:(lia))).
  rewrite (bind_ret _ _ _ _ _ (msg_setField_eval msg tag v w)).
  replace body_end with (cur + length ts + 1 + length v + 1 + length (printFields fs))%nat by lia.
  apply IH; [done|simpl in Hfuel; lia|lia|].
  eapply (drop_step mem (v ++ [FIX_SOH])); [rewrite Hvs; by rewrite <- app_assoc|].
  rewrite length_app. simpl. lia.
Qed.

(** ** Whole messages *)

(** A FIX message with these body fields: header, body, checksum over both. *)
Definition wire_front (fs : list (Z * bytes)) : bytes :=
  wire_header (length (printFields fs)) ++ printFields fs.
Definition wire (fs : list (Z * bytes)) : bytes :=
  wire_front fs ++ formatFixField Tag.CheckSum (utils_calculateChecksum (wire_front fs)).

Lemma length_wire fs : length (wire fs) = (length (wire_front fs) + 7)%nat.
Proof.
  unfold wire. rewrite length_app, length_formatFixField.
  destruct (checksum_text_shape (wire_front fs)) as [-> _]. simpl. lia.
Qed.

Lemma stoi_checksum s : stoi (utils_calculateChecksum s) = StoiOk (checksum8 s mod 256).
Proof.
  pose proof (checksum8_range s) as Hr. destruct (checksum_text_shape s) as [Hl Hd].
  rewrite stoi_digits; [|by intros E; rewrite E in Hl|done].
  unfold utils_calculateChecksum, pad. rewrite dec_value_leading_zeros, Z.mod_small by done.
  rewrite to_string_value by lia. rewrite (proj2 (andb_true_iff _ _)); [done|].
  rewrite !Z.leb_le. lia.
Qed.

Lemma size_t_small z : 0 <= z < 2 ^ 63 -> size_t z = z.
Proof. intros H. unfold size_t. apply Z.mod_small. lia. Qed.

(** The checksum block accepts the checksum of what precedes it, enabled or not. *)
Lemma finish_message_eval sp mem base front rest msg w :
  drop base mem = front ++ formatFixField Tag.CheckSum (utils_calculateChecksum front) ++ rest ->
  (base <= length mem)%nat -> Z.of_nat (length mem) < 2 ^ 62 ->
  finish_message sp mem base (Z.of_nat (base + length front)) msg w
  = (Ret (mkResult Success (Z.of_nat (length front + 7)) (Some msg) IDLE 0),
     store msg (Tag.CheckSum, utils_calculateChecksum front) w).
Proof.
  intros HD Hb Hsmall. set (cs := utils_calculateChecksum front) in *.
  destruct (checksum_text_shape front) as [Hl Hdig]. fold cs in Hl, Hdig.
  assert (length mem = base + length front + 7 + length rest)%nat as Hm.
  { apply (f_equal length) in HD. rewrite length_drop, !length_app, length_formatFixField in HD.
    rewrite Hl in HD. simpl in HD. lia. }
  assert (drop (base + length front) mem = FIX_CHECKSUM_TAG ++ cs ++ FIX_SOH :: rest) as Hq.
  { eapply drop_step; [rewrite HD|done]. by rewrite printed_field_split. }
  assert (drop (base + length front + 3) mem = cs ++ FIX_SOH :: rest) as Hq3
    by (by eapply drop_step).
  unfold finish_message. unfold get_parser at 1. unfold bind at 1. unfold in_array.
  destruct (Z.ltb_spec (Z.of_nat (base + length front)) 0); [lia|]. rewrite Nat2Z.id.
  rewrite (bind_ret _ _ w (base + length front)%nat w) by done.
  replace (Z.of_nat (base + length front) - Z.of_nat base) with (Z.of_nat (length front)) by lia.
  rewrite (size_t_small (Z.of_nat (length front))) by lia. rewrite size_t_small by lia.
  replace (Z.of_nat (length front) + 7) with (Z.of_nat (length front + 7)) by lia.
  destruct (validate_checksum_ (w_parser w)).
  - rewrite (bind_ret _ _ _ _ _ (looking_at_eval _ _ _ _ _ Hq)). cbn [negb].
    rewrite (bind_ret _ _ _ _ _ (substr_eval mem (base + length front + 3) 3 cs _ w
      ltac:(lia) Hq3 ltac:(lia))).
    rewrite (bind_ret _ _ _ _ _ (msg_setField_eval msg Tag.CheckSum cs w)).
    destruct (Z.ltb_spec (Z.of_nat (base + length front)) (Z.of_nat base)); [lia|].
    rewrite (bind_ret _ _ _ _ _ (substr_eval mem base (base + length front - base) front _ _
      Hb HD ltac:(lia))).
    unfold cs at 1. rewrite stoi_checksum. unfold u8. rewrite Z.mod_mod, Z.eqb_refl by lia. done.
  - rewrite (bind_ret _ _ _ _ _ (substr_eval mem (base + length front + 3) 3 cs _ w
      ltac:(lia) Hq3 ltac:(lia))). done.
Qed.

(** The fields a decoded message holds over those of a fresh one. *)
Definition decoded (sp : Specialisation) (fs : list (Z * bytes)) : list (Z * bytes) :=
  [(Tag.BeginString, FIX_VERSION_44); (Tag.MsgType, sp_type sp);
   (Tag.BodyLength, to_string (Z.of_nat (length (printFields fs))))] ++ fs ++
  [(Tag.CheckSum, utils_calculateChecksum (wire_front fs))].

Lemma hasField_stored msg tag fs w m :
  deref (w_pool w) msg = Some m -> tag ∈ fs.*1 ->
  msg_hasField msg tag (store_fields msg fs w) = (Ret true, store_fields msg fs w).
Proof.
  intros Hm Hin. destruct (store_fields_deref msg fs w m Hm) as (m' & H1 & H2 & _).
  unfold msg_hasField. rewrite H1. unfold hasField. rewrite H2.
  assert (is_Some (set_all fs (fields_ m) !! tag)) as [v ->]; [|done].
  clear - Hin. revert Hin. generalize (fields_ m). induction fs as [|[t v] fs IH]; intros g Hin.
  { by apply not_elem_of_nil in Hin. }
  cbn in Hin. change (set_all ((t, v) :: fs) g) with (set_all fs (<[t := v]> g)).
  destruct (decide (tag ∈ fs.*1)) as [Hi|Hi]; [by apply IH|].
  apply elem_of_cons in Hin as [->|Hin]; [|done]. rewrite set_all_notin by done.
  rewrite lookup_insert_eq. by eexists.
Qed.

(** The fields stored when the checksum block is reached. *)
Definition decoded_front (sp : Specialisation) (fs : list (Z * bytes)) : list (Z * bytes) :=
  [(Tag.BeginString, FIX_VERSION_44); (Tag.MsgType, sp_type sp);
   (Tag.BodyLength, to_string (Z.of_nat (length (printFields fs))))] ++ fs.

(** Header and body are decoded whatever follows them in memory. *)
Lemma parse_allocated_front sp mem base len fs rest msg m w :
  drop base mem = wire_front fs ++ rest ->
  Forall wire_field fs -> Z.of_nat (length (printFields fs)) <= 2147483647 ->
  (length (wire_header (length (printFields fs))) <= len)%nat ->
  deref (w_pool w) msg = Some m ->
  parse_allocated sp mem base len msg w
  = finish_message sp mem base (Z.of_nat (base + length (wire_front fs))) msg
      (store_fields msg (decoded_front sp fs) w).
Proof.
  intros HD Hf Hn Hlen Hm. set (n := length (printFields fs)) in *.
  pose proof HD as HD0. unfold wire_front in HD0. fold n in HD0.
  rewrite wire_header_split, <- !app_assoc in HD0.
  assert (drop (base + 12) mem = to_string (Z.of_nat n) ++ FIX_SOH :: printFields fs ++ rest)
    as H12 by (by eapply (drop_step mem (FIX_BEGIN_STRING ++ FIX_SOH :: str "9="))).
  rewrite length_wire_header in Hlen. set (ds := to_string (Z.of_nat n)) in *.
  assert (length mem = base + 12 + length ds + 1 + n + length rest)%nat as Hmem.
  { pose proof (drop_length_le _ _ _ H12 ltac:(by destruct ds)) as Hle.
    apply (f_equal length) in H12. rewrite length_drop, length_app in H12.
    cbn [length] in H12. rewrite (length_app (printFields fs)) in H12. fold n in H12.
    clear - H12 Hle. lia. }
  assert (length ds < base + len - (base + 12))%nat as Hds by lia.
  unfold parse_allocated.
  rewrite (bind_ret _ _ _ _ _ (msg_setField_eval msg Tag.BeginString FIX_VERSION_44 w)).
  rewrite (bind_ret _ _ _ _ _ (msg_setField_eval msg Tag.MsgType (sp_type sp) _)).
  rewrite (bind_ret _ _ _ _ _ (find_eval mem (base + 12) FIX_SOH (base + len - (base + 12)) _ _ _ H12
    (digits_no_soh_text n) Hds)).
  rewrite (bind_ret _ _ _ _ _ (parseIntegerAt_eval mem (base + 12)
    (base + 12 + length ds - (base + 12)) _ _ _ ltac:(lia) H12 ltac:(lia))).
  unfold ds at 1. rewrite parseInteger_to_string by lia.
  rewrite int_to_string_to_string by (unfold int32_range; lia).
  rewrite (bind_ret _ _ _ _ _ (msg_setField_eval msg Tag.BodyLength _ _)).
  assert (drop (base + 12 + length ds + 1) mem = printFields fs ++ rest) as Hbody.
  { eapply (drop_step mem (ds ++ [FIX_SOH])); [rewrite H12; by rewrite <- app_assoc|].
    rewrite length_app. simpl. lia. }
  pose proof (printFields_count fs) as Hcount.
  replace (Z.of_nat (base + 12 + length ds) + 1 + Z.of_nat n)
    with (Z.of_nat (base + 12 + length ds + 1 + length (printFields fs))) by (fold n; lia).
  fold n in Hcount.
  assert (length fs < S (length mem))%nat as Hfuel by lia.
  assert (base + 12 + length ds + 1 <= length mem)%nat as Hcur by lia.
  rewrite (bind_ret _ _ _ _ _ (parse_fields_eval (S (length mem)) sp mem base msg fs _ _ _ Hf
    Hfuel Hcur Hbody)).
  change (store msg (Tag.BodyLength, ?v) (store msg ?b (store msg ?a w)))
    with (store_fields msg [a; b; (Tag.BodyLength, v)] w).
  rewrite <- store_fields_app. fold (decoded_front sp fs).
  assert ((if sp_check_type sp then msg_hasField msg Tag.MsgType else ret true)
            (store_fields msg (decoded_front sp fs) w)
          = (Ret true, store_fields msg (decoded_front sp fs) w)) as Hty.
  { destruct (sp_check_type sp); [|done]. eapply hasField_stored; [done|].
    unfold decoded_front. set_solver. }
  rewrite (bind_ret _ _ _ _ _ Hty). cbn [negb]. f_equal.
  unfold wire_front. rewrite length_app, length_wire_header. fold n. fold ds. lia.
Qed.

Lemma parse_allocated_eval sp mem base len fs rest msg m w :
  drop base mem = wire fs ++ rest -> (base <= length mem)%nat -> Z.of_nat (length mem) < 2 ^ 62 ->
  Forall wire_field fs -> Z.of_nat (length (printFields fs)) <= 2147483647 ->
  (length (wire_header (length (printFields fs))) <= len)%nat ->
  deref (w_pool w) msg = Some m ->
  parse_allocated sp mem base len msg w
  = (Ret (mkResult Success (Z.of_nat (length (wire fs))) (Some msg) IDLE 0),
     store_fields msg (decoded sp fs) w).
Proof.
  intros HD Hb Hsmall Hf Hn Hlen Hm. rewrite length_wire.
  unfold wire in HD. rewrite <- app_assoc in HD.
  rewrite (parse_allocated_front sp mem base len fs _ msg m w HD) by done.
  rewrite (finish_message_eval sp mem base (wire_front fs) rest) by done.
  change (decoded sp fs) with (decoded_front sp fs ++
    [(Tag.CheckSum, utils_calculateChecksum (wire_front fs))]).
  by rewrite (store_fields_app msg (decoded_front sp fs)).
Qed.

(** A pool that can hand out a message. *)
Definition can_allocate (p : FixMessagePool) : Prop :=
  pool_is_shutdown_ p = false /\ 0 < available p.

Lemma allocate_available fresh p :
  pool_wf p -> can_allocate p -> exists a p', allocate fresh p = (Some a, p').
Proof.
  intros Hw [Hs Ha]. destruct (allocate fresh p) as [[a|] p'] eqn:E; [eauto|].
  destruct (allocate_none _ _ _ Hw E) as [_ [H|H]]; [congruence|lia].
Qed.

(** A freshly allocated message: the slot was free, the others stay. *)
Lemma allocate_fresh (fresh : FixMessage) (p : FixMessagePool) a p' :
  pool_wf p -> allocate fresh p = (Some a, p') ->
  exists i, a = addr_of p (Z.of_nat i) /\ i ∉ live_set p /\ live_set p' = {[i]} ∪ live_set p /\
    deref p' a = Some fresh /\ pool_wf p' /\ available p' = available p - 1 /\
    slot_of p' a = Some (Z.of_nat i) /\ pool_is_shutdown_ p' = pool_is_shutdown_ p /\
    (pool_size_ p' = pool_size_ p /\ pool_start_ p' = pool_start_ p /\ slot_bytes_ p' = slot_bytes_ p) /\
    (forall j, j ∈ live_set p -> j <> i /\ pool_slots_ p' !! j = pool_slots_ p !! j).
Proof.
  intros Hw E. destruct (allocate_some _ _ _ _ Hw E) as (i & -> & Hi & Hs & Hc & Hz & Hst & Hsb & Hw').
  pose proof (lookup_lt_Some _ _ _ Hi) as Hlt.
  assert (addr_of p' (Z.of_nat i) = addr_of p (Z.of_nat i)) as Ha by (unfold addr_of; by rewrite Hst, Hsb).
  exists i. split_and!; try done.
  - rewrite elem_of_live_set. intros [o Ho]. congruence.
  - by eapply live_set_insert.
  - rewrite <- Ha. unfold deref. rewrite slot_of_addr; [|apply Hw'|destruct Hw; lia]. simpl.
    by rewrite Nat2Z.id, Hs, list_lookup_insert_eq.
  - unfold available. lia.
  - rewrite <- Ha. apply slot_of_addr; [apply Hw'|destruct Hw; lia].
  - unfold allocate, allocateRaw in E. destruct (pool_is_shutdown_ p) eqn:Es; [done|].
    destruct (0 <=? free_list_head_ p); [|done]. by injection E as _ <-.
  - intros j Hj. assert (j <> i) as Hji.
    { intros ->. apply elem_of_live_set in Hj as [o Ho]. congruence. }
    split; [done|]. rewrite Hs. by apply list_lookup_insert_ne.
Qed.

Lemma wire_front_last fs : exists l, wire_front fs = l ++ [FIX_SOH].
Proof.
  unfold wire_front. destruct fs as [|f fs] using rev_ind.
  - change (printFields []) with (@nil Z). rewrite app_nil_r, wire_header_split.
    eexists. by rewrite !app_assoc.
  - rewrite printFields_app, printFields_cons. change (printFields []) with (@nil Z).
    rewrite app_nil_r. unfold formatFixField at 2. eexists. by rewrite !app_assoc.
Qed.

Lemma wire_front_begin fs : exists l, wire_front fs = FIX_BEGIN_STRING ++ l.
Proof. unfold wire_front. rewrite wire_header_split, <- !app_assoc. by eexists. Qed.

(** The checks before the allocation pass on a complete message. *)
Lemma parse_special_eval clock sp mem base fs rest w :
  drop base mem = wire_front fs ++ rest ->
  (sp_min_length sp <= length (wire_front fs))%nat ->
  parse_special clock sp mem base (length (wire_front fs)) w
  = bind (pool_allocate clock) (fun message =>
      match message with
      | None => ret (parse_error AllocationFailed 0 ERROR_RECOVERY)
      | Some msg => parse_allocated sp mem base (length (wire_front fs)) msg
      end) w.
Proof.
  intros HD Hmin. unfold parse_special. rewrite decide_False by lia.
  destruct (wire_front_last fs) as [l Hl]. destruct (wire_front_begin fs) as [k Hk].
  assert (read mem (base + length (wire_front fs) - 1) w = (Ret FIX_SOH, w)) as Hr.
  { unfold read. replace (mem !! (base + length (wire_front fs) - 1)%nat) with (Some FIX_SOH); [done|].
    symmetry. replace (base + length (wire_front fs) - 1)%nat with (base + length l)%nat
      by (rewrite Hl, length_app; simpl; lia).
    rewrite <- lookup_drop, HD, Hl, <- app_assoc. by apply list_lookup_middle. }
  rewrite (bind_ret _ _ _ _ _ Hr), Z.eqb_refl. cbn [negb].
  rewrite Hk in HD at 1. rewrite <- app_assoc in HD.
  by rewrite (bind_ret _ _ _ _ _ (looking_at_eval _ _ _ _ _ HD)).
Qed.

Definition specialisations : list Specialisation :=
  [sp_execution_report; sp_heartbeat; sp_order_cancel_reject; sp_reject; sp_test_request;
   sp_resend_request].

(** The pool is the same array of memory. *)
Definition same_layout (p p' : FixMessagePool) : Prop :=
  pool_size_ p' = pool_size_ p /\ pool_start_ p' = pool_start_ p /\
  slot_bytes_ p' = slot_bytes_ p.

(** What storing the fields [l] in a new message leaves: one more live message, holding
    exactly those fields over the default SendingTime, its caches empty; the messages
    that were live before are untouched. *)
Definition stores_to (clock : nat -> Z) (l : list (Z * bytes)) (w : World) (a : Z) (w' : World)
    : Prop :=
  exists i m, a = addr_of (w_pool w) (Z.of_nat i) /\ i ∉ live_set (w_pool w) /\
    live_set (w_pool w') = {[i]} ∪ live_set (w_pool w) /\ pool_wf (w_pool w') /\
    pool_is_shutdown_ (w_pool w') = pool_is_shutdown_ (w_pool w) /\
    available (w_pool w') = available (w_pool w) - 1 /\
    deref (w_pool w') a = Some m /\
    m = with_fields (set_all l (fields_ (newFixMessage (clock (w_ticks w))))) /\
    same_layout (w_pool w) (w_pool w') /\
    (forall j, j ∈ live_set (w_pool w) -> pool_slots_ (w_pool w') !! j = pool_slots_ (w_pool w) !! j).

(** What decoding the fields [fs] with [sp] leaves: header and trailer are fields too. *)
Definition decodes_to (clock : nat -> Z) (sp : Specialisation) (fs : list (Z * bytes))
    (w : World) (a : Z) (w' : World) : Prop := stores_to clock (decoded sp fs) w a w'.

Lemma stores_allocated clock l w a p' :
  pool_wf (w_pool w) ->
  allocate (newFixMessage (clock (w_ticks w))) (w_pool w) = (Some a, p') ->
  stores_to clock l w a (store_fields a l (mkWorld (w_parser w) p' (S (w_ticks w)))).
Proof.
  intros Hw E. destruct (allocate_fresh _ _ _ _ Hw E)
    as (i & Ha & Hni & Hlive & Hd & Hw' & Hav & Hai & Hsd & Hlay & Hoth).
  set (w1 := mkWorld (w_parser w) p' (S (w_ticks w))).
  destruct (store_fields_deref a l w1 _ Hd) as (m & Hm1 & Hm2 & Hm3).
  specialize (Hm3 eq_refl). rewrite Hm2 in Hm3.
  destruct (store_fields_shape a l w1) as (Hs1 & Hs2 & Hs3 & Hs4).
  exists i, m. split_and!; try done.
  - apply set_eq. intros j. rewrite elem_of_live_set, store_fields_live.
    change (w_pool w1) with p'. by rewrite <- elem_of_live_set, Hlive.
  - by apply store_fields_wf.
  - rewrite Hs4. done.
  - pose proof (size_live_set _ (store_fields_wf a l w1 Hw')) as Hsz.
    assert (live_set (w_pool (store_fields a l w1)) = live_set p') as Els.
    { apply set_eq. intros j. by rewrite elem_of_live_set, store_fields_live, <- elem_of_live_set. }
    rewrite Els, size_live_set in Hsz by done. unfold available in *. rewrite Hs1, <- Hsz.
    change (w_pool w1) with p'. lia.
  - unfold same_layout. rewrite Hs1, Hs2, Hs3. exact Hlay.
  - intros j Hj. destruct (Hoth j Hj) as [Hji <-]. by apply (store_fields_other a _ w1 i j Hai).
Qed.

Lemma special_decodes clock sp mem base fs rest w :
  drop base mem = wire fs ++ rest -> Z.of_nat (length mem) < 2 ^ 62 ->
  Forall wire_field fs -> Z.of_nat (length (printFields fs)) <= 2147483647 ->
  (sp_min_length sp <= length (wire_front fs))%nat ->
  pool_wf (w_pool w) -> can_allocate (w_pool w) ->
  exists a w', parse_special clock sp mem base (length (wire_front fs)) w
               = (Ret (mkResult Success (Z.of_nat (length (wire fs))) (Some a) IDLE 0), w') /\
               decodes_to clock sp fs w a w' /\ w_parser w' = w_parser w.
Proof.
  intros HD Hsmall Hf Hn Hmin Hw Hc.
  assert (base <= length mem)%nat as Hb.
  { eapply drop_length_le; [exact HD|]. intros E. apply (f_equal length) in E.
    rewrite length_app, length_wire in E. simpl in E. lia. }
  pose proof HD as HD1. unfold wire in HD1. rewrite <- app_assoc in HD1.
  rewrite (parse_special_eval clock sp mem base fs _ w HD1 Hmin).
  destruct (allocate_available (newFixMessage (clock (w_ticks w))) _ Hw Hc) as (a & p' & E).
  destruct (allocate_fresh _ _ _ _ Hw E) as (i & _ & _ & _ & Hd & _).
  set (w1 := mkWorld (w_parser w) p' (S (w_ticks w))).
  assert (pool_allocate clock w = (Ret (Some a), w1)) as Hp by (unfold pool_allocate; by rewrite E).
  rewrite (bind_ret _ _ _ _ _ Hp).
  assert (length (wire_header (length (printFields fs))) <= length (wire_front fs))%nat as Hh
    by (unfold wire_front; rewrite length_app; lia).
  rewrite (parse_allocated_eval sp mem base _ fs rest a (newFixMessage (clock (w_ticks w))) w1) by done.
  eexists a, _. split; [done|]. split; [by apply stores_allocated|].
  apply (store_fields_parser a (decoded sp fs) w1).
Qed.

(** * Properties *)

(** C5: each of the six optimised parsers inverts serialisation: given a complete
    message of its type (any fields with non-negative [int] tags and SOH-free values,
    the correct BodyLength and CheckSum) it reports success with the full length, and
    hands out a message from a free slot that holds exactly the received fields, the
    later of repeated ones; the only other field is the SendingTime of construction. *)
Theorem optimised_round_trip clock sp mem base fs rest w :
  sp ∈ specialisations -> drop base mem = wire fs ++ rest -> Z.of_nat (length mem) < 2 ^ 62 ->
  Forall wire_field fs -> Z.of_nat (length (printFields fs)) <= 2147483647 ->
  (sp_min_length sp <= length (wire_front fs))%nat ->
  pool_wf (w_pool w) -> can_allocate (w_pool w) ->
  exists a w', parse_special clock sp mem base (length (wire_front fs)) w
               = (Ret (mkResult Success (Z.of_nat (length (wire fs))) (Some a) IDLE 0), w') /\
               decodes_to clock sp fs w a w' /\ w_parser w' = w_parser w.
Proof. intros _. apply special_decodes. Qed.

(** A heartbeat with sender and sequence number. *)
Definition sample_fields : list (Z * bytes) :=
  [(Tag.MsgType, str "0"); (Tag.SenderCompID, str "BROKER"); (Tag.MsgSeqNum, str "7")].

Lemma sample_wire_fields : Forall wire_field sample_fields.
Proof.
  repeat constructor; cbn [fst snd]; try (vm_compute; discriminate);
    apply (bool_decide_unpack _); vm_compute; exact I.
Qed.

Lemma sample_can_allocate : can_allocate sample_pool.
Proof. split; [reflexivity|]. vm_compute. reflexivity. Qed.

Lemma optimised_round_trip_witness :
  exists a w', parse_special (fun _ => 0) sp_heartbeat (wire sample_fields) 0
                 (length (wire_front sample_fields)) sample_world
               = (Ret (mkResult Success (Z.of_nat (length (wire sample_fields))) (Some a) IDLE 0), w') /\
               decodes_to (fun _ => 0) sp_heartbeat sample_fields sample_world a w' /\
               w_parser w' = w_parser sample_world.
Proof.
  refine (optimised_round_trip (fun _ => 0) sp_heartbeat (wire sample_fields) 0 sample_fields []
            sample_world _ _ _ sample_wire_fields _ _ sample_pool_wf sample_can_allocate).
  - unfold specialisations. set_solver.
  - rewrite app_nil_r. reflexivity.
  - vm_compute. reflexivity.
  - vm_compute. discriminate.
  - apply (bool_decide_unpack _). vm_compute. exact I.
Defined.
