(* ===== verification/StreamParser.v ===== *)
(** [StreamFixParser]: the generic [parseMessage], the dispatcher
    [parseIntelligent], [parseCompleteMessage], error recovery and the entry point
    [parse] with its partial buffer, from [stream_fix_parser.cpp]. *)
From S2P Require Import Prelude FixFields MessagePool FixMessage ParserState Framing OptimizedParser.

Section Clocked.
Variable clock : nat -> Z.

(** * The generic parser *)

(** A result initialised with four members: state IDLE, error position 0. *)
Definition plain (st : ParseStatus) (consumed : Z) : ParseResult :=
  mkResult st consumed None IDLE 0.

(** The field loop of [parseMessage] from [cur] to [end_ptr]. *)
Fixpoint message_fields (fuel : nat) (mem : bytes) (base end_ptr : nat) (msg : Z) (cur : nat)
    : P (option ParseResult) :=
  match fuel with
  | O => nofuel
  | S f =>
      if decide (cur < end_ptr)%nat then
        equals <-- find mem cur 61 (end_ptr - cur) ;;
        match equals with
        | None =>
            r <-- abandon msg (plain InvalidFormat (Z.of_nat (cur - base))) ;; ret (Some r)
        | Some e =>
            tag <-- parseIntegerAt mem cur (e - cur) ;;
            match tag with
            | None =>
                r <-- abandon msg (plain InvalidFormat (Z.of_nat (cur - base))) ;; ret (Some r)
            | Some field_tag =>
                let value_start := (e + 1)%nat in
                soh <-- find mem value_start FIX_SOH (end_ptr - value_start) ;;
                match soh with
                | None =>
                    r <-- abandon msg (plain InvalidFormat (Z.of_nat (value_start - base))) ;;
                    ret (Some r)
                | Some s =>
                    v <-- substr mem value_start (s - value_start) ;;
                    msg_setField msg field_tag v ;;;
                    if field_tag =? Tag.CheckSum then ret None
                    else message_fields f mem base end_ptr msg (s + 1)
                end
            end
        end
      else ret None
  end.

(** [validateParsedMessage] *)
Definition validateParsedMessage (msg : Z) : P bool :=
  b8 <-- msg_hasField msg Tag.BeginString ;;
  b9 <-- msg_hasField msg Tag.BodyLength ;;
  b35 <-- msg_hasField msg Tag.MsgType ;;
  b10 <-- msg_hasField msg Tag.CheckSum ;;
  ret (b8 && b9 && b35 && b10).

(** [parseMessage(mem + base, start_pos, end_pos)] *)
Definition parseMessage (mem : bytes) (base start_pos end_pos : nat) : P ParseResult :=
  message <-- pool_allocate clock ;;
  match message with
  | None => ret (plain AllocationFailed 0)
  | Some msg =>
      r <-- message_fields (S (List.length mem)) mem base (base + end_pos) msg (base + start_pos) ;;
      match r with
      | Some err => ret err
      | None =>
          p <-- get_parser ;;
          valid <-- (if strict_validation_ p then validateParsedMessage msg else ret true) ;;
          if negb valid then abandon msg (plain InvalidFormat 0)
          else
            sum_ok <-- (if validate_checksum_ p
                        then validateMessageChecksum mem (base + start_pos) (end_pos - start_pos)
                        else ret true) ;;
            if negb sum_ok then abandon msg (plain ChecksumError 0)
            else ret (mkResult Success (Z.of_nat (end_pos - start_pos)) (Some msg) IDLE 0)
      end
  end.

(** * Dispatch *)

(** [parseIntelligent] *)
Definition parseIntelligent (mem : bytes) (base length : nat) : P ParseResult :=
  t <-- extractMsgType mem base length ;;
  if decide (t = []) then parseMessage mem base 0 length
  else if decide (t = str "8") then parseExecutionReport clock mem base length
  else if decide (t = str "0") then parseHeartbeat clock mem base length
  else if decide (t = str "9") then parseOrderCancelReject clock mem base length
  else if decide (t = str "3") then parseReject clock mem base length
  else if decide (t = str "1") then parseTestRequest clock mem base length
  else if decide (t = str "2") then parseResendRequest clock mem base length
  else parseMessage mem base 0 length.

(** [parseCompleteMessage] *)
Definition parseCompleteMessage (mem : bytes) (base length : nat) : P ParseResult :=
  if decide (length = 0)%nat then ret (plain InvalidFormat 0)
  else
    result <-- parseIntelligent mem base length ;;
    if decide (status result = Success) then ret result
    else
      fallback <-- parseMessage mem base 0 length ;;
      if decide (status fallback = Success) then
        ret (mkResult Success (Z.of_nat length) (parsed_message fallback) IDLE
               (error_position fallback))
      else ret fallback.

(** * Error recovery *)

(** [handleErrorRecovery], also [handleCorruptedSkip], on [parse_context_]. *)
Definition handleErrorRecovery (mem : bytes) (base length : nat) : P ParseResult :=
  skip_bytes <-- skipToNextPotentialMessage mem base length 0 ;;
  if Z.of_nat length <=? skip_bytes then
    update_parser (fun p => with_context context_reset
                              (with_stats (add_counters 0 0 0 (Z.of_nat length)) p)) ;;;
    ret (mkResult NeedMoreData (Z.of_nat length) None IDLE 0)
  else
    update_parser (fun p => with_context context_reset
                              (with_stats (add_counters 0 0 0 skip_bytes) p)) ;;;
    ok <-- transitionToState IDLE ;;
    if negb ok then ret (mkResult StateTransitionError skip_bytes None ERROR_RECOVERY skip_bytes)
    else ret (mkResult RecoverySuccess skip_bytes None IDLE 0).

(** [attemptErrorRecovery] *)
Definition attemptErrorRecovery (mem : bytes) (base length : nat) : P ParseResult :=
  ok <-- transitionToState ERROR_RECOVERY ;;
  if negb ok then
    p <-- get_parser ;;
    ret (mkResult StateTransitionError 0 None (current_state (parse_context_ p)) 0)
  else handleErrorRecovery mem base length.

(** * The entry point *)

(** [std::memcpy] into the partial buffer at [at_]; bytes behind the copied ones stay.
    A copy that ends past the array is undefined behaviour. *)
Definition copy_to_partial (at_ : nat) (src : bytes) : P unit :=
  p <-- get_parser ;;
  if PARTIAL_BUFFER_SIZE <? Z.of_nat (at_ + List.length src) then ub
  else if decide (List.length (partial_buffer_ p) < at_)%nat then ub
  else update_parser (fun p =>
         with_partial (take at_ (partial_buffer_ p) ++ src ++
                       drop (at_ + List.length src) (partial_buffer_ p))
           (partial_buffer_size_ p) p).

(** The result of one turn of the loop of [parse]: return, or go on from a cursor
    with the last successful result. *)
Inductive turn :=
  | Return_ (r : ParseResult)
  | Continue_ (cursor : Z) (last : option ParseResult).

(** A framing error at [cursor]. *)
Definition framing_error (mem : bytes) (cursor len : nat) (last : option ParseResult)
    (frameRes : ParseResult) : P turn :=
  p <-- get_parser ;;
  recovered <-- (if canRecoverFromError p (status frameRes) (final_state frameRes) then
                   recovery <-- attemptErrorRecovery mem cursor (len - cursor) ;;
                   if decide (status recovery = RecoverySuccess) then
                     recordErrorRecovery true ;;; ret (Some (bytes_consumed recovery))
                   else recordErrorRecovery false ;;; ret None
                 else ret None) ;;
  match recovered with
  | Some skipped => ret (Continue_ (size_t (Z.of_nat cursor + skipped)) last)
  | None =>
      updateErrorStats clock (status frameRes) (final_state frameRes) ;;;
      ret (Return_ frameRes)
  end.

(** Statistics and recovery after the message at [msgPtr] was decoded. *)
Definition after_decode (mem : bytes) (cursor msgPtr msgLen msgEnd : nat) (decodeRes : ParseResult)
    : P ParseResult :=
  t <-- now clock ;;
  p <-- get_parser ;;
  let parse_time := size_t (t - parse_start_time_ p) in
  if decide (status decodeRes = Success) then
    resetErrorRecovery clock ;;;
    recordPartialMessageHandled ;;;
    update_parser (with_stats (updateStats Success parse_time)) ;;;
    ret decodeRes
  else if decide (status decodeRes = NeedMoreData) then ret decodeRes
  else
    updateErrorStats clock (status decodeRes) (final_state decodeRes) ;;;
    update_parser (with_stats (updateStats (status decodeRes) parse_time)) ;;;
    q <-- get_parser ;;
    if canRecoverFromError q (status decodeRes) (final_state decodeRes) then
      recovery <-- attemptErrorRecovery mem msgPtr msgLen ;;
      if decide (status recovery = RecoverySuccess) then
        recordErrorRecovery true ;;;
        ret (mkResult RecoverySuccess (Z.of_nat (cursor + msgEnd)) (parsed_message recovery)
               (final_state recovery) (error_position recovery))
      else recordErrorRecovery false ;;; ret decodeRes
    else ret decodeRes.

(** One turn of the loop at [cursor < len]. *)
Definition parse_turn (mem : bytes) (len cursor : nat) (last : option ParseResult) : P turn :=
  frame <-- findCompleteMessage mem cursor (len - cursor) ;;
  let '(frameRes, msgStart, msgEnd) := frame in
  if decide (status frameRes = NeedMoreData) then
    leftover <-- substr mem cursor (len - cursor) ;;
    copy_to_partial 0 leftover ;;;
    update_parser (fun p => with_partial (partial_buffer_ p) (len - cursor) p) ;;;
    ret (Return_ frameRes)
  else if decide (status frameRes <> Success) then framing_error mem cursor len last frameRes
  else
    let msgPtr := (cursor + msgStart)%nat in
    let msgLen := (msgEnd - msgStart)%nat in
    decoded <-- parseCompleteMessage mem msgPtr msgLen ;;
    let actual := bytes_consumed decoded in
    let decodeRes := mkResult (status decoded) (size_t (Z.of_nat cursor + actual))
                       (parsed_message decoded) (final_state decoded) (error_position decoded) in
    r <-- after_decode mem cursor msgPtr msgLen msgEnd decodeRes ;;
    if decide (status r <> Success) then ret (Return_ r)
    else
      let cursor' := size_t (Z.of_nat cursor + actual) in
      ret (Continue_ cursor' (Some (mkResult Success cursor' (parsed_message r) (final_state r)
                                      (error_position r)))).

(** [while (cursor < len)] and the result behind it. *)
Fixpoint parse_turns (fuel : nat) (mem : bytes) (len : nat) (cursor : Z)
    (last : option ParseResult) : P ParseResult :=
  if cursor <? Z.of_nat len then
    match fuel with
    | O => nofuel
    | S f =>
        t <-- parse_turn mem len (Z.to_nat cursor) last ;;
        match t with
        | Return_ r => ret r
        | Continue_ cursor' last' => parse_turns f mem len cursor' last'
        end
    end
  else
    match last with
    | Some r => ret r
    | None => ret (mkResult NeedMoreData cursor None IDLE 0)
    end.

(** Prepend the partial bytes: the buffer and the length to scan, or the error. *)
Definition prepend_partial (buf : bytes) (len : nat) : P (bytes * nat + ParseResult) :=
  p <-- get_parser ;;
  let size := partial_buffer_size_ p in
  if decide (size <> 0)%nat then
    if PARTIAL_BUFFER_SIZE <? Z.of_nat (size + len) then
      ret (inr (mkResult MessageTooLarge 0 None ERROR_RECOVERY 0))
    else
      new_bytes <-- substr buf 0 len ;;
      copy_to_partial size new_bytes ;;;
      update_parser (fun p => with_partial (partial_buffer_ p) 0 p) ;;;
      q <-- get_parser ;;
      ret (inl (partial_buffer_ q, (size + len)%nat))
  else ret (inl (buf, len)).

(** The body of the [try] block. *)
Definition parse_body (buf : bytes) (len : nat) : P ParseResult :=
  active <-- isCircuitBreakerActive clock ;;
  if active then ret (mkResult CorruptedData 0 None ERROR_RECOVERY 0)
  else
    b <-- prepend_partial buf len ;;
    match b with
    | inr err => ret err
    | inl (mem, n) => parse_turns (S n) mem n 0 None
    end.

(** [parse(buf, len)]: [buf] is the array the caller's pointer points to, [None] for a
    null pointer. *)
Definition parse (buf : option bytes) (len : nat) : P ParseResult :=
  match buf with
  | None => ret (plain InvalidFormat 0)
  | Some mem =>
      if decide (len = 0)%nat then ret (plain InvalidFormat 0)
      else
        t <-- now clock ;;
        update_parser (with_start_time t) ;;;
        try_catch (parse_body mem len)
          (update_parser (fun p =>
             with_context (fun c => set_errors (error_count_in_session c + 1)
                                      (consecutive_errors c) (last_error_time c) c)
               (with_stats (updateStats InvalidFormat 0) p)) ;;;
           ret (mkResult InvalidFormat 0 None ERROR_RECOVERY 0))
  end.
End Clocked.

(** * Lemmas *)

(** ** The message type *)

Lemma search_cons_false pat x l :
  prefix_of pat (x :: l) = false -> search pat (x :: l) = S <$> search pat l.
Proof. intros H. cbn [search]. by rewrite H. Qed.

Lemma search_type_digits ds r :
  Forall (fun c => is_digit c = true) ds ->
  search (str "35=") (ds ++ FIX_SOH :: str "35=" ++ r) = Some (length ds + 1)%nat.
Proof.
  induction 1 as [|d ds Hd Hds IH]; cbn [app].
  - rewrite search_cons_false by done. by rewrite search_prefix.
  - rewrite search_cons_false; [by rewrite IH|].
    change (str "35=") with [51; 53; 61]. cbn [prefix_of].
    destruct Hds as [|e ds He Hds]; [by rewrite !andb_false_r|].
    destruct Hds as [|f ds Hf Hds]; [cbn; by rewrite !andb_false_r|]. cbn [app].
    apply is_digit_spec in Hf. destruct (Z.eqb_spec 61 f); [lia|]. by rewrite !andb_false_r.
Qed.

Lemma search_type_header n r :
  search (str "35=") (wire_header n ++ str "35=" ++ r) = Some (length (wire_header n)).
Proof.
  rewrite length_wire_header, wire_header_split, <- !app_assoc.
  pose proof (search_type_digits (to_string (Z.of_nat n)) r
    (to_string_digits (Z.of_nat n) ltac:(lia))) as H.
  change (?a ++ [FIX_SOH] ++ str "9=" ++ ?b) with (a ++ (FIX_SOH :: str "9=") ++ b).
  rewrite app_assoc. change (FIX_BEGIN_STRING ++ FIX_SOH :: str "9=")
    with [56; 61; 70; 73; 88; 46; 52; 46; 52; 1; 57; 61].
  cbn [app] in *. do 12 (rewrite search_cons_false by done). rewrite H. simpl. f_equal. lia.
Qed.

(** The type of a message whose body starts with the MsgType field. *)
Lemma extractMsgType_eval mem base fs t rest w :
  drop base mem = wire_front ((Tag.MsgType, t) :: fs) ++ rest -> (base <= length mem)%nat ->
  FIX_SOH ∉ t ->
  extractMsgType mem base (length (wire_front ((Tag.MsgType, t) :: fs))) w = (Ret t, w).
Proof.
  intros HD Hb Ht. set (fs1 := (Tag.MsgType, t) :: fs) in *.
  set (h := wire_header (length (printFields fs1))).
  assert (wire_front fs1 = h ++ str "35=" ++ t ++ FIX_SOH :: printFields fs) as Hf.
  { unfold wire_front. fold h. unfold fs1. rewrite printFields_cons, printed_field_split. done. }
  assert (base + length (wire_front fs1) <= length mem)%nat as Hlen.
  { apply (f_equal length) in HD. rewrite length_drop, length_app in HD. lia. }
  unfold extractMsgType, search_in.
  rewrite (bind_ret _ _ w (Some (base + length h)%nat) w).
  2: { rewrite (bind_ret _ _ _ _ _ (substr_eval _ _ _ _ _ w Hb HD eq_refl)).
       rewrite Hf. unfold h. by rewrite search_type_header. }
  assert (drop (base + length h + 3) mem = t ++ FIX_SOH :: printFields fs ++ rest) as Hv.
  { eapply (drop_step mem (h ++ str "35=")); [rewrite HD, Hf; by rewrite <- !app_assoc|].
    rewrite length_app. simpl. lia. }
  assert (length (wire_front fs1) = length h + 3 + length t + 1 + length (printFields fs))%nat as Hl.
  { rewrite Hf, !length_app. simpl. lia. }
  assert (length t < base + length (wire_front fs1) - (base + length h + 3))%nat as Hlt by lia.
  rewrite (bind_ret _ _ _ _ _ (find_eval mem (base + length h + 3) FIX_SOH
    (base + length (wire_front fs1) - (base + length h + 3)) _ _ w Hv Ht Hlt)).
  apply (substr_eval _ _ _ t (FIX_SOH :: printFields fs ++ rest)); [lia|done|lia].
Qed.

Section Evaluation.
Variable clock : nat -> Z.

Lemma dispatch sp mem base len w :
  sp ∈ specialisations -> extractMsgType mem base len w = (Ret (sp_type sp), w) ->
  parseIntelligent clock mem base len w = parse_special clock sp mem base len w.
Proof.
  intros Hsp H. unfold parseIntelligent. rewrite (bind_ret _ _ _ _ _ H).
  unfold specialisations in Hsp. repeat (apply elem_of_cons in Hsp as [->|Hsp]; [reflexivity|]).
  by apply not_elem_of_nil in Hsp.
Qed.

(** A body that starts with the MsgType of [sp], and fits the limits. *)
Record hot_message (sp : Specialisation) (max : Z) (fs : list (Z * bytes)) : Prop := {
  hm_sp : sp ∈ specialisations;
  hm_type : exists fs', fs = (Tag.MsgType, sp_type sp) :: fs';
  hm_fields : Forall wire_field fs;
  hm_length : Z.of_nat (length (printFields fs)) <= wrap32 max;
  hm_min : (sp_min_length sp <= length (wire_front fs))%nat
}.

Lemma hot_length sp max fs : hot_message sp max fs ->
  (0 < length (printFields fs))%nat /\ Z.of_nat (length (printFields fs)) <= 2147483647 /\
  FIX_SOH ∉ sp_type sp.
Proof.
  intros [_ [fs' ->] Hf Hl _]. pose proof (wrap32_range max) as Hw. unfold int32_range in Hw.
  rewrite printFields_cons, length_app, length_formatFixField in *.
  apply Forall_cons in Hf as [[_ Hv] _]. split; [lia|]. split; [lia|done].
Qed.

(** Stage 2 decodes a complete hot message. *)
Lemma decode_hot sp mem base fs rest w :
  hot_message sp (max_message_size_ (w_parser w)) fs ->
  drop base mem = wire fs ++ rest -> Z.of_nat (length mem) < 2 ^ 62 ->
  pool_wf (w_pool w) -> can_allocate (w_pool w) ->
  exists a w', parseCompleteMessage clock mem base (length (wire_front fs)) w
               = (Ret (mkResult Success (Z.of_nat (length (wire fs))) (Some a) IDLE 0), w') /\
               decodes_to clock sp fs w a w' /\ w_parser w' = w_parser w.
Proof.
  intros Hh HD Hsmall Hw Hc. destruct (hot_length _ _ _ Hh) as (Hn0 & Hn & Hty).
  destruct Hh as [Hsp [fs' Hfs] Hf Hl Hmin].
  destruct (special_decodes clock sp mem base fs rest w HD Hsmall Hf Hn Hmin Hw Hc)
    as (a & w' & E & Hd).
  exists a, w'. split; [|done]. unfold parseCompleteMessage.
  assert (0 < length (wire_front fs))%nat as Hpos
    by (unfold wire_front; rewrite length_app; lia).
  rewrite decide_False by lia.
  assert (base <= length mem)%nat as Hb.
  { eapply drop_length_le; [exact HD|]. intros Eq. apply (f_equal length) in Eq.
    rewrite length_app, length_wire in Eq. simpl in Eq. lia. }
  assert (parseIntelligent clock mem base (length (wire_front fs)) w
          = (Ret (mkResult Success (Z.of_nat (length (wire fs))) (Some a) IDLE 0), w')) as Hp.
  { rewrite (dispatch sp); [done|done|]. subst fs. unfold wire in HD. rewrite <- app_assoc in HD.
    by eapply extractMsgType_eval. }
  by rewrite (bind_ret _ _ _ _ _ Hp).
Qed.
End Evaluation.
