(* ===== verification/ParserDelivery.v ===== *)
(** What [StreamFixParser::parse] delivers on streams of well-formed messages of the
    six optimised types: every message of a buffer is decoded in order, a message
    split over two calls is reassembled, and what happens at the edge of a segment. *)
From S2P Require Import Prelude FixFields MessagePool FixMessage ParserState Framing OptimizedParser StreamParser.

Section Delivery.
Variable clock : nat -> Z.

(** A parser that accepts data: the breaker is off and the error count is below its
    limit. *)
Definition ready (p : StreamFixParser) : Prop :=
  circuit_breaker_active_ p = false /\ 0 <= consecutive_errors (parse_context_ p) /\
  (error_recovery_enabled_ p = true ->
   consecutive_errors (parse_context_ p) < max_consecutive_errors_ p).

(** The members that configure the parser and its partial buffer are unchanged. *)
Definition same_config (p p' : StreamFixParser) : Prop :=
  max_message_size_ p' = max_message_size_ p /\
  validate_checksum_ p' = validate_checksum_ p /\
  strict_validation_ p' = strict_validation_ p /\
  max_consecutive_errors_ p' = max_consecutive_errors_ p /\
  error_recovery_enabled_ p' = error_recovery_enabled_ p /\
  partial_buffer_ p' = partial_buffer_ p /\ partial_buffer_size_ p' = partial_buffer_size_ p.

#[global] Instance same_config_equiv : Equivalence same_config.
Proof.
  split; unfold same_config.
  - intros p. done.
  - intros p q H. naive_solver.
  - intros p q r (-> & -> & -> & -> & -> & -> & ->) (-> & -> & -> & -> & -> & -> & ->). done.
Qed.

(** ** One message *)

Lemma after_decode_success mem cursor ptr len e r w :
  status r = Success -> ready (w_parser w) ->
  exists w', after_decode clock mem cursor ptr len e r w = (Ret r, w') /\
    w_pool w' = w_pool w /\ same_config (w_parser w) (w_parser w') /\ ready (w_parser w') /\
    messages_parsed (stats_ (w_parser w')) = messages_parsed (stats_ (w_parser w)) + 1.
Proof.
  intros Hs (Ha & H0 & Hm). unfold after_decode. rewrite Hs. eexists. split; [reflexivity|].
  split; [reflexivity|]. split; [done|]. split; [|reflexivity].
  split; [reflexivity|]. split; [reflexivity|]. simpl. intros Hen. specialize (Hm Hen). lia.
Qed.

Lemma turn_success sp fs mem len cursor last rest w :
  hot_message sp (max_message_size_ (w_parser w)) fs ->
  drop cursor mem = wire fs ++ rest -> Z.of_nat (length mem) < 2 ^ 62 ->
  (cursor + length (wire_front fs) <= len <= length mem)%nat ->
  pool_wf (w_pool w) -> can_allocate (w_pool w) -> ready (w_parser w) ->
  exists a w', parse_turn clock mem len cursor last w
    = (Ret (Continue_ (Z.of_nat (cursor + length (wire fs)))
              (Some (mkResult Success (Z.of_nat (cursor + length (wire fs))) (Some a) IDLE 0))), w') /\
    decodes_to clock sp fs w a w' /\ same_config (w_parser w) (w_parser w') /\ ready (w_parser w') /\
    messages_parsed (stats_ (w_parser w')) = messages_parsed (stats_ (w_parser w)) + 1.
Proof.
  intros Hh HD Hsmall Hlen Hw Hc Hr. destruct (hot_length _ _ _ Hh) as (Hn0 & Hn & Hty).
  pose proof HD as HD1. unfold wire in HD1. unfold wire_front in HD1 at 1. rewrite <- !app_assoc in HD1.
  set (n := length (printFields fs)) in *.
  assert (length (wire_front fs) = length (wire_header n) + n)%nat as Hfl
    by (unfold wire_front; by rewrite length_app).
  unfold parse_turn.
  rewrite (bind_ret _ _ _ _ _ (frame_complete mem cursor (len - cursor) n _ w HD1
    ltac:(lia) Hn0 (hm_length _ _ _ Hh) ltac:(lia))).
  cbn [frame_result status]. rewrite decide_False by done. rewrite decide_False by (intros H; by apply H).
  rewrite <- Hfl, Nat.add_0_r, Nat.sub_0_r.
  set (w1 := length_seen n w).
  assert (hot_message sp (max_message_size_ (w_parser w1)) fs) as Hh1 by done.
  destruct (decode_hot clock sp mem cursor fs rest w1 Hh1 HD Hsmall Hw Hc) as (a & w2 & E & Hd & Hp).
  rewrite (bind_ret _ _ _ _ _ E). cbn [bytes_consumed status parsed_message final_state error_position].
  assert (size_t (Z.of_nat cursor + Z.of_nat (length (wire fs))) = Z.of_nat (cursor + length (wire fs)))
    as Hsz.
  { rewrite length_wire. rewrite <- Nat2Z.inj_add. apply size_t_small. lia. }
  rewrite Hsz.
  destruct (after_decode_success mem cursor cursor (length (wire_front fs)) (length (wire_front fs))
    (mkResult Success (Z.of_nat (cursor + length (wire fs))) (Some a) IDLE 0) w2)
    as (w3 & E3 & Hp3 & Hcfg & Hrdy & Hst); [done|by rewrite Hp|].
  rewrite (bind_ret _ _ _ _ _ E3). cbn [status]. rewrite decide_False by (intros H; by apply H).
  exists a, w3. split; [reflexivity|]. rewrite Hp in Hcfg, Hst.
  split; [|split; [exact Hcfg|split; [exact Hrdy|exact Hst]]].
  destruct Hd as (i & m & Hd).
  exists i, m. rewrite Hp3. done.
Qed.

(** ** A batch of messages *)

(** The messages were decoded one after the other; [msgs] are their addresses. *)
Inductive decoded_batch : list (Specialisation * list (Z * bytes)) -> World -> list Z -> World -> Prop :=
  | batch_nil w : decoded_batch [] w [] w
  | batch_cons sp fs rest w a w1 w2 addrs :
      decodes_to clock sp fs w a w1 -> decoded_batch rest w1 addrs w2 ->
      decoded_batch ((sp, fs) :: rest) w (a :: addrs) w2.

Definition wires (l : list (Specialisation * list (Z * bytes))) : bytes :=
  mjoin (map (fun x => wire (snd x)) l).

Lemma wires_cons x l : wires (x :: l) = wire (snd x) ++ wires l.
Proof. reflexivity. Qed.

Lemma decodes_can_allocate sp fs w a w1 k :
  decodes_to clock sp fs w a w1 -> pool_is_shutdown_ (w_pool w) = false ->
  Z.of_nat (S k) <= available (w_pool w) ->
  pool_wf (w_pool w1) /\ pool_is_shutdown_ (w_pool w1) = false /\
  Z.of_nat k <= available (w_pool w1).
Proof. intros (i & m & _ & _ & _ & Hw & Hs & Ha & _) Hsd Hk. split; [done|]. split; [congruence|lia]. Qed.

Lemma turns_batch l : forall mem len cursor last fuel w tail,
  Forall (fun x => hot_message (fst x) (max_message_size_ (w_parser w)) (snd x)) l ->
  drop cursor mem = wires l ++ tail -> len = (cursor + length (wires l))%nat ->
  (len <= length mem)%nat -> Z.of_nat (length mem) < 2 ^ 62 ->
  pool_wf (w_pool w) -> pool_is_shutdown_ (w_pool w) = false ->
  Z.of_nat (length l) <= available (w_pool w) -> ready (w_parser w) -> (length l <= fuel)%nat ->
  exists addrs w', decoded_batch l w addrs w' /\ same_config (w_parser w) (w_parser w') /\
    ready (w_parser w') /\
    messages_parsed (stats_ (w_parser w')) = messages_parsed (stats_ (w_parser w)) + Z.of_nat (length l) /\
    parse_turns clock fuel mem len (Z.of_nat cursor) last w
    = (match list.last addrs with
       | Some a => Ret (mkResult Success (Z.of_nat len) (Some a) IDLE 0)
       | None => Ret (match last with
                      | Some r => r
                      | None => mkResult NeedMoreData (Z.of_nat cursor) None IDLE 0
                      end)
       end, w').
Proof.
  induction l as [|[sp fs] l IH];
    intros mem len cursor last fuel w tail Hhot HD Hlen Hle Hsmall Hw Hsd Hav Hr Hfuel.
  { exists [], w. split; [constructor|]. split; [reflexivity|]. split; [done|]. split; [simpl; lia|].
    change (length (wires [])) with O in Hlen. destruct fuel; cbn [parse_turns];
      (destruct (Z.ltb_spec (Z.of_nat cursor) (Z.of_nat len)); [lia|]); by destruct last. }
  apply Forall_cons in Hhot as [Hh Hhot]. cbn [fst snd] in Hh.
  rewrite wires_cons in *. cbn [snd] in *. rewrite <- app_assoc in HD. rewrite length_app in Hlen.
  destruct fuel as [|fuel]; [simpl in Hfuel; lia|]. cbn [parse_turns].
  pose proof (length_wire fs) as Hlw.
  destruct (Z.ltb_spec (Z.of_nat cursor) (Z.of_nat len)); [|lia]. rewrite Nat2Z.id.
  destruct (turn_success sp fs mem len cursor last (wires l ++ tail) w Hh HD Hsmall ltac:(lia) Hw
    ltac:(split; [done|simpl in Hav; lia]) Hr) as (a & w1 & E & Hd & Hcfg & Hr1 & Hst).
  rewrite (bind_ret _ _ _ _ _ E).
  destruct (decodes_can_allocate _ _ _ _ _ (length l) Hd Hsd Hav) as (Hw1 & Hsd1 & Hav1).
  assert (max_message_size_ (w_parser w1) = max_message_size_ (w_parser w)) as Hmax by apply Hcfg.
  edestruct (IH mem len (cursor + length (wire fs))%nat
    (Some (mkResult Success (Z.of_nat (cursor + length (wire fs))) (Some a) IDLE 0)) fuel w1 tail)
    as (addrs & w' & Hb & Hcfg' & Hr' & Hst' & E'); try done.
  - by rewrite Hmax.
  - by eapply drop_step.
  - lia.
  - simpl in Hfuel. lia.
  - exists (a :: addrs), w'. split; [by econstructor|]. split; [by etrans|]. split; [done|].
    split; [rewrite Hst', Hst; simpl length; lia|].
    rewrite E'. destruct addrs as [|b addrs]; [|rewrite last_cons_cons; by destruct (list.last (b :: addrs)) eqn:El;
      [|apply last_None in El]].
    assert (l = []) as -> by (by inversion Hb).
    change (length (wires [])) with O in Hlen. rewrite Hlen, Nat.add_0_r. reflexivity.
Qed.

(** The message at address [a] of a pool holds the received fields [fs]. *)
Definition holds (p : FixMessagePool) (x : Specialisation * list (Z * bytes)) (a : Z) : Prop :=
  exists t, deref p a = Some (with_fields
    (set_all (decoded (fst x) (snd x)) (fields_ (newFixMessage t)))).

(** Live objects stay while more messages are decoded. *)
Lemma batch_keeps l w addrs w' :
  pool_wf (w_pool w) -> decoded_batch l w addrs w' ->
  same_layout (w_pool w) (w_pool w') /\ pool_wf (w_pool w') /\
  live_set (w_pool w) ⊆ live_set (w_pool w') /\
  (forall j, j ∈ live_set (w_pool w) -> pool_slots_ (w_pool w') !! j = pool_slots_ (w_pool w) !! j) /\
  available (w_pool w') = available (w_pool w) - Z.of_nat (length l).
Proof.
  intros Hw Hb. induction Hb as [w|sp fs l w a w1 w2 addrs Hd _ IH].
  { split_and!; try done. simpl. lia. }
  destruct Hd as (i & m & _ & _ & Hlive & Hw1 & _ & Hav & _ & _ & (L1 & L2 & L3) & Hoth).
  destruct (IH Hw1) as ((M1 & M2 & M3) & Hw2 & Hsub & Hoth2 & Hav2).
  split; [unfold same_layout; rewrite M1, M2, M3; done|]. split; [done|]. split; [set_solver|].
  split; [|simpl length; lia]. intros j Hj. rewrite Hoth2; [by apply Hoth|set_solver].
Qed.

Lemma batch_running l w addrs w' :
  decoded_batch l w addrs w' -> pool_is_shutdown_ (w_pool w') = pool_is_shutdown_ (w_pool w).
Proof.
  induction 1 as [|sp fs l w a w1 w2 addrs Hd _ IH]; [done|].
  destruct Hd as (i & m & _ & _ & _ & _ & Hs & _). congruence.
Qed.

Lemma deref_same p p' a i :
  same_layout p p' -> slot_of p a = Some (Z.of_nat i) ->
  pool_slots_ p' !! i = pool_slots_ p !! i -> deref p' a = deref p a.
Proof.
  intros (H1 & H2 & H3) Hs Hi. unfold deref. rewrite (slot_of_same p p') by done.
  rewrite Hs. simpl. by rewrite Nat2Z.id, Hi.
Qed.

Lemma batch_holds l w addrs w' :
  pool_wf (w_pool w) -> decoded_batch l w addrs w' -> Forall2 (holds (w_pool w')) l addrs.
Proof.
  intros Hw Hb. induction Hb as [w|sp fs l w a w1 w2 addrs Hd Hb IH]; [constructor|].
  destruct Hd as (i & m & Ha & _ & Hlive & Hw1 & _ & _ & Hm & Hf & Hlay & _).
  constructor; [|by apply IH].
  destruct (batch_keeps _ _ _ _ Hw1 Hb) as (Hl2 & _ & _ & Hoth & _).
  exists (clock (w_ticks w)). cbn [fst snd]. rewrite <- Hf, <- Hm.
  assert (i ∈ live_set (w_pool w1)) as Hi by set_solver.
  eapply (deref_same _ _ a i); [done| |by apply Hoth].
  apply elem_of_live_set in Hi as [o Ho].
  destruct (deref_live a (w_pool w1) m) as (i' & Ha' & Ho'); [apply Hw1|done|].
  assert (addr_of (w_pool w1) (Z.of_nat i) = a) as Hai.
  { rewrite Ha. unfold addr_of. destruct Hlay as (_ & -> & ->). done. }
  rewrite <- Hai. apply slot_of_addr; [apply Hw1|].
  apply lookup_lt_Some in Ho. destruct Hw1 as [_ _ Hs _ _ _]. lia.
Qed.

(** A message goes to an address that held none, and stays where it is. *)
Lemma decodes_fresh sp fs w a w1 :
  pool_wf (w_pool w) -> decodes_to clock sp fs w a w1 ->
  deref (w_pool w) a = None /\ deref (w_pool w1) a <> None /\
  (forall b, deref (w_pool w1) b = None -> deref (w_pool w) b = None).
Proof.
  intros Hw (i & m & Ha & Hni & _ & Hw1 & _ & _ & Hm & _ & Hlay & Hoth).
  split; [|split; [by rewrite Hm|]].
  - destruct (deref (w_pool w) a) as [o|] eqn:Ho; [|done].
    destruct (deref_live _ _ _ (pw_bytes _ Hw) Ho) as (j & Hj & Hl). destruct Hni.
    rewrite elem_of_live_set. exists o. pose proof (pw_bytes _ Hw).
    assert (i = j) as -> by (unfold addr_of in *; nia). done.
  - intros b Hb. destruct (deref (w_pool w) b) as [o|] eqn:Ho; [|done].
    destruct (deref_live _ _ _ (pw_bytes _ Hw) Ho) as (j & -> & Hl).
    rewrite (deref_same (w_pool w) (w_pool w1) _ j) in Hb; [congruence|done| |].
    + apply slot_of_addr; [apply Hw|]. apply lookup_lt_Some in Hl. pose proof (pw_slots _ Hw). lia.
    + apply Hoth, elem_of_live_set. by exists o.
Qed.

Lemma batch_fresh l w addrs w' :
  pool_wf (w_pool w) -> decoded_batch l w addrs w' ->
  NoDup addrs /\ Forall (fun a => deref (w_pool w) a = None) addrs.
Proof.
  intros Hw Hb. induction Hb as [w|sp fs l w a w1 w2 addrs Hd Hb IH]; [by split; constructor|].
  destruct (decodes_fresh _ _ _ _ _ Hw Hd) as (Hn & Hs & Hback).
  destruct Hd as (i & m & _ & _ & _ & Hw1 & _). destruct (IH Hw1) as [Hnd Hf].
  rewrite Forall_forall in *. split.
  - constructor; [|done]. intros Hin. by apply Hs, Hf.
  - intros b [->|Hb']%elem_of_cons; [done|]. by apply Hback, Hf.
Qed.

(** The world in which the [try] block of [parse] starts. *)
Definition started (w : World) : World :=
  mkWorld (with_start_time (clock (w_ticks w)) (w_parser w)) (w_pool w) (S (w_ticks w)).

Lemma breaker_open w :
  ready (w_parser w) -> isCircuitBreakerActive clock w = (Ret false, w).
Proof.
  intros (Ha & _ & Hm). unfold isCircuitBreakerActive.
  rewrite (bind_ret get_parser _ w (w_parser w) w eq_refl), Ha.
  unfold shouldActivateCircuitBreaker. destruct (error_recovery_enabled_ (w_parser w)) eqn:E; [|done].
  simpl. destruct (Z.leb_spec (max_consecutive_errors_ (w_parser w))
    (consecutive_errors (parse_context_ (w_parser w)))); [|done]. specialize (Hm eq_refl). lia.
Qed.

(** A call of a ready parser without left-over bytes scans the caller's buffer. *)
Lemma parse_direct mem len w :
  (0 < len)%nat -> ready (w_parser w) -> partial_buffer_size_ (w_parser w) = O ->
  parse clock (Some mem) len w =
  try_catch (parse_turns clock (S len) mem len 0 None)
    (update_parser (fun p =>
       with_context (fun c => set_errors (error_count_in_session c + 1)
                                (consecutive_errors c) (last_error_time c) c)
         (with_stats (updateStats InvalidFormat 0) p)) ;;;
     ret (mkResult InvalidFormat 0 None ERROR_RECOVERY 0)) (started w).
Proof.
  intros Hl Hr Hp. unfold parse. rewrite decide_False by lia.
  set (w0 := mkWorld (w_parser w) (w_pool w) (S (w_ticks w))).
  rewrite (bind_ret (now clock) _ w (clock (w_ticks w)) w0 eq_refl).
  rewrite (bind_ret (update_parser _) _ w0 tt (started w) eq_refl).
  unfold try_catch.
  replace (parse_body clock mem len (started w)) with (parse_turns clock (S len) mem len 0 None (started w));
    [done|symmetry]. unfold parse_body.
  rewrite (bind_ret _ _ _ _ _ (breaker_open (started w) Hr)). unfold prepend_partial.
  rewrite (bind_ret _ _ (started w) (inl (mem, len)) (started w)); [done|].
  rewrite (bind_ret get_parser _ (started w) (w_parser (started w)) (started w) eq_refl).
  change (partial_buffer_size_ (w_parser (started w))) with (partial_buffer_size_ (w_parser w)).
  rewrite Hp. by rewrite decide_False by lia.
Qed.

Lemma wires_count (l : list (Specialisation * list (Z * bytes))) : (length l <= length (wires l))%nat.
Proof.
  induction l as [|x l IH]; [simpl; lia|]. rewrite wires_cons, length_app, length_wire. simpl. lia.
Qed.

(** ** The edge of a segment *)

Lemma bind_ub {S A B} (m : M S A) (k : A -> M S B) s s' : m s = (Ub, s') -> bind m k s = (Ub, s').
Proof. unfold bind. by intros ->. Qed.

(** When memory ends inside the checksum value, the checksum block reads behind it. *)
Lemma finish_message_overread sp mem base front d msg w :
  drop base mem = front ++ take d (FIX_CHECKSUM_TAG ++ utils_calculateChecksum front) ->
  (d < 6)%nat -> (base <= length mem)%nat -> validate_checksum_ (w_parser w) = true ->
  exists w', finish_message sp mem base (Z.of_nat (base + length front)) msg w = (Ub, w').
Proof.
  intros HD Hd Hb Hv. set (cs := utils_calculateChecksum front) in *.
  destruct (checksum_text_shape front) as [Hl _]. fold cs in Hl.
  assert (length mem = base + length front + d)%nat as Hm.
  { apply (f_equal length) in HD. rewrite length_drop, length_app, length_take, length_app, Hl in HD.
    change (length FIX_CHECKSUM_TAG) with 3%nat in HD. lia. }
  assert (drop (base + length front) mem = take d (FIX_CHECKSUM_TAG ++ cs)) as Hq
    by (by eapply drop_step).
  unfold finish_message. rewrite (bind_ret get_parser _ w (w_parser w) w eq_refl). unfold in_array.
  destruct (Z.ltb_spec (Z.of_nat (base + length front)) 0); [lia|]. rewrite Nat2Z.id.
  rewrite (bind_ret _ _ w (base + length front)%nat w) by done. rewrite Hv.
  assert (substr mem (base + length front + 3) 3 w = (Ub, w)) as Hs.
  { unfold substr, read_bytes. by rewrite decide_False by lia. }
  eexists. destruct (decide (d < 3)%nat) as [H3|H3].
  - apply bind_ub. unfold looking_at. rewrite Hq.
    destruct d as [|[|[|d]]]; [reflexivity..|lia].
  - assert (drop (base + length front) mem = FIX_CHECKSUM_TAG ++ take (d - 3) cs) as Hq'.
    { rewrite Hq. by rewrite take_app_ge by (change (length FIX_CHECKSUM_TAG) with 3%nat; lia). }
    rewrite (bind_ret _ _ _ _ _ (looking_at_eval _ _ _ _ _ Hq')). by apply bind_ub.
Qed.

Lemma wire_cut fs d :
  (d < 6)%nat ->
  take (length (wire_front fs) + d) (wire fs)
  = wire_front fs ++ take d (FIX_CHECKSUM_TAG ++ utils_calculateChecksum (wire_front fs)).
Proof.
  intros Hd. unfold wire. rewrite take_app_ge by lia. f_equal.
  replace (length (wire_front fs) + d - length (wire_front fs))%nat with d by lia.
  destruct (checksum_text_shape (wire_front fs)) as [Hl _].
  rewrite <- (app_nil_r (formatFixField _ _)), printed_field_split.
  change (to_string Tag.CheckSum ++ 61 :: ?x) with (FIX_CHECKSUM_TAG ++ x).
  rewrite app_assoc. rewrite take_app_le; [done|].
  rewrite length_app, Hl. change (length FIX_CHECKSUM_TAG) with 3%nat. lia.
Qed.

(** ** Partial messages *)

(** The partial buffer lies inside its array. *)
Definition buffer_ok (p : StreamFixParser) : Prop :=
  Z.of_nat (length (partial_buffer_ p)) <= PARTIAL_BUFFER_SIZE /\
  (partial_buffer_size_ p <= length (partial_buffer_ p))%nat.

Lemma copy_eval k src w :
  Z.of_nat (k + length src) <= PARTIAL_BUFFER_SIZE ->
  (k <= length (partial_buffer_ (w_parser w)))%nat ->
  copy_to_partial k src w
  = (Ret tt, mkWorld (with_partial
       (take k (partial_buffer_ (w_parser w)) ++ src ++
        drop (k + length src) (partial_buffer_ (w_parser w)))
       (partial_buffer_size_ (w_parser w)) (w_parser w)) (w_pool w) (w_ticks w)).
Proof.
  intros H1 H2. unfold copy_to_partial. rewrite (bind_ret get_parser _ w (w_parser w) w eq_refl).
  destruct (Z.ltb_spec PARTIAL_BUFFER_SIZE (Z.of_nat (k + length src))); [lia|].
  by rewrite decide_False by lia.
Qed.

(** The first piece of a message is kept for the next call. *)
Lemma parse_first_piece sp fs k w :
  hot_message sp (max_message_size_ (w_parser w)) fs ->
  (0 < k < length (wire_front fs))%nat -> Z.of_nat k <= PARTIAL_BUFFER_SIZE ->
  ready (w_parser w) -> partial_buffer_size_ (w_parser w) = O ->
  exists r w', parse clock (Some (take k (wire fs))) k w = (Ret r, w') /\
    status r = NeedMoreData /\ parsed_message r = None /\ w_pool w' = w_pool w /\ ready (w_parser w') /\
    max_message_size_ (w_parser w') = max_message_size_ (w_parser w) /\
    partial_buffer_size_ (w_parser w') = k /\
    partial_buffer_ (w_parser w') = take k (wire fs) ++ drop k (partial_buffer_ (w_parser w)).
Proof.
  intros Hh Hk Hsz Hr Hp. destruct (hot_length _ _ _ Hh) as (Hn0 & Hn & Hty).
  assert (take k (wire fs) = take k (wire_front fs)) as Htk by (unfold wire; by rewrite take_app_le by lia).
  set (mem := take k (wire fs)) in *.
  assert (length mem = k) as Hl by (rewrite Htk, length_take; lia).
  rewrite (parse_direct mem k w ltac:(lia) Hr Hp). set (w0 := started w).
  destruct (frame_incomplete mem 0 k (length (printFields fs)) (printFields fs) [] w0)
    as (st & e & w1 & Hfr & Hw1); [|lia|done|apply Hh|done|unfold wire_front in Hk; rewrite length_app in Hk; lia|].
  { rewrite drop_0, app_nil_r. exact Htk. }
  assert (w_pool w1 = w_pool w /\ ready (w_parser w1) /\ w_ticks w1 = w_ticks w0 /\
          max_message_size_ (w_parser w1) = max_message_size_ (w_parser w) /\
          partial_buffer_ (w_parser w1) = partial_buffer_ (w_parser w)) as (P1 & P2 & P3 & P4 & P5)
    by (by destruct Hw1 as [-> | ->]).
  unfold try_catch. cbn [parse_turns]. destruct (Z.ltb_spec 0 (Z.of_nat k)); [|lia].
  change (Z.to_nat 0) with O. unfold parse_turn. rewrite Nat.sub_0_r.
  rewrite (bind_ret _ _ _ (Return_ (frame_result NeedMoreData 0 st))
    (mkWorld (with_partial (mem ++ drop k (partial_buffer_ (w_parser w))) k (w_parser w1))
       (w_pool w1) (w_ticks w1))).
  { eexists _, _. split; [reflexivity|]. cbn [w_pool w_parser]. split_and!; done. }
  rewrite (bind_ret _ _ _ _ _ Hfr). cbn [frame_result status]. rewrite decide_True by done.
  rewrite (bind_ret _ _ _ _ _ (substr_eval mem 0 k mem [] w1 ltac:(lia) ltac:(by rewrite app_nil_r) ltac:(done))).
  rewrite (bind_ret _ _ _ _ _ (copy_eval 0 mem w1 ltac:(rewrite Hl; exact Hsz) ltac:(lia))).
  rewrite Hl, P5. reflexivity.
Qed.

(** A call of a ready parser with left-over bytes scans them and the new bytes. *)
Lemma parse_joined buf len w :
  (0 < len <= length buf)%nat -> ready (w_parser w) -> buffer_ok (w_parser w) ->
  partial_buffer_size_ (w_parser w) <> O ->
  Z.of_nat (partial_buffer_size_ (w_parser w) + len) <= PARTIAL_BUFFER_SIZE ->
  let k := partial_buffer_size_ (w_parser w) in
  let joined := take k (partial_buffer_ (w_parser w)) ++ take len buf ++
                drop (k + len) (partial_buffer_ (w_parser w)) in
  let w1 := mkWorld (with_partial joined 0 (with_start_time (clock (w_ticks w)) (w_parser w)))
              (w_pool w) (S (w_ticks w)) in
  forall r w', parse_turns clock (S (k + len)) joined (k + len) 0 None w1 = (Ret r, w') ->
  parse clock (Some buf) len w = (Ret r, w').
Proof.
  intros Hl Hr [Hb1 Hb2] Hp Hsz k joined w1 r w' E. unfold parse. rewrite decide_False by lia.
  set (w0 := mkWorld (w_parser w) (w_pool w) (S (w_ticks w))).
  rewrite (bind_ret (now clock) _ w (clock (w_ticks w)) w0 eq_refl).
  rewrite (bind_ret (update_parser _) _ w0 tt (started w) eq_refl).
  unfold try_catch. replace (parse_body clock buf len (started w)) with (@Ret ParseResult r, w');
    [done|symmetry]. unfold parse_body.
  rewrite (bind_ret _ _ _ _ _ (breaker_open (started w) Hr)).
  rewrite (bind_ret _ _ (started w) (inl (joined, (k + len)%nat)) w1); [exact E|].
  unfold prepend_partial.
  rewrite (bind_ret get_parser _ (started w) (w_parser (started w)) (started w) eq_refl).
  change (partial_buffer_size_ (w_parser (started w))) with k. rewrite decide_True by done.
  destruct (Z.ltb_spec PARTIAL_BUFFER_SIZE (Z.of_nat (k + len))); [unfold k in *; lia|].
  rewrite (bind_ret _ _ _ _ _ (substr_eval buf 0 len (take len buf) (drop len buf) (started w)
    ltac:(lia) ltac:(by rewrite drop_0, take_drop) ltac:(rewrite length_take; lia))).
  assert (length (take len buf) = len) as Hlt by (rewrite length_take; lia).
  rewrite (bind_ret _ _ _ _ _ (copy_eval k (take len buf) (started w)
    ltac:(rewrite Hlt; exact Hsz) Hb2)).
  rewrite Hlt. reflexivity.
Qed.
End Delivery.

(** [parse] on complete messages of the optimised types *)
Lemma delivered_batch clock l tail w :
  l <> [] -> Forall (fun x => hot_message (fst x) (max_message_size_ (w_parser w)) (snd x)) l ->
  Z.of_nat (length (wires l ++ tail)) < 2 ^ 62 -> ready (w_parser w) ->
  partial_buffer_size_ (w_parser w) = O -> pool_wf (w_pool w) ->
  pool_is_shutdown_ (w_pool w) = false -> Z.of_nat (length l) <= available (w_pool w) ->
  exists addrs w',
    parse clock (Some (wires l ++ tail)) (length (wires l)) w
    = (Ret (mkResult Success (Z.of_nat (length (wires l))) (list.last addrs) IDLE 0), w') /\
    Forall2 (holds (w_pool w')) l addrs /\
    NoDup addrs /\ Forall (fun a => deref (w_pool w) a = None) addrs /\
    (forall j, j ∈ live_set (w_pool w) -> pool_slots_ (w_pool w') !! j = pool_slots_ (w_pool w) !! j) /\
    available (w_pool w') = available (w_pool w) - Z.of_nat (length l) /\
    messages_parsed (stats_ (w_parser w')) = messages_parsed (stats_ (w_parser w)) + Z.of_nat (length l) /\
    partial_buffer_size_ (w_parser w') = O /\ ready (w_parser w') /\
    pool_wf (w_pool w') /\ pool_is_shutdown_ (w_pool w') = pool_is_shutdown_ (w_pool w) /\
    max_message_size_ (w_parser w') = max_message_size_ (w_parser w) /\
    same_layout (w_pool w) (w_pool w').
Proof.
  intros Hne Hhot Hsmall Hr Hp Hw Hsd Hav. pose proof (wires_count l) as Hcount.
  assert (0 < length (wires l))%nat as Hpos by (destruct l; [done|cbn [length] in Hcount; lia]).
  rewrite (parse_direct clock _ _ w Hpos Hr Hp).
  destruct (turns_batch clock l (wires l ++ tail) (length (wires l)) 0 None (S (length (wires l)))
    (started clock w) tail) as (addrs & w' & Hb & Hcfg & Hr' & Hst & E); try done.
  - rewrite length_app. lia.
  - lia.
  - exists addrs, w'. unfold try_catch. change (Z.of_nat 0) with 0 in E. rewrite E.
    destruct (batch_keeps clock l (started clock w) _ _ Hw Hb) as (Hlay & Hw' & _ & Hoth & Hav').
    pose proof (batch_running _ _ _ _ _ Hb) as Hrun.
    assert (addrs <> []) as Hane by (intros ->; inversion Hb; by subst).
    destruct (list.last addrs) as [a|] eqn:El; [|by apply last_None in El].
    destruct (batch_fresh clock l (started clock w) _ _ Hw Hb) as [Hnd Hfresh].
    split; [reflexivity|]. split; [by eapply (batch_holds clock l (started clock w))|].
    split; [exact Hnd|]. split; [exact Hfresh|]. split; [exact Hoth|].
    split; [exact Hav'|]. split; [exact Hst|]. destruct Hcfg as (Hmax & _ & _ & _ & _ & _ & Hpb).
    split; [rewrite Hpb; exact Hp|by split_and!].
Qed.

(** * Properties *)

(** C1: a buffer of complete messages of the optimised types is decoded completely
    and in order: [parse] consumes it, counts every message, and puts every message,
    with exactly its received fields, in a pool slot of its own that held no message
    before, leaving live messages alone; but it returns only the last one, so the pointers to the others
    are lost. *)
Theorem parse_delivers_batch clock l tail w :
  l <> [] -> Forall (fun x => hot_message (fst x) (max_message_size_ (w_parser w)) (snd x)) l ->
  Z.of_nat (length (wires l ++ tail)) < 2 ^ 62 -> ready (w_parser w) ->
  partial_buffer_size_ (w_parser w) = O -> pool_wf (w_pool w) ->
  pool_is_shutdown_ (w_pool w) = false -> Z.of_nat (length l) <= available (w_pool w) ->
  exists addrs w',
    parse clock (Some (wires l ++ tail)) (length (wires l)) w
    = (Ret (mkResult Success (Z.of_nat (length (wires l))) (list.last addrs) IDLE 0), w') /\
    Forall2 (holds (w_pool w')) l addrs /\
    NoDup addrs /\ Forall (fun a => deref (w_pool w) a = None) addrs /\
    (forall j, j ∈ live_set (w_pool w) -> pool_slots_ (w_pool w') !! j = pool_slots_ (w_pool w) !! j) /\
    available (w_pool w') = available (w_pool w) - Z.of_nat (length l) /\
    messages_parsed (stats_ (w_parser w')) = messages_parsed (stats_ (w_parser w)) + Z.of_nat (length l) /\
    partial_buffer_size_ (w_parser w') = O /\ ready (w_parser w').
Proof.
  intros H1 H2 H3 H4 H5 H6 H7 H8.
  destruct (delivered_batch clock l tail w H1 H2 H3 H4 H5 H6 H7 H8)
    as (addrs & w' & E & Hh & Hn & Hf & Ho & Ha & Hs & Hp & Hr & _).
  by exists addrs, w'.
Qed.

(** When the bytes handed to [parse] stop after the body but before the end of
    the checksum value, as a TCP segment may, the decoder does not ask for more data
    but reads behind the end of the buffer (undefined behaviour), for every message of
    an optimised type and every such cut. *)
Lemma segment_edge_overread clock sp fs d w :
  hot_message sp (max_message_size_ (w_parser w)) fs -> (d < 6)%nat ->
  validate_checksum_ (w_parser w) = true -> ready (w_parser w) ->
  partial_buffer_size_ (w_parser w) = O -> pool_wf (w_pool w) -> can_allocate (w_pool w) ->
  let len := (length (wire_front fs) + d)%nat in
  exists w', parse clock (Some (take len (wire fs))) len w = (Ub, w').
Proof.
  intros Hh Hd Hv Hr Hp Hw Hc len. destruct (hot_length _ _ _ Hh) as (Hn0 & Hn & Hty).
  pose proof (length_wire fs) as Hlw.
  assert (len = length (wire_front fs) + d)%nat as Elen by done. clearbody len.
  assert (length (take len (wire fs)) = len) as Hl by (rewrite length_take; lia).
  assert (0 < length (wire_front fs))%nat as Hf0
    by (unfold wire_front; rewrite length_app; clear - Hn0; lia).
  assert (0 < len)%nat as Hlen by lia.
  rewrite (parse_direct clock _ _ w Hlen Hr Hp).
  set (mem := take len (wire fs)) in *.
  assert (mem = wire_front fs ++ take d (FIX_CHECKSUM_TAG ++ utils_calculateChecksum (wire_front fs)))
    as Hmem by (subst mem; rewrite Elen; apply wire_cut; done).
  set (tl := take d _) in *. unfold try_catch. cbn [parse_turns].
  destruct (Z.ltb_spec 0 (Z.of_nat len)); [|lia]. change (Z.to_nat 0) with O.
  set (n := length (printFields fs)) in *.
  assert (length (wire_front fs) = length (wire_header n) + n)%nat as Hfl
    by (unfold wire_front; by rewrite length_app).
  set (w0 := started clock w). set (w1 := length_seen n w0).
  assert (findCompleteMessage mem 0 (len - 0) w0
          = (Ret (frame_result Success 0 IDLE, O, (length (wire_header n) + n)%nat), w1)) as Hfr.
  { apply (frame_complete mem 0 (len - 0) n (printFields fs ++ tl)); [|lia|done|apply Hh|lia].
    rewrite drop_0, Hmem. unfold wire_front. by rewrite <- app_assoc. }
  destruct (allocate_available (newFixMessage (clock (w_ticks w1))) (w_pool w1) Hw Hc) as (a & p' & E).
  destruct (allocate_fresh _ _ _ _ Hw E) as (i & _ & _ & _ & Hdr & _).
  set (w2 := mkWorld (w_parser w1) p' (S (w_ticks w1))).
  assert (exists w', parseCompleteMessage clock mem 0 (length (wire_front fs)) w1 = (Ub, w')) as [w3 Hub].
  { unfold parseCompleteMessage. rewrite decide_False by lia.
    destruct Hh as [Hsp [fs' Hfs] Hf _ Hmin].
    edestruct (finish_message_overread sp mem 0 (wire_front fs) d a
      (store_fields a (decoded_front sp fs) w2)) as [w' Hfin]; [done|done|lia|by rewrite store_fields_parser|].
    exists w'. apply bind_ub. rewrite (dispatch clock sp); [|done|].
    - rewrite (parse_special_eval clock sp mem 0 fs tl w1) by done.
      assert (pool_allocate clock w1 = (Ret (Some a), w2)) as Hpa by (unfold pool_allocate; by rewrite E).
      rewrite (bind_ret _ _ _ _ _ Hpa).
      assert (length (wire_header (length (printFields fs))) <= length (wire_front fs))%nat as Hhl
        by (fold n; lia).
      rewrite (parse_allocated_front sp mem 0 _ fs tl a _ w2 Hmem Hf Hn Hhl Hdr). exact Hfin.
    - subst fs. eapply extractMsgType_eval; [exact Hmem|lia|exact Hty]. }
  exists w3. unfold parse_turn. rewrite (bind_ub _ _ w0 w3); [reflexivity|].
  rewrite (bind_ret _ _ _ _ _ Hfr). cbn [frame_result status]. rewrite decide_False by done.
  rewrite decide_False by (intros H'; by apply H').
  rewrite <- Hfl, Nat.add_0_r, Nat.sub_0_r. by apply bind_ub.
Qed.

(** C2: a message split over two reads is reassembled: after any cut before its
    checksum field, the first call keeps the bytes, returns no message and touches no
    pool slot, and the second call returns the message with exactly its fields and
    leaves nothing behind in the partial buffer. *)
Theorem parse_reassembles clock sp fs k w :
  hot_message sp (max_message_size_ (w_parser w)) fs -> (0 < k < length (wire_front fs))%nat ->
  Z.of_nat (length (wire fs)) <= PARTIAL_BUFFER_SIZE -> ready (w_parser w) ->
  buffer_ok (w_parser w) -> partial_buffer_size_ (w_parser w) = O ->
  pool_wf (w_pool w) -> can_allocate (w_pool w) ->
  exists r w1 a w2,
    parse clock (Some (take k (wire fs))) k w = (Ret r, w1) /\
    status r = NeedMoreData /\ parsed_message r = None /\ w_pool w1 = w_pool w /\
    parse clock (Some (drop k (wire fs))) (length (wire fs) - k) w1
    = (Ret (mkResult Success (Z.of_nat (length (wire fs))) (Some a) IDLE 0), w2) /\
    holds (w_pool w2) (sp, fs) a /\ partial_buffer_size_ (w_parser w2) = O /\ ready (w_parser w2).
Proof.
  intros Hh Hk Hsz Hr [Hb1 Hb2] Hp Hw [Hsd Hav]. pose proof (length_wire fs) as Hlw.
  destruct (parse_first_piece clock sp fs k w Hh Hk ltac:(lia) Hr Hp)
    as (r & w1 & E1 & Hs1 & Hm1 & Hp1 & Hr1 & Hmax & Hk1 & Hbuf).
  assert (length (take k (wire fs)) = k) as Htk by (rewrite length_take; lia).
  set (old := partial_buffer_ (w_parser w)) in *. unfold PARTIAL_BUFFER_SIZE in *.
  assert (buffer_ok (w_parser w1)) as Hb1'.
  { unfold buffer_ok, PARTIAL_BUFFER_SIZE. rewrite Hbuf, Hk1, length_app, Htk, length_drop. lia. }
  assert (length (drop k (wire fs)) = length (wire fs) - k)%nat as Hdk by (by rewrite length_drop).
  set (stale := drop (k + (length (wire fs) - k)) (partial_buffer_ (w_parser w1))).
  assert (take k (partial_buffer_ (w_parser w1)) ++ take (length (wire fs) - k) (drop k (wire fs)) ++ stale
          = wires [(sp, fs)] ++ stale) as Hj.
  { rewrite <- Hdk, firstn_all, Hbuf, take_app_le, take_take, Nat.min_id by lia.
    rewrite app_assoc, take_drop. unfold wires. simpl. by rewrite app_nil_r. }
  assert (length (wires [(sp, fs)]) = length (wire fs)) as Hlw1.
  { unfold wires. simpl. by rewrite app_nil_r. }
  set (w1' := mkWorld (with_partial (wires [(sp, fs)] ++ stale) 0
    (with_start_time (clock (w_ticks w1)) (w_parser w1))) (w_pool w1) (S (w_ticks w1))).
  assert (Z.of_nat (length (wires [(sp, fs)] ++ stale)) < 2 ^ 62) as Hsmall.
  { rewrite length_app, Hlw1. unfold stale. rewrite length_drop, Hbuf, length_app, Htk, length_drop. lia. }
  destruct (turns_batch clock [(sp, fs)] (wires [(sp, fs)] ++ stale) (length (wire fs)) 0 None
    (S (k + (length (wire fs) - k))) w1' stale) as (addrs & w2 & Hb & Hcfg & Hr2 & _ & E2); try done.
  - constructor; [|done]. simpl. by rewrite Hmax.
  - rewrite length_app. lia.
  - simpl. by rewrite Hp1.
  - simpl. by rewrite Hp1.
  - simpl. rewrite Hp1. lia.
  - simpl. lia.
  - pose proof (batch_holds clock _ w1' _ _ ltac:(simpl; by rewrite Hp1) Hb) as Hholds.
    pose proof (Forall2_length _ _ _ Hholds) as Hlen2.
    destruct addrs as [|a [|? ?]]; [done| |done]. apply Forall2_cons in Hholds as [Ha _].
    change (list.last [a]) with (Some a) in E2. change (Z.of_nat 0) with 0 in E2.
    exists r, w1, a, w2. split; [done|]. split; [done|]. split; [done|]. split; [done|].
    split; [|split; [done|split; [|done]]].
    + eapply parse_joined; [lia|done|done|rewrite Hk1; lia| |].
      { unfold PARTIAL_BUFFER_SIZE. rewrite Hk1. lia. }
      rewrite Hk1. fold stale. rewrite Hj. fold w1'.
      assert (k + (length (wire fs) - k) = length (wire fs))%nat as Hk2 by lia.
      rewrite Hk2 in E2 |- *. exact E2.
    + destruct Hcfg as (_ & _ & _ & _ & _ & _ & ->). reflexivity.
Qed.

(** A heartbeat for the default configuration. *)
Lemma sample_hot : hot_message sp_heartbeat 8192 sample_fields.
Proof.
  split.
  - unfold specialisations. set_solver.
  - by eexists.
  - apply sample_wire_fields.
  - vm_compute. discriminate.
  - apply (bool_decide_unpack _). vm_compute. exact I.
Qed.

Lemma sample_ready : ready (w_parser sample_world).
Proof. by repeat split. Qed.

Lemma parse_delivers_batch_witness :
  let l := [(sp_heartbeat, sample_fields); (sp_heartbeat, sample_fields)] in
  exists addrs w',
    parse (fun _ => 0) (Some (wires l ++ [])) (length (wires l)) sample_world
    = (Ret (mkResult Success (Z.of_nat (length (wires l))) (list.last addrs) IDLE 0), w') /\
    Forall2 (holds (w_pool w')) l addrs /\ NoDup addrs.
Proof.
  intros l.
  destruct (parse_delivers_batch (fun _ => 0) l [] sample_world) as (addrs & w' & H1 & H2 & H3 & _).
  - discriminate.
  - apply Forall_cons. split; [apply sample_hot|]. apply Forall_cons. split; [apply sample_hot|].
    constructor.
  - vm_compute. reflexivity.
  - apply sample_ready.
  - reflexivity.
  - apply sample_pool_wf.
  - reflexivity.
  - vm_compute. discriminate.
  - exists addrs, w'. exact (conj H1 (conj H2 H3)).
Defined.

Lemma segment_edge_overread_witness :
  exists w', parse (fun _ => 0)
    (Some (take (length (wire_front sample_fields) + 2) (wire sample_fields)))
    (length (wire_front sample_fields) + 2) sample_world = (Ub, w').
Proof.
  apply (segment_edge_overread (fun _ => 0) sp_heartbeat sample_fields 2 sample_world
           sample_hot ltac:(lia) eq_refl sample_ready eq_refl sample_pool_wf sample_can_allocate).
Defined.

Lemma parse_reassembles_witness :
  exists r w1, parse (fun _ => 0) (Some (take 20 (wire sample_fields))) 20 sample_world = (Ret r, w1) /\
               status r = NeedMoreData.
Proof.
  destruct (parse_reassembles (fun _ => 0) sp_heartbeat sample_fields 20 sample_world)
    as (r & w1 & a & w2 & H1 & H2 & _).
  - apply sample_hot.
  - apply (bool_decide_unpack _). vm_compute. exact I.
  - vm_compute. discriminate.
  - apply sample_ready.
  - split; vm_compute; [discriminate|lia].
  - reflexivity.
  - apply sample_pool_wf.
  - apply sample_can_allocate.
  - exists r, w1. exact (conj H1 H2).
Defined.
