(* ===== verification/ParserSafety.v ===== *)
(** What [StreamFixParser] guarantees on arbitrary bytes: every loop ends, the pool
    slot of a message that is not returned is given back, error recovery and the
    circuit breaker. *)
From S2P Require Import Prelude FixFields MessagePool FixMessage ParserState Framing OptimizedParser StreamParser ParserDelivery.

(** * Partial correctness with termination

    [ends m Q w]: from [w], [m] does not run out of fuel, and if it returns [a] in
    state [w'] then [Q a w']; it may throw or leave an object. *)
Definition ends {A} (m : P A) (Q : A -> World -> Prop) (w : World) : Prop :=
  match m w with
  | (Ret a, w') => Q a w'
  | (NoFuel, _) => False
  | _ => True
  end.

Lemma ends_ret {A} (a : A) (Q : A -> World -> Prop) w : Q a w -> ends (ret a) Q w.
Proof. done. Qed.

Lemma ends_bind {A B} (m : P A) (k : A -> P B) (Q : B -> World -> Prop) w :
  ends m (fun a => ends (k a) Q) w -> ends (bind m k) Q w.
Proof. unfold ends, bind. by destruct (m w) as [[] ?]. Qed.

Lemma ends_mono {A} (m : P A) (Q Q' : A -> World -> Prop) w :
  ends m Q w -> (forall a w', Q a w' -> Q' a w') -> ends m Q' w.
Proof. unfold ends. destruct (m w) as [[] ?]; naive_solver. Qed.

Lemma ends_ub {A} (Q : A -> World -> Prop) w : ends ub Q w.
Proof. done. Qed.

Lemma ends_throw {A} (Q : A -> World -> Prop) w : ends throw Q w.
Proof. done. Qed.

Lemma ends_find mem p c n (Q : option nat -> World -> Prop) w :
  (forall i, (p <= i < length mem)%nat -> Q (Some i) w) -> Q None w -> ends (find mem p c n) Q w.
Proof.
  intros Hs Hn. unfold ends, find. destruct (memchr mem p c n) as [i| |] eqn:E; [|done|done].
  apply memchr_found_inv in E as (H1 & H2 & _). apply Hs. lia.
Qed.

Lemma ends_substr mem p n (Q : bytes -> World -> Prop) w :
  (forall s, (p + n <= length mem)%nat -> Q s w) -> ends (substr mem p n) Q w.
Proof.
  intros H. unfold ends, substr, read_bytes. destruct (decide _); [by apply H|done].
Qed.

Lemma ends_looking_at mem p pat (Q : bool -> World -> Prop) w :
  (forall r, drop p mem = pat ++ r -> Q true w) -> Q false w -> ends (looking_at mem p pat) Q w.
Proof.
  intros Ht Hf. unfold ends, looking_at.
  destruct (match_at pat (drop p mem)) as [[]|] eqn:E; [|done|done].
  apply match_at_true in E as [r Hr]. by eapply Ht.
Qed.

Lemma ends_parseIntegerAt mem p n (Q : option Z -> World -> Prop) w :
  (forall v, Q v w) -> ends (parseIntegerAt mem p n) Q w.
Proof. intros H. apply ends_bind, ends_substr. intros s _. apply H. Qed.

Lemma ends_search_in mem p n pat (Q : option nat -> World -> Prop) w :
  (forall v, Q v w) -> ends (search_in mem p n pat) Q w.
Proof. intros H. apply ends_bind, ends_substr. intros s _. apply H. Qed.

Ltac ends_step := apply ends_bind.

(** * Slots *)

(** Same parser and pool memory, with these live slots. *)
Definition slots (w0 w : World) (live : gset nat) : Prop :=
  w_parser w = w_parser w0 /\ pool_wf (w_pool w) /\ same_layout (w_pool w0) (w_pool w) /\
  live_set (w_pool w) = live.

(** Since [w0], the message [msg] was allocated in slot [i]. *)
Definition held (w0 : World) (msg : Z) (i : nat) (w : World) : Prop :=
  slots w0 w ({[i]} ∪ live_set (w_pool w0)) /\ i ∉ live_set (w_pool w0) /\
  msg = addr_of (w_pool w0) (Z.of_nat i).

Lemma slots_refl w : pool_wf (w_pool w) -> slots w w (live_set (w_pool w)).
Proof. done. Qed.

Lemma slots_trans w0 w1 w2 l :
  slots w0 w1 (live_set (w_pool w0)) -> slots w1 w2 l -> slots w0 w2 l.
Proof.
  intros (Hp & Hw & (L1 & L2 & L3) & _) (Hp' & Hw' & (M1 & M2 & M3) & Hl').
  split; [congruence|]. split; [done|]. split; [|done]. unfold same_layout. by rewrite M1, M2, M3.
Qed.

Lemma held_trans w0 w1 w2 msg i :
  slots w0 w1 (live_set (w_pool w0)) -> held w1 msg i w2 -> held w0 msg i w2.
Proof.
  intros Hs (H1 & H2 & H3). assert (live_set (w_pool w1) = live_set (w_pool w0)) as Hl by apply Hs.
  rewrite Hl in *. split; [by eapply slots_trans|]. split; [done|].
  destruct Hs as (_ & _ & (_ & L2 & L3) & _). subst msg. unfold addr_of. by rewrite L2, L3.
Qed.

Lemma held_store w0 msg i f w : held w0 msg i w -> held w0 msg i (store msg f w).
Proof.
  intros ((Hp & Hw & (L1 & L2 & L3) & Hl) & Hi & Hm). split; [|done].
  destruct (update_object_same (setField (fst f) (snd f)) msg (w_pool w)) as (U1 & U2 & U3 & _).
  split; [done|]. split; [by apply update_object_wf|].
  split; [unfold same_layout, store; cbn [w_pool]; rewrite U1, U2, U3; done|].
  rewrite <- Hl. apply set_eq. intros j. rewrite !elem_of_live_set. apply update_object_live.
Qed.

Lemma held_live w0 msg i w :
  held w0 msg i w -> live_slot (w_pool w) i /\ msg = addr_of (w_pool w) (Z.of_nat i).
Proof.
  intros ((Hp & Hw & (L1 & L2 & L3) & Hl) & Hi & Hm). split.
  - apply elem_of_live_set. rewrite Hl. set_solver.
  - subst msg. unfold addr_of. by rewrite L2, L3.
Qed.

Lemma held_deref w0 msg i w : held w0 msg i w -> exists m, deref (w_pool w) msg = Some m.
Proof.
  intros H. destruct (held_live _ _ _ _ H) as [[m Hm] ->]. exists m. unfold deref.
  assert (pool_wf (w_pool w)) as Hw by apply H.
  rewrite slot_of_addr; [|apply Hw|].
  - simpl. by rewrite Nat2Z.id, Hm.
  - apply lookup_lt_Some in Hm. destruct Hw as [_ _ Hs _ _ _]. lia.
Qed.

Lemma held_free w0 msg i w :
  held w0 msg i w ->
  slots w0 (mkWorld (w_parser w) (deallocate (Some msg) (w_pool w)) (w_ticks w))
    (live_set (w_pool w0)).
Proof.
  intros H. destruct (held_live _ _ _ _ H) as [Hlive Ea].
  destruct H as ((Hp & Hw & (L1 & L2 & L3) & Hl) & Hi & _).
  destruct (deallocate_live i (w_pool w) Hw Hlive) as (D1 & _ & _ & _ & D2 & D3 & D4 & _ & Hw').
  rewrite <- Ea in *. split; [done|]. split; [done|]. cbn [w_pool].
  split; [unfold same_layout; rewrite D2, D3, D4; done|].
  erewrite live_set_delete; [|exact D1|destruct Hlive as [o Ho]; by apply lookup_lt_Some in Ho].
  rewrite Hl. set_solver.
Qed.

(** [message_pool_->allocate()] on a well-formed pool. *)
Lemma ends_allocate clock (Q : option Z -> World -> Prop) w :
  pool_wf (w_pool w) ->
  (forall msg i w', held w msg i w' -> Q (Some msg) w') ->
  (forall w', slots w w' (live_set (w_pool w)) -> Q None w') ->
  ends (pool_allocate clock) Q w.
Proof.
  intros Hw Hs Hn. unfold ends, pool_allocate.
  destruct (allocate _ (w_pool w)) as [[a|] p'] eqn:E.
  - destruct (allocate_fresh _ _ _ _ Hw E) as (i & H1 & H2 & H3 & _ & H5 & _ & _ & _ & H9 & _).
    by apply (Hs a i).
  - destruct (allocate_none _ _ _ Hw E) as [-> _]. apply Hn.
    split; [done|]. split; [by apply fail_allocation_wf|]. done.
Qed.

Lemma ends_abandon w0 msg i r (Q : ParseResult -> World -> Prop) w :
  held w0 msg i w -> (forall w', slots w0 w' (live_set (w_pool w0)) -> Q r w') ->
  ends (abandon msg r) Q w.
Proof. intros Hh H. unfold ends, abandon. simpl. apply H. by apply (held_free w0 msg i w). Qed.

Lemma ends_hasField w0 msg i tag (Q : bool -> World -> Prop) w :
  held w0 msg i w -> (forall b, Q b w) -> ends (msg_hasField msg tag) Q w.
Proof.
  intros Hh H. unfold ends, msg_hasField. destruct (held_deref _ _ _ _ Hh) as [m ->]. apply H.
Qed.

Lemma ends_setField w0 msg i tag v (Q : unit -> World -> Prop) w :
  held w0 msg i w -> (forall w', held w0 msg i w' -> Q tt w') -> ends (msg_setField msg tag v) Q w.
Proof. intros Hh H. apply (H (store msg (tag, v) w)). by apply held_store. Qed.

(** * Decoding *)

(** A decoder started in [w0] returned [r] in [w']: success hands over one freshly
    allocated message and, when checksums are validated, consumes between 1 byte and
    7 more than the memory holds; anything else hands over nothing and leaves the
    live slots as they were. *)
Definition decode_post (mem : bytes) (w0 : World) (r : ParseResult) (w' : World) : Prop :=
  match status r with
  | Success =>
      exists i msg, parsed_message r = Some msg /\ held w0 msg i w' /\
        (validate_checksum_ (w_parser w0) = true ->
         0 < bytes_consumed r <= Z.of_nat (length mem) + 7)
  | _ => parsed_message r = None /\ slots w0 w' (live_set (w_pool w0))
  end.

(** The post-condition of a field loop. *)
Definition loop_post (mem : bytes) (w0 : World) (msg : Z) (i : nat) (r : option ParseResult)
    (w' : World) : Prop :=
  match r with
  | None => held w0 msg i w'
  | Some err => status err <> Success /\ decode_post mem w0 err w'
  end.

Lemma ends_abandon_loop mem w0 msg i st pos fs w :
  st <> Success -> held w0 msg i w ->
  ends (bind (abandon msg (parse_error st pos fs)) (fun r => ret (Some r)))
    (loop_post mem w0 msg i) w.
Proof.
  intros Hst Hh. ends_step. eapply ends_abandon; [exact Hh|]. intros w' Hs. apply ends_ret.
  split; [done|]. unfold decode_post. by destruct st.
Qed.

Lemma parse_fields_ends fuel sp (mem : bytes) base body_end msg cur w0 i w :
  held w0 msg i w -> (cur <= length mem)%nat -> (length mem - cur < fuel)%nat ->
  ends (parse_fields fuel sp mem base body_end msg cur) (loop_post mem w0 msg i) w.
Proof.
  revert cur w. induction fuel as [|f IH]; intros cur w Hh Hc Hf; [lia|]. cbn [parse_fields].
  destruct (Z.of_nat cur <? body_end); [|by apply ends_ret]. ends_step.
  apply ends_find; [intros e He|by apply ends_abandon_loop]. ends_step.
  apply ends_parseIntegerAt. intros [tag|]; [|by apply ends_abandon_loop]. ends_step.
  apply ends_find; [intros s Hs|by apply ends_abandon_loop]. ends_step.
  apply ends_substr. intros v _. ends_step. eapply ends_setField; [exact Hh|]. intros w' Hh'.
  apply IH; [done|lia|lia].
Qed.

Lemma message_fields_ends fuel (mem : bytes) base end_ptr msg cur w0 i w :
  held w0 msg i w -> (cur <= length mem)%nat -> (length mem - cur < fuel)%nat ->
  ends (message_fields fuel mem base end_ptr msg cur) (loop_post mem w0 msg i) w.
Proof.
  revert cur w. induction fuel as [|f IH]; intros cur w Hh Hc Hf; [lia|]. cbn [message_fields].
  case_decide; [|by apply ends_ret]. ends_step.
  apply ends_find; [intros e He|by apply ends_abandon_loop]. ends_step.
  apply ends_parseIntegerAt. intros [tag|]; [|by apply ends_abandon_loop]. ends_step.
  apply ends_find; [intros s Hs|by apply ends_abandon_loop]. ends_step.
  apply ends_substr. intros v _. ends_step. eapply ends_setField; [exact Hh|]. intros w' Hh'.
  destruct (tag =? Tag.CheckSum); [by apply ends_ret|]. apply IH; [exact Hh'|lia|lia].
Qed.

Lemma looking_at_bound (mem : bytes) p pat r :
  pat <> [] -> drop p mem = pat ++ r -> (p + length pat <= length mem)%nat.
Proof.
  intros Hp Hd. assert (p <= length mem)%nat by (eapply drop_length_le; [exact Hd|by destruct pat]).
  apply (f_equal length) in Hd. rewrite length_drop, length_app in Hd. lia.
Qed.

Lemma finish_message_ends sp (mem : bytes) base body_end msg w0 i w :
  Z.of_nat (length mem) < 2 ^ 62 -> held w0 msg i w ->
  ends (finish_message sp mem base body_end msg) (decode_post mem w0) w.
Proof.
  intros Hsmall Hh. assert (w_parser w = w_parser w0) as Hpar by apply Hh.
  unfold finish_message. ends_step. unfold ends at 1, get_parser. ends_step. unfold in_array.
  destruct (Z.ltb_spec body_end 0); [apply ends_ub|]. apply ends_ret.
  destruct (validate_checksum_ (w_parser w)) eqn:Hv; ends_step.
  - apply ends_looking_at; [intros r Hr|].
    2: { eapply ends_abandon; [exact Hh|]. by split. }
    apply looking_at_bound in Hr; [|done]. change (length FIX_CHECKSUM_TAG) with 3%nat in Hr.
    cbn [negb]. ends_step. apply ends_substr. intros v _. ends_step.
    eapply ends_setField; [exact Hh|]. intros w' Hh'.
    destruct (Z.ltb_spec body_end (Z.of_nat base)); [apply ends_ub|]. ends_step.
    apply ends_substr. intros summed _. destruct (stoi v) as [c| |]; try apply ends_throw.
    destruct (_ =? _); [|eapply ends_abandon; [exact Hh'|by split]]. apply ends_ret.
    exists i, msg. split; [done|]. split; [exact Hh'|]. intros _. cbn [bytes_consumed].
    rewrite !size_t_small; rewrite ?size_t_small; lia.
  - apply ends_substr. intros v _. ends_step. eapply ends_setField; [exact Hh|]. intros w' Hh'.
    apply ends_ret. exists i, msg. split; [done|]. split; [exact Hh'|]. rewrite <- Hpar, Hv. discriminate.
Qed.

Lemma parse_special_ends clock sp (mem : bytes) base len w :
  Z.of_nat (length mem) < 2 ^ 62 -> pool_wf (w_pool w) ->
  ends (parse_special clock sp mem base len) (decode_post mem w) w.
Proof.
  intros Hsmall Hw. pose proof (slots_refl w Hw) as Hrefl. unfold parse_special.
  case_decide; [by apply ends_ret|]. ends_step.
  unfold ends at 1, read. destruct (mem !! _) as [c|]; [|done]. simpl.
  destruct (negb (c =? FIX_SOH)); [apply ends_ret; by destruct (sp_soh_incomplete sp)|]. ends_step.
  apply ends_looking_at; [intros r _|by apply ends_ret]. cbn [negb]. ends_step.
  apply ends_allocate; [done| |intros w' Hs; apply ends_ret; by split].
  intros msg i w1 Hh. unfold parse_allocated.
  ends_step. eapply ends_setField; [exact Hh|]. clear Hh. intros w1' Hh.
  ends_step. eapply ends_setField; [exact Hh|]. clear Hh. intros w2 Hh2. ends_step.
  apply ends_find; [intros e He|eapply ends_abandon; [exact Hh2|by split]]. ends_step.
  apply ends_parseIntegerAt. intros [n|]; [|eapply ends_abandon; [exact Hh2|by split]]. ends_step.
  eapply ends_setField; [exact Hh2|]. clear Hh2. intros w2' Hh2. ends_step.
  eapply ends_mono; [apply (parse_fields_ends _ _ _ _ _ msg _ w i); [exact Hh2|lia|lia]|].
  intros [err|] w3; [by intros [_ Hp]; apply ends_ret|]. intros Hh3. ends_step.
  assert (forall b, ends (if negb b then abandon msg (parse_error InvalidFormat 0 ERROR_RECOVERY)
                          else finish_message sp mem base (Z.of_nat e + 1 + n) msg)
                      (decode_post mem w) w3) as Hfin.
  { intros [|]; [by apply (finish_message_ends _ _ _ _ _ w i)|]. eapply ends_abandon; [exact Hh3|by split]. }
  destruct (sp_check_type sp); [by eapply ends_hasField|]. by apply ends_ret.
Qed.

Lemma validateMessageChecksum_ends (mem : bytes) base len (Q : bool -> World -> Prop) w :
  Q false w -> ((7 <= len)%nat -> (base + len <= length mem + 1)%nat -> forall b, Q b w) ->
  ends (validateMessageChecksum mem base len) Q w.
Proof.
  intros Hf Ht. unfold validateMessageChecksum. case_decide as H7; [by apply ends_ret|]. ends_step.
  apply ends_looking_at; [intros r _|by apply ends_ret]. cbn [negb]. ends_step.
  apply ends_substr. intros body _. ends_step. unfold parseIntegerAt. ends_step.
  apply ends_substr. intros ds Hb. apply ends_ret.
  destruct (parseInteger ds); apply ends_ret; apply Ht; lia.
Qed.

Lemma parseMessage_ends clock (mem : bytes) base len w :
  pool_wf (w_pool w) -> (base <= length mem)%nat ->
  ends (parseMessage clock mem base 0 len) (decode_post mem w) w.
Proof.
  intros Hw Hb. unfold parseMessage. ends_step.
  apply ends_allocate; [done| |intros w' Hs; apply ends_ret; by split].
  intros msg i w1 Hh. ends_step. rewrite Nat.add_0_r.
  eapply ends_mono; [apply (message_fields_ends _ _ _ _ msg _ w i); [exact Hh|lia|lia]|].
  intros [err|] w2; [by intros [_ Hp]; apply ends_ret|]. intros Hh2.
  ends_step. unfold ends at 1, get_parser. ends_step.
  assert (w_parser w2 = w_parser w) as Hpar by apply Hh2.
  assert (forall b, ends (if negb b then abandon msg (plain InvalidFormat 0) else
    sum_ok <-- (if validate_checksum_ (w_parser w2)
                then validateMessageChecksum mem base (len - 0) else ret true) ;;
    if negb sum_ok then abandon msg (plain ChecksumError 0)
    else ret (mkResult Success (Z.of_nat (len - 0)) (Some msg) IDLE 0)) (decode_post mem w) w2) as Hrest.
  { intros [|]; cbn [negb]; [|eapply ends_abandon; [exact Hh2|by split]]. ends_step.
    destruct (validate_checksum_ (w_parser w2)) eqn:Hv.
    - apply validateMessageChecksum_ends; [eapply ends_abandon; [exact Hh2|by split]|].
      intros H7 Hlen [|]; cbn [negb]; [|eapply ends_abandon; [exact Hh2|by split]]. apply ends_ret.
      exists i, msg. split; [done|]. split; [exact Hh2|]. intros _. cbn [bytes_consumed]. lia.
    - apply ends_ret. cbn [negb]. apply ends_ret. exists i, msg. split; [done|]. split; [exact Hh2|].
      rewrite <- Hpar, Hv. discriminate. }
  destruct (strict_validation_ (w_parser w2)); [|by apply ends_ret].
  unfold validateParsedMessage. do 4 (ends_step; eapply ends_hasField; [exact Hh2|intros ?]).
  by apply ends_ret.
Qed.

Lemma extractMsgType_ends mem base len (Q : bytes -> World -> Prop) w :
  (forall t, Q t w) -> ends (extractMsgType mem base len) Q w.
Proof.
  intros H. unfold extractMsgType. ends_step. apply ends_search_in. intros [p|]; [|by apply ends_ret].
  ends_step. apply ends_find; [intros i _|by apply ends_ret]. apply ends_substr. auto.
Qed.

Lemma parseIntelligent_ends clock (mem : bytes) base len w :
  Z.of_nat (length mem) < 2 ^ 62 -> pool_wf (w_pool w) -> (base <= length mem)%nat ->
  ends (parseIntelligent clock mem base len) (decode_post mem w) w.
Proof.
  intros Hs Hw Hb. unfold parseIntelligent. ends_step. apply extractMsgType_ends. intros t.
  repeat case_decide; solve [by apply parseMessage_ends | by apply parse_special_ends].
Qed.

(** Stage 2 on any bytes. *)
Lemma parseCompleteMessage_ends clock (mem : bytes) base len w :
  Z.of_nat (length mem) < 2 ^ 62 -> pool_wf (w_pool w) -> (base <= length mem)%nat ->
  (len <= length mem)%nat ->
  ends (parseCompleteMessage clock mem base len) (decode_post mem w) w.
Proof.
  intros Hs Hw Hb Hl. unfold parseCompleteMessage. case_decide as H0; [apply ends_ret; by split|].
  ends_step. eapply ends_mono; [by apply parseIntelligent_ends|]. intros r w1 Hr.
  case_decide as Hst; [by apply ends_ret|].
  assert (slots w w1 (live_set (w_pool w))) as Hsl by (unfold decode_post in Hr; by destruct (status r); destruct Hr).
  ends_step. eapply ends_mono; [apply parseMessage_ends; [apply Hsl|done]|]. intros r2 w2 Hr2.
  assert (w_parser w1 = w_parser w) as Hpar by apply Hsl.
  case_decide as Hst2; apply ends_ret; unfold decode_post in *; cbn [status].
  - rewrite Hst2 in Hr2. destruct Hr2 as (i & msg & H1 & H2 & _). exists i, msg.
    split; [done|]. split; [by eapply held_trans|]. intros _. cbn [bytes_consumed]. lia.
  - assert (live_set (w_pool w1) = live_set (w_pool w)) as Hl1 by apply Hsl.
    rewrite Hl1 in Hr2. destruct (status r2); try done; destruct Hr2 as [H1 H2];
      (split; [exact H1|by eapply slots_trans]).
Qed.

(** * Error recovery *)

(** The pool and the configuration are untouched. *)
Definition quiet (w w' : World) : Prop :=
  w_pool w' = w_pool w /\ same_config (w_parser w) (w_parser w').

Lemma quiet_refl w : quiet w w.
Proof. by split. Qed.

Lemma quiet_trans w0 w1 w2 : quiet w0 w1 -> quiet w1 w2 -> quiet w0 w2.
Proof. intros [H1 H2] [H3 H4]. split; [congruence|by etrans]. Qed.

#[local] Hint Resolve quiet_refl : fixdb.

Lemma handleErrorRecovery_ends mem base len w :
  ends (handleErrorRecovery mem base len)
    (fun r w' => status r <> RecoverySuccess /\ quiet w w') w.
Proof.
  unfold handleErrorRecovery. ends_step. unfold ends at 1, skipToNextPotentialMessage.
  destruct (skip_loop _ _ _) as [[i|]| | |]; try done; cbn [ret].
  - destruct (Z.of_nat len <=? i); by split.
  - destruct (Z.of_nat len <=? Z.of_nat len); by split.
Qed.

Lemma attemptErrorRecovery_ends mem base len w :
  ends (attemptErrorRecovery mem base len)
    (fun r w' => status r <> RecoverySuccess /\ quiet w w') w.
Proof.
  unfold attemptErrorRecovery. ends_step. unfold transitionToState. ends_step.
  unfold ends at 1, get_parser. destruct (isValidStateTransition _ _).
  - ends_step. unfold ends at 1, recordStateTransition, update_parser. ends_step.
    unfold ends at 1, update_parser. apply ends_ret. cbn [negb].
    eapply ends_mono; [apply handleErrorRecovery_ends|].
    intros r w' [H1 H2]. split; [done|]. eapply quiet_trans; [|exact H2]. by split.
  - by apply ends_ret.
Qed.

(** * The loop of [parse] *)

Lemma findCompleteMessage_quiet mem base len w :
  ends (findCompleteMessage mem base len) (fun _ w' => quiet w w') w.
Proof.
  unfold findCompleteMessage, frame_body.
  case_decide; [by apply ends_ret|]. ends_step. apply ends_search_in. intros [st|]; [|by apply ends_ret].
  case_decide; [by apply ends_ret|]. ends_step. apply ends_looking_at; [intros r _|by apply ends_ret].
  cbn [negb]. ends_step. apply ends_find; [intros s _|by apply ends_ret].
  case_decide; [by apply ends_ret|]. ends_step. apply ends_looking_at; [intros r' _|by apply ends_ret].
  cbn [negb]. ends_step. apply ends_find; [intros e _|by apply ends_ret]. ends_step.
  apply ends_parseIntegerAt. intros n. ends_step. unfold ends at 1, get_parser.
  destruct n as [n|]; [|by apply ends_ret]. destruct (_ || _); [by apply ends_ret|]. ends_step.
  unfold ends at 1, update_parser. case_decide; by apply ends_ret.
Qed.

Section Clocked.
Variable clock : nat -> Z.

Lemma updateErrorStats_ends st ps (Q : unit -> World -> Prop) w :
  (forall w', quiet w w' -> Q tt w') -> ends (updateErrorStats clock st ps) Q w.
Proof. intros H. apply H. by split. Qed.

Lemma recordErrorRecovery_false : recordErrorRecovery false = ret tt.
Proof. reflexivity. Qed.

Lemma after_decode_ends mem cursor ptr len e r w :
  ends (after_decode clock mem cursor ptr len e r)
    (fun r' w' => (status r' = Success -> r' = r) /\ quiet w w') w.
Proof.
  unfold after_decode. ends_step. unfold ends at 1, now. ends_step. unfold ends at 1, get_parser.
  case_decide as Hs.
  { unfold resetErrorRecovery, recordPartialMessageHandled.
    split; [done|]. by split. }
  case_decide; [apply ends_ret; by split|]. ends_step. apply updateErrorStats_ends. intros w1 Hq1.
  ends_step. unfold ends at 1, update_parser. ends_step. unfold ends at 1, get_parser.
  assert (forall st t, quiet w1 (mkWorld (with_stats (updateStats st t) (w_parser w1)) (w_pool w1) (w_ticks w1)))
    as Hq2 by (by split).
  assert (forall w2, quiet w1 w2 -> quiet w w2) as Hq.
  { intros w2 H2. eapply quiet_trans; [|exact H2]. eapply quiet_trans; [|exact Hq1]. by split. }
  destruct (canRecoverFromError _ _ _); [|apply ends_ret; split; [done|by apply Hq]].
  ends_step. eapply ends_mono; [apply attemptErrorRecovery_ends|]. intros rec w3 [Hrec Hq3].
  rewrite decide_False by done. ends_step. apply ends_ret. apply ends_ret. split; [done|].
  apply Hq. eapply quiet_trans; [|exact Hq3]. apply Hq2.
Qed.

(** What one turn keeps, and that it moves the cursor. *)
Definition turn_post (cursor : nat) (w : World) (t : turn) (w' : World) : Prop :=
  pool_wf (w_pool w') /\ validate_checksum_ (w_parser w') = validate_checksum_ (w_parser w) /\
  match t with
  | Return_ _ => True
  | Continue_ c _ => Z.of_nat cursor < c
  end.

Lemma quiet_post cursor w w' r : pool_wf (w_pool w) -> quiet w w' -> turn_post cursor w (Return_ r) w'.
Proof. intros Hw [Hp Hc]. unfold turn_post. rewrite Hp. split; [done|]. split; [apply Hc|done]. Qed.

Lemma framing_error_ends mem cursor len last r w :
  pool_wf (w_pool w) -> ends (framing_error clock mem cursor len last r) (turn_post cursor w) w.
Proof.
  intros Hw. unfold framing_error. ends_step. unfold ends at 1, get_parser. ends_step.
  destruct (canRecoverFromError _ _ _).
  - ends_step. eapply ends_mono; [apply attemptErrorRecovery_ends|]. intros rec w1 [Hrec Hq].
    rewrite decide_False by done. ends_step. apply ends_ret, ends_ret. ends_step.
    apply updateErrorStats_ends. intros w2 Hq2. apply ends_ret. apply quiet_post; [done|].
    by eapply quiet_trans.
  - apply ends_ret. ends_step. apply updateErrorStats_ends. intros w2 Hq2. apply ends_ret.
    by apply quiet_post.
Qed.

Lemma decode_post_wf mem w0 r w' :
  decode_post mem w0 r w' ->
  pool_wf (w_pool w') /\ w_parser w' = w_parser w0 /\
  (status r = Success -> validate_checksum_ (w_parser w0) = true ->
   0 < bytes_consumed r <= Z.of_nat (length mem) + 7).
Proof.
  unfold decode_post. destruct (status r); intros H;
    try (destruct H as [_ (H1 & H2 & _)]; split; [exact H2|split; [exact H1|discriminate]]).
  destruct H as (i & msg & _ & Hh & Hc). split; [apply Hh|]. split; [apply Hh|]. by intros _.
Qed.

Lemma parse_turn_ends (mem : bytes) len cursor last w :
  Z.of_nat (length mem) < 2 ^ 62 -> (cursor < len <= length mem)%nat -> pool_wf (w_pool w) ->
  validate_checksum_ (w_parser w) = true ->
  ends (parse_turn clock mem len cursor last) (turn_post cursor w) w.
Proof.
  intros Hs Hl Hw Hv. unfold parse_turn. ends_step.
  destruct (framing_sound mem cursor (len - cursor) w ltac:(lia))
    as (r & s & e & w1 & E & _ & _ & Hst & Hok).
  pose proof (findCompleteMessage_quiet mem cursor (len - cursor) w) as Hq.
  unfold ends in Hq |- * at 1. rewrite E in *. assert (pool_wf (w_pool w1)) as Hw1 by (by destruct Hq as [-> _]).
  assert (validate_checksum_ (w_parser w1) = true) as Hv1.
  { rewrite <- Hv. apply Hq. }
  case_decide as Hmore.
  { ends_step. apply ends_substr. intros left_ _. ends_step. unfold copy_to_partial. ends_step.
    unfold ends at 1, get_parser. destruct (_ <? _); [apply ends_ub|]. case_decide; [apply ends_ub|].
    unfold ends at 1, update_parser. ends_step. unfold ends at 1, update_parser. apply ends_ret.
    split; [exact Hw1|]. split; [|done]. cbn. by rewrite Hv, Hv1. }
  case_decide as Hns.
  { eapply ends_mono; [by apply framing_error_ends|]. intros t w2 (H1 & H2 & H3).
    split; [done|]. split; [congruence|done]. }
  destruct (decide (status r = Success)) as [Hsucc|]; [|done].
  destruct (Hok Hsucc) as (Hse & _ & _). ends_step.
  eapply ends_mono; [apply parseCompleteMessage_ends; [done|done|lia|lia]|].
  intros d w2 Hd. destruct (decode_post_wf _ _ _ _ Hd) as (Hw2 & Hp2 & Hc2). ends_step.
  eapply ends_mono; [apply after_decode_ends|]. intros r3 w3 [Hr3 [Hq3 Hcfg]].
  assert (pool_wf (w_pool w3)) as Hw3 by (by rewrite Hq3).
  assert (validate_checksum_ (w_parser w3) = validate_checksum_ (w_parser w)) as Hv3.
  { destruct Hcfg as (_ & -> & _). rewrite Hp2. congruence. }
  case_decide as Hn3; apply ends_ret; (split; [done|]; split; [done|]); [done|].
  destruct (decide (status r3 = Success)) as [H3|]; [|done]. specialize (Hr3 H3). subst r3.
  cbn [status] in H3. specialize (Hc2 H3 Hv1).
  change (Z.of_nat cursor < size_t (Z.of_nat cursor + bytes_consumed d)).
  unfold size_t. rewrite Z.mod_small; lia.
Qed.

Lemma parse_turns_ends fuel (mem : bytes) len cursor last w :
  Z.of_nat (length mem) < 2 ^ 62 -> (len <= length mem)%nat -> 0 <= cursor ->
  pool_wf (w_pool w) -> validate_checksum_ (w_parser w) = true ->
  (Z.of_nat len - cursor <= Z.of_nat fuel) ->
  ends (parse_turns clock fuel mem len cursor last) (fun _ w' => pool_wf (w_pool w')) w.
Proof.
  revert cursor last w. induction fuel as [|f IH]; intros cursor last w Hs Hl Hc Hw Hv Hf;
    cbn [parse_turns]; (destruct (Z.ltb_spec cursor (Z.of_nat len)); [|destruct last; by apply ends_ret]).
  { simpl in Hf. lia. }
  ends_step. eapply ends_mono; [apply parse_turn_ends; [done|lia|done|done]|].
  intros t w1 (Hw1 & Hv1 & Ht). destruct t as [r|c l]; [by apply ends_ret|].
  rewrite Z2Nat.id in Ht by lia. apply IH; try done; [lia|congruence|lia].
Qed.

Lemma prepend_partial_ends buf len w :
  buffer_ok (w_parser w) -> Z.of_nat (length buf) < 2 ^ 62 -> (len <= length buf)%nat ->
  ends (prepend_partial buf len) (fun b w' =>
    w_pool w' = w_pool w /\ validate_checksum_ (w_parser w') = validate_checksum_ (w_parser w) /\
    match b with
    | inl (mem, n) => Z.of_nat (length mem) < 2 ^ 62 /\ (n <= length mem)%nat
    | inr _ => True
    end) w.
Proof.
  intros [Hb1 Hb2] Hbuf Hl. unfold prepend_partial. ends_step. unfold ends at 1, get_parser.
  case_decide; [|by apply ends_ret]. destruct (Z.ltb_spec PARTIAL_BUFFER_SIZE
    (Z.of_nat (partial_buffer_size_ (w_parser w) + len))); [by apply ends_ret|].
  ends_step. unfold ends at 1, substr, read_bytes. case_decide; [|done]. cbn [ret].
  set (src := take len (drop 0 buf)).
  assert (length src = len) as Hsrc by (unfold src; rewrite drop_0, length_take; lia).
  ends_step. unfold PARTIAL_BUFFER_SIZE in *. unfold ends at 1.
  rewrite copy_eval by (unfold PARTIAL_BUFFER_SIZE; rewrite ?Hsrc; lia).
  ends_step. unfold ends at 1, update_parser. ends_step. unfold ends at 1, get_parser. apply ends_ret.
  split; [done|]. split; [done|]. cbn [w_parser with_partial partial_buffer_].
  rewrite !length_app, length_take, length_drop, Hsrc. lia.
Qed.
End Clocked.

(** * Properties *)

(** C9: on any bytes, Stage 2 keeps the pool balanced: when [parseCompleteMessage]
    returns, either it succeeded and exactly one slot that was free became live and
    its message is the result, or it failed, the result carries no message and the
    live slots are those of before; and it never runs out of loop fuel. *)
Theorem decode_balanced clock (mem : bytes) base len w :
  Z.of_nat (length mem) < 2 ^ 62 -> pool_wf (w_pool w) -> (base <= length mem)%nat ->
  (len <= length mem)%nat ->
  match parseCompleteMessage clock mem base len w with
  | (Ret r, w') =>
      pool_wf (w_pool w') /\
      ((status r = Success /\ exists i,
          parsed_message r = Some (addr_of (w_pool w) (Z.of_nat i)) /\ i ∉ live_set (w_pool w) /\
          live_set (w_pool w') = {[i]} ∪ live_set (w_pool w)) \/
       (status r <> Success /\ parsed_message r = None /\
          live_set (w_pool w') = live_set (w_pool w)))
  | (NoFuel, _) => False
  | _ => True
  end.
Proof.
  intros Hs Hw Hb Hl. pose proof (parseCompleteMessage_ends clock mem base len w Hs Hw Hb Hl) as H.
  unfold ends in H. destruct (parseCompleteMessage clock mem base len w) as [[r| | |] w']; try done.
  split; [by eapply decode_post_wf|]. unfold decode_post in H.
  destruct (status r) eqn:E; try (right; destruct H as [H1 (_ & _ & _ & H2)]; done).
  left. split; [done|]. destruct H as (i & msg & H1 & ((_ & _ & _ & H2) & H3 & ->) & _).
  by exists i.
Qed.

(** C10: with checksum validation on (the default), [parse] returns for every buffer:
    the framing loop advances by at least one byte per decoded message, so the number of
    turns allowed by the length of the data is never used up. *)
Theorem parse_terminates clock buf len w :
  Z.of_nat (length buf) < 2 ^ 62 -> (len <= length buf)%nat -> pool_wf (w_pool w) ->
  buffer_ok (w_parser w) -> validate_checksum_ (w_parser w) = true ->
  fst (parse clock (Some buf) len w) <> NoFuel.
Proof.
  intros Hbuf Hl Hw Hb Hv.
  assert (ends (parse clock (Some buf) len) (fun _ _ => True) w) as H.
  2: { unfold ends in H. by destruct (parse clock (Some buf) len w) as [[] ?]. }
  unfold parse. case_decide; [by apply ends_ret|]. ends_step. unfold ends at 1, now. ends_step.
  unfold ends at 1, update_parser.
  match goal with |- ends (try_catch ?m ?h) _ ?w1 =>
    assert (ends m (fun _ _ => True) w1) as H' end.
  2: { unfold ends, try_catch in *. by destruct (parse_body _ _ _ _) as [[] ?]. }
  unfold parse_body. ends_step. set (w1 := mkWorld _ _ _).
  assert (ends (isCircuitBreakerActive clock) (fun _ w' => quiet w1 w') w1) as Hcb.
  { unfold isCircuitBreakerActive. ends_step. unfold ends at 1, get_parser.
    destruct (circuit_breaker_active_ _); [|by apply ends_ret]. ends_step. unfold ends at 1, now.
    destruct (_ <? _); [|by apply ends_ret]. by split. }
  eapply ends_mono; [exact Hcb|]. intros active w2 [Hp2 Hc2]. destruct active; [by apply ends_ret|].
  assert (buffer_ok (w_parser w2)) as Hb2.
  { destruct Hc2 as (_ & _ & _ & _ & _ & Hc6 & Hc7). unfold buffer_ok. rewrite Hc6, Hc7. exact Hb. }
  ends_step. eapply ends_mono; [by apply prepend_partial_ends|]. intros [[mem n]|r] w3 (Hp3 & Hv3 & Hm);
    [|by apply ends_ret].
  eapply ends_mono; [apply parse_turns_ends; [apply Hm|apply Hm|lia| | |lia]|done].
  - by rewrite Hp3, Hp2.
  - rewrite Hv3. destruct Hc2 as (_ & -> & _). exact Hv.
Qed.

(** Error recovery cannot succeed: whatever the buffer and the state,
    [attemptErrorRecovery] never returns [RecoverySuccess], because the context has
    been reset to IDLE when it asks for the transition to IDLE, which the table
    forbids. *)
Lemma recovery_never_succeeds mem base len w r w' :
  attemptErrorRecovery mem base len w = (Ret r, w') -> status r <> RecoverySuccess.
Proof.
  intros E. pose proof (attemptErrorRecovery_ends mem base len w) as H. unfold ends in H.
  rewrite E in H. apply H.
Qed.

(** The error count reached the limit while the breaker flag is not set. *)
Definition latched (p : StreamFixParser) : Prop :=
  circuit_breaker_active_ p = false /\ error_recovery_enabled_ p = true /\
  max_consecutive_errors_ p <= consecutive_errors (parse_context_ p).

Lemma latched_parse clock buf len w :
  latched (w_parser w) -> (0 < len)%nat ->
  parse clock (Some buf) len w
  = (Ret (mkResult CorruptedData 0 None ERROR_RECOVERY 0), started clock w).
Proof.
  intros (Ha & He & Hm) Hl. unfold parse. rewrite decide_False by lia.
  set (w0 := mkWorld (w_parser w) (w_pool w) (S (w_ticks w))).
  rewrite (bind_ret (now clock) _ w (clock (w_ticks w)) w0 eq_refl).
  rewrite (bind_ret (update_parser _) _ w0 tt (started clock w) eq_refl).
  unfold try_catch, parse_body.
  rewrite (bind_ret _ _ (started clock w) true (started clock w)); [done|].
  unfold isCircuitBreakerActive.
  rewrite (bind_ret get_parser _ (started clock w) (w_parser (started clock w)) _ eq_refl).
  change (circuit_breaker_active_ (w_parser (started clock w))) with (circuit_breaker_active_ (w_parser w)).
  rewrite Ha. unfold shouldActivateCircuitBreaker. cbn [started w_parser with_start_time
    error_recovery_enabled_ max_consecutive_errors_ parse_context_].
  rewrite He. cbn [negb]. destruct (Z.leb_spec (max_consecutive_errors_ (w_parser w))
    (consecutive_errors (parse_context_ (w_parser w)))); [done|lia].
Qed.

(** Calls of [parse] one after the other. *)
Fixpoint parse_calls (clock : nat -> Z) (bufs : list bytes) (w : World)
    : list (outcome ParseResult) * World :=
  match bufs with
  | [] => ([], w)
  | b :: bufs' =>
      let '(o, w1) := parse clock (Some b) (length b) w in
      let '(os, w2) := parse_calls clock bufs' w1 in
      (o :: os, w2)
  end.

(** The circuit breaker does not cool down: once the limit of consecutive errors
    is reached, every later call of [parse] on non-empty data, at whatever times,
    returns [CorruptedData] without looking at the data, because the five-second
    rule only applies when a flag is set that no code sets. *)
Lemma breaker_latches clock bufs w :
  latched (w_parser w) -> Forall (fun b => b <> []) bufs ->
  Forall (fun o => o = Ret (mkResult CorruptedData 0 None ERROR_RECOVERY 0))
    (fst (parse_calls clock bufs w)) /\
  latched (w_parser (snd (parse_calls clock bufs w))) /\
  w_pool (snd (parse_calls clock bufs w)) = w_pool w.
Proof.
  revert w. induction bufs as [|b bufs IH]; intros w Hl Hb; [by split|].
  apply Forall_cons in Hb as [Hb Hbs]. cbn [parse_calls].
  rewrite latched_parse; [|done|destruct b; [done|simpl; lia]].
  destruct (IH (started clock w) Hl Hbs) as (H1 & H2 & H3).
  destruct (parse_calls clock bufs (started clock w)) as [os w2]. simpl in *.
  split; [by constructor|]. by split.
Qed.

(** * Types without an optimised parser *)

Lemma message_fields_eval fuel mem base msg fs cur rest w :
  Forall wire_field fs -> Tag.CheckSum ∉ fs.*1 -> (length fs < fuel)%nat -> (cur <= length mem)%nat ->
  drop cur mem = printFields fs ++ rest ->
  message_fields fuel mem base (cur + length (printFields fs)) msg cur w
  = (Ret None, store_fields msg fs w).
Proof.
  revert fuel cur w. induction fs as [|[tag v] fs IH]; intros fuel cur w Hf Hno Hfuel Hcur HD.
  { destruct fuel as [|f]; [simpl in Hfuel; lia|]. cbn [message_fields].
    change (length (printFields [])) with O. by rewrite decide_False by lia. }
  apply Forall_cons in Hf as [[Ht Hv] Hf]. cbn [fst snd] in Ht, Hv.
  cbn in Hno. apply not_elem_of_cons in Hno as [Hno1 Hno2].
  destruct fuel as [|f]; [simpl in Hfuel; lia|]. rewrite printFields_cons in *. cbn [fst snd] in *.
  rewrite <- app_assoc, printed_field_split in HD. set (ts := to_string tag) in *.
  rewrite length_app, length_formatFixField. fold ts.
  set (end_ptr := (cur + (length ts + length v + 2 + length (printFields fs)))%nat).
  assert (length mem = cur + length ts + 1 + length v + 1 + length (printFields fs ++ rest))%nat as Hm.
  { apply (f_equal length) in HD. rewrite length_drop in HD. rewrite !length_app in HD. simpl in HD.
    rewrite length_app in HD. simpl in HD. lia. }
  cbn [message_fields]. rewrite decide_True by lia.
  rewrite (bind_ret _ _ _ _ _ (find_eval mem cur 61 (end_ptr - cur)
    _ _ w HD (to_string_no_special tag 61 ltac:(by left)) ltac:(fold ts; lia))). fold ts.
  rewrite (bind_ret _ _ _ _ _ (parseIntegerAt_eval mem cur (cur + length ts - cur) _ _ w Hcur HD ltac:(lia))).
  subst ts. rewrite parseInteger_to_string by done. set (ts := to_string tag) in *.
  assert (drop (cur + length ts + 1) mem = v ++ FIX_SOH :: printFields fs ++ rest) as Hvs.
  { eapply (drop_step mem (ts ++ [61])); [rewrite HD; by rewrite <- app_assoc|].
    rewrite length_app. simpl. lia. }
  rewrite (bind_ret _ _ _ _ _ (find_eval mem (cur + length ts + 1) FIX_SOH
    (end_ptr - (cur + length ts + 1)) _ _ w Hvs Hv ltac:(lia))).
  rewrite (bind_ret _ _ _ _ _ (substr_eval mem (cur + length ts + 1)
    (cur + length ts + 1 + length v - (cur + length ts + 1)) v _ w ltac:(lia) Hvs ltac:(lia))).
  rewrite (bind_ret _ _ _ _ _ (msg_setField_eval msg tag v w)).
  destruct (Z.eqb_spec tag Tag.CheckSum); [congruence|].
  replace end_ptr with (cur + length ts + 1 + length v + 1 + length (printFields fs))%nat by lia.
  apply IH; [done|done|simpl in Hfuel; lia|lia|].
  eapply (drop_step mem (v ++ [FIX_SOH])); [rewrite Hvs; by rewrite <- app_assoc|].
  rewrite length_app. simpl. lia.
Qed.

(** The header is two more fields. *)
Definition all_fields (fs : list (Z * bytes)) : list (Z * bytes) :=
  (Tag.BeginString, FIX_VERSION_44) ::
  (Tag.BodyLength, to_string (Z.of_nat (length (printFields fs)))) :: fs.

Lemma wire_front_fields fs : wire_front fs = printFields (all_fields fs).
Proof.
  unfold wire_front, wire_header, all_fields. rewrite !printFields_cons. cbn [fst snd].
  by rewrite <- app_assoc.
Qed.

(** A message delimited without its checksum field fails strict validation. *)
Lemma parseMessage_generic clock mem base fs rest w :
  drop base mem = wire_front fs ++ rest -> Forall wire_field fs -> Tag.CheckSum ∉ fs.*1 ->
  strict_validation_ (w_parser w) = true -> pool_wf (w_pool w) ->
  exists r w', parseMessage clock mem base 0 (length (wire_front fs)) w = (Ret r, w') /\
    (status r = InvalidFormat \/ status r = AllocationFailed) /\ parsed_message r = None /\
    slots w w' (live_set (w_pool w)).
Proof.
  intros HD Hf Hno Hstrict Hw. rewrite wire_front_fields in *.
  set (l := all_fields fs) in *.
  assert (Forall wire_field l) as Hl.
  { constructor; [|constructor; [|done]]; (split; cbn [fst snd]; [by vm_compute|]).
    - apply (bool_decide_unpack _). vm_compute. exact I.
    - apply digits_no_soh_text. }
  assert (Tag.CheckSum ∉ l.*1) as Hno' by (cbn; rewrite !not_elem_of_cons; by split_and!).
  unfold parseMessage.
  assert (exists m w1, pool_allocate clock w = (Ret m, w1) /\
    match m with
    | Some msg => exists i, held w msg i w1 /\ deref (w_pool w1) msg = Some (newFixMessage (clock (w_ticks w)))
    | None => slots w w1 (live_set (w_pool w)) end) as (m & w1 & E & Hm).
  { unfold pool_allocate. destruct (allocate _ (w_pool w)) as [[a|] p'] eqn:E.
    - destruct (allocate_fresh _ _ _ _ Hw E) as (i & H1 & H2 & H3 & H4 & H5 & _ & _ & _ & H9 & _).
      eexists _, _. split; [reflexivity|]. by exists i.
    - destruct (allocate_none _ _ _ Hw E) as [-> _]. eexists _, _. split; [reflexivity|].
      split; [done|]. split; [by apply fail_allocation_wf|]. done. }
  rewrite (bind_ret _ _ _ _ _ E). destruct m as [msg|].
  2: { eexists _, _. split; [reflexivity|]. split; [by right|]. by split. }
  destruct Hm as (i & Hh & Hd). rewrite Nat.add_0_r.
  assert (base <= length mem)%nat as Hb
    by (eapply drop_length_le; [exact HD|unfold l, all_fields; by rewrite printFields_cons]).
  assert (length l < S (length mem))%nat as Hfuel.
  { pose proof (printFields_count l). apply (f_equal length) in HD.
    rewrite length_drop, length_app in HD. lia. }
  rewrite (bind_ret _ _ _ _ _ (message_fields_eval (S (length mem)) mem base msg l base rest w1 Hl Hno'
    Hfuel Hb HD)).
  set (w2 := store_fields msg l w1).
  assert (held w msg i w2) as Hh2.
  { unfold w2. clear - Hh. generalize l. intros l'. revert w1 Hh. induction l' as [|f l' IH]; intros w1 Hh;
      [done|]. apply (IH (store msg f w1)). by apply held_store. }
  rewrite (bind_ret get_parser _ w2 (w_parser w2) w2 eq_refl).
  assert (w_parser w2 = w_parser w) as Hpar by apply Hh2. rewrite Hpar, Hstrict.
  destruct (store_fields_deref msg l w1 _ Hd) as (mm & Hmm & Hfields & _). fold w2 in Hmm.
  assert (exists b, validateParsedMessage msg w2 = (Ret b, w2) /\ b = false) as (b & Hval & ->).
  { unfold validateParsedMessage, msg_hasField, bind, ret. rewrite !Hmm. eexists. split; [reflexivity|].
    apply andb_false_iff. right. unfold hasField. rewrite Hfields, set_all_notin by done. reflexivity. }
  rewrite (bind_ret _ _ _ _ _ Hval). cbn [negb].
  eexists _, _. split; [reflexivity|]. split; [by left|]. split; [done|].
  by apply (held_free w msg i w2).
Qed.

(** C40: a complete message of a type without an optimised parser (Logon, Logout,
    SequenceReset and all others) with a standard BodyLength and a correct CheckSum is
    never accepted under strict validation, the default: framing delimits it before its
    CheckSum field, whose presence the generic parser then requires, in both attempts. *)
Theorem generic_type_rejected clock mem base t fs rest w :
  t <> [] -> FIX_SOH ∉ t -> Forall (fun sp => sp_type sp <> t) specialisations ->
  drop base mem = wire ((Tag.MsgType, t) :: fs) ++ rest -> Forall wire_field fs ->
  Tag.CheckSum ∉ fs.*1 -> strict_validation_ (w_parser w) = true -> pool_wf (w_pool w) ->
  exists r w', parseCompleteMessage clock mem base (length (wire_front ((Tag.MsgType, t) :: fs))) w
               = (Ret r, w') /\
    (status r = InvalidFormat \/ status r = AllocationFailed) /\ parsed_message r = None /\
    live_set (w_pool w') = live_set (w_pool w).
Proof.
  intros Hne Ht Hsp HD Hf Hno Hstrict Hw. set (l := (Tag.MsgType, t) :: fs) in *.
  unfold wire in HD. rewrite <- app_assoc in HD.
  assert (Forall wire_field l) as Hl by (constructor; [split; [by vm_compute|done]|done]).
  assert (Tag.CheckSum ∉ l.*1) as Hno' by (cbn; rewrite not_elem_of_cons; by split).
  assert (base <= length mem)%nat as Hb
    by (eapply drop_length_le; [exact HD|rewrite wire_front_fields; unfold all_fields; by rewrite printFields_cons]).
  assert (0 < length (wire_front l))%nat as Hpos.
  { destruct (wire_front_begin l) as [k ->]. rewrite length_app. simpl. lia. }
  destruct (parseMessage_generic clock mem base l _ w HD Hl Hno' Hstrict Hw)
    as (r1 & w1 & E1 & Hs1 & _ & Hsl1).
  assert (w_parser w1 = w_parser w) as Hpar by apply Hsl1.
  destruct (parseMessage_generic clock mem base l _ w1 HD Hl Hno' ltac:(by rewrite Hpar) ltac:(apply Hsl1))
    as (r2 & w2 & E2 & Hs2 & Hm2 & Hsl2).
  exists r2, w2. unfold parseCompleteMessage. rewrite decide_False by lia.
  assert (parseIntelligent clock mem base (length (wire_front l)) w = (Ret r1, w1)) as Hi.
  { unfold parseIntelligent.
    rewrite (bind_ret _ _ _ _ _ (extractMsgType_eval mem base fs t _ w HD Hb Ht)).
    rewrite decide_False by done. unfold specialisations in Hsp.
    rewrite !Forall_cons in Hsp. destruct Hsp as (S8 & S0 & S9 & S3 & S1 & S2 & _).
    rewrite !decide_False by (intros Et; symmetry in Et;
      first [exact (S8 Et)|exact (S0 Et)|exact (S9 Et)|exact (S3 Et)|exact (S1 Et)|exact (S2 Et)]).
    exact E1. }
  rewrite (bind_ret _ _ _ _ _ Hi). rewrite decide_False by (destruct Hs1 as [-> | ->]; done).
  rewrite (bind_ret _ _ _ _ _ E2). rewrite decide_False by (destruct Hs2 as [-> | ->]; done).
  split; [done|]. split; [done|]. split; [done|].
  destruct Hsl2 as (_ & _ & _ & ->). apply Hsl1.
Qed.

(** ** Instances *)

Lemma sample_buffer_ok : buffer_ok (w_parser sample_world).
Proof. split; vm_compute; [discriminate|lia]. Qed.

Lemma decode_balanced_witness :
  match parseCompleteMessage (fun _ => 0) (str "8=FIX.4.4;junk") 0 14 sample_world with
  | (Ret r, w') => pool_wf (w_pool w')
  | _ => True
  end.
Proof.
  pose proof (decode_balanced (fun _ => 0) (str "8=FIX.4.4;junk") 0 14 sample_world
    ltac:(vm_compute; reflexivity) sample_pool_wf ltac:(lia) ltac:(simpl; lia)) as H.
  destruct (parseCompleteMessage (fun _ => 0) (str "8=FIX.4.4;junk") 0 14 sample_world)
    as [[r| | |] w']; [exact (proj1 H)|exact I|exact I|exact I].
Defined.

Lemma parse_terminates_witness :
  fst (parse (fun _ => 0) (Some (str "no message here")) 15 sample_world) <> NoFuel.
Proof.
  exact (parse_terminates (fun _ => 0) (str "no message here") 15 sample_world
    ltac:(vm_compute; reflexivity) ltac:(simpl; lia) sample_pool_wf sample_buffer_ok eq_refl).
Defined.

(** A parser after ten errors in a row. *)
Definition failing_parser : StreamFixParser := with_context (set_errors 10 10 0) (newParser 0).

Lemma breaker_latches_witness :
  fst (parse_calls (fun n => Z.of_nat n * 3600000000000) [wire sample_fields; wire sample_fields]
         (mkWorld failing_parser sample_pool 0))
  = [Ret (mkResult CorruptedData 0 None ERROR_RECOVERY 0);
     Ret (mkResult CorruptedData 0 None ERROR_RECOVERY 0)].
Proof.
  destruct (breaker_latches (fun n => Z.of_nat n * 3600000000000)
    [wire sample_fields; wire sample_fields] (mkWorld failing_parser sample_pool 0)) as [H _].
  - split; [reflexivity|]. split; [reflexivity|]. vm_compute. discriminate.
  - repeat constructor; vm_compute; discriminate.
  - cbn [parse_calls] in *. destruct (parse _ _ _ _) as [o1 w1]. destruct (parse _ _ _ w1) as [o2 w2].
    cbn [fst] in *. apply Forall_cons in H as [-> H]. apply Forall_cons in H as [-> _]. reflexivity.
Defined.

Lemma generic_type_rejected_witness :
  exists r w', parseCompleteMessage (fun _ => 0)
                 (wire [(Tag.MsgType, str "A"); (Tag.HeartBtInt, str "30")]) 0
                 (length (wire_front [(Tag.MsgType, str "A"); (Tag.HeartBtInt, str "30")])) sample_world
               = (Ret r, w') /\ (status r = InvalidFormat \/ status r = AllocationFailed).
Proof.
  destruct (generic_type_rejected (fun _ => 0) (wire [(Tag.MsgType, str "A"); (Tag.HeartBtInt, str "30")])
    0 (str "A") [(Tag.HeartBtInt, str "30")] [] sample_world) as (r & w' & H1 & H2 & _).
  - discriminate.
  - apply (bool_decide_unpack _). vm_compute. exact I.
  - repeat constructor; vm_compute; discriminate.
  - by rewrite app_nil_r.
  - repeat constructor; cbn [fst snd]; try (vm_compute; discriminate);
      apply (bool_decide_unpack _); vm_compute; exact I.
  - apply (bool_decide_unpack _). vm_compute. exact I.
  - reflexivity.
  - apply sample_pool_wf.
  - exists r, w'. exact (conj H1 H2).
Defined.

(** A checksum that is not a number leaks a pool slot: [std::stoi] throws past the
    deallocation, [parse] catches the exception, reports a format error without a
    message, and the slot stays allocated for good. *)
Lemma bad_checksum_leaks :
  let buf := wire_front sample_fields ++ str "10=xyz" ++ [FIX_SOH] in
  let '(o, w') := parse (fun _ => 0) (Some buf) (length buf) sample_world in
  o = Ret (mkResult InvalidFormat 0 None ERROR_RECOVERY 0) /\
  allocated_count_ (w_pool sample_world) = 0 /\ allocated_count_ (w_pool w') = 1 /\
  has_object (w_pool w') 0 = true.
Proof. vm_compute. repeat split. Qed.
