(* ===== verification/ParserMoves.v ===== *)
(** The rest of [protocol::StreamFixParser]: moving a parser, the state names, the
    accessors and the rates computed from the statistics.

    The move constructor initialises five members; the others that have no default
    initialiser hold whatever the storage held, the argument [junk]. *)
From S2P Require Import Prelude FixFields Doubles MessagePool FixMessage ParserState Framing OptimizedParser StreamParser ParserDelivery ParserSafety.

(** [parseStateToString] *)
Definition parseStateToString (state : ParseState) : bytes :=
  match state with
  | IDLE => str "IDLE"
  | PARSING_BEGIN_STRING => str "PARSING_BEGIN_STRING"
  | PARSING_BODY_LENGTH => str "PARSING_BODY_LENGTH"
  | PARSING_TAG => str "PARSING_TAG"
  | EXPECTING_EQUALS => str "EXPECTING_EQUALS"
  | PARSING_VALUE => str "PARSING_VALUE"
  | EXPECTING_SOH => str "EXPECTING_SOH"
  | PARSING_CHECKSUM => str "PARSING_CHECKSUM"
  | MESSAGE_COMPLETE => str "MESSAGE_COMPLETE"
  | ERROR_RECOVERY => str "ERROR_RECOVERY"
  | CORRUPTED_SKIP => str "CORRUPTED_SKIP"
  end.

(** [getCurrentState], [isInErrorRecovery], [getPartialMessageSize],
    [isChecksumValidationEnabled], [getParseContext], [getStats] *)
Definition getCurrentState (p : StreamFixParser) : ParseState := current_state (parse_context_ p).
Definition isInErrorRecovery (p : StreamFixParser) : bool :=
  bool_decide (current_state (parse_context_ p) = ERROR_RECOVERY).
Definition getPartialMessageSize (p : StreamFixParser) : nat := partial_buffer_size_ p.
Definition isChecksumValidationEnabled (p : StreamFixParser) : bool := validate_checksum_ p.
Definition getParserStats (p : StreamFixParser) : ParserStats := stats_ p.

(** [ParserStats::getAverageParseTimeNs] and [getErrorRate] *)
Definition getAverageParseTimeNs (s : ParserStats) : double :=
  if 0 <? messages_parsed s then ddiv (d_of_Z (total_parse_time_ns s)) (d_of_Z (messages_parsed s))
  else d_zero.
Definition getErrorRate (p : StreamFixParser) : double :=
  if messages_parsed (stats_ p) =? 0 then d_zero
  else dmul (ddiv (d_of_Z (parse_errors (stats_ p))) (d_of_Z (messages_parsed (stats_ p))))
         (d_of_Z 100).

(** * Moving *)

(** A [ParseContext] with its default initialisers. *)
Definition newContext : ParseContext :=
  {| current_state := IDLE; buffer_position := 0; message_start_pos := 0;
     expected_body_length := 0; current_message_length := 0; msg_type := [];
     current_field_tag := 0; partial_field_value := []; field_start_position := 0;
     parsed_fields := []; total_body_bytes_parsed := 0; error_count_in_session := 0;
     consecutive_errors := 0; last_error_time := 0 |}.

(** The moved-from object: no partial bytes (and a null pool pointer). *)
Definition moved_from (other : StreamFixParser) : StreamFixParser :=
  with_partial (partial_buffer_ other) 0 other.

(** The move constructor: pool, sizes, validation flags, partial bytes and
    statistics come from [other]; the context is new; the error limits, the
    recovery settings and the breaker flag are [junk]'s. *)
Definition moveConstructParser (junk other : StreamFixParser) : StreamFixParser * StreamFixParser :=
  ({| max_message_size_ := max_message_size_ other;
      validate_checksum_ := validate_checksum_ other;
      strict_validation_ := strict_validation_ other;
      max_consecutive_errors_ := max_consecutive_errors_ junk;
      error_recovery_enabled_ := error_recovery_enabled_ junk;
      error_recovery_timeout_ := error_recovery_timeout_ junk;
      partial_buffer_ := take (partial_buffer_size_ other) (partial_buffer_ other);
      partial_buffer_size_ := partial_buffer_size_ other;
      stats_ := stats_ other; parse_start_time_ := 0; parse_context_ := newContext;
      circuit_breaker_last_reset_ := 0;
      circuit_breaker_active_ := circuit_breaker_active_ junk |}, moved_from other).

(** Move assignment between two different parsers: the target keeps its error
    settings, its breaker and its context. *)
Definition moveAssignParser (this other : StreamFixParser) : StreamFixParser * StreamFixParser :=
  let n := partial_buffer_size_ other in
  ({| max_message_size_ := max_message_size_ other;
      validate_checksum_ := validate_checksum_ other;
      strict_validation_ := strict_validation_ other;
      max_consecutive_errors_ := max_consecutive_errors_ this;
      error_recovery_enabled_ := error_recovery_enabled_ this;
      error_recovery_timeout_ := error_recovery_timeout_ this;
      partial_buffer_ := take n (partial_buffer_ other) ++ drop n (partial_buffer_ this);
      partial_buffer_size_ := n;
      stats_ := stats_ other; parse_start_time_ := parse_start_time_ this;
      parse_context_ := parse_context_ this;
      circuit_breaker_last_reset_ := circuit_breaker_last_reset_ this;
      circuit_breaker_active_ := circuit_breaker_active_ this |}, moved_from other).

(** * Lemmas *)

(** The partial bytes are handed over: the new owner has them, the old one none. *)
Lemma move_hands_over junk this other :
  (partial_buffer_size_ other <= length (partial_buffer_ other))%nat ->
  let part p := take (partial_buffer_size_ p) (partial_buffer_ p) in
  part (fst (moveConstructParser junk other)) = part other /\
  part (fst (moveAssignParser this other)) = part other /\
  part (snd (moveConstructParser junk other)) = [] /\
  part (snd (moveAssignParser this other)) = [].
Proof.
  intros Hl part. subst part. simpl. split_and!; [|..|done|done].
  - by rewrite take_take, Nat.min_id.
  - rewrite take_app_le by (rewrite length_take; lia). by rewrite take_take, Nat.min_id.
Qed.

(** The error limit of a move-constructed parser is not initialised: when the
    storage happened to hold a zero there, the breaker counts as tripped and the
    parser refuses all data, although the parser it was moved from accepts it. *)
Lemma moved_parser_may_refuse clock other data pool ticks :
  data <> [] ->
  let junk := configure 0 false false 0 true 0 (newParser 0) in
  fst (parse clock (Some data) (length data)
         (mkWorld (fst (moveConstructParser junk other)) pool ticks))
  = Ret (mkResult CorruptedData 0 None ERROR_RECOVERY 0).
Proof.
  intros Hd junk. rewrite latched_parse; [done| |destruct data; [done|simpl; lia]].
  by split_and!.
Qed.

(** Two parsers whose error fraction is equal have the same rate, whatever the time
    over which the errors occurred: 1 error in 4 messages is 25. *)
Lemma error_rate_is_percentage :
  getErrorRate (with_stats (fun s => {| messages_parsed := 4; parse_errors := 1;
     checksum_errors := 0; allocation_failures := 0; total_parse_time_ns := 0;
     max_parse_time_ns := 0; min_parse_time_ns := 0; state_transitions := 0;
     partial_messages_handled := 0; error_recoveries := 0; corrupted_data_skipped := 0;
     field_parse_errors := 0; errors_by_state := ∅; error_frequency := ∅ |}) (newParser 0))
  = d_of_Z 25.
Proof. by vm_compute. Qed.
