(* ===== verification/StateMachine.v ===== *)
(** The byte-wise state machine of [StreamFixParser] ([stream_fix_parser.cpp]):
    [processStateMachine], its eleven state handlers, [handlePartialMessage] and
    [storePartialMessage].  It is an alternative to the decoders [parse] uses; the context
    it works on is the member [parse_context_].

    The loop of [processStateMachine] takes fuel: it ends on complete messages
    ([state_machine_agrees]) but not on every input ([spins_without_slot],
    [spins_on_other_version]).  A handler gets the rest of the buffer as a position and a length. *)
From S2P Require Import Prelude FixFields MessagePool FixMessage ParserState Framing.
From S2P Require Import OptimizedParser StreamParser.

(** * The context *)

(** A context with the members that follow the current field. *)
Definition set_field_context (pos start tag : Z) (value : bytes) (field_start : Z)
    (parsed : list (Z * bytes)) (total : Z) (c : ParseContext) : ParseContext :=
  {| current_state := current_state c; buffer_position := pos; message_start_pos := start;
     expected_body_length := expected_body_length c;
     current_message_length := current_message_length c; msg_type := msg_type c;
     current_field_tag := tag; partial_field_value := value;
     field_start_position := field_start; parsed_fields := parsed;
     total_body_bytes_parsed := total; error_count_in_session := error_count_in_session c;
     consecutive_errors := consecutive_errors c; last_error_time := last_error_time c |}.

Definition set_position (pos : Z) (c : ParseContext) : ParseContext :=
  set_field_context pos (message_start_pos c) (current_field_tag c) (partial_field_value c)
    (field_start_position c) (parsed_fields c) (total_body_bytes_parsed c) c.
Definition set_message_start (start : Z) (c : ParseContext) : ParseContext :=
  set_field_context (buffer_position c) start (current_field_tag c) (partial_field_value c)
    (field_start_position c) (parsed_fields c) (total_body_bytes_parsed c) c.
Definition set_tag (tag : Z) (c : ParseContext) : ParseContext :=
  set_field_context (buffer_position c) (message_start_pos c) tag (partial_field_value c)
    (buffer_position c) (parsed_fields c) (total_body_bytes_parsed c) c.
Definition set_value_start (c : ParseContext) : ParseContext :=
  set_field_context (buffer_position c) (message_start_pos c) (current_field_tag c)
    (partial_field_value c)
    (if field_start_position c =? 0 then buffer_position c else field_start_position c)
    (parsed_fields c) (total_body_bytes_parsed c) c.
Definition set_value (value : bytes) (c : ParseContext) : ParseContext :=
  set_field_context (buffer_position c) (message_start_pos c) (current_field_tag c) value
    (field_start_position c) (parsed_fields c) (total_body_bytes_parsed c) c.
Definition add_parsed (f : Z * bytes) (c : ParseContext) : ParseContext :=
  set_field_context (buffer_position c) (message_start_pos c) (current_field_tag c)
    (partial_field_value c) (field_start_position c) (parsed_fields c ++ [f])
    (total_body_bytes_parsed c) c.

(** The field that ends at the SOH: stored, counted, and the context cleared of it. *)
Definition complete_field (c : ParseContext) : ParseContext :=
  set_field_context (buffer_position c) (message_start_pos c) 0 [] (field_start_position c)
    (parsed_fields c ++ [(current_field_tag c, partial_field_value c)])
    (total_body_bytes_parsed c +
     (Z.of_nat (length (to_string (current_field_tag c))) + 1 +
      Z.of_nat (length (partial_field_value c)) + 1)) c.

Definition update_context (f : ParseContext -> ParseContext) : P unit :=
  update_parser (with_context f).
Definition get_context : P ParseContext :=
  p <-- get_parser ;; ret (parse_context_ p).

(** Move to [next] and go on with [consumed] bytes read; a transition the table forbids is
    an error. *)
Definition advance (next : ParseState) (consumed : Z) : P ParseResult :=
  ok <-- transitionToState next ;;
  if negb ok then ret (mkResult StateTransitionError consumed None ERROR_RECOVERY consumed)
  else ret (mkResult NeedMoreData consumed None next 0).

(** * The state handlers *)

(** [handleIdleState] *)
Definition handleIdleState (mem : bytes) (p length : nat) : P ParseResult :=
  if decide (length < 9)%nat then
    update_parser (fun q => with_partial (partial_buffer_ q) (partial_buffer_size_ q + length) q) ;;;
    ret (mkResult NeedMoreData 0 None IDLE 0)
  else
    fix_start <-- search_in mem p length FIX_BEGIN_STRING ;;
    match fix_start with
    | None =>
        if decide (512 < length)%nat then attemptErrorRecovery mem p length
        else ret (mkResult NeedMoreData 0 None IDLE 0)
    | Some s =>
        let begin_string_pos := Z.of_nat (s - p) in
        update_context (set_message_start begin_string_pos) ;;;
        if 0 <? begin_string_pos then ret (mkResult NeedMoreData begin_string_pos None IDLE 0)
        else advance PARSING_BEGIN_STRING 0
    end.

(** [handleParsingBeginString] *)
Definition handleParsingBeginString (mem : bytes) (p length : nat) : P ParseResult :=
  r <-- validateBeginString mem p length ;;
  let '(ok, consumed) := r in
  if negb ok then ret (mkResult InvalidFormat 0 None ERROR_RECOVERY 0)
  else if decide (consumed = O) then ret (mkResult NeedMoreData 0 None PARSING_BEGIN_STRING 0)
  else advance PARSING_BODY_LENGTH (Z.of_nat consumed).

(** [handleParsingBodyLength] *)
Definition handleParsingBodyLength (mem : bytes) (p length : nat) : P ParseResult :=
  r <-- validateBodyLength mem p length ;;
  let '(ok, consumed) := r in
  if negb ok then ret (mkResult InvalidFormat (Z.of_nat consumed) None ERROR_RECOVERY (Z.of_nat consumed))
  else if decide (consumed = O) then ret (mkResult NeedMoreData 0 None PARSING_BODY_LENGTH 0)
  else advance PARSING_TAG (Z.of_nat consumed).

(** [handleParsingTag] *)
Definition handleParsingTag (mem : bytes) (p length : nat) : P ParseResult :=
  equals_pos <-- find mem p 61 length ;;
  match equals_pos with
  | None =>
      if decide (10 < length)%nat then ret (mkResult InvalidFormat 0 None ERROR_RECOVERY 0)
      else ret (mkResult NeedMoreData 0 None PARSING_TAG 0)
  | Some e =>
      let tag_length := (e - p)%nat in
      if decide (tag_length = O) then ret (mkResult InvalidFormat 0 None ERROR_RECOVERY 0)
      else
        tag <-- parseIntegerAt mem p tag_length ;;
        match tag with
        | None => ret (mkResult FieldParseError (Z.of_nat tag_length) None ERROR_RECOVERY 0)
        | Some field_tag =>
            if negb (isValidFieldTag field_tag) then
              ret (mkResult FieldParseError (Z.of_nat tag_length) None ERROR_RECOVERY 0)
            else
              update_context (set_tag field_tag) ;;;
              advance EXPECTING_EQUALS (Z.of_nat tag_length)
        end
  end.

(** [handleExpectingEquals] *)
Definition handleExpectingEquals (mem : bytes) (p length : nat) : P ParseResult :=
  if decide (length = O) then ret (mkResult NeedMoreData 0 None EXPECTING_EQUALS 0)
  else
    c <-- read mem p ;;
    if negb (c =? 61) then ret (mkResult InvalidFormat 0 None ERROR_RECOVERY 0)
    else advance PARSING_VALUE 1.

(** [handleParsingValue] *)
Definition handleParsingValue (mem : bytes) (p length : nat) : P ParseResult :=
  update_context set_value_start ;;;
  soh_pos <-- find mem p FIX_SOH length ;;
  match soh_pos with
  | None => ret (mkResult NeedMoreData 0 None PARSING_VALUE 0)
  | Some s =>
      let value_length := (s - p)%nat in
      field_value <-- substr mem p value_length ;;
      update_context (set_value field_value) ;;;
      advance EXPECTING_SOH (Z.of_nat value_length)
  end.

(** [handleExpectingSOH] *)
Definition handleExpectingSOH (mem : bytes) (p length : nat) : P ParseResult :=
  if decide (length = O) then ret (mkResult NeedMoreData 0 None EXPECTING_SOH 0)
  else
    c <-- read mem p ;;
    if negb (c =? FIX_SOH) then ret (mkResult InvalidFormat 0 None ERROR_RECOVERY 0)
    else
      update_context complete_field ;;;
      ctx <-- get_context ;;
      let next_state :=
        if expected_body_length ctx <=? total_body_bytes_parsed ctx then PARSING_CHECKSUM
        else PARSING_TAG in
      advance next_state 1.

(** [handleParsingChecksum] *)
Definition handleParsingChecksum (mem : bytes) (p length : nat) : P ParseResult :=
  if decide (length < 5)%nat then ret (mkResult NeedMoreData 0 None PARSING_CHECKSUM 0)
  else
    tagged <-- looking_at mem p FIX_CHECKSUM_TAG ;;
    if negb tagged then ret (mkResult InvalidFormat 0 None ERROR_RECOVERY 0)
    else
      soh_pos <-- find mem (p + 3) FIX_SOH (length - 3) ;;
      match soh_pos with
      | None => ret (mkResult NeedMoreData 0 None PARSING_CHECKSUM 0)
      | Some s =>
          let value_length := (s - (p + 3))%nat in
          let behind := 3 + Z.of_nat value_length in
          if decide (value_length = O) then ret (mkResult InvalidFormat 3 None ERROR_RECOVERY 3)
          else
            checksum_value <-- substr mem (p + 3) value_length ;;
            if negb (bool_decide (value_length = 3%nat)) then
              ret (mkResult InvalidFormat behind None ERROR_RECOVERY behind)
            else if negb (forallb is_digit checksum_value) then
              ret (mkResult InvalidFormat behind None ERROR_RECOVERY behind)
            else
              update_context (add_parsed (Tag.CheckSum, checksum_value)) ;;;
              ok <-- transitionToState MESSAGE_COMPLETE ;;
              if negb ok then
                ret (mkResult StateTransitionError (behind + 1) None ERROR_RECOVERY (behind + 1))
              else ret (mkResult FinishedParsingFields (behind + 1) None MESSAGE_COMPLETE 0)
      end.

(** The first parsed field with a tag: [std::find_if] *)
Definition first_field (tag : Z) (fs : list (Z * bytes)) : option bytes :=
  snd <$> head (filter (fun f => fst f = tag) fs).

(** The text the checksum is computed over *)
Definition message_for_checksum (ctx : ParseContext) : bytes :=
  str "8=FIX.4.4" ++ [FIX_SOH] ++ str "9=" ++ to_string (expected_body_length ctx) ++ [FIX_SOH] ++
  printFields (filter (fun f => fst f <> Tag.CheckSum) (parsed_fields ctx)).

(** Whether the received checksum, if any, differs from the computed one; [std::stoi] may
    throw. *)
Definition checksum_differs (ctx : ParseContext) : P bool :=
  match first_field Tag.CheckSum (parsed_fields ctx) with
  | None => ret false
  | Some text =>
      match stoi text with
      | StoiOk received =>
          ret (negb (checksum8 (message_for_checksum ctx) mod 256 =? u8 received))
      | _ => throw
      end
  end.

Fixpoint set_fields (msg : Z) (fs : list (Z * bytes)) : P unit :=
  match fs with
  | [] => ret tt
  | f :: rest => msg_setField msg (fst f) (snd f) ;;; set_fields msg rest
  end.

Section Machine.
Variable clock : nat -> Z.

(** [handleMessageComplete]; the buffer is not used. *)
Definition handleMessageComplete : P ParseResult :=
  message <-- pool_allocate clock ;;
  match message with
  | None => ret (mkResult AllocationFailed 0 None ERROR_RECOVERY 0)
  | Some msg =>
      ctx <-- get_context ;;
      set_fields msg (parsed_fields ctx) ;;;
      msg_setField msg Tag.BeginString (str "FIX.4.4") ;;;
      msg_setField msg Tag.BodyLength (int_to_string (wrap32 (expected_body_length ctx))) ;;;
      match first_field Tag.MsgType (parsed_fields ctx) with
      | Some t => msg_setField msg Tag.MsgType t
      | None => ret tt
      end ;;;
      q <-- get_parser ;;
      bad <-- (if validate_checksum_ q then checksum_differs ctx else ret false) ;;
      if bad : bool then
        pool_deallocate msg ;;;
        ret (mkResult ChecksumError 0 None ERROR_RECOVERY 0)
      else
        let total_message_length :=
          9 + 1 + Z.of_nat (length (to_string (expected_body_length ctx))) + 3 +
          expected_body_length ctx + 7 in
        update_context context_reset ;;;
        ret (mkResult Success total_message_length (Some msg) IDLE 0)
  end.

(** * The loop *)

(** The switch of [processStateMachine]; [handleCorruptedSkip] is [handleErrorRecovery]. *)
Definition run_handler (mem : bytes) (p length : nat) (s : ParseState) : P ParseResult :=
  match s with
  | IDLE => handleIdleState mem p length
  | PARSING_BEGIN_STRING => handleParsingBeginString mem p length
  | PARSING_BODY_LENGTH => handleParsingBodyLength mem p length
  | PARSING_TAG => handleParsingTag mem p length
  | EXPECTING_EQUALS => handleExpectingEquals mem p length
  | PARSING_VALUE => handleParsingValue mem p length
  | EXPECTING_SOH => handleExpectingSOH mem p length
  | PARSING_CHECKSUM => handleParsingChecksum mem p length
  | MESSAGE_COMPLETE => handleMessageComplete
  | ERROR_RECOVERY => handleErrorRecovery mem p length
  | CORRUPTED_SKIP => handleErrorRecovery mem p length
  end.

Definition with_consumed (n : Z) (r : ParseResult) : ParseResult :=
  mkResult (status r) n (parsed_message r) (final_state r) (error_position r).

(** One turn with [total] bytes consumed before it: the result to return, or the bytes
    consumed after it. *)
Definition machine_turn (mem : bytes) (len total : nat) : P (ParseResult + Z) :=
  update_context (set_position (Z.of_nat total)) ;;;
  ctx <-- get_context ;;
  let previous_state := current_state ctx in
  result <-- run_handler mem total (len - total) previous_state ;;
  ctx' <-- get_context ;;
  let total' := size_t (Z.of_nat total + bytes_consumed result) in
  let result' := with_consumed total' result in
  let state_changed := negb (bool_decide (current_state ctx' = previous_state)) in
  let returns :=
    match status result with
    | Success | RecoverySuccess | InvalidFormat | ChecksumError | FieldParseError => true
    | NeedMoreData =>
        (Z.of_nat len <=? total') || ((bytes_consumed result =? 0) && negb state_changed)
    | _ => false
    end in
  if returns then ret (inl result') else recordStateTransition ;;; ret (inr total').

(** [storePartialMessage] *)
Definition storePartialMessage (mem : bytes) (len : nat) : P unit :=
  if (0 <? Z.of_nat len) && (Z.of_nat len <=? PARTIAL_BUFFER_SIZE) then
    src <-- substr mem 0 len ;;
    copy_to_partial 0 src ;;;
    update_parser (fun q => with_partial (partial_buffer_ q) len q)
  else ret tt.

Fixpoint machine_loop (fuel : nat) (mem : bytes) (len : nat) (total : Z) : P ParseResult :=
  if total <=? Z.of_nat len then
    match fuel with
    | O => nofuel
    | S f =>
        r <-- machine_turn mem len (Z.to_nat total) ;;
        match r with
        | inl result => ret result
        | inr total' => machine_loop f mem len total'
        end
    end
  else
    ctx <-- get_context ;;
    if decide (current_state ctx = IDLE) then
      ret (mkResult Success (Z.of_nat len) None IDLE 0)
    else
      storePartialMessage mem len ;;;
      update_parser (with_stats (add_counters 0 1 0 0)) ;;;
      ret (mkResult NeedMoreData (Z.of_nat len) None (current_state ctx) 0).

(** [processStateMachine] on the first [len] bytes of [mem] *)
Definition processStateMachine (fuel : nat) (mem : bytes) (len : nat) : P ParseResult :=
  machine_loop fuel mem len 0.

(** [handlePartialMessage] *)
Definition handlePartialMessage (fuel : nat) (new_buffer : bytes) (new_length : nat) : P ParseResult :=
  q <-- get_parser ;;
  let total_length := (partial_buffer_size_ q + new_length)%nat in
  if PARTIAL_BUFFER_SIZE <? Z.of_nat total_length then
    reset_parser clock ;;;
    ret (mkResult MessageTooLarge 0 None IDLE 0)
  else
    src <-- substr new_buffer 0 new_length ;;
    copy_to_partial (partial_buffer_size_ q) src ;;;
    update_parser (fun q => with_context context_reset
                              (with_partial (partial_buffer_ q) total_length q)) ;;;
    q' <-- get_parser ;;
    result <-- processStateMachine fuel (partial_buffer_ q') total_length ;;
    update_parser (fun q => with_partial (partial_buffer_ q)
      (match status result with NeedMoreData => total_length | _ => O end) q) ;;;
    ret result.
End Machine.

(** * Evaluation of complete messages *)

Definition ctx_of (w : World) : ParseContext := parse_context_ (w_parser w).
Definition on_context (f : ParseContext -> ParseContext) (w : World) : World :=
  mkWorld (with_context f (w_parser w)) (w_pool w) (w_ticks w).
Definition counted (w : World) : World :=
  mkWorld (with_stats (add_counters 1 0 0 0) (w_parser w)) (w_pool w) (w_ticks w).
Definition moved (st : ParseState) (w : World) : World := on_context (set_state st) (counted w).

Lemma transition_eval st w :
  isValidStateTransition (current_state (ctx_of w)) st = true ->
  transitionToState st w = (Ret true, moved st w).
Proof.
  intros H. unfold transitionToState, get_parser, bind. unfold ctx_of in H. by rewrite H.
Qed.

Lemma advance_eval st c w :
  isValidStateTransition (current_state (ctx_of w)) st = true ->
  advance st c w = (Ret (mkResult NeedMoreData c None st 0), moved st w).
Proof. intros H. unfold advance, bind. by rewrite transition_eval. Qed.

(** The parser in state [st] of a message announced with [n] body bytes, of which [k] were
    read as the fields [parsed]; [tag] and [value] belong to the field being read. *)
Record machine_at (w0 w : World) (st : ParseState) (n : Z) (tag : Z) (value : bytes)
    (parsed : list (Z * bytes)) (k : Z) : Prop := {
  ma_pool : w_pool w = w_pool w0;
  ma_ticks : w_ticks w = w_ticks w0;
  ma_max : max_message_size_ (w_parser w) = max_message_size_ (w_parser w0);
  ma_validate : validate_checksum_ (w_parser w) = validate_checksum_ (w_parser w0);
  ma_state : current_state (ctx_of w) = st;
  ma_expected : expected_body_length (ctx_of w) = n;
  ma_tag : current_field_tag (ctx_of w) = tag;
  ma_value : partial_field_value (ctx_of w) = value;
  ma_parsed : parsed_fields (ctx_of w) = parsed;
  ma_total : total_body_bytes_parsed (ctx_of w) = k
}.

Lemma ma_context w0 w st n tag v parsed k f st' n' tag' v' parsed' k' :
  machine_at w0 w st n tag v parsed k ->
  (forall c, current_state c = st -> expected_body_length c = n -> current_field_tag c = tag ->
     partial_field_value c = v -> parsed_fields c = parsed -> total_body_bytes_parsed c = k ->
     current_state (f c) = st' /\ expected_body_length (f c) = n' /\ current_field_tag (f c) = tag' /\
     partial_field_value (f c) = v' /\ parsed_fields (f c) = parsed' /\
     total_body_bytes_parsed (f c) = k') ->
  machine_at w0 (on_context f w) st' n' tag' v' parsed' k'.
Proof.
  intros [H1 H2 H3 H4 H5 H6 H7 H8 H9 H10] Hf. specialize (Hf (ctx_of w) H5 H6 H7 H8 H9 H10).
  destruct Hf as (F1 & F2 & F3 & F4 & F5 & F6). by split.
Qed.

Lemma ma_counted w0 w st n tag v parsed k :
  machine_at w0 w st n tag v parsed k -> machine_at w0 (counted w) st n tag v parsed k.
Proof. intros [H1 H2 H3 H4 H5 H6 H7 H8 H9 H10]. by split. Qed.

(** The members of a context after a setter *)
Ltac solve_context := intros ? ? ? ? ? ? ?; cbn; split_and!; congruence.

Lemma ma_moved w0 w st n tag v parsed k st' :
  machine_at w0 w st n tag v parsed k -> machine_at w0 (moved st' w) st' n tag v parsed k.
Proof. intros H. eapply ma_context; [by apply ma_counted|]. solve_context. Qed.

Section Evaluation.
Variable clock : nat -> Z.

(** A turn whose handler reads [c] bytes and moves on *)
Lemma turn_continues mem len total c w w2 st nxt :
  current_state (ctx_of w) = st ->
  run_handler clock mem total (len - total) st (on_context (set_position (Z.of_nat total)) w)
  = (Ret (mkResult NeedMoreData (Z.of_nat c) None nxt 0), w2) ->
  current_state (ctx_of w2) <> st -> (total + c < len)%nat -> Z.of_nat len < 2 ^ 62 ->
  machine_turn clock mem len total w = (Ret (inr (Z.of_nat (total + c))), counted w2).
Proof.
  intros Hst Hr Hne Hlt Hlen. unfold machine_turn.
  rewrite (bind_ret _ _ w tt (on_context (set_position (Z.of_nat total)) w)) by done.
  rewrite (bind_ret get_context _ _ (ctx_of (on_context (set_position (Z.of_nat total)) w))
             (on_context (set_position (Z.of_nat total)) w)) by done.
  change (current_state (ctx_of (on_context _ w))) with (current_state (ctx_of w)). rewrite Hst.
  rewrite (bind_ret _ _ _ _ _ Hr).
  rewrite (bind_ret get_context _ w2 (ctx_of w2) w2) by done. cbn [status bytes_consumed].
  rewrite size_t_small by lia. rewrite bool_decide_false by done. cbn [negb].
  rewrite andb_false_r, orb_false_r.
  destruct (Z.leb_spec (Z.of_nat len) (Z.of_nat total + Z.of_nat c)); [lia|].
  unfold bind, recordStateTransition, update_parser, ret, counted. do 3 f_equal. lia.
Qed.

Lemma loop_continues fuel mem len total t' w w' :
  (total <= len)%nat -> machine_turn clock mem len total w = (Ret (inr t'), w') ->
  machine_loop clock (S fuel) mem len (Z.of_nat total) w = machine_loop clock fuel mem len t' w'.
Proof.
  intros Hle E. cbn [machine_loop]. destruct (Z.leb_spec (Z.of_nat total) (Z.of_nat len)); [|lia].
  rewrite Nat2Z.id. by rewrite (bind_ret _ _ _ _ _ E).
Qed.

(** Setting the position keeps the state of the machine. *)
Lemma ma_positioned w0 w st n tag v parsed k pos :
  machine_at w0 w st n tag v parsed k ->
  machine_at w0 (on_context (set_position pos) w) st n tag v parsed k.
Proof. intros H. eapply ma_context; [exact H|]. solve_context. Qed.

(** A turn by its handler: the handler computes on a world in the same state. *)
Lemma turn_by_handler mem len total c w0 w st n tag v parsed k nxt tag' v' parsed' k' n' :
  machine_at w0 w st n tag v parsed k ->
  (forall w1, machine_at w0 w1 st n tag v parsed k ->
     exists w2, run_handler clock mem total (len - total) st w1
                = (Ret (mkResult NeedMoreData (Z.of_nat c) None nxt 0), w2) /\
       machine_at w0 w2 nxt n' tag' v' parsed' k') ->
  nxt <> st -> (total + c < len)%nat -> Z.of_nat len < 2 ^ 62 ->
  exists w', machine_turn clock mem len total w = (Ret (inr (Z.of_nat (total + c))), w') /\
    machine_at w0 w' nxt n' tag' v' parsed' k'.
Proof.
  intros Hat Hh Hne Hlt Hlen.
  destruct (Hh _ (ma_positioned _ _ _ _ _ _ _ _ (Z.of_nat total) Hat)) as (w2 & E & Hat2).
  exists (counted w2). split; [|by apply ma_counted].
  eapply turn_continues; [apply Hat|exact E| |done|done].
  by rewrite (ma_state _ _ _ _ _ _ _ _ Hat2).
Qed.

Lemma turn_tag mem len total tag rest w0 w n parsed k :
  drop total mem = to_string tag ++ 61 :: rest -> 1 <= tag <= 99999 ->
  (total + length (to_string tag) < len)%nat -> (len <= length mem)%nat -> Z.of_nat len < 2 ^ 62 ->
  machine_at w0 w PARSING_TAG n 0 [] parsed k ->
  exists w', machine_turn clock mem len total w
             = (Ret (inr (Z.of_nat (total + length (to_string tag)))), w') /\
    machine_at w0 w' EXPECTING_EQUALS n tag [] parsed k.
Proof.
  intros HD Htag Hlt Hmem Hlen Hat. eapply turn_by_handler; [exact Hat| |done|done|done].
  intros w1 Hat1. set (w2 := on_context (set_tag tag) w1).
  assert (machine_at w0 w2 PARSING_TAG n tag [] parsed k) as Hat2
    by (eapply ma_context; [exact Hat1|]; solve_context).
  exists (moved EXPECTING_EQUALS w2). split; [|by eapply ma_moved].
  cbn [run_handler]. unfold handleParsingTag. pose proof (to_string_nonempty tag) as Hne.
  assert (length (to_string tag) <> O) as Hl by (by destruct (to_string tag)).
  rewrite (bind_ret _ _ _ _ _ (find_eval mem total 61 (len - total) _ _ w1 HD
    (to_string_no_special tag 61 ltac:(by left)) ltac:(lia))).
  replace (total + length (to_string tag) - total)%nat with (length (to_string tag)) by lia.
  rewrite decide_False by done.
  rewrite (bind_ret _ _ _ _ _ (parseIntegerAt_eval mem total (length (to_string tag)) _ _ w1
    ltac:(lia) HD eq_refl)).
  rewrite parseInteger_to_string by lia. unfold isValidFieldTag.
  destruct (Z.ltb_spec 0 tag); [|lia]. destruct (Z.leb_spec tag 99999); [|lia]. cbn [andb negb].
  rewrite (bind_ret _ _ w1 tt w2) by done. apply advance_eval.
  by rewrite (ma_state _ _ _ _ _ _ _ _ Hat2).
Qed.

Lemma read_eval mem p c rest w : drop p mem = c :: rest -> read mem p w = (Ret c, w).
Proof.
  intros HD. unfold read. replace (mem !! p) with (Some c); [done|].
  by rewrite <- (Nat.add_0_r p), <- lookup_drop, HD.
Qed.

Lemma turn_equals mem len total tag rest w0 w n parsed k :
  drop total mem = 61 :: rest -> (total + 1 < len)%nat -> Z.of_nat len < 2 ^ 62 ->
  machine_at w0 w EXPECTING_EQUALS n tag [] parsed k ->
  exists w', machine_turn clock mem len total w = (Ret (inr (Z.of_nat (total + 1))), w') /\
    machine_at w0 w' PARSING_VALUE n tag [] parsed k.
Proof.
  intros HD Hlt Hlen Hat. eapply turn_by_handler; [exact Hat| |done|done|done].
  intros w1 Hat1. exists (moved PARSING_VALUE w1). split; [|by eapply ma_moved].
  cbn [run_handler]. unfold handleExpectingEquals. rewrite decide_False by lia.
  rewrite (bind_ret _ _ _ _ _ (read_eval _ _ _ _ w1 HD)). cbn [Z.eqb negb].
  apply advance_eval. by rewrite (ma_state _ _ _ _ _ _ _ _ Hat1).
Qed.

Lemma turn_value mem len total tag v rest w0 w n parsed k :
  drop total mem = v ++ FIX_SOH :: rest -> FIX_SOH ∉ v -> (total + length v < len)%nat ->
  (len <= length mem)%nat -> Z.of_nat len < 2 ^ 62 ->
  machine_at w0 w PARSING_VALUE n tag [] parsed k ->
  exists w', machine_turn clock mem len total w = (Ret (inr (Z.of_nat (total + length v))), w') /\
    machine_at w0 w' EXPECTING_SOH n tag v parsed k.
Proof.
  intros HD Hv Hlt Hmem Hlen Hat. eapply turn_by_handler; [exact Hat| |done|done|done].
  intros w1 Hat1. set (w2 := on_context set_value_start w1). set (w3 := on_context (set_value v) w2).
  assert (machine_at w0 w2 PARSING_VALUE n tag [] parsed k) as Hat2
    by (eapply ma_context; [exact Hat1|]; solve_context).
  assert (machine_at w0 w3 PARSING_VALUE n tag v parsed k) as Hat3
    by (eapply ma_context; [exact Hat2|]; solve_context).
  exists (moved EXPECTING_SOH w3). split; [|by eapply ma_moved].
  cbn [run_handler]. unfold handleParsingValue. rewrite (bind_ret _ _ w1 tt w2) by done.
  rewrite (bind_ret _ _ _ _ _ (find_eval mem total FIX_SOH (len - total) _ _ w2 HD Hv ltac:(lia))).
  replace (total + length v - total)%nat with (length v) by lia.
  rewrite (bind_ret _ _ _ _ _ (substr_eval mem total (length v) v _ w2 ltac:(lia) HD eq_refl)).
  rewrite (bind_ret _ _ w2 tt w3) by done. apply advance_eval.
  by rewrite (ma_state _ _ _ _ _ _ _ _ Hat3).
Qed.

Lemma turn_soh mem len total tag v rest w0 w n parsed k :
  let k' := k + Z.of_nat (length (formatFixField tag v)) in
  drop total mem = FIX_SOH :: rest -> (total + 1 < len)%nat -> Z.of_nat len < 2 ^ 62 ->
  machine_at w0 w EXPECTING_SOH n tag v parsed k ->
  exists w', machine_turn clock mem len total w = (Ret (inr (Z.of_nat (total + 1))), w') /\
    machine_at w0 w' (if n <=? k' then PARSING_CHECKSUM else PARSING_TAG) n 0 []
      (parsed ++ [(tag, v)]) k'.
Proof.
  intros k' HD Hlt Hlen Hat. pose proof (length_formatFixField tag v) as Hsz.
  eapply turn_by_handler; [exact Hat| |by destruct (n <=? k')|done|done].
  intros w1 Hat1. set (w2 := on_context complete_field w1).
  assert (machine_at w0 w2 EXPECTING_SOH n 0 [] (parsed ++ [(tag, v)]) k') as Hat2.
  { eapply ma_context; [exact Hat1|]. intros c H1 H2 H3 H4 H5 H6. cbn. split_and!; try congruence.
    rewrite H3, H4, H6. unfold k'. rewrite Hsz. lia. }
  exists (moved (if n <=? k' then PARSING_CHECKSUM else PARSING_TAG) w2). split; [|by eapply ma_moved].
  cbn [run_handler]. unfold handleExpectingSOH. rewrite decide_False by lia.
  rewrite (bind_ret _ _ _ _ _ (read_eval _ _ _ _ w1 HD)). rewrite Z.eqb_refl. cbn [negb].
  rewrite (bind_ret _ _ w1 tt w2) by done.
  rewrite (bind_ret get_context _ w2 (ctx_of w2) w2) by done.
  rewrite (ma_expected _ _ _ _ _ _ _ _ Hat2), (ma_total _ _ _ _ _ _ _ _ Hat2).
  apply advance_eval. rewrite (ma_state _ _ _ _ _ _ _ _ Hat2). by destruct (n <=? k').
Qed.

(** The four turns of one field *)
Lemma field_turns fuel mem len total tag v rest w0 w n parsed k :
  let size := length (formatFixField tag v) in
  drop total mem = formatFixField tag v ++ rest -> 1 <= tag <= 99999 -> FIX_SOH ∉ v ->
  (total + size < len)%nat -> (len <= length mem)%nat -> Z.of_nat len < 2 ^ 62 ->
  machine_at w0 w PARSING_TAG n 0 [] parsed k ->
  exists w', machine_loop clock (4 + fuel) mem len (Z.of_nat total) w
             = machine_loop clock fuel mem len (Z.of_nat (total + size)) w' /\
    machine_at w0 w' (if n <=? k + Z.of_nat size then PARSING_CHECKSUM else PARSING_TAG) n 0 []
      (parsed ++ [(tag, v)]) (k + Z.of_nat size).
Proof.
  intros size HD Htag Hv Hlt Hmem Hlen Hat. pose proof (length_formatFixField tag v) as Hsz.
  fold size in Hsz. rewrite printed_field_split in HD. set (t1 := (total + length (to_string tag))%nat).
  assert (drop t1 mem = 61 :: v ++ FIX_SOH :: rest) as HD1 by (by eapply drop_step).
  assert (drop (t1 + 1) mem = v ++ FIX_SOH :: rest) as HD2 by (by eapply (drop_step mem [61])).
  assert (drop (t1 + 1 + length v) mem = FIX_SOH :: rest) as HD3 by (by eapply drop_step).
  destruct (turn_tag mem len total tag _ w0 w n parsed k HD Htag) as (w1 & E1 & Hat1); [lia..|done|].
  destruct (turn_equals mem len t1 tag _ w0 w1 n parsed k HD1) as (w2 & E2 & Hat2); [lia..|done|].
  destruct (turn_value mem len (t1 + 1) tag v _ w0 w2 n parsed k HD2 Hv) as (w3 & E3 & Hat3); [lia..|done|].
  destruct (turn_soh mem len (t1 + 1 + length v) tag v _ w0 w3 n parsed k HD3) as (w4 & E4 & Hat4);
    [lia..|done|].
  exists w4. split; [|exact Hat4]. change (4 + fuel)%nat with (S (S (S (S fuel)))).
  do 4 (erewrite loop_continues; [|lia|eassumption]).
  do 2 f_equal. lia.
Qed.

(** A field the machine reads *)
Definition machine_field (f : Z * bytes) : Prop :=
  1 <= fst f <= 99999 /\ FIX_SOH ∉ snd f /\ fst f <> Tag.CheckSum.

(** All fields of the body *)
Lemma body_turns fs fuel mem len total rest w0 w n parsed k :
  fs <> [] -> Forall machine_field fs -> drop total mem = printFields fs ++ rest ->
  n = k + Z.of_nat (length (printFields fs)) -> (total + length (printFields fs) < len)%nat ->
  (len <= length mem)%nat -> Z.of_nat len < 2 ^ 62 ->
  machine_at w0 w PARSING_TAG n 0 [] parsed k ->
  exists w', machine_loop clock (4 * length fs + fuel) mem len (Z.of_nat total) w
             = machine_loop clock fuel mem len (Z.of_nat (total + length (printFields fs))) w' /\
    machine_at w0 w' PARSING_CHECKSUM n 0 [] (parsed ++ fs) n.
Proof.
  revert total w parsed k. induction fs as [|[tag v] fs IH];
    intros total w parsed k Hne Hf HD Hn Hlt Hmem Hlen Hat; [done|].
  apply Forall_cons in Hf as [(Htag & Hv & _) Hf]. cbn [fst snd] in *.
  rewrite printFields_cons in *. cbn [fst snd] in *. rewrite <- app_assoc in HD.
  rewrite length_app in *. set (size := length (formatFixField tag v)) in *.
  replace (4 * length ((tag, v) :: fs) + fuel)%nat with (4 + (4 * length fs + fuel))%nat by (simpl; lia).
  destruct (field_turns (4 * length fs + fuel) mem len total tag v (printFields fs ++ rest) w0 w n parsed k)
    as (w1 & E1 & Hat1); try done; [fold size; lia|]. fold size in E1, Hat1.
  rewrite E1. destruct fs as [|f fs].
  - exists w1. change (length (printFields [])) with O in *. rewrite Nat.add_0_r in *.
    destruct (Z.leb_spec n (k + Z.of_nat size)); [|lia]. split; [done|].
    by replace n with (k + Z.of_nat size) at 2 by lia.
  - assert (0 < length (printFields (f :: fs)))%nat as Hpos.
    { rewrite printFields_cons, length_app, length_formatFixField. lia. }
    destruct (Z.leb_spec n (k + Z.of_nat size)); [lia|].
    destruct (IH (total + size)%nat w1 (parsed ++ [(tag, v)]) (k + Z.of_nat size))
      as (w2 & E2 & Hat2); try done; [by eapply drop_step|lia|lia|].
    exists w2. rewrite E2, Nat.add_assoc. split; [done|]. by rewrite <- app_assoc in Hat2.
Qed.
(** ** Header *)

Lemma turn_idle mem len rest w0 w n tag v parsed k :
  mem = FIX_BEGIN_STRING ++ rest -> (9 <= len <= length mem)%nat -> Z.of_nat len < 2 ^ 62 ->
  machine_at w0 w IDLE n tag v parsed k ->
  exists w', machine_turn clock mem len 0 w = (Ret (inr (Z.of_nat (0 + 0))), w') /\
    machine_at w0 w' PARSING_BEGIN_STRING n tag v parsed k.
Proof.
  intros HD Hl Hlen Hat. eapply turn_by_handler; [exact Hat| |done|lia|done].
  intros w1 Hat1. set (w2 := on_context (set_message_start 0) w1).
  assert (machine_at w0 w2 IDLE n tag v parsed k) as Hat2
    by (eapply ma_context; [exact Hat1|]; solve_context).
  exists (moved PARSING_BEGIN_STRING w2). split; [|by eapply ma_moved].
  cbn [run_handler]. unfold handleIdleState. rewrite Nat.sub_0_r, decide_False by lia.
  assert (search_in mem 0 len FIX_BEGIN_STRING w1 = (Ret (Some O), w1)) as Hs.
  { unfold search_in. rewrite (bind_ret _ _ w1 (take len mem) w1).
    2: { unfold substr, read_bytes. rewrite decide_True by (simpl; lia). by rewrite drop_0. }
    rewrite HD, take_app_ge by (simpl; lia). by rewrite search_prefix. }
  rewrite (bind_ret _ _ _ _ _ Hs). cbn [Z.of_nat Nat.sub Z.ltb Z.compare].
  rewrite (bind_ret _ _ w1 tt w2) by done. apply advance_eval.
  by rewrite (ma_state _ _ _ _ _ _ _ _ Hat2).
Qed.

Lemma turn_begin mem len rest w0 w n tag v parsed k :
  mem = FIX_BEGIN_STRING ++ FIX_SOH :: rest -> (10 < len <= length mem)%nat -> Z.of_nat len < 2 ^ 62 ->
  machine_at w0 w PARSING_BEGIN_STRING n tag v parsed k ->
  exists w', machine_turn clock mem len 0 w = (Ret (inr (Z.of_nat (0 + 10))), w') /\
    machine_at w0 w' PARSING_BODY_LENGTH n tag v parsed k.
Proof.
  intros HD Hl Hlen Hat. eapply turn_by_handler; [exact Hat| |done|lia|done].
  intros w1 Hat1. exists (moved PARSING_BODY_LENGTH w1). split; [|by eapply ma_moved].
  cbn [run_handler]. unfold handleParsingBeginString, validateBeginString.
  rewrite Nat.sub_0_r, decide_False by lia. rewrite <- (drop_0 mem) in HD.
  unfold bind at 1. rewrite (bind_ret _ _ _ _ _ (looking_at_eval _ _ _ _ w1 HD)). cbn [negb].
  assert (drop 9 mem = [] ++ FIX_SOH :: rest) as HD9 by (by eapply (drop_step mem FIX_BEGIN_STRING _ 0)).
  rewrite (bind_ret _ _ _ _ _ (find_eval mem 9 FIX_SOH (len - 9) [] _ w1 HD9 ltac:(apply not_elem_of_nil) ltac:(simpl; lia))).
  cbn -[advance]. apply advance_eval. by rewrite (ma_state _ _ _ _ _ _ _ _ Hat1).
Qed.

Lemma turn_body_length mem len total n rest w0 w n0 tag v parsed k :
  let c := (2 + length (to_string (Z.of_nat n)) + 1)%nat in
  drop total mem = str "9=" ++ to_string (Z.of_nat n) ++ FIX_SOH :: rest -> (0 < n)%nat ->
  Z.of_nat n <= wrap32 (max_message_size_ (w_parser w0)) ->
  (total + c < len)%nat -> (len <= length mem)%nat -> Z.of_nat len < 2 ^ 62 ->
  machine_at w0 w PARSING_BODY_LENGTH n0 tag v parsed k ->
  exists w', machine_turn clock mem len total w = (Ret (inr (Z.of_nat (total + c))), w') /\
    machine_at w0 w' PARSING_TAG (Z.of_nat n) tag v parsed k.
Proof.
  intros c HD Hn Hmax Hlt Hmem Hlen Hat. eapply turn_by_handler; [exact Hat| |done|done|done].
  intros w1 Hat1. set (w2 := on_context (set_body_length (Z.of_nat n)) w1).
  assert (machine_at w0 w2 PARSING_BODY_LENGTH (Z.of_nat n) tag v parsed k) as Hat2
    by (eapply ma_context; [exact Hat1|]; solve_context).
  exists (moved PARSING_TAG w2). split; [|by eapply ma_moved].
  set (ds := to_string (Z.of_nat n)) in *.
  assert (drop (total + 2) mem = ds ++ FIX_SOH :: rest) as HD2 by (by eapply (drop_step mem (str "9="))).
  pose proof (wrap32_range (max_message_size_ (w_parser w0))) as Hw32. unfold int32_range in Hw32.
  assert (validateBodyLength mem total (len - total) w1 = (Ret (true, c), w2)) as Hv.
  { unfold validateBodyLength. rewrite decide_False by lia.
    rewrite (bind_ret _ _ _ _ _ (looking_at_eval _ _ _ _ w1 HD)). cbn [negb].
    rewrite (bind_ret _ _ _ _ _ (find_eval mem (total + 2) FIX_SOH (len - total - 2) ds _ w1 HD2
      (digits_no_soh_text n) ltac:(lia))).
    replace (total + 2 + length ds - (total + 2))%nat with (length ds) by lia.
    rewrite (bind_ret _ _ _ _ _ (parseIntegerAt_eval mem (total + 2) (length ds) ds _ w1 ltac:(lia) HD2 eq_refl)).
    unfold ds at 1. rewrite parseInteger_to_string by lia.
    rewrite (bind_ret get_parser _ w1 (w_parser w1) w1) by done.
    destruct (Z.leb_spec (Z.of_nat n) 0); [lia|]. rewrite (ma_max _ _ _ _ _ _ _ _ Hat1).
    destruct (Z.ltb_spec (wrap32 (max_message_size_ (w_parser w0))) (Z.of_nat n)); [lia|].
    unfold bind, update_parser, ret. do 3 f_equal. unfold c. fold ds. lia. }
  cbn [run_handler]. unfold handleParsingBodyLength. rewrite (bind_ret _ _ _ _ _ Hv). cbn [negb].
  rewrite decide_False by lia. apply advance_eval. by rewrite (ma_state _ _ _ _ _ _ _ _ Hat2).
Qed.

(** ** Trailer *)

Lemma turn_checksum mem len total cs rest w0 w n tag v parsed k :
  drop total mem = FIX_CHECKSUM_TAG ++ cs ++ FIX_SOH :: rest ->
  length cs = 3%nat -> Forall (fun c => is_digit c = true) cs -> FIX_SOH ∉ cs ->
  (total + 7 <= len)%nat -> (len <= length mem)%nat -> Z.of_nat len < 2 ^ 62 ->
  machine_at w0 w PARSING_CHECKSUM n tag v parsed k ->
  exists w', machine_turn clock mem len total w = (Ret (inr (Z.of_nat (total + 7))), w') /\
    machine_at w0 w' MESSAGE_COMPLETE n tag v (parsed ++ [(Tag.CheckSum, cs)]) k.
Proof.
  intros HD Hl Hd Hs Hle Hmem Hlen Hat.
  set (w1 := on_context (set_position (Z.of_nat total)) w).
  assert (machine_at w0 w1 PARSING_CHECKSUM n tag v parsed k) as Hat1 by (by apply ma_positioned).
  set (w2 := on_context (add_parsed (Tag.CheckSum, cs)) w1).
  assert (machine_at w0 w2 PARSING_CHECKSUM n tag v (parsed ++ [(Tag.CheckSum, cs)]) k) as Hat2
    by (eapply ma_context; [exact Hat1|]; solve_context).
  assert (drop (total + 3) mem = cs ++ FIX_SOH :: rest) as HD3 by (by eapply drop_step).
  exists (counted (moved MESSAGE_COMPLETE w2)). split; [|by eapply ma_counted, ma_moved].
  assert (run_handler clock mem total (len - total) PARSING_CHECKSUM w1
          = (Ret (mkResult FinishedParsingFields 7 None MESSAGE_COMPLETE 0), moved MESSAGE_COMPLETE w2)) as E.
  { cbn [run_handler]. unfold handleParsingChecksum. rewrite decide_False by lia.
    rewrite (bind_ret _ _ _ _ _ (looking_at_eval _ _ _ _ w1 HD)). cbn [negb].
    rewrite (bind_ret _ _ _ _ _ (find_eval mem (total + 3) FIX_SOH (len - total - 3) cs _ w1 HD3 Hs ltac:(lia))).
    replace (total + 3 + length cs - (total + 3))%nat with 3%nat by lia. rewrite decide_False by lia.
    rewrite (bind_ret _ _ _ _ _ (substr_eval mem (total + 3) 3 cs _ w1 ltac:(lia) HD3 ltac:(lia))).
    rewrite bool_decide_true by done. cbn [negb].
    assert (forallb is_digit cs = true) as ->
      by (apply forallb_forall; intros c Hc; eapply Forall_forall in Hd; [exact Hd|by apply list_elem_of_In]).
    cbn [negb]. rewrite (bind_ret _ _ w1 tt w2) by done.
    rewrite (bind_ret _ _ _ _ _ (transition_eval MESSAGE_COMPLETE w2 ltac:(by rewrite (ma_state _ _ _ _ _ _ _ _ Hat2)))).
    done. }
  unfold machine_turn. rewrite (bind_ret _ _ w tt w1) by done.
  rewrite (bind_ret get_context _ w1 (ctx_of w1) w1) by done.
  rewrite (ma_state _ _ _ _ _ _ _ _ Hat1), (bind_ret _ _ _ _ _ E).
  rewrite (bind_ret get_context _ _ (ctx_of (moved MESSAGE_COMPLETE w2)) (moved MESSAGE_COMPLETE w2)) by done.
  cbn [status bytes_consumed]. rewrite size_t_small by lia.
  unfold bind, recordStateTransition, update_parser, ret, counted. do 3 f_equal. lia.
Qed.
(** ** The complete message *)

(** The fields of the message built from the body [fs] *)
Definition machine_decoded (fs : list (Z * bytes)) : list (Z * bytes) :=
  (fs ++ [(Tag.CheckSum, utils_calculateChecksum (wire_front fs))]) ++
  [(Tag.BeginString, str "FIX.4.4");
   (Tag.BodyLength, to_string (Z.of_nat (length (printFields fs))))] ++
  match first_field Tag.MsgType fs with Some t => [(Tag.MsgType, t)] | None => [] end.

Lemma set_fields_eval msg fs w : set_fields msg fs w = (Ret tt, store_fields msg fs w).
Proof.
  revert w. induction fs as [|f fs IH]; intros w; [done|]. cbn [set_fields].
  rewrite (bind_ret _ _ _ _ _ (msg_setField_eval msg (fst f) (snd f) w)), IH. by destruct f.
Qed.

Lemma first_field_app tag fs gs :
  first_field tag (fs ++ gs) = match first_field tag fs with Some v => Some v | None => first_field tag gs end.
Proof. unfold first_field. rewrite filter_app. by destruct (filter _ fs). Qed.

Lemma no_checksum fs : Forall machine_field fs ->
  filter (fun f => fst f <> Tag.CheckSum) fs = fs /\ first_field Tag.CheckSum fs = None.
Proof.
  unfold first_field. induction 1 as [|f fs (_ & _ & Hf) _ [IH1 IH2]]; [done|].
  rewrite filter_cons_True, filter_cons_False by done. split; [congruence|done].
Qed.

Lemma complete_eval fs w0 w :
  let n := length (printFields fs) in
  Forall machine_field fs -> Z.of_nat n <= 2147483647 ->
  machine_at w0 w MESSAGE_COMPLETE (Z.of_nat n) 0 []
    (fs ++ [(Tag.CheckSum, utils_calculateChecksum (wire_front fs))]) (Z.of_nat n) ->
  pool_wf (w_pool w0) -> can_allocate (w_pool w0) ->
  exists a w', handleMessageComplete clock w
    = (Ret (mkResult Success (Z.of_nat (length (wire fs))) (Some a) IDLE 0), w') /\
    stores_to clock (machine_decoded fs) w0 a w' /\ current_state (ctx_of w') = IDLE.
Proof.
  intros n Hf Hn [Hpool Hticks _ _ _ Hexp _ _ Hparsed _] Hw Hc.
  set (cs := utils_calculateChecksum (wire_front fs)) in *.
  destruct (allocate_available (newFixMessage (clock (w_ticks w0))) _ Hw Hc) as (a & p' & E).
  set (w1 := mkWorld (w_parser w) p' (S (w_ticks w0))).
  assert (pool_allocate clock w = (Ret (Some a), w1)) as Hp
    by (unfold pool_allocate; by rewrite Hpool, Hticks, E).
  destruct (no_checksum fs Hf) as [Hfil Hnone].
  assert (message_for_checksum (ctx_of w1) = wire_front fs) as Hmsg.
  { unfold message_for_checksum. change (ctx_of w1) with (ctx_of w). rewrite Hparsed, Hexp, filter_app, Hfil.
    rewrite filter_cons_False by (intros H; apply H; reflexivity). rewrite filter_nil, app_nil_r.
    unfold wire_front. fold n. rewrite wire_header_split. by rewrite <- !app_assoc. }
  set (w2 := store_fields a (machine_decoded fs) w1).
  assert ((if validate_checksum_ (w_parser w2) then checksum_differs (ctx_of w1) else ret false) w2
          = (Ret false, w2)) as Hchk.
  { destruct (validate_checksum_ (w_parser w2)); [|done]. unfold checksum_differs. rewrite Hmsg.
    change (parsed_fields (ctx_of w1)) with (parsed_fields (ctx_of w)).
    rewrite Hparsed, first_field_app, Hnone. unfold first_field at 1. cbn [filter list_filter].
    rewrite decide_True by done. cbn [head fmap option_fmap option_map snd]. unfold cs.
    rewrite stoi_checksum. unfold u8. by rewrite Z.mod_mod, Z.eqb_refl by lia. }
  exists a, (on_context context_reset w2). split; [|split; [|done]].
  - unfold handleMessageComplete. rewrite (bind_ret _ _ _ _ _ Hp).
    rewrite (bind_ret get_context _ w1 (ctx_of w1) w1) by done.
    rewrite (bind_ret _ _ _ _ _ (set_fields_eval a (parsed_fields (ctx_of w1)) w1)).
    rewrite (bind_ret _ _ _ _ _ (msg_setField_eval a Tag.BeginString (str "FIX.4.4") _)).
    rewrite (bind_ret _ _ _ _ _ (msg_setField_eval a Tag.BodyLength _ _)).
    change (parsed_fields (ctx_of w1)) with (parsed_fields (ctx_of w)).
    change (expected_body_length (ctx_of w1)) with (expected_body_length (ctx_of w)).
    rewrite Hparsed, Hexp, wrap32_id by (unfold int32_range; lia).
    rewrite int_to_string_to_string by (unfold int32_range; lia).
    rewrite (bind_ret _ _ _ tt w2).
    2: { rewrite first_field_app. unfold w2, machine_decoded. fold cs n.
         rewrite (store_fields_app a (fs ++ _)). destruct (first_field Tag.MsgType fs); reflexivity. }
    rewrite (bind_ret get_parser _ w2 (w_parser w2) w2) by done. rewrite (bind_ret _ _ _ _ _ Hchk).
    unfold bind, update_context, update_parser, ret. do 3 f_equal.
    rewrite length_wire. unfold wire_front. rewrite length_app, length_wire_header. fold n. lia.
  - pose proof (stores_allocated clock (machine_decoded fs) w a p') as Hst. unfold stores_to in *.
    rewrite Hpool, Hticks in Hst. exact (Hst Hw E).
Qed.

(** The last turn *)
Lemma turn_complete mem len total fs w0 w :
  let n := length (printFields fs) in
  Forall machine_field fs -> Z.of_nat n <= 2147483647 -> Z.of_nat total < 2 ^ 62 ->
  machine_at w0 w MESSAGE_COMPLETE (Z.of_nat n) 0 []
    (fs ++ [(Tag.CheckSum, utils_calculateChecksum (wire_front fs))]) (Z.of_nat n) ->
  pool_wf (w_pool w0) -> can_allocate (w_pool w0) ->
  exists a w', machine_turn clock mem len total w
    = (Ret (inl (mkResult Success (Z.of_nat (total + length (wire fs))) (Some a) IDLE 0)), w') /\
    stores_to clock (machine_decoded fs) w0 a w' /\ current_state (ctx_of w') = IDLE.
Proof.
  intros n Hf Hn Ht Hat Hw Hc. apply (ma_positioned _ _ _ _ _ _ _ _ (Z.of_nat total)) in Hat.
  set (w1 := on_context (set_position (Z.of_nat total)) w) in *.
  destruct (complete_eval fs w0 w1 Hf Hn Hat Hw Hc) as (a & w' & E & Hst & Hidle).
  exists a, w'. split; [|done]. unfold machine_turn. rewrite (bind_ret _ _ w tt w1) by done.
  rewrite (bind_ret get_context _ w1 (ctx_of w1) w1) by done.
  rewrite (ma_state _ _ _ _ _ _ _ _ Hat). cbn [run_handler]. rewrite (bind_ret _ _ _ _ _ E).
  rewrite (bind_ret get_context _ w' (ctx_of w') w') by done. cbn [status bytes_consumed].
  assert (Z.of_nat (length (wire fs)) <= 2147483687) as Hlw.
  { rewrite length_wire. unfold wire_front. rewrite length_app, length_wire_header. fold n.
    assert (length (to_string (Z.of_nat n)) <= 10)%nat as Hl; [|lia].
    apply to_string_length; lia. }
  rewrite size_t_small, <- Nat2Z.inj_add by lia. reflexivity.
Qed.
Lemma machine_decodes fs rest len fuel w :
  fs <> [] -> Forall machine_field fs ->
  Z.of_nat (length (printFields fs)) <= wrap32 (max_message_size_ (w_parser w)) ->
  (length (wire fs) <= len <= length (wire fs ++ rest))%nat -> Z.of_nat len < 2 ^ 62 ->
  ctx_of w = context_reset (ctx_of w) -> pool_wf (w_pool w) -> can_allocate (w_pool w) ->
  (5 + 4 * length fs <= fuel)%nat ->
  exists a w', processStateMachine clock fuel (wire fs ++ rest) len w
    = (Ret (mkResult Success (Z.of_nat (2 * length (wire fs))) (Some a) IDLE 0), w') /\
    stores_to clock (machine_decoded fs) w a w' /\ current_state (ctx_of w') = IDLE.
Proof.
  intros Hne Hf Hmax [Hlo Hhi] Hlen Hctx Hw Hc Hfuel.
  pose proof (wrap32_range (max_message_size_ (w_parser w))) as Hw32. unfold int32_range in Hw32.
  set (n := length (printFields fs)) in *. set (mem := wire fs ++ rest) in *.
  assert (0 < n)%nat as Hn.
  { unfold n. destruct fs as [|f fs]; [done|]. rewrite printFields_cons, length_app, length_formatFixField. lia. }
  set (cs := utils_calculateChecksum (wire_front fs)).
  destruct (checksum_text_shape (wire_front fs)) as [Hcl Hcd]. fold cs in Hcl, Hcd.
  set (ds := to_string (Z.of_nat n)).
  assert (mem = FIX_BEGIN_STRING ++ FIX_SOH :: str "9=" ++ ds ++ FIX_SOH :: printFields fs ++
                FIX_CHECKSUM_TAG ++ cs ++ FIX_SOH :: rest) as Hmem.
  { unfold mem, wire. fold cs. unfold wire_front. fold n.
    rewrite wire_header_split, <- !app_assoc, printed_field_split. reflexivity. }
  assert (length (wire fs) = 20 + length ds + n)%nat as Hlw.
  { rewrite length_wire. unfold wire_front. rewrite length_app, length_wire_header. fold n ds. lia. }
  set (e := expected_body_length (ctx_of w)).
  assert (machine_at w w IDLE e 0 [] [] 0) as H0
    by (split; try done; by rewrite Hctx).
  assert (drop 10 mem = str "9=" ++ ds ++ FIX_SOH :: printFields fs ++ FIX_CHECKSUM_TAG ++ cs ++ FIX_SOH :: rest)
    as HD1 by (by rewrite Hmem).
  set (t2 := (10 + (2 + length ds + 1))%nat).
  assert (drop t2 mem = printFields fs ++ FIX_CHECKSUM_TAG ++ cs ++ FIX_SOH :: rest) as HD2.
  { eapply (drop_step mem (str "9=" ++ ds ++ [FIX_SOH])); [by rewrite HD1, <- !app_assoc|].
    rewrite !length_app. simpl. lia. }
  assert (drop (t2 + n) mem = FIX_CHECKSUM_TAG ++ cs ++ FIX_SOH :: rest) as HD3 by (by eapply drop_step).
  destruct (turn_idle mem len _ w w e 0 [] [] 0 Hmem) as (w1 & E1 & H1); [lia|done|done|].
  destruct (turn_begin mem len _ w w1 e 0 [] [] 0 Hmem) as (w2 & E2 & H2); [lia|done|done|].
  destruct (turn_body_length mem len 10 n _ w w2 e 0 [] [] 0 HD1) as (w3 & E3 & H3); try done;
    [fold ds; lia|].
  replace fuel with (S (S (S (4 * length fs + S (S (fuel - 5 - 4 * length fs)))))) by lia.
  unfold processStateMachine. change 0 with (Z.of_nat 0).
  erewrite loop_continues; [|lia|exact E1]. cbn [Nat.add].
  erewrite loop_continues; [|lia|exact E2]. cbn [Nat.add].
  erewrite loop_continues; [|lia|exact E3]. fold ds t2.
  destruct (body_turns fs (S (S (fuel - 5 - 4 * length fs))) mem len t2 _ w w3 (Z.of_nat n) [] 0 Hne Hf HD2)
    as (w4 & E4 & H4); [lia|fold n; lia|lia|done|done|]. fold n in E4. rewrite E4. cbn [app] in H4.
  destruct (turn_checksum mem len (t2 + n) cs _ w w4 (Z.of_nat n) 0 [] fs (Z.of_nat n) HD3 Hcl Hcd) as (w5 & E5 & H5);
    [by apply digits_no_soh|lia|lia|done|done|].
  erewrite loop_continues; [|lia|exact E5].
  destruct (turn_complete mem len (t2 + n + 7) fs w w5 Hf) as (a & w6 & E6 & Hst & Hid); try done; [lia|lia|].
  exists a, w6. split; [|done]. cbn [machine_loop].
  destruct (Z.leb_spec (Z.of_nat (t2 + n + 7)) (Z.of_nat len)); [|lia]. rewrite Nat2Z.id.
  rewrite (bind_ret _ _ _ _ _ E6). unfold ret. do 3 f_equal. lia.
Qed.
End Evaluation.

(** ** Agreement with the specialised decoders *)

Lemma set_all_app l1 l2 m : set_all (l1 ++ l2) m = set_all l2 (set_all l1 m).
Proof. apply fold_left_app. Qed.

Lemma set_all_last l k v m l1 l2 : l = l1 ++ (k, v) :: l2 -> k ∉ l2.*1 -> set_all l m !! k = Some v.
Proof.
  intros -> Hk. rewrite set_all_app. change (set_all ((k, v) :: l2)) with (fun m => set_all l2 (<[k := v]> m)).
  cbn beta. rewrite set_all_notin by done. apply lookup_insert_eq.
Qed.

Lemma set_all_lookup_ext l m m' k : m !! k = m' !! k -> set_all l m !! k = set_all l m' !! k.
Proof.
  revert m m'. induction l as [|[t v] l IH]; intros m m' H; [done|]. apply (IH (<[t:=v]> m) (<[t:=v]> m')).
  destruct (decide (t = k)) as [->|]; [by rewrite !lookup_insert_eq|by rewrite !lookup_insert_ne].
Qed.

(** A message whose header and trailer tags occur only where they belong *)
Definition plain_body (t : bytes) (fs : list (Z * bytes)) : Prop :=
  exists fs', fs = (Tag.MsgType, t) :: fs' /\ Tag.MsgType ∉ fs'.*1 /\ Tag.BeginString ∉ fs'.*1 /\
    Tag.BodyLength ∉ fs'.*1 /\ Tag.CheckSum ∉ fs'.*1.

(** Tags of a list that ends in known fields *)
Ltac solve_tags :=
  repeat match goal with x := _ |- _ => subst x end;
  rewrite ?fmap_app; cbn; repeat first [rewrite elem_of_app | rewrite elem_of_cons | rewrite elem_of_nil];
  unfold Tag.MsgType, Tag.CheckSum, Tag.BeginString, Tag.BodyLength in *; naive_solver lia.

Lemma decoders_agree sp fs m :
  plain_body (sp_type sp) fs -> set_all (machine_decoded fs) m = set_all (decoded sp fs) m.
Proof.
  intros (fs' & -> & H35 & H8 & H9 & H10). unfold machine_decoded, decoded.
  set (fs := (Tag.MsgType, sp_type sp) :: fs').
  assert (first_field Tag.MsgType fs = Some (sp_type sp)) as -> by done.
  set (c := (Tag.CheckSum, utils_calculateChecksum (wire_front fs))).
  set (l := (Tag.BodyLength, to_string _)). set (b := (Tag.BeginString, _)).
  set (t := (Tag.MsgType, sp_type sp)) in *. change (b :: [t; l]) with [b; t; l].
  apply map_eq. intros k. rewrite <- app_assoc. cbn [app].
  destruct (decide (k = Tag.MsgType)) as [->|N35].
  { rewrite (set_all_last (fs ++ [c; b; l; t]) _ _ m (fs ++ [c; b; l]) []
      ltac:(by rewrite <- app_assoc) ltac:(apply not_elem_of_nil)).
    symmetry. apply (set_all_last _ _ _ m [b; t; l] (fs' ++ [c]) eq_refl). solve_tags. }
  destruct (decide (k = Tag.CheckSum)) as [->|N10].
  { rewrite (set_all_last (fs ++ [c; b; l; t]) Tag.CheckSum (snd c) m fs [b; l; t] eq_refl ltac:(solve_tags)).
    symmetry.
    apply (set_all_last _ _ _ m ([b; t; l] ++ fs) [] eq_refl). apply not_elem_of_nil. }
  destruct (decide (k = Tag.BeginString)) as [->|N8].
  { rewrite (set_all_last (fs ++ [c; b; l; t]) Tag.BeginString (snd b) m (fs ++ [c]) [l; t]
      ltac:(by rewrite <- app_assoc) ltac:(solve_tags)).
    symmetry. apply (set_all_last _ _ _ m [] ([t; l] ++ fs ++ [c]) eq_refl). solve_tags. }
  destruct (decide (k = Tag.BodyLength)) as [->|N9].
  { rewrite (set_all_last (fs ++ [c; b; l; t]) Tag.BodyLength (snd l) m (fs ++ [c; b]) [t]
      ltac:(by rewrite <- app_assoc) ltac:(solve_tags)).
    symmetry. apply (set_all_last _ _ _ m [b; t] (fs ++ [c]) eq_refl). solve_tags. }
  rewrite set_all_app, (set_all_notin [c; b; l; t]) by solve_tags.
  change (b :: t :: l :: fs ++ [c]) with ([b; t; l] ++ fs ++ [c]).
  rewrite !set_all_app, (set_all_notin [c]) by solve_tags.
  apply set_all_lookup_ext. by rewrite set_all_notin by solve_tags.
Qed.

(** * Properties *)

(** C6: the state machine and the decoders [parse] uses agree: on a complete message of any type,
    whatever follows it, the machine returns success and leaves in a free slot of the pool
    exactly the message the specialised decoder leaves there; it is ready for the next
    message, within four turns per field and five more.  The number of bytes it reports is
    twice the length of the message. *)
Theorem state_machine_agrees clock sp fs rest len fuel w :
  plain_body (sp_type sp) fs -> Forall machine_field fs ->
  Z.of_nat (length (printFields fs)) <= wrap32 (max_message_size_ (w_parser w)) ->
  (length (wire fs) <= len <= length (wire fs ++ rest))%nat -> Z.of_nat len < 2 ^ 62 ->
  ctx_of w = context_reset (ctx_of w) -> pool_wf (w_pool w) -> can_allocate (w_pool w) ->
  (5 + 4 * length fs <= fuel)%nat ->
  exists a w', processStateMachine clock fuel (wire fs ++ rest) len w
    = (Ret (mkResult Success (Z.of_nat (2 * length (wire fs))) (Some a) IDLE 0), w') /\
    decodes_to clock sp fs w a w' /\ current_state (ctx_of w') = IDLE.
Proof.
  intros Hb Hf Hmax Hl Hlen Hctx Hw Hc Hfuel.
  destruct (machine_decodes clock fs rest len fuel w) as (a & w' & E & Hst & Hid); try done.
  { by destruct Hb as (fs' & -> & _). }
  exists a, w'. split; [exact E|]. split; [|exact Hid].
  unfold decodes_to, stores_to in *. by rewrite <- (decoders_agree sp fs).
Qed.

(** * Where the machine does not end *)

Section Spinning.
Variable clock : nat -> Z.

Lemma spin (I : World -> Prop) mem len total fuel w :
  (total <= len)%nat ->
  (forall w, I w -> exists w', machine_turn clock mem len total w = (Ret (inr (Z.of_nat total)), w') /\ I w') ->
  I w -> fst (machine_loop clock fuel mem len (Z.of_nat total) w) = NoFuel.
Proof.
  intros Hle Ht. revert w. induction fuel as [|f IH]; intros w Hw.
  - cbn [machine_loop]. by destruct (Z.leb_spec (Z.of_nat total) (Z.of_nat len)); [|lia].
  - destruct (Ht w Hw) as (w' & E & Hw'). rewrite (loop_continues _ _ _ _ _ _ _ _ Hle E). by apply IH.
Qed.

(** Without a free slot the machine tries to allocate for ever. *)
Lemma spins_without_slot mem len total fuel w :
  (total <= len)%nat -> Z.of_nat len < 2 ^ 62 -> current_state (ctx_of w) = MESSAGE_COMPLETE ->
  free_list_head_ (w_pool w) < 0 ->
  fst (machine_loop clock fuel mem len (Z.of_nat total) w) = NoFuel.
Proof.
  intros Hle Hlen Hst Hfree.
  apply (spin (fun w => current_state (ctx_of w) = MESSAGE_COMPLETE /\ free_list_head_ (w_pool w) < 0)); try done.
  clear w Hst Hfree. intros w [Hst Hfree]. set (w1 := on_context (set_position (Z.of_nat total)) w).
  assert (forall fresh, allocate fresh (w_pool w1) = (None, fail_allocation (w_pool w1))) as Ha.
  { intros fresh. unfold allocate, allocateRaw. destruct (pool_is_shutdown_ _); [done|].
    change (w_pool w1) with (w_pool w). by destruct (Z.leb_spec 0 (free_list_head_ (w_pool w))); [lia|]. }
  set (w2 := mkWorld (w_parser w1) (fail_allocation (w_pool w1)) (S (w_ticks w1))).
  exists (counted w2). split; [|done]. unfold machine_turn. rewrite (bind_ret _ _ w tt w1) by done.
  rewrite (bind_ret get_context _ w1 (ctx_of w1) w1) by done.
  change (current_state (ctx_of w1)) with (current_state (ctx_of w)). rewrite Hst. cbn [run_handler].
  rewrite (bind_ret _ _ _ (mkResult AllocationFailed 0 None ERROR_RECOVERY 0) w2).
  2: { unfold handleMessageComplete, bind, pool_allocate. by rewrite Ha. }
  rewrite (bind_ret get_context _ w2 (ctx_of w2) w2) by done. cbn [status bytes_consumed].
  by rewrite Z.add_0_r, size_t_small by lia.
Qed.

Lemma skip_at_start rest limit : 0 < limit -> skip_loop (str "8=FIX" ++ rest) 0 limit = Ret (Some 0).
Proof. intros Hl. simpl. by destruct (Z.ltb_spec 0 limit); [|lia]. Qed.

(** A long buffer that starts with [8=FIX] but holds no [8=FIX.4.4] is scanned for ever. *)
Lemma spins_on_other_version mem len rest fuel w :
  mem = str "8=FIX" ++ rest -> (512 < len <= length mem)%nat -> Z.of_nat len < 2 ^ 62 ->
  search FIX_BEGIN_STRING (take len mem) = None -> current_state (ctx_of w) = IDLE ->
  fst (processStateMachine clock fuel mem len w) = NoFuel.
Proof.
  intros Hmem Hlen Hbig Hnone Hst.
  apply (spin (fun w => current_state (ctx_of w) = IDLE) mem len 0); [lia| |done].
  clear w Hst. intros w Hst. set (w1 := on_context (set_position (Z.of_nat 0)) w).
  assert (search_in mem 0 len FIX_BEGIN_STRING w1 = (Ret None, w1)) as Hs.
  { unfold search_in. rewrite (bind_ret _ _ w1 (take len mem) w1).
    2: { unfold substr, read_bytes. rewrite decide_True by (simpl; lia). by rewrite drop_0. }
    by rewrite Hnone. }
  set (w2 := moved ERROR_RECOVERY w1).
  set (w3 := mkWorld (with_context context_reset (with_stats (add_counters 0 0 0 0) (w_parser w2)))
               (w_pool w2) (w_ticks w2)).
  assert (run_handler clock mem 0 len IDLE w1
          = (Ret (mkResult StateTransitionError 0 None ERROR_RECOVERY 0), w3)) as E.
  { cbn [run_handler]. unfold handleIdleState. rewrite decide_False by lia.
    rewrite (bind_ret _ _ _ _ _ Hs), decide_True by lia. unfold attemptErrorRecovery.
    rewrite (bind_ret _ _ _ _ _ (transition_eval ERROR_RECOVERY w1 ltac:(change (ctx_of w1) with
      (set_position (Z.of_nat 0) (ctx_of w)); cbn [current_state set_position set_field_context]; by rewrite Hst))).
    cbn [negb]. unfold handleErrorRecovery.
    rewrite (bind_ret _ _ _ 0 w2).
    2: { unfold skipToNextPotentialMessage. cbn [Nat.add]. rewrite drop_0, Hmem.
         by rewrite size_t_small, skip_at_start by lia. }
    destruct (Z.leb_spec (Z.of_nat len) 0); [lia|]. reflexivity. }
  exists (counted w3). split; [|done]. unfold machine_turn. rewrite (bind_ret _ _ w tt w1) by done.
  rewrite (bind_ret get_context _ w1 (ctx_of w1) w1) by done.
  change (current_state (ctx_of w1)) with (current_state (ctx_of w)). rewrite Hst, Nat.sub_0_r.
  rewrite (bind_ret _ _ _ _ _ E). by rewrite (bind_ret get_context _ w3 (ctx_of w3) w3) by done.
Qed.
End Spinning.

(** ** Witness *)

(** A message of a type without a specialised decoder, with bytes behind it *)
Definition news_fields : list (Z * bytes) :=
  [(Tag.MsgType, str "B"); (Tag.SenderCompID, str "BROKER"); (Tag.MsgSeqNum, str "7"); (148, str "a=b")].
Definition sp_news : Specialisation :=
  {| sp_min_length := 0; sp_type := str "B"; sp_soh_incomplete := false; sp_positions := false;
     sp_check_type := false |}.

Lemma state_machine_agrees_witness :
  exists a w', processStateMachine (fun _ => 0) 21 (wire news_fields ++ str "8=FIX")
                 (length (wire news_fields ++ str "8=FIX")) sample_world
    = (Ret (mkResult Success (Z.of_nat (2 * length (wire news_fields))) (Some a) IDLE 0), w') /\
    decodes_to (fun _ => 0) sp_news news_fields sample_world a w'.
Proof.
  destruct (state_machine_agrees (fun _ => 0) sp_news news_fields (str "8=FIX")
    (length (wire news_fields ++ str "8=FIX")) 21 sample_world) as (a & w' & E & Hd & _).
  - eexists. split; [reflexivity|]. repeat split; apply (bool_decide_unpack _); vm_compute; exact I.
  - repeat constructor; cbn [fst snd]; try (vm_compute; discriminate);
      apply (bool_decide_unpack _); vm_compute; exact I.
  - vm_compute. discriminate.
  - rewrite length_app. lia.
  - vm_compute. reflexivity.
  - reflexivity.
  - apply sample_pool_wf.
  - apply sample_can_allocate.
  - vm_compute. lia.
  - exists a, w'. exact (conj E Hd).
Defined.
