(* ===== verification/PriorityQueues.v ===== *)
(** [config/priority_config.h] and [priority_queue_container.h]: the priorities and the
    four queues of message pointers, and the environment the managers share: the
    message pool, the queues and the clock.

    A queued element is the address of a message in the pool; a message read through a
    pointer that denotes no live object is undefined behaviour. *)
From S2P Require Import Prelude FixFields LockFreeQueue QueueInterface MessagePool FixMessage.

(** [enum class Priority] *)
Inductive Priority := CRITICAL | HIGH | MEDIUM | LOW.

#[export] Instance Priority_eq_dec : EqDecision Priority.
Proof. solve_decision. Defined.

(** [getPriorityIndex] of the container and of the router *)
Definition getPriorityIndex (priority : Priority) : nat :=
  match priority with CRITICAL => 0 | HIGH => 1 | MEDIUM => 2 | LOW => 3 end.

(** The queues of message pointers; the value-initialised pointer is null. *)
#[export] Instance pointer_queue : FifoQueue Z (LockFreeQueue Z) := ring_fifo 0.

(** The constructor of [PriorityQueueContainer] *)
Definition newContainer : list (LockFreeQueue Z) :=
  [newQueue 0 2048 (str "critical_queue"); newQueue 0 2048 (str "high_queue");
   newQueue 0 1024 (str "medium_queue"); newQueue 0 512 (str "low_queue")].

(** ** The shared environment *)
Record Env (Q : Type) := mkEnv {
  env_pool : MessagePool FixMessage;
  env_queues : list Q;
  env_ticks : nat
}.
Arguments mkEnv {Q}.
Arguments env_pool {Q}.
Arguments env_queues {Q}.
Arguments env_ticks {Q}.

Section Operations.
Context {Q : Type} `{FifoQueue Z Q}.
Implicit Types e : Env Q.

(** The readings of the clocks, in the order of the calls. *)
Variable clock : nat -> Z.

Definition env_now : M (Env Q) Z :=
  fun e => (Ret (clock (env_ticks e)),
            mkEnv (env_pool e) (env_queues e) (S (env_ticks e))).

(** [message_pool_->allocate()]; the constructor of the message reads the clock. *)
Definition env_allocate : M (Env Q) (option Z) :=
  fun e =>
    let '(r, pool) := allocate (newFixMessage (clock (env_ticks e))) (env_pool e) in
    (Ret r, mkEnv pool (env_queues e)
              (match r with Some _ => S (env_ticks e) | None => env_ticks e end)).

Definition env_deallocate (msg : Z) : M (Env Q) unit :=
  fun e => (Ret tt, mkEnv (deallocate (Some msg) (env_pool e)) (env_queues e) (env_ticks e)).

(** A call of a method of the message behind a pointer. *)
Definition env_call {A} (f : FixMessage -> A * FixMessage) (msg : Z) : M (Env Q) A :=
  fun e => match deref (env_pool e) msg with
           | Some m => (Ret (fst (f m)),
                        mkEnv (update_object (fun m => snd (f m)) msg (env_pool e))
                          (env_queues e) (env_ticks e))
           | None => (Ub, e)
           end.
Definition env_update (f : FixMessage -> FixMessage) (msg : Z) : M (Env Q) unit :=
  env_call (fun m => (tt, f m)) msg.
Definition env_read {A} (f : FixMessage -> A) (msg : Z) : M (Env Q) A :=
  env_call (fun m => (f m, m)) msg.

(** [queues_->getQueue(priority)->push(message)] *)
Definition env_push (priority : Priority) (message : Z) : M (Env Q) bool :=
  fun e => match env_queues e !! getPriorityIndex priority with
           | Some q => let '(b, q') := q_push message q in
                       (Ret b, mkEnv (env_pool e)
                                 (<[getPriorityIndex priority := q']> (env_queues e))
                                 (env_ticks e))
           | None => (Ub, e)
           end.

(** An operation on the environment, run by a component with its own state [S]. *)
Definition on_env {S A} (m : M (Env Q) A) : M (S * Env Q) A :=
  fun s => let '(o, e') := m (snd s) in (o, (fst s, e')).

(** ** Observations *)

Definition queued e (p : Priority) : list Z :=
  match env_queues e !! getPriorityIndex p with Some q => q_items q | None => [] end.
Definition room e (p : Priority) : nat :=
  match env_queues e !! getPriorityIndex p with Some q => q_room q | None => O end.

Record env_wf e : Prop := {
  env_queues_four : length (env_queues e) = 4%nat;
  env_queues_wf : Forall q_wf (env_queues e)
}.

Lemma index_lt p : (getPriorityIndex p < 4)%nat.
Proof. destruct p; simpl; lia. Qed.

Lemma index_inj p p' : getPriorityIndex p = getPriorityIndex p' -> p = p'.
Proof. by destruct p, p'. Qed.

Lemma env_queue_at e p :
  env_wf e -> exists q, env_queues e !! getPriorityIndex p = Some q /\ q_wf q.
Proof.
  intros [Hl Hf]. pose proof (index_lt p) as Hi.
  destruct (env_queues e !! getPriorityIndex p) as [q|] eqn:E.
  - exists q. split; [done|]. by eapply Forall_lookup_1.
  - apply lookup_ge_None in E. lia.
Qed.

(** [push] appends when there is room and leaves the other queues alone. *)
Lemma env_push_spec p x e :
  env_wf e ->
  exists e', env_push p x e = (Ret (negb (bool_decide (room e p = O))), e') /\ env_wf e' /\
    env_pool e' = env_pool e /\ env_ticks e' = env_ticks e /\
    queued e' p = queued e p ++ take (room e p) [x] /\ room e' p = pred (room e p) /\
    (forall p', p' <> p -> queued e' p' = queued e p' /\ room e' p' = room e p').
Proof.
  intros He. destruct (env_queue_at e p He) as (q & Hq & Hw).
  destruct (push_step x q Hw) as (q' & E & Hw' & _ & Hi & Hr).
  exists (mkEnv (env_pool e) (<[getPriorityIndex p := q']> (env_queues e)) (env_ticks e)).
  unfold env_push, queued, room. simpl. rewrite Hq, E.
  assert ((getPriorityIndex p < length (env_queues e))%nat) as Hlt by (by eapply lookup_lt_Some).
  rewrite list_lookup_insert_eq by done. split_and!; try done.
  - destruct He. split; simpl; [by rewrite length_insert|]. by apply Forall_insert.
  - intros p' Hp. rewrite list_lookup_insert_ne; [done|]. intros Eq. by apply index_inj in Eq.
Qed.
End Operations.

Lemma newContainer_wf pool ticks : env_wf (mkEnv pool newContainer ticks).
Proof. split; [done|]. repeat constructor; apply newQueue_wf; lia. Qed.

(** ** An instance *)

(** A pool of four messages with an execution report and a heartbeat, and queues that
    hold one message each. *)
Definition small_env : Env (LockFreeQueue Z) :=
  match newPool 4 (Some 4096) 64 with
  | Some p0 =>
      let p1 := snd (allocate (with_fields {[Tag.MsgType := MsgTypes.ExecutionReport]}) p0) in
      let p2 := snd (allocate (with_fields {[Tag.MsgType := MsgTypes.Heartbeat]}) p1) in
      mkEnv p2 (replicate 4 (newQueue 0 2 [])) 0
  | None => mkEnv (Build_MessagePool 0 0 0 [] 0 [] 0 0 0 0 false) [] 0
  end.

Lemma small_env_wf : env_wf small_env.
Proof. split; [done|]. repeat constructor; apply newQueue_wf; lia. Qed.

Lemma small_env_pool_wf : pool_wf (env_pool small_env).
Proof.
  destruct (newPool 4 (Some 4096) 64 : option FixMessagePool) as [p0|] eqn:E; [|done].
  assert (env_pool small_env =
    snd (allocate (with_fields {[Tag.MsgType := MsgTypes.Heartbeat]})
      (snd (allocate (with_fields {[Tag.MsgType := MsgTypes.ExecutionReport]}) p0)))) as ->
    by (unfold small_env; by rewrite E).
  eapply client_step_wf; [|constructor]. eapply client_step_wf; [|constructor].
  by apply (newPool_wf 4 (Some 4096) 64).
Qed.
