(* ===== verification/MessageSending.v ===== *)
(** The pattern by which every manager sends: allocate a message in the pool, set its
    fields, push it to an outbound queue, give it back when the queue is full.  This file
    has the predicates that follow a message through the pattern and the rules of the
    weakest-precondition calculus for its steps. *)
From S2P Require Import Prelude FixFields LockFreeQueue QueueInterface MessagePool FixMessage PriorityQueues.

(** [m] is being built at address [a], slot [i], in [p]; everything else is as in [p0]. *)
Record built (p0 : FixMessagePool) (a : Z) (i : nat) (m : FixMessage) (p : FixMessagePool)
    : Prop := {
  built_wf : pool_wf p;
  built_addr : a = addr_of p0 (Z.of_nat i);
  built_free : pool_slots_ p0 !! i = Some None;
  built_slots : pool_slots_ p = <[i := Some m]> (pool_slots_ p0);
  built_size : pool_size_ p = pool_size_ p0;
  built_start : pool_start_ p = pool_start_ p0;
  built_bytes : slot_bytes_ p = slot_bytes_ p0;
  built_open : pool_is_shutdown_ p = pool_is_shutdown_ p0
}.

(** Same objects in the same slots. *)
Record same_objects (p0 p : FixMessagePool) : Prop := {
  so_wf : pool_wf p;
  so_slots : pool_slots_ p = pool_slots_ p0;
  so_size : pool_size_ p = pool_size_ p0;
  so_start : pool_start_ p = pool_start_ p0;
  so_bytes : slot_bytes_ p = slot_bytes_ p0;
  so_open : pool_is_shutdown_ p = pool_is_shutdown_ p0
}.

Lemma built_addr_of p0 a i m p : built p0 a i m p -> a = addr_of p (Z.of_nat i).
Proof. intros []. subst. unfold addr_of. congruence. Qed.

Lemma built_lt p0 a i m p : built p0 a i m p -> (i < length (pool_slots_ p0))%nat.
Proof. intros []. by eapply lookup_lt_Some. Qed.

Lemma built_slot p0 a i m p : built p0 a i m p -> slot_of p a = Some (Z.of_nat i).
Proof.
  intros Hb. rewrite (built_addr_of _ _ _ _ _ Hb). pose proof (built_lt _ _ _ _ _ Hb) as Hlt.
  destruct Hb as [[Hn Hy Hs Hl _ _] _ _ Hsl _ _ _ _].
  apply slot_of_addr; [done|]. rewrite <- Hs, Hsl, length_insert. lia.
Qed.

Lemma built_deref p0 a i m p : built p0 a i m p -> deref p a = Some m.
Proof.
  intros Hb. unfold deref. rewrite (built_slot _ _ _ _ _ Hb). simpl.
  rewrite Nat2Z.id, (built_slots _ _ _ _ _ Hb), list_lookup_insert_eq; [done|].
  by eapply built_lt.
Qed.

Lemma built_allocate fresh p0 a p :
  pool_wf p0 -> allocate fresh p0 = (Some a, p) -> exists i, built p0 a i fresh p.
Proof.
  intros Hw E. destruct (allocate_some _ _ _ _ Hw E) as (i & -> & Hi & Hs & _ & Hz & Hst & Hsb & Hw').
  exists i. split; try done. unfold allocate, allocateRaw, fail_allocation in E.
  repeat case_hyp E; simplify_eq; done.
Qed.

Lemma built_update f p0 a i m p : built p0 a i m p -> built p0 a i (f m) (update_object f a p).
Proof.
  intros Hb. destruct (update_object_same f a p) as (E1 & E2 & E3 & E4).
  pose proof (built_slot _ _ _ _ _ Hb) as Hs. pose proof (built_lt _ _ _ _ _ Hb) as Hlt.
  destruct Hb. split; try congruence.
  - by apply update_object_wf.
  - unfold update_object. rewrite Hs. simpl. rewrite Nat2Z.id, built_slots0.
    apply list_eq. intros j. destruct (decide (j = i)) as [->|Hj].
    + rewrite list_lookup_alter_eq, !list_lookup_insert_eq; done.
    + by rewrite list_lookup_alter_ne, !list_lookup_insert_ne.
Qed.

Lemma built_deallocate p0 a i m p :
  built p0 a i m p -> same_objects p0 (deallocate (Some a) p).
Proof.
  intros Hb. pose proof (built_addr_of _ _ _ _ _ Hb) as ->.
  pose proof (built_lt _ _ _ _ _ Hb) as Hlt. destruct Hb.
  destruct (deallocate_live i p) as (E1 & _ & _ & _ & E2 & E3 & E4 & E5 & E6); [done| |].
  { exists m. by rewrite built_slots0, list_lookup_insert_eq. }
  split; try congruence. rewrite E1, built_slots0, list_insert_insert_eq. by apply list_insert_id.
Qed.

Lemma built_live p0 a i m p : built p0 a i m p -> live_set p = {[i]} ∪ live_set p0.
Proof. intros Hb. eapply live_set_insert; [apply Hb|by eapply built_lt]. Qed.

Lemma same_objects_refl p : pool_wf p -> same_objects p p.
Proof. by split. Qed.

Lemma same_objects_live p0 p : same_objects p0 p -> live_set p = live_set p0.
Proof.
  intros [_ E _ _ _ _]. apply set_eq. intros j. rewrite !elem_of_live_set.
  unfold live_slot. by rewrite E.
Qed.

(** Pointers to other live messages see the same objects. *)
Lemma built_other p0 a i m p b o :
  built p0 a i m p -> 0 < slot_bytes_ p0 -> deref p0 b = Some o -> deref p b = Some o.
Proof.
  intros Hb Hy Hd. assert (slot_of p b = slot_of p0 b) as Es by (apply slot_of_same; apply Hb).
  unfold deref in *. rewrite Es. destruct (slot_of p0 b) as [z|]; [|done]. simpl in *.
  rewrite (built_slots _ _ _ _ _ Hb). destruct (decide (Z.to_nat z = i)) as [<-|Hj].
  - by rewrite (built_free _ _ _ _ _ Hb) in Hd.
  - by rewrite list_lookup_insert_ne.
Qed.

Lemma same_objects_deref p0 p b : same_objects p0 p -> deref p b = deref p0 b.
Proof.
  intros Hs. unfold deref. rewrite (slot_of_same p0 p); try apply Hs.
  by rewrite (so_slots _ _ Hs).
Qed.

Lemma update_object_id a (p : FixMessagePool) : update_object (fun m => m) a p = p.
Proof.
  unfold update_object. destruct (slot_of p a) as [i|]; [|done]. destruct p as [? ? ? sl ? ? ? ? ? ? ?].
  simpl. f_equal. apply list_eq. intros j. destruct (decide (j = Z.to_nat i)) as [->|Hj].
  - rewrite list_lookup_alter_eq. by destruct (sl !! Z.to_nat i) as [[]|].
  - by rewrite list_lookup_alter_ne.
Qed.

(** ** Steps of the environment *)
Section Steps.
Context {Q : Type} `{FifoQueue Z Q}.
Variable clock : nat -> Z.
Implicit Types e : Env Q.

Definition same_queues (e0 e : Env Q) : Prop :=
  env_wf e /\ forall p, queued e p = queued e0 p /\ room e p = room e0 p.

(** Nothing observable happened since [e0]. *)
Definition idle (e0 e : Env Q) : Prop :=
  same_objects (env_pool e0) (env_pool e) /\ same_queues e0 e.

(** A message is under construction. *)
Definition building (e0 : Env Q) (a : Z) (i : nat) (m : FixMessage) (e : Env Q) : Prop :=
  built (env_pool e0) a i m (env_pool e) /\ same_queues e0 e.

(** The message was built and handed to the queue of [p]. *)
Definition sent (e0 : Env Q) (p : Priority) (a : Z) (i : nat) (m : FixMessage) (e : Env Q) : Prop :=
  built (env_pool e0) a i m (env_pool e) /\ env_wf e /\
  queued e p = queued e0 p ++ [a] /\ S (room e p) = room e0 p /\
  forall p', p' <> p -> queued e p' = queued e0 p' /\ room e p' = room e0 p'.

Lemma idle_refl e : pool_wf (env_pool e) -> env_wf e -> idle e e.
Proof. intros Hp He. split; [by apply same_objects_refl|]. by split. Qed.

Lemma idle_pool_wf e0 e : idle e0 e -> pool_wf (env_pool e).
Proof. intros [[] _]. done. Qed.
Lemma idle_wf e0 e : idle e0 e -> env_wf e.
Proof. by intros [_ [? _]]. Qed.

Lemma idle_trans e1 e2 e3 : idle e1 e2 -> idle e2 e3 -> idle e1 e3.
Proof.
  intros [[] [A1 A2]] [[] [B1 B2]]. split; [split; congruence|]. split; [done|].
  intros p. destruct (A2 p), (B2 p). split; congruence.
Qed.

Lemma idle_building e0 e1 a i m e : idle e0 e1 -> building e1 a i m e -> building e0 a i m e.
Proof.
  intros [[] [A1 A2]] [[] [B1 B2]]. split.
  - split; try congruence. unfold addr_of in *. congruence.
  - split; [done|]. intros p. destruct (A2 p), (B2 p). split; congruence.
Qed.

Lemma idle_sent e0 e1 p a i m e : idle e0 e1 -> sent e1 p a i m e -> sent e0 p a i m e.
Proof.
  intros [[] [A1 A2]] ([] & B1 & B2 & B3 & B4). split_and!; try done.
  - split; try congruence. unfold addr_of in *. congruence.
  - rewrite B2. by rewrite (proj1 (A2 p)).
  - rewrite B3. apply A2.
  - intros p' Hp. destruct (A2 p'), (B4 p' Hp). split; congruence.
Qed.

Context {S : Type}.

Lemma wp_env_now {A} (k : Z -> M (S * Env Q) A) Post E c e :
  wp (k (clock (env_ticks e))) Post E
     (c, mkEnv (env_pool e) (env_queues e) (Datatypes.S (env_ticks e))) ->
  wp (bind (on_env (env_now clock)) k) Post E (c, e).
Proof. done. Qed.

(** A clock reading keeps what was observed so far. *)
Lemma idle_tick e0 e t : idle e0 e -> idle e0 (mkEnv (env_pool e) (env_queues e) t).
Proof. intros [H1 [[H2 H3] H4]]. by split; [|split]. Qed.
Lemma building_tick e0 a i m e t :
  building e0 a i m e -> building e0 a i m (mkEnv (env_pool e) (env_queues e) t).
Proof. intros [H1 [[H2 H3] H4]]. by split; [|split]. Qed.
Lemma sent_tick e0 p a i m e t :
  sent e0 p a i m e -> sent e0 p a i m (mkEnv (env_pool e) (env_queues e) t).
Proof. intros (H1 & [] & H3). split; [done|]. split; [by split|exact H3]. Qed.

Lemma wp_env_allocate {A} (k : option Z -> M (S * Env Q) A) Post E c e :
  pool_wf (env_pool e) -> env_wf e ->
  (forall a i e', building e a i (newFixMessage (clock (env_ticks e))) e' ->
     wp (k (Some a)) Post E (c, e')) ->
  (forall e', idle e e' ->
     pool_is_shutdown_ (env_pool e) = true \/ available (env_pool e) = 0 ->
     wp (k None) Post E (c, e')) ->
  wp (bind (on_env (env_allocate clock)) k) Post E (c, e).
Proof.
  intros Hp He Hs Hn. unfold wp, bind, on_env, env_allocate. simpl.
  destruct (allocate _ (env_pool e)) as [[a|] p] eqn:E1.
  - destruct (built_allocate _ _ _ _ Hp E1) as [i Hb]. simpl. apply (Hs a i). split; [done|].
    split; [by destruct He; split|done].
  - destruct (allocate_none _ _ _ Hp E1) as [-> Hc]. apply Hn.
    + split; [|split; [by destruct He; split|done]]. destruct Hp. split; try done.
    + destruct Hc as [Hc|Hc]; [by left|right; lia].
Qed.

Lemma wp_env_update {A} f a i m e0 (k : unit -> M (S * Env Q) A) Post E c e :
  building e0 a i m e ->
  (forall e', building e0 a i (f m) e' -> wp (k tt) Post E (c, e')) ->
  wp (bind (on_env (env_update f a)) k) Post E (c, e).
Proof.
  intros [Hb [[Hq1 Hq2] Hq3]] Hk. unfold wp, bind, on_env, env_update, env_call. simpl.
  rewrite (built_deref _ _ _ _ _ Hb). simpl. apply Hk. split; [by apply (built_update f)|].
  by split.
Qed.

Lemma wp_env_push {A} p a i m e0 (k : bool -> M (S * Env Q) A) Post E c e :
  building e0 a i m e ->
  (room e0 p <> O -> forall e', sent e0 p a i m e' -> wp (k true) Post E (c, e')) ->
  (room e0 p = O -> forall e', building e0 a i m e' -> wp (k false) Post E (c, e')) ->
  wp (bind (on_env (env_push p a)) k) Post E (c, e).
Proof.
  intros [Hb [Hq1 Hq2]] Hs Hn. destruct (env_push_spec p a e Hq1) as (e' & E1 & He & Hp & Ht & Hi & Hr & Ho).
  unfold wp, bind, on_env. cbn [snd fst]. rewrite E1. rewrite (proj2 (Hq2 p)), (proj1 (Hq2 p)) in *.
  case_bool_decide as Hz; simpl.
  - apply Hn; [done|]. split; [by rewrite Hp|]. split; [done|]. intros p'.
    destruct (decide (p' = p)) as [->|Hd].
    + rewrite Hi, Hr, Hz, take_0, app_nil_r. done.
    + destruct (Ho p' Hd) as [-> ->]. apply Hq2.
  - apply Hs; [done|]. split; [by rewrite Hp|]. split; [done|].
    rewrite Hi, take_ge by (simpl; lia). split; [done|]. split; [lia|].
    intros p' Hd. destruct (Ho p' Hd) as [-> ->]. apply Hq2.
Qed.

Lemma wp_env_deallocate a i m e0 Post E (c : S) e :
  building e0 a i m e -> (forall e', idle e0 e' -> Post tt (c, e')) ->
  wp (on_env (env_deallocate a)) Post E (c, e).
Proof.
  intros [Hb [[Hq1 Hq2] Hq3]] Hk. apply Hk. split; [by eapply built_deallocate|]. by split.
Qed.
End Steps.

(** Steps of a proof: setting a field of, or reading the clock for, the message under
    construction. *)
Ltac step_update := eapply wp_env_update; [eassumption|intros ? ?].
Ltac step_now :=
  apply wp_env_now;
  match goal with
  | Hb : building ?e0 ?a ?i ?m ?e |- wp _ _ _ (_, mkEnv (env_pool ?e) (env_queues ?e) ?t) =>
      apply (building_tick e0 a i m e t) in Hb
  end.

(** Equality of two field maps built by insertions of standard tags. *)
Ltac solve_fields :=
  apply map_eq; let j := fresh "j" in intros j;
  rewrite ?lookup_insert, ?lookup_singleton, ?lookup_empty;
  repeat case_decide; subst; try done; exfalso;
  unfold Tag.BeginString, Tag.MsgType, Tag.SenderCompID, Tag.TargetCompID, Tag.MsgSeqNum,
    Tag.SendingTime, Tag.BeginSeqNo, Tag.EndSeqNo in *; congruence.
