(* ===== verification/MessageRouter.v ===== *)
(** [manager::MessageRouter] ([message_router.h], [message_router.cpp]): the priority of a
    message, routing of one message and of a batch into the four queues, and the
    routing statistics.  The router's counters are written by one thread here, so the
    compare-and-swap loop of the peak latency succeeds at its first try. *)
From S2P Require Import Prelude FixFields LockFreeQueue QueueInterface MessagePool FixMessage PriorityQueues.

(** [struct RouterStats] *)
Record RouterStats := {
  messages_routed : Z;
  messages_dropped : Z;
  routing_errors : Z;
  total_routing_time_ns : Z;
  peak_routing_time_ns : Z;
  critical_routed : Z; high_routed : Z; medium_routed : Z; low_routed : Z;
  critical_dropped : Z; high_dropped : Z; medium_dropped : Z; low_dropped : Z
}.

(** The members of the class besides the shared queues. *)
Record MessageRouter := { running_ : bool; stats_ : RouterStats }.

(** [resetStats] *)
Definition zero_stats : RouterStats :=
  {| messages_routed := 0; messages_dropped := 0; routing_errors := 0;
     total_routing_time_ns := 0; peak_routing_time_ns := 0;
     critical_routed := 0; high_routed := 0; medium_routed := 0; low_routed := 0;
     critical_dropped := 0; high_dropped := 0; medium_dropped := 0; low_dropped := 0 |}.
Definition resetStats (r : MessageRouter) : MessageRouter :=
  {| running_ := running_ r; stats_ := zero_stats |}.

(** The constructor, [start] and [stop] *)
Definition newRouter : MessageRouter := {| running_ := false; stats_ := zero_stats |}.
Definition start (r : MessageRouter) : MessageRouter :=
  if running_ r then r else {| running_ := true; stats_ := stats_ r |}.
Definition stop (r : MessageRouter) : MessageRouter :=
  {| running_ := false; stats_ := stats_ r |}.

(** [getMessagePriority], on the message type *)
Definition type_priority (msgType : FixMsgType) : Priority :=
  if decide (msgType = EXECUTION_REPORT) then CRITICAL
  else if decide (msgType = FixFields.HEARTBEAT) then LOW
  else match msgType with
       | ORDER_CANCEL_REJECT | NEW_ORDER_SINGLE | ORDER_CANCEL_REQUEST
       | ORDER_CANCEL_REPLACE_REQUEST | ORDER_STATUS_REQUEST => CRITICAL
       | MARKET_DATA_REQUEST | MARKET_DATA_SNAPSHOT | MARKET_DATA_INCREMENTAL_REFRESH
       | MARKET_DATA_REQUEST_REJECT => HIGH
       | TEST_REQUEST | RESEND_REQUEST | REJECT | SEQUENCE_RESET | LOGOUT | LOGON => MEDIUM
       | _ => LOW
       end.

(** The switches of [recordRoutingSuccess] and [recordRoutingFailure]. *)
Definition add_priority_routed (p : Priority) (s : RouterStats) : RouterStats :=
  let 'Build_RouterStats a b c d e c1 h1 m1 l1 c2 h2 m2 l2 := s in
  match p with
  | CRITICAL => Build_RouterStats a b c d e (c1 + 1) h1 m1 l1 c2 h2 m2 l2
  | HIGH => Build_RouterStats a b c d e c1 (h1 + 1) m1 l1 c2 h2 m2 l2
  | MEDIUM => Build_RouterStats a b c d e c1 h1 (m1 + 1) l1 c2 h2 m2 l2
  | LOW => Build_RouterStats a b c d e c1 h1 m1 (l1 + 1) c2 h2 m2 l2
  end.
Definition add_priority_dropped (p : Priority) (s : RouterStats) : RouterStats :=
  let 'Build_RouterStats a b c d e c1 h1 m1 l1 c2 h2 m2 l2 := s in
  match p with
  | CRITICAL => Build_RouterStats a b c d e c1 h1 m1 l1 (c2 + 1) h2 m2 l2
  | HIGH => Build_RouterStats a b c d e c1 h1 m1 l1 c2 (h2 + 1) m2 l2
  | MEDIUM => Build_RouterStats a b c d e c1 h1 m1 l1 c2 h2 (m2 + 1) l2
  | LOW => Build_RouterStats a b c d e c1 h1 m1 l1 c2 h2 m2 (l2 + 1)
  end.

(** [recordRoutingSuccess], [recordRoutingFailure] *)
Definition recordRoutingSuccess (p : Priority) (routing_time_ns : Z) (s : RouterStats)
    : RouterStats :=
  let 'Build_RouterStats a b c d e c1 h1 m1 l1 c2 h2 m2 l2 := s in
  add_priority_routed p
    (Build_RouterStats (a + 1) b c (u64 (d + routing_time_ns))
       (if e <? routing_time_ns then routing_time_ns else e) c1 h1 m1 l1 c2 h2 m2 l2).
Definition recordRoutingFailure (p : Priority) (s : RouterStats) : RouterStats :=
  let 'Build_RouterStats a b c d e c1 h1 m1 l1 c2 h2 m2 l2 := s in
  add_priority_dropped p (Build_RouterStats a (b + 1) c d e c1 h1 m1 l1 c2 h2 m2 l2).
Definition count_routing_error (s : RouterStats) : RouterStats :=
  let 'Build_RouterStats a b c d e c1 h1 m1 l1 c2 h2 m2 l2 := s in
  Build_RouterStats a b (c + 1) d e c1 h1 m1 l1 c2 h2 m2 l2.

Section Routing.
Context {Q : Type} `{FifoQueue Z Q}.
Variable clock : nat -> Z.

Definition R := M (MessageRouter * Env Q).

Definition update_stats (f : RouterStats -> RouterStats) : R unit :=
  modify (fun s => ({| running_ := running_ (fst s); stats_ := f (stats_ (fst s)) |}, snd s)).

(** [getMessagePriority]: [getMsgTypeEnum] fills the type cache of the message. *)
Definition getMessagePriority (message : Z) : R Priority :=
  msgType <-- on_env (env_call getMsgTypeEnum message) ;;
  ret (type_priority msgType).

(** [tryRouteToQueue] *)
Definition tryRouteToQueue (message : Z) (priority : Priority) : R bool :=
  on_env (env_push priority message).

(** [routeMessage]; [None] is the null pointer. *)
Definition routeMessage (message : option Z) : R unit :=
  match message with
  | None => update_stats count_routing_error
  | Some message =>
      start_time <-- on_env (env_now clock) ;;
      priority <-- getMessagePriority message ;;
      ok <-- tryRouteToQueue message priority ;;
      if ok then
        end_time <-- on_env (env_now clock) ;;
        update_stats (recordRoutingSuccess priority (u64 (end_time - start_time)))
      else update_stats (recordRoutingFailure priority)
  end.

(** The loop of [routeMessages] from index [i], [n] turns before its end. *)
Fixpoint route_loop (messages : list (option Z)) (i n : nat) : R unit :=
  match n with
  | O => ret tt
  | S n' =>
      match messages !! i with
      | None => ub
      | Some message => routeMessage message ;;; route_loop messages (S i) n'
      end
  end.

(** [routeMessages(messages, count)]; [None] is the null array pointer. *)
Definition routeMessages (messages : option (list (option Z))) (count : nat) : R unit :=
  match messages with
  | None => ret tt
  | Some ms => if decide (count = O) then ret tt else route_loop ms 0 count
  end.

(** ** What routing promises *)

Definition routed_of (p : Priority) (s : RouterStats) : Z :=
  match p with CRITICAL => critical_routed s | HIGH => high_routed s
             | MEDIUM => medium_routed s | LOW => low_routed s end.
Definition dropped_of (p : Priority) (s : RouterStats) : Z :=
  match p with CRITICAL => critical_dropped s | HIGH => high_dropped s
             | MEDIUM => medium_dropped s | LOW => low_dropped s end.
Definition over_priorities (f : Priority -> Z) : Z := f CRITICAL + f HIGH + f MEDIUM + f LOW.

(** The priority of the message behind a pointer. *)
Definition priority_of (e : Env Q) (a : Z) : option Priority :=
  (fun m => type_priority (fst (getMsgTypeEnum m))) <$> deref (env_pool e) a.

(** The pointers of [ms] whose message has priority [p], in order. *)
Definition addressed (e : Env Q) (p : Priority) (ms : list (option Z)) : list Z :=
  filter (fun a => priority_of e a = Some p) (omap id ms).

(** Every pointer sees the same fields and the same priority. *)
Definition same_messages (e e' : Env Q) : Prop :=
  forall a, fields_ <$> deref (env_pool e') a = fields_ <$> deref (env_pool e) a /\
            priority_of e' a = priority_of e a.

(** Routing [ms] took [(s, e)] to [(s', e')] and lost count of nothing. *)
Record routed_exactly (ms : list (option Z)) (s s' : RouterStats) (e e' : Env Q) : Prop := {
  re_messages : same_messages e e';
  re_queued p : queued e' p = queued e p ++ take (room e p) (addressed e p ms);
  re_room p : room e' p = (room e p - length (addressed e p ms))%nat;
  re_routed p : routed_of p s' = routed_of p s + Z.of_nat (length (take (room e p) (addressed e p ms)));
  re_dropped p : dropped_of p s' = dropped_of p s + Z.of_nat (length (drop (room e p) (addressed e p ms)));
  re_errors : routing_errors s' = routing_errors s + Z.of_nat (length (filter (fun m => m = None) ms));
  re_total_routed :
    messages_routed s' - over_priorities (fun p => routed_of p s') =
    messages_routed s - over_priorities (fun p => routed_of p s);
  re_total_dropped :
    messages_dropped s' - over_priorities (fun p => dropped_of p s') =
    messages_dropped s - over_priorities (fun p => dropped_of p s);
  re_every :
    messages_routed s' + messages_dropped s' + routing_errors s' =
    messages_routed s + messages_dropped s + routing_errors s + Z.of_nat (length ms)
}.

#[local] Instance same_messages_preorder : PreOrder same_messages.
Proof.
  split; [by split|]. intros e1 e2 e3 H1 H2 a.
  destruct (H1 a), (H2 a). split; congruence.
Qed.

Lemma addressed_app e p ms1 ms2 :
  addressed e p (ms1 ++ ms2) = addressed e p ms1 ++ addressed e p ms2.
Proof. unfold addressed. by rewrite omap_app, filter_app. Qed.

Lemma addressed_same e e' p ms : same_messages e e' -> addressed e' p ms = addressed e p ms.
Proof.
  intros Hs. unfold addressed. apply list_filter_iff. intros a.
  by rewrite (proj2 (Hs a)).
Qed.

Lemma routed_exactly_app ms1 ms2 s1 s2 s3 e1 e2 e3 :
  routed_exactly ms1 s1 s2 e1 e2 -> routed_exactly ms2 s2 s3 e2 e3 ->
  routed_exactly (ms1 ++ ms2) s1 s3 e1 e3.
Proof.
  intros [A1 A2 A3 A4 A5 A6 A7 A8 A9] [B1 B2 B3 B4 B5 B6 B7 B8 B9].
  assert (forall p, addressed e2 p ms2 = addressed e1 p ms2) as Hs by (intros p; by apply addressed_same).
  split; intros; rewrite ?addressed_app, ?filter_app, ?take_app, ?drop_app, ?length_app.
  - by etrans.
  - by rewrite B2, A2, A3, Hs, app_assoc.
  - rewrite B3, A3, Hs. lia.
  - rewrite B4, A4, A3, Hs. lia.
  - rewrite B5, A5, A3, Hs. lia.
  - lia.
  - lia.
  - lia.
  - lia.
Qed.

(** The type cache changes neither fields nor priority. *)
Lemma cached_type_stable m : fst (getMsgTypeEnum (snd (getMsgTypeEnum m))) = fst (getMsgTypeEnum m).
Proof. unfold getMsgTypeEnum. by destruct (msgTypeCached_ m) eqn:E; simpl; rewrite ?E. Qed.

Lemma cached_fields m : fields_ (snd (getMsgTypeEnum m)) = fields_ m.
Proof. unfold getMsgTypeEnum. by destruct (msgTypeCached_ m). Qed.

Lemma same_messages_cached e e' a :
  env_pool e' = update_object (fun m => snd (getMsgTypeEnum m)) a (env_pool e) ->
  same_messages e e'.
Proof.
  intros Hp b. unfold priority_of. rewrite Hp.
  destruct (update_object_deref_cases (fun m => snd (getMsgTypeEnum m)) a (env_pool e) b)
    as [-> | ->]; [done|].
  destruct (deref (env_pool e) b) as [m|]; [|done].
  simpl. by rewrite cached_fields, cached_type_stable.
Qed.

(** The switch of a recording function touches the counter of its priority only. *)
Lemma recordRoutingSuccess_spec p t s :
  (forall p', routed_of p' (recordRoutingSuccess p t s) =
              routed_of p' s + (if decide (p' = p) then 1 else 0)) /\
  (forall p', dropped_of p' (recordRoutingSuccess p t s) = dropped_of p' s) /\
  messages_routed (recordRoutingSuccess p t s) = messages_routed s + 1 /\
  messages_dropped (recordRoutingSuccess p t s) = messages_dropped s /\
  routing_errors (recordRoutingSuccess p t s) = routing_errors s.
Proof. destruct s, p; split_and!; try done; intros []; simpl; lia. Qed.

Lemma recordRoutingFailure_spec p s :
  (forall p', routed_of p' (recordRoutingFailure p s) = routed_of p' s) /\
  (forall p', dropped_of p' (recordRoutingFailure p s) =
              dropped_of p' s + (if decide (p' = p) then 1 else 0)) /\
  messages_routed (recordRoutingFailure p s) = messages_routed s /\
  messages_dropped (recordRoutingFailure p s) = messages_dropped s + 1 /\
  routing_errors (recordRoutingFailure p s) = routing_errors s.
Proof. destruct s, p; split_and!; try done; intros []; simpl; lia. Qed.

Lemma over_priorities_bump (f g : Priority -> Z) p :
  (forall p', g p' = f p' + (if decide (p' = p) then 1 else 0)) ->
  over_priorities g = over_priorities f + 1.
Proof. intros Hg. unfold over_priorities. rewrite !Hg. destruct p; simpl; lia. Qed.

Lemma over_priorities_ext (f g : Priority -> Z) :
  (forall p, g p = f p) -> over_priorities g = over_priorities f.
Proof. intros Hg. unfold over_priorities. by rewrite !Hg. Qed.

Lemma addressed_one e p p' a :
  priority_of e a = Some p -> addressed e p' [Some a] = if decide (p' = p) then [a] else [].
Proof.
  intros Hp. unfold addressed. simpl. rewrite filter_cons, filter_nil, Hp.
  repeat case_decide; congruence.
Qed.

Lemma route_null s e : routed_exactly [None] s (count_routing_error s) e e.
Proof.
  assert (forall p, addressed e p [None] = []) as Ha by done.
  split; [done|..]; try (intros p; rewrite Ha, ?take_nil, ?drop_nil, ?app_nil_r); destruct s;
    unfold over_priorities; try (destruct p); simpl; lia || done.
Qed.

(** The counters after one message of priority [p], accepted or refused. *)
Lemma route_counted p a s s' e e' :
  priority_of e a = Some p -> same_messages e e' ->
  queued e' p = queued e p ++ take (room e p) [a] -> room e' p = pred (room e p) ->
  (forall p', p' <> p -> queued e' p' = queued e p' /\ room e' p' = room e p') ->
  (room e p <> O /\ (exists t, s' = recordRoutingSuccess p t s) \/
   room e p = O /\ s' = recordRoutingFailure p s) ->
  routed_exactly [Some a] s s' e e'.
Proof.
  intros Hp Hm Hq Hr Ho Hs.
  assert (forall p', addressed e p' [Some a] = if decide (p' = p) then [a] else []) as Ha
    by (intros; by apply addressed_one).
  assert (routing_errors s' = routing_errors s) as He
    by (destruct Hs as [[_ [t ->]]|[_ ->]]; [apply recordRoutingSuccess_spec|apply recordRoutingFailure_spec]).
  split; try done.
  - intros p'. rewrite Ha. case_decide as E; [by subst|]. rewrite take_nil, app_nil_r. by apply Ho.
  - intros p'. rewrite Ha. case_decide as E; [subst; simpl; lia|]. simpl. rewrite (proj2 (Ho p' E)). lia.
  - intros p'. rewrite Ha. destruct Hs as [[Hn [t ->]]|[Hn ->]].
    + rewrite (proj1 (recordRoutingSuccess_spec p t s)). case_decide as E; [subst|].
      * by rewrite take_ge by (simpl; lia).
      * by rewrite take_nil.
    + rewrite (proj1 (recordRoutingFailure_spec p s)). case_decide as E; [subst; rewrite Hn|];
        rewrite ?take_nil; simpl; lia.
  - intros p'. rewrite Ha. destruct Hs as [[Hn [t ->]]|[Hn ->]].
    + rewrite (proj1 (proj2 (recordRoutingSuccess_spec p t s))). case_decide as E; [subst|].
      * rewrite drop_ge by (simpl; lia). simpl. lia.
      * rewrite drop_nil. simpl. lia.
    + rewrite (proj1 (proj2 (recordRoutingFailure_spec p s))). case_decide as E; [subst; rewrite Hn|];
        rewrite ?drop_nil; simpl; lia.
  - rewrite He. simpl. lia.
  - destruct Hs as [[Hn [t ->]]|[Hn ->]].
    + destruct (recordRoutingSuccess_spec p t s) as (H1 & _ & -> & _).
      rewrite (over_priorities_bump (fun p => routed_of p s) _ p) by done. lia.
    + destruct (recordRoutingFailure_spec p s) as (H1 & _ & -> & _).
      by rewrite (over_priorities_ext (fun p => routed_of p s)) by done.
  - destruct Hs as [[Hn [t ->]]|[Hn ->]].
    + destruct (recordRoutingSuccess_spec p t s) as (_ & H1 & _ & -> & _).
      by rewrite (over_priorities_ext (fun p => dropped_of p s)) by done.
    + destruct (recordRoutingFailure_spec p s) as (_ & H1 & _ & -> & _).
      rewrite (over_priorities_bump (fun p => dropped_of p s) _ p) by done. lia.
  - rewrite He. destruct Hs as [[Hn [t ->]]|[Hn ->]]; simpl.
    + destruct (recordRoutingSuccess_spec p t s) as (_ & _ & -> & -> & _). lia.
    + destruct (recordRoutingFailure_spec p s) as (_ & _ & -> & -> & _). lia.
Qed.

Lemma route_one m r (e : Env Q) :
  env_wf e -> (forall a, m = Some a -> is_Some (deref (env_pool e) a)) ->
  exists r' e', routeMessage m (r, e) = (Ret tt, (r', e')) /\ env_wf e' /\
    running_ r' = running_ r /\
    env_pool e' = match m with
                  | Some a => update_object (fun m => snd (getMsgTypeEnum m)) a (env_pool e)
                  | None => env_pool e
                  end /\
    routed_exactly [m] (stats_ r) (stats_ r') e e'.
Proof.
  intros He Hm. destruct m as [a|].
  2: { eexists _, e. split; [done|]. split; [done|]. split; [done|]. split; [done|]. apply route_null. }
  destruct (Hm a eq_refl) as [msg Hd].
  set (e1 := mkEnv (update_object (fun m => snd (getMsgTypeEnum m)) a (env_pool e))
               (env_queues e) (S (env_ticks e))).
  set (p := type_priority (fst (getMsgTypeEnum msg))).
  assert (priority_of e a = Some p) as Hp by (unfold priority_of; by rewrite Hd).
  assert (env_wf e1) as He1 by (by destruct He).
  destruct (env_push_spec p a e1 He1) as (e2 & E & He2 & Hpool & Ht & Hq & Hr & Ho).
  assert (same_messages e e2) as Hs by (by apply (same_messages_cached e e2 a)).
  change (queued e1) with (queued e) in *. change (room e1) with (room e) in *.
  unfold routeMessage, getMessagePriority, tryRouteToQueue, bind, on_env, env_now, env_call.
  simpl. rewrite Hd. cbn -[bool_decide env_push]. fold p. fold e1. rewrite E.
  case_bool_decide as Hz; simpl.
  - eexists _, e2. split; [done|]. split; [done|]. split; [done|]. split; [done|].
    apply (route_counted p); try done. by right.
  - eexists _, _. split; [done|]. split; [by destruct He2|]. split; [done|]. split; [done|].
    apply (route_counted p); try done. left. split; [done|]. by eexists.
Qed.

(** Every pointer of [ms] denotes a live message. *)
Definition all_live (e : Env Q) (ms : list (option Z)) : Prop :=
  forall a, Some a ∈ ms -> is_Some (deref (env_pool e) a).

Lemma all_live_same e e' ms : same_messages e e' -> all_live e ms -> all_live e' ms.
Proof.
  intros Hs Hl a Ha. destruct (Hl a Ha) as [m Hm]. destruct (Hs a) as [Hf _].
  rewrite Hm in Hf. destruct (deref (env_pool e') a); [by eexists|done].
Qed.

Lemma route_loop_exact n ms i r (e : Env Q) :
  env_wf e -> (i + n <= length ms)%nat -> all_live e (take n (drop i ms)) ->
  exists r' e', route_loop ms i n (r, e) = (Ret tt, (r', e')) /\ env_wf e' /\
    running_ r' = running_ r /\
    routed_exactly (take n (drop i ms)) (stats_ r) (stats_ r') e e'.
Proof.
  revert i r e. induction n as [|n IH]; intros i r e He Hlen Hl.
  { exists r, e. rewrite take_0. split; [done|]. split; [done|]. split; [done|].
    assert (forall p, addressed e p [] = []) as Ha by done.
    split; [done|..]; intros; rewrite ?Ha, ?take_nil, ?drop_nil, ?app_nil_r; simpl;
      lia || done. }
  destruct (lookup_lt_is_Some_2 ms i ltac:(lia)) as [m Hm].
  rewrite (drop_S ms m i Hm) in *. cbn [take] in *.
  destruct (route_one m r e He) as (r1 & e1 & E1 & He1 & Hr1 & _ & Hx1).
  { intros a ->. apply Hl. by left. }
  destruct (IH (S i) r1 e1 He1) as (r2 & e2 & E2 & He2 & Hr2 & Hx2); [lia| |].
  { apply (all_live_same e); [apply Hx1|]. intros a Ha. apply Hl. by right. }
  exists r2, e2. cbn [route_loop]. rewrite Hm. unfold bind at 1. rewrite E1.
  split; [done|]. split; [done|]. split; [congruence|].
  by apply (routed_exactly_app [m] _ _ (stats_ r1) _ _ e1).
Qed.

(** C20: routing a batch of live (or null) messages always returns; the queue of every
    priority receives the messages of that priority, in order, as far as it has room;
    the rest of them, and nothing else, is dropped; routed, dropped and error counters,
    in total and per priority, account for every message exactly once; and no field of
    any message changes. *)
Theorem routing_exact ms count r (e : Env Q) :
  env_wf e -> (count <= length ms)%nat -> all_live e (take count ms) ->
  exists r' e', routeMessages (Some ms) count (r, e) = (Ret tt, (r', e')) /\ env_wf e' /\
    running_ r' = running_ r /\
    routed_exactly (take count ms) (stats_ r) (stats_ r') e e'.
Proof.
  intros He Hc Hl. destruct (route_loop_exact count ms 0 r e He) as (r' & e' & E & Hx);
    [lia|by rewrite drop_0|].
  rewrite drop_0 in Hx. exists r', e'. split; [|done].
  unfold routeMessages. case_decide as Hz; [|done]. by subst.
Qed.
End Routing.

(** ** An instance *)

Definition small_batch : list (option Z) := [Some 4096; None; Some 4096; Some 4160].

Lemma small_batch_live : all_live small_env (take 4 small_batch).
Proof.
  intros a Ha. apply list_elem_of_In in Ha. vm_compute in Ha.
  destruct Ha as [[= <-]|[[=]|[[= <-]|[[= <-]|[]]]]]; by eexists.
Qed.

(** The second execution report finds its queue full; the heartbeat is queued. *)
Lemma routing_exact_witness :
  exists r' e', routeMessages (fun _ => 0) (Some small_batch) 4 (newRouter, small_env)
                = (Ret tt, (r', e')) /\
    queued e' CRITICAL = [4096] /\ queued e' LOW = [4160] /\
    critical_dropped (stats_ r') = 1 /\ routing_errors (stats_ r') = 1.
Proof.
  destruct (routing_exact (fun _ => 0) small_batch 4 newRouter small_env small_env_wf)
    as (r' & e' & E & _ & _ & Hx); [simpl; lia|exact small_batch_live|].
  exists r', e'. split; [exact E|].
  pose proof (re_dropped _ _ _ _ _ Hx CRITICAL) as Hd. pose proof (re_errors _ _ _ _ _ Hx) as Hr.
  rewrite (re_queued _ _ _ _ _ Hx CRITICAL), (re_queued _ _ _ _ _ Hx LOW).
  cbn [dropped_of] in Hd. rewrite Hd, Hr.
  assert (addressed small_env CRITICAL (take 4 small_batch) = [4096; 4096]) as -> by (vm_compute; reflexivity).
  assert (addressed small_env LOW (take 4 small_batch) = [4160]) as -> by (vm_compute; reflexivity).
  split; [vm_compute; reflexivity|]. split; [vm_compute; reflexivity|]. split; reflexivity.
Defined.
