(* ===== verification/GapManager.v ===== *)
(** [SequenceNumGapManager] ([sequence_num_gap_manager.h/.cpp]): the queue of missing
    sequence numbers, resend requests with retries, and the session's outgoing sequence
    number.  Readings of the steady clock are in nanoseconds.  Log output is left out;
    [handleTimeout] only logs.

    The manager's thread and its callers are modelled as calls in sequence, on a gap
    queue that satisfies the queue interface; [GapInterleaving] interleaves them. *)
From S2P Require Import Prelude FixFields LockFreeQueue QueueInterface MessagePool FixMessage PriorityQueues MessageSending.

(** [struct GapQueueEntry] *)
Record GapQueueEntry := mkGap {
  seq_num : Z;
  timestamp : Z;
  timeout_deadline : Z;
  retry_count : Z;
  is_resolved : bool
}.

(** [struct SessionContext] *)
Record SessionContext := mkContext {
  sender_comp_id : bytes;
  target_comp_id : bytes;
  outgoing_seq_num : Z
}.

(** The configuration constants *)
Definition kGapQueueSize : Z := 1024.
Definition kGapTimeoutMs : Z := 10000.
Definition kMaxRetryCount : Z := 5.

(** The default constructor; the value of [seq_num] is indeterminate and never read. *)
Definition newGapEntry : GapQueueEntry := mkGap 0 0 0 0 false.

#[export] Instance gap_ring : FifoQueue GapQueueEntry (LockFreeQueue GapQueueEntry) :=
  ring_fifo newGapEntry.

(** The members of the class besides the shared environment. *)
Record GapManager (GQ : Type) := mkManager {
  is_running_ : bool;
  gap_queue_ : GQ;
  session_context_ : SessionContext
}.
Arguments mkManager {GQ}.
Arguments is_running_ {GQ}.
Arguments gap_queue_ {GQ}.
Arguments session_context_ {GQ}.

(** The constructor, with its dependencies. *)
Definition newGapManager (context : SessionContext) : GapManager (LockFreeQueue GapQueueEntry) :=
  mkManager false (newQueue newGapEntry kGapQueueSize (str "gap_queue")) context.

Section Manager.
Context {Q GQ : Type} `{FifoQueue Z Q} `{FifoQueue GapQueueEntry GQ}.
Variable clock : nat -> Z.

Definition G := M (GapManager GQ * Env Q).

Definition gap_push (entry : GapQueueEntry) : G bool :=
  fun s => let '(b, q) := q_push entry (gap_queue_ (fst s)) in
           (Ret b, (mkManager (is_running_ (fst s)) q (session_context_ (fst s)), snd s)).
Definition gap_pop : G (bool * GapQueueEntry) :=
  fun s => let '(b, x, q) := q_pop (gap_queue_ (fst s)) in
           (Ret (b, x), (mkManager (is_running_ (fst s)) q (session_context_ (fst s)), snd s)).
Definition gap_items (s : GapManager GQ * Env Q) : list GapQueueEntry :=
  q_items (gap_queue_ (fst s)).

(** [start], [stop]: the flag that the thread's loop reads.  The thread is joinable exactly
    while the flag is set, since only [stop] clears the flag and it joins the thread; to
    assign a new thread to one that is joinable calls [std::terminate]. *)
Definition start_gaps : G unit :=
  fun s =>
    let joinable := is_running_ (fst s) in
    let s := (mkManager true (gap_queue_ (fst s)) (session_context_ (fst s)), snd s) in
    if joinable then terminate s else (Ret tt, s).
Definition stop_gaps : G unit :=
  fun s => (Ret tt, (mkManager false (gap_queue_ (fst s)) (session_context_ (fst s)), snd s)).

(** Every loop over the queue gets one turn more than the queue has entries. *)
Definition gap_fuel : G nat := fun s => (Ret (S (length (gap_items s))), s).

(** [for (const auto &entry : entries) gap_queue_.push(entry);] *)
Fixpoint requeue (entries : list GapQueueEntry) : G unit :=
  match entries with
  | [] => ret tt
  | e :: r => gap_push e ;;; requeue r
  end.

(** [hasGap], its loop and the function *)
Fixpoint hasGap_loop (fuel : nat) (n : Z) (has_gap : bool) (temp : list GapQueueEntry)
    : G (bool * list GapQueueEntry) :=
  match fuel with
  | O => nofuel
  | S f =>
      popped <-- gap_pop ;;
      let '(ok, entry) := popped in
      if ok then
        hasGap_loop f n (if (seq_num entry =? n) && negb (is_resolved entry) then true else has_gap)
          (temp ++ [entry])
      else ret (has_gap, temp)
  end.
Definition hasGap (n : Z) : G bool :=
  fuel <-- gap_fuel ;;
  r <-- hasGap_loop fuel n false [] ;;
  requeue (snd r) ;;;
  ret (fst r).

(** [addGapEntry]; the constructor of the entry reads the clock. *)
Definition addGapEntry (n : Z) : G unit :=
  known <-- hasGap n ;;
  if known then ret tt
  else
    t <-- on_env (env_now clock) ;;
    gap_push (mkGap n t (t + kGapTimeoutMs * 1000000) 0 false) ;;;
    ret tt.

(** [resolveGapEntry] *)
Fixpoint resolve_loop (fuel : nat) (n : Z) (temp : list GapQueueEntry)
    : G (bool * list GapQueueEntry) :=
  match fuel with
  | O => nofuel
  | S f =>
      popped <-- gap_pop ;;
      let '(ok, entry) := popped in
      if ok then
        if (seq_num entry =? n) && negb (is_resolved entry) then ret (true, temp)
        else resolve_loop f n (temp ++ [entry])
      else ret (false, temp)
  end.
Definition resolveGapEntry (n : Z) : G bool :=
  fuel <-- gap_fuel ;;
  r <-- resolve_loop fuel n [] ;;
  requeue (snd r) ;;;
  ret (fst r).

Definition bump_retry (e : GapQueueEntry) : GapQueueEntry :=
  mkGap (seq_num e) (timestamp e) (timeout_deadline e) (wrap32 (retry_count e + 1)) (is_resolved e).

(** [escalateGapEntry] *)
Fixpoint escalate_loop (fuel : nat) (n : Z) : G unit :=
  match fuel with
  | O => nofuel
  | S f =>
      popped <-- gap_pop ;;
      let '(ok, entry) := popped in
      if negb ok then ret tt
      else if seq_num entry =? n then gap_push (bump_retry entry) ;;; ret tt
      else escalate_loop f n
  end.
Definition escalateGapEntry (n : Z) : G unit :=
  fuel <-- gap_fuel ;; escalate_loop fuel n.

(** [clearAllGaps], with an explicit bound for [while (!gap_queue_.empty())] *)
Fixpoint clear_loop (fuel : nat) : G unit :=
  fun s =>
    if q_empty (gap_queue_ (fst s)) then (Ret tt, s)
    else match fuel with
         | O => (NoFuel, s)
         | S f => bind gap_pop (fun _ => clear_loop f) s
         end.
Definition clearAllGaps : G unit := fuel <-- gap_fuel ;; clear_loop fuel.

(** [SessionContext::getNextSeqNum]: [fetch_add] on a 32-bit atomic *)
Definition getNextSeqNum : G Z :=
  fun s =>
    let c := session_context_ (fst s) in
    (Ret (outgoing_seq_num c),
     (mkManager (is_running_ (fst s)) (gap_queue_ (fst s))
        (mkContext (sender_comp_id c) (target_comp_id c) (wrap32 (outgoing_seq_num c + 1))),
      snd s)).
Definition get_context : G SessionContext := fun s => (Ret (session_context_ (fst s)), s).

(** [sendResendRequest] *)
Definition sendResendRequest (n : Z) : G unit :=
  msg <-- on_env (env_allocate clock) ;;
  match msg with
  | None => ret tt
  | Some msg =>
      let set_field f := on_env (env_update f msg) in
      try_catch
        (set_field (setField Tag.MsgType MsgTypes.ResendRequest) ;;;
         set_field (setFieldInt Tag.BeginSeqNo n) ;;;
         set_field (setFieldInt Tag.EndSeqNo n) ;;;
         c <-- get_context ;;
         set_field (setField Tag.SenderCompID (sender_comp_id c)) ;;;
         set_field (setField Tag.TargetCompID (target_comp_id c)) ;;;
         k <-- getNextSeqNum ;;
         set_field (setFieldInt Tag.MsgSeqNum k) ;;;
         t <-- on_env (env_now clock) ;;
         set_field (setSendingTime t) ;;;
         set_field updateLengthAndChecksum ;;;
         ok <-- on_env (env_push CRITICAL msg) ;;
         if ok then ret tt else on_env (env_deallocate msg))
        (on_env (env_deallocate msg))
  end.

(** [isTimeout] *)
Definition isTimeout (e : GapQueueEntry) : G bool :=
  t <-- on_env (env_now clock) ;; ret (timeout_deadline e <? t).

(** [handleTimeout]: reads the clock for its log line. *)
Definition handleTimeout (e : GapQueueEntry) : G unit :=
  on_env (env_now clock) ;;; ret tt.

(** [processGaps]: its loop and the function *)
Fixpoint process_loop (fuel : nat) (keep : list GapQueueEntry) : G (list GapQueueEntry) :=
  match fuel with
  | O => nofuel
  | S f =>
      popped <-- gap_pop ;;
      let '(ok, entry) := popped in
      if ok then
        if is_resolved entry then process_loop f keep
        else
          timed_out <-- isTimeout entry ;;
          if timed_out then
            if retry_count entry <? kMaxRetryCount then
              sendResendRequest (seq_num entry) ;;;
              t <-- on_env (env_now clock) ;;
              process_loop f (keep ++ [mkGap (seq_num entry) (timestamp entry)
                                         (t + kGapTimeoutMs * 1000000)
                                         (wrap32 (retry_count entry + 1)) (is_resolved entry)])
            else handleTimeout entry ;;; process_loop f keep
          else process_loop f (keep ++ [entry])
      else ret keep
  end.
Definition processGaps : G unit :=
  fuel <-- gap_fuel ;;
  keep <-- process_loop fuel [] ;;
  requeue keep.

(** ** The gap queue as a list *)

Definition state : Type := GapManager GQ * Env Q.
Definition gap_space (s : state) : nat := q_space (gap_queue_ (fst s)).
Definition gap_ok (s : state) : Prop :=
  q_wf (gap_queue_ (fst s)) /\ q_open (gap_queue_ (fst s)) = true.

(** Only the gap queue differs: it is well-formed, holds [l], and has the same number
    of slots. *)
Definition queue_becomes (l : list GapQueueEntry) (s s' : state) : Prop :=
  gap_ok s' /\ gap_items s' = l /\
  (gap_space s' + length (gap_items s') = gap_space s + length (gap_items s))%nat /\
  is_running_ (fst s') = is_running_ (fst s) /\
  session_context_ (fst s') = session_context_ (fst s) /\ snd s' = snd s.

Lemma queue_becomes_refl s : gap_ok s -> queue_becomes (gap_items s) s s.
Proof. by intros. Qed.

Lemma queue_becomes_trans l1 l2 s1 s2 s3 :
  queue_becomes l1 s1 s2 -> queue_becomes l2 s2 s3 -> queue_becomes l2 s1 s3.
Proof.
  intros (A1 & A2 & A3 & A4 & A5 & A6) (B1 & B2 & B3 & B4 & B5 & B6).
  split_and!; try done; congruence || lia.
Qed.

Lemma gap_pop_cons x r s :
  gap_ok s -> gap_items s = x :: r ->
  exists s', gap_pop s = (Ret (true, x), s') /\ queue_becomes r s s'.
Proof.
  intros [Hw Ho] Hi. destruct (q_pop_ok x r _ Hw Ho Hi) as (q' & E & Hw' & Ho' & Hi' & Hs').
  eexists. unfold gap_pop. rewrite E. split; [done|]. unfold gap_items, gap_space in *.
  unfold queue_becomes, gap_items, gap_space. simpl. rewrite Hi, Hi', Hs'. split_and!; try done.
  simpl. lia.
Qed.

Lemma gap_pop_nil s :
  gap_ok s -> gap_items s = [] -> exists x, gap_pop s = (Ret (false, x), s).
Proof.
  intros [Hw Ho] Hi. destruct (q_pop_empty _ Hw (or_intror Hi)) as [x E].
  exists x. unfold gap_pop. rewrite E. by destruct s as [[] ?].
Qed.

Lemma gap_push_any x s :
  gap_ok s ->
  exists b s', gap_push x s = (Ret b, s') /\
    queue_becomes (gap_items s ++ take (gap_space s) [x]) s s'.
Proof.
  intros [Hw Ho]. destruct (push_step x _ Hw) as (q' & E & Hw' & Ho' & Hi' & Hs').
  eexists _, _. unfold gap_push. rewrite E. split; [done|].
  unfold queue_becomes, gap_ok, gap_items, gap_space. simpl.
  assert (q_room (gap_queue_ (fst s)) = q_space (gap_queue_ (fst s))) as Hr
    by (unfold q_room; by rewrite Ho).
  assert (q_room q' = q_space q') as Hr' by (unfold q_room; by rewrite Ho', Ho).
  rewrite Hr in *. rewrite Hr' in Hs'. rewrite Hi', length_app, Ho', length_take, Hs'.
  split_and!; try done. simpl. lia.
Qed.

Lemma gap_push_room x s :
  gap_ok s -> gap_space s <> O ->
  exists b s', gap_push x s = (Ret b, s') /\ queue_becomes (gap_items s ++ [x]) s s'.
Proof.
  intros Ho Hs. destruct (gap_push_any x s Ho) as (b & s' & E & Hq).
  rewrite take_ge in Hq by (simpl; lia). eauto.
Qed.

Lemma requeue_all es s :
  gap_ok s -> (length es <= gap_space s)%nat ->
  exists s', requeue es s = (Ret tt, s') /\ queue_becomes (gap_items s ++ es) s s'.
Proof.
  revert s. induction es as [|x r IH]; intros s Ho Hs.
  { exists s. rewrite app_nil_r. split; [done|]. by apply queue_becomes_refl. }
  simpl in Hs. destruct (gap_push_room x s Ho) as (b & s1 & E & Hq); [lia|].
  pose proof Hq as (Ho1 & Hi1 & Hs1 & _). rewrite Hi1, length_app in Hs1. simpl in Hs1.
  destruct (IH s1 Ho1) as (s2 & E2 & Hq2); [lia|].
  exists s2. cbn [requeue]. rewrite (bind_ret _ _ _ _ _ E). split; [done|].
  rewrite Hi1 in Hq2. rewrite <- app_assoc in Hq2. by eapply queue_becomes_trans.
Qed.

(** ** Queries *)

Definition is_gap (n : Z) (e : GapQueueEntry) : bool := (seq_num e =? n) && negb (is_resolved e).

Lemma hasGap_loop_scan fuel n b temp s :
  gap_ok s -> (length (gap_items s) < fuel)%nat ->
  exists s', hasGap_loop fuel n b temp s
             = (Ret (b || existsb (is_gap n) (gap_items s), temp ++ gap_items s), s') /\
    queue_becomes [] s s'.
Proof.
  revert b temp s. induction fuel as [|f IH]; intros b temp s Ho Hf; [lia|].
  cbn [hasGap_loop]. destruct (gap_items s) as [|x r] eqn:Hi.
  - destruct (gap_pop_nil s Ho Hi) as [x E]. rewrite (bind_ret _ _ _ _ _ E).
    exists s. rewrite app_nil_r, orb_false_r. split; [done|]. rewrite <- Hi at 1.
    by apply queue_becomes_refl.
  - destruct (gap_pop_cons x r s Ho Hi) as (s1 & E & Hq). rewrite (bind_ret _ _ _ _ _ E).
    pose proof Hq as (Ho1 & Hi1 & _). simpl in Hf.
    destruct (IH (if (seq_num x =? n) && negb (is_resolved x) then true else b) (temp ++ [x]) s1 Ho1)
      as (s2 & E2 & Hq2); [rewrite Hi1; lia|].
    exists s2. split; [|by eapply queue_becomes_trans].
    rewrite E2, Hi1, <- app_assoc. cbn [existsb app]. do 3 f_equal. unfold is_gap.
    by destruct (_ && _), b.
Qed.

Lemma hasGap_scan n s :
  gap_ok s ->
  exists s', hasGap n s = (Ret (existsb (is_gap n) (gap_items s)), s') /\
    queue_becomes (gap_items s) s s'.
Proof.
  intros Ho. unfold hasGap. rewrite (bind_ret gap_fuel _ s _ s eq_refl).
  destruct (hasGap_loop_scan (S (length (gap_items s))) n false [] s Ho) as (s1 & E & Hq); [lia|].
  rewrite (bind_ret _ _ _ _ _ E). pose proof Hq as (Ho1 & Hi1 & Hs1 & _).
  rewrite Hi1 in Hs1. simpl in Hs1.
  destruct (requeue_all (gap_items s) s1 Ho1) as (s2 & E2 & Hq2); [lia|].
  cbn [snd app]. rewrite (bind_ret _ _ _ _ _ E2). exists s2. split; [done|].
  rewrite Hi1 in Hq2. by eapply queue_becomes_trans.
Qed.

(** ** Removal *)

Lemma resolve_loop_found fuel n temp l1 e l2 s :
  gap_ok s -> gap_items s = l1 ++ e :: l2 -> existsb (is_gap n) l1 = false ->
  is_gap n e = true -> (length l1 < fuel)%nat ->
  exists s', resolve_loop fuel n temp s = (Ret (true, temp ++ l1), s') /\ queue_becomes l2 s s'.
Proof.
  revert fuel temp s. induction l1 as [|x l1 IH]; intros [|f] temp s Ho Hi Hn He Hf;
    simpl in Hf; try lia; cbn [resolve_loop].
  - destruct (gap_pop_cons e l2 s Ho Hi) as (s1 & E & Hq). rewrite (bind_ret _ _ _ _ _ E).
    unfold is_gap in He. rewrite He, app_nil_r. by exists s1.
  - destruct (gap_pop_cons x (l1 ++ e :: l2) s Ho Hi) as (s1 & E & Hq).
    rewrite (bind_ret _ _ _ _ _ E). simpl in Hn. apply orb_false_iff in Hn as [Hx Hn].
    unfold is_gap in Hx. rewrite Hx. pose proof Hq as (Ho1 & Hi1 & _).
    destruct (IH f (temp ++ [x]) s1 Ho1 Hi1 Hn He) as (s2 & E2 & Hq2); [lia|].
    exists s2. rewrite E2, <- app_assoc. split; [done|]. by eapply queue_becomes_trans.
Qed.

Lemma resolve_loop_absent fuel n temp s :
  gap_ok s -> existsb (is_gap n) (gap_items s) = false -> (length (gap_items s) < fuel)%nat ->
  exists s', resolve_loop fuel n temp s = (Ret (false, temp ++ gap_items s), s') /\
    queue_becomes [] s s'.
Proof.
  revert temp s. induction fuel as [|f IH]; intros temp s Ho Hn Hf; [lia|].
  cbn [resolve_loop]. destruct (gap_items s) as [|x r] eqn:Hi.
  - destruct (gap_pop_nil s Ho Hi) as [x E]. rewrite (bind_ret _ _ _ _ _ E).
    exists s. rewrite app_nil_r. split; [done|]. rewrite <- Hi at 1. by apply queue_becomes_refl.
  - destruct (gap_pop_cons x r s Ho Hi) as (s1 & E & Hq). rewrite (bind_ret _ _ _ _ _ E).
    simpl in Hn, Hf. apply orb_false_iff in Hn as [Hx Hn]. unfold is_gap in Hx. rewrite Hx.
    pose proof Hq as (Ho1 & Hi1 & _).
    destruct (IH (temp ++ [x]) s1 Ho1) as (s2 & E2 & Hq2); [by rewrite Hi1|rewrite Hi1; lia|].
    exists s2. rewrite E2, Hi1, <- app_assoc. split; [done|]. by eapply queue_becomes_trans.
Qed.

(** The first unresolved entry for [n] leaves; the entries before it move to the back. *)
Lemma resolve_found n l1 e l2 s :
  gap_ok s -> gap_items s = l1 ++ e :: l2 -> existsb (is_gap n) l1 = false -> is_gap n e = true ->
  exists s', resolveGapEntry n s = (Ret true, s') /\ queue_becomes (l2 ++ l1) s s'.
Proof.
  intros Ho Hi Hn He. unfold resolveGapEntry. rewrite (bind_ret gap_fuel _ s _ s eq_refl).
  destruct (resolve_loop_found (S (length (gap_items s))) n [] l1 e l2 s Ho Hi Hn He)
    as (s1 & E & Hq); [rewrite Hi, length_app; simpl; lia|].
  rewrite (bind_ret _ _ _ _ _ E). pose proof Hq as (Ho1 & Hi1 & Hs1 & _).
  rewrite Hi1, Hi, length_app in Hs1. simpl in Hs1.
  destruct (requeue_all l1 s1 Ho1) as (s2 & E2 & Hq2); [lia|].
  cbn [snd app]. rewrite (bind_ret _ _ _ _ _ E2). exists s2. split; [done|].
  rewrite Hi1 in Hq2. by eapply queue_becomes_trans.
Qed.

Lemma resolve_absent n s :
  gap_ok s -> existsb (is_gap n) (gap_items s) = false ->
  exists s', resolveGapEntry n s = (Ret false, s') /\ queue_becomes (gap_items s) s s'.
Proof.
  intros Ho Hn. unfold resolveGapEntry. rewrite (bind_ret gap_fuel _ s _ s eq_refl).
  destruct (resolve_loop_absent (S (length (gap_items s))) n [] s Ho Hn) as (s1 & E & Hq); [lia|].
  rewrite (bind_ret _ _ _ _ _ E). pose proof Hq as (Ho1 & Hi1 & Hs1 & _).
  rewrite Hi1 in Hs1. simpl in Hs1.
  destruct (requeue_all (gap_items s) s1 Ho1) as (s2 & E2 & Hq2); [lia|].
  cbn [snd app]. rewrite (bind_ret _ _ _ _ _ E2). exists s2. split; [done|].
  rewrite Hi1 in Hq2. by eapply queue_becomes_trans.
Qed.

(** Escalation pops and forgets every entry in front of the one it looks for. *)
Lemma escalate_loop_run fuel n l1 rest s :
  gap_ok s -> gap_items s = l1 ++ rest -> Forall (fun e => seq_num e <> n) l1 ->
  (length l1 < fuel)%nat ->
  (rest = [] \/ exists e l2, rest = e :: l2 /\ seq_num e = n) ->
  exists s', escalate_loop fuel n s = (Ret tt, s') /\
    queue_becomes (match rest with [] => [] | e :: l2 => l2 ++ [bump_retry e] end) s s'.
Proof.
  revert fuel s. induction l1 as [|x l1 IH]; intros [|f] s Ho Hi Hn Hf Hr; simpl in Hf; try lia;
    cbn [escalate_loop].
  - destruct Hr as [->|(e & l2 & -> & He)].
    + destruct (gap_pop_nil s Ho Hi) as [x E]. rewrite (bind_ret _ _ _ _ _ E).
      exists s. split; [done|]. simpl in Hi. rewrite <- Hi at 1. by apply queue_becomes_refl.
    + destruct (gap_pop_cons e l2 s Ho Hi) as (s1 & E & Hq). rewrite (bind_ret _ _ _ _ _ E).
      simpl. rewrite (proj2 (Z.eqb_eq _ _) He). pose proof Hq as (Ho1 & Hi1 & Hs1 & _).
      simpl in Hi. rewrite Hi1, Hi in Hs1. simpl in Hs1.
      destruct (gap_push_room (bump_retry e) s1 Ho1) as (b & s2 & E2 & Hq2); [lia|].
      rewrite (bind_ret _ _ _ _ _ E2). exists s2. split; [done|].
      rewrite Hi1 in Hq2. by eapply queue_becomes_trans.
  - apply Forall_cons in Hn as [Hx Hn].
    destruct (gap_pop_cons x (l1 ++ rest) s Ho Hi) as (s1 & E & Hq).
    rewrite (bind_ret _ _ _ _ _ E). simpl. rewrite (proj2 (Z.eqb_neq _ _) Hx).
    pose proof Hq as (Ho1 & Hi1 & _).
    destruct (IH f s1 Ho1 Hi1 Hn ltac:(lia) Hr) as (s2 & E2 & Hq2).
    exists s2. split; [done|]. by eapply queue_becomes_trans.
Qed.

Lemma clear_loop_open fuel s :
  gap_ok s -> (length (gap_items s) <= fuel)%nat ->
  exists s', clear_loop fuel s = (Ret tt, s') /\ queue_becomes [] s s'.
Proof.
  revert s. induction fuel as [|f IH]; intros s Ho Hf; cbn [clear_loop];
    destruct (gap_items s) as [|x r] eqn:Hi.
  1,3: rewrite (proj2 (q_empty_ok _ (proj1 Ho)) Hi); exists s; split; [done|];
       rewrite <- Hi at 1; by apply queue_becomes_refl.
  { simpl in Hf. lia. }
  destruct (q_empty (gap_queue_ (fst s))) eqn:He.
  { apply (q_empty_ok _ (proj1 Ho)) in He. unfold gap_items in Hi. congruence. }
  destruct (gap_pop_cons x r s Ho Hi) as (s1 & E & Hq). rewrite (bind_ret _ _ _ _ _ E).
  pose proof Hq as (Ho1 & Hi1 & _). simpl in Hf.
  destruct (IH s1 Ho1) as (s2 & E2 & Hq2); [rewrite Hi1; lia|].
  exists s2. split; [done|]. by eapply queue_becomes_trans.
Qed.

(** A queue that was shut down with entries in it is never emptied. *)
Lemma clear_loop_closed fuel s :
  q_wf (gap_queue_ (fst s)) -> q_open (gap_queue_ (fst s)) = false -> gap_items s <> [] ->
  clear_loop fuel s = (NoFuel, s).
Proof.
  intros Hw Ho Hi. induction fuel as [|f IH]; cbn [clear_loop];
    destruct (q_empty (gap_queue_ (fst s))) eqn:He;
    try (by apply (q_empty_ok _ Hw) in He); [done|].
  destruct (q_pop_empty _ Hw (or_introl Ho)) as [x E].
  assert (gap_pop s = (Ret (false, x), s)) as Ep
    by (unfold gap_pop; rewrite E; by destruct s as [[] ?]).
  by rewrite (bind_ret _ _ _ _ _ Ep).
Qed.

(** ** The set of gaps *)

(** The entries are unresolved and stand for the set [gaps], one entry each. *)
Definition tracks (s : state) (gaps : gset Z) : Prop :=
  gap_ok s /\ Forall (fun e => is_resolved e = false) (gap_items s) /\
  NoDup (seq_num <$> gap_items s) /\ list_to_set (seq_num <$> gap_items s) = gaps.

Definition gap_capacity (s : state) : nat := (gap_space s + length (gap_items s))%nat.

Inductive gap_op := AddGap (n : Z) | ResolveGap (n : Z) | HasGap (n : Z).
Inductive gap_res := Done | Answer (b : bool).

Definition run_gap_op (o : gap_op) : G gap_res :=
  match o with
  | AddGap n => addGapEntry n ;;; ret Done
  | ResolveGap n => b <-- resolveGapEntry n ;; ret (Answer b)
  | HasGap n => b <-- hasGap n ;; ret (Answer b)
  end.
Fixpoint run_gap_ops (os : list gap_op) : G (list gap_res) :=
  match os with
  | [] => ret []
  | o :: os' => r <-- run_gap_op o ;; rs <-- run_gap_ops os' ;; ret (r :: rs)
  end.

(** The abstract operations: a set of at most [cap] numbers. *)
Definition spec_gap_op (cap : nat) (o : gap_op) (gaps : gset Z) : gap_res * gset Z :=
  match o with
  | AddGap n => (Done, if decide (base.size gaps < cap)%nat then {[n]} ∪ gaps else gaps)
  | ResolveGap n => (Answer (bool_decide (n ∈ gaps)), gaps ∖ {[n]})
  | HasGap n => (Answer (bool_decide (n ∈ gaps)), gaps)
  end.
Fixpoint spec_gap_ops (cap : nat) (os : list gap_op) (gaps : gset Z) : list gap_res * gset Z :=
  match os with
  | [] => ([], gaps)
  | o :: os' =>
      let '(r, g1) := spec_gap_op cap o gaps in
      let '(rs, g2) := spec_gap_ops cap os' g1 in (r :: rs, g2)
  end.

Lemma existsb_gap n (l : list GapQueueEntry) :
  Forall (fun e => is_resolved e = false) l ->
  existsb (is_gap n) l = bool_decide (n ∈ seq_num <$> l).
Proof.
  induction 1 as [|e l He Hl IH]; [done|]. simpl. rewrite IH. unfold is_gap. rewrite He, andb_true_r.
  apply Bool.eq_iff_eq_true. rewrite orb_true_iff, Z.eqb_eq, !bool_decide_eq_true.
  rewrite elem_of_cons. split; intros [?|?]; auto.
Qed.

Lemma tracks_member s gaps n :
  tracks s gaps -> existsb (is_gap n) (gap_items s) = bool_decide (n ∈ gaps).
Proof.
  intros (_ & Hu & _ & <-). rewrite existsb_gap by done. apply bool_decide_ext.
  by rewrite elem_of_list_to_set.
Qed.

Lemma tracks_size s gaps : tracks s gaps -> base.size gaps = length (gap_items s).
Proof. intros (_ & _ & Hn & <-). by rewrite size_list_to_set, length_fmap. Qed.

(** What a step keeps: capacity, outgoing numbers, pool and outbound queues. *)
Definition keeps (s s' : state) : Prop :=
  gap_capacity s' = gap_capacity s /\
  session_context_ (fst s') = session_context_ (fst s) /\
  env_pool (snd s') = env_pool (snd s) /\ env_queues (snd s') = env_queues (snd s).

Lemma queue_becomes_keeps l s s' : queue_becomes l s s' -> keeps s s'.
Proof. intros (_ & _ & H1 & _ & H2 & H3). unfold keeps, gap_capacity. by rewrite H1, H2, H3. Qed.

Lemma queue_becomes_tracks l s s' gaps :
  queue_becomes l s s' -> Forall (fun e => is_resolved e = false) l -> NoDup (seq_num <$> l) ->
  list_to_set (seq_num <$> l) = gaps -> tracks s' gaps.
Proof. intros (H1 & H2 & _) ???. unfold tracks. by rewrite H2. Qed.

Lemma add_refines n s gaps :
  tracks s gaps ->
  exists s', run_gap_op (AddGap n) s = (Ret Done, s') /\
    tracks s' (snd (spec_gap_op (gap_capacity s) (AddGap n) gaps)) /\ keeps s s'.
Proof.
  intros Ht. pose proof Ht as (Ho & Hu & Hn & Hg). pose proof (tracks_size s gaps Ht) as Hsz.
  destruct (hasGap_scan n s Ho) as (s1 & E1 & Hq1).
  unfold run_gap_op, addGapEntry. unfold bind at 1. rewrite (bind_ret _ _ _ _ _ E1).
  rewrite (tracks_member s gaps n Ht). case_bool_decide as Hin; simpl.
  - exists s1. split; [done|]. split; [|by eapply queue_becomes_keeps].
    eapply queue_becomes_tracks; [exact Hq1|done|done|]. rewrite Hg. case_decide; set_solver.
  - pose proof Hq1 as (Ho1 & Hi1 & Hs1 & Hr1 & Hc1 & He1).
    set (t := clock (env_ticks (snd s1))).
    set (s2 := (fst s1, mkEnv (env_pool (snd s1)) (env_queues (snd s1)) (S (env_ticks (snd s1))))).
    set (e := mkGap n t (t + 10000 * 1000000) 0 false).
    destruct (gap_push_any e s2 Ho1) as (b & s3 & E3 & Hq3).
    assert ((on_env (env_now clock) : G Z) s1 = (Ret t, s2)) as Et by done.
    rewrite (bind_ret _ _ _ _ _ Et), (bind_ret _ _ _ _ _ E3). exists s3. split; [done|].
    pose proof Hq3 as (Ho3 & Hi3 & Hs3 & _ & Hc3 & He3).
    change (gap_items s2) with (gap_items s1) in *. change (gap_space s2) with (gap_space s1) in *.
    rewrite Hi1 in *. assert (gap_space s1 = gap_space s) as Hsp by lia. rewrite Hsp in *.
    split.
    + eapply queue_becomes_tracks; [exact Hq3|..]; rewrite ?fmap_app, ?list_to_set_app_L.
      * apply Forall_app. split; [done|]. by apply Forall_take, Forall_singleton.
      * apply NoDup_app. rewrite fmap_take. split; [done|]. split.
        -- intros x Hx Hx'. apply elem_of_take in Hx' as (j & Hj & _). destruct j; [|done].
           injection Hj as <-. apply Hin. rewrite <- Hg. by apply elem_of_list_to_set.
        -- destruct (gap_space s); simpl; rewrite ?take_nil; [apply NoDup_nil_2|apply NoDup_singleton].
      * rewrite Hg. unfold gap_capacity. rewrite Hsz. case_decide as Hlt.
        -- rewrite take_ge by (simpl; lia). simpl. set_solver.
        -- replace (gap_space s) with O by lia. simpl. set_solver.
    + unfold keeps, gap_capacity. rewrite Hc3, He3, <- Hc1, <- He1. split_and!; done || lia.
Qed.

Lemma resolve_refines n s gaps :
  tracks s gaps ->
  exists s', run_gap_op (ResolveGap n) s = (Ret (Answer (bool_decide (n ∈ gaps))), s') /\
    tracks s' (gaps ∖ {[n]}) /\ keeps s s'.
Proof.
  intros Ht. pose proof Ht as (Ho & Hu & Hn & Hg). pose proof (tracks_member s gaps n Ht) as Hm.
  unfold run_gap_op. case_bool_decide as Hin.
  - rewrite <- Hg, elem_of_list_to_set, list_elem_of_fmap in Hin.
    destruct Hin as (e & -> & He). apply list_elem_of_split in He as (l1 & l2 & Hi).
    rewrite Hi in *. rewrite fmap_app, fmap_cons in Hn, Hg. rewrite Forall_app, Forall_cons in Hu.
    destruct Hu as (Hu1 & Hue & Hu2). apply NoDup_app in Hn as (Hn1 & Hn2 & Hn3).
    apply NoDup_cons in Hn3 as [Hn3 Hn4].
    assert (existsb (is_gap (seq_num e)) l1 = false) as Hl1.
    { rewrite existsb_gap by done. apply bool_decide_eq_false. intros Hx.
      apply (Hn2 _ Hx). by left. }
    destruct (resolve_found (seq_num e) l1 e l2 s Ho Hi Hl1) as (s1 & E & Hq).
    { unfold is_gap. by rewrite Z.eqb_refl, Hue. }
    rewrite (bind_ret _ _ _ _ _ E). exists s1. split; [done|].
    split; [|by eapply queue_becomes_keeps].
    eapply queue_becomes_tracks; [exact Hq|..]; rewrite ?fmap_app.
    + by apply Forall_app.
    + apply NoDup_app. split; [done|]. split; [|done]. intros x Hx Hx'. apply (Hn2 _ Hx'). by right.
    + rewrite <- Hg. apply set_eq. intros x.
      rewrite !list_to_set_app_L, list_to_set_cons, elem_of_difference, !elem_of_union,
        !elem_of_list_to_set, !elem_of_singleton.
      split; [|naive_solver]. intros [Hx|Hx]; (split; [naive_solver|]); intros ->; [done|].
      apply (Hn2 _ Hx). by left.
  - destruct (resolve_absent n s Ho Hm) as (s1 & E & Hq). rewrite (bind_ret _ _ _ _ _ E).
    exists s1. split; [done|]. split; [|by eapply queue_becomes_keeps].
    eapply queue_becomes_tracks; [exact Hq|done|done|]. rewrite Hg. set_solver.
Qed.

Lemma gap_op_refines o s gaps :
  tracks s gaps ->
  exists s', run_gap_op o s = (Ret (fst (spec_gap_op (gap_capacity s) o gaps)), s') /\
    tracks s' (snd (spec_gap_op (gap_capacity s) o gaps)) /\ keeps s s'.
Proof.
  intros Ht. destruct o as [n|n|n].
  - apply (add_refines n s gaps Ht).
  - apply (resolve_refines n s gaps Ht).
  - destruct (hasGap_scan n s (proj1 Ht)) as (s1 & E & Hq). exists s1.
    unfold run_gap_op. rewrite (bind_ret _ _ _ _ _ E), (tracks_member s gaps n Ht).
    split; [done|]. split; [|by eapply queue_becomes_keeps].
    destruct Ht as (? & ? & ? & ?). by eapply queue_becomes_tracks.
Qed.

(** C32: the gap queue implements a set of missing sequence numbers of bounded size:
    every sequence of [addGapEntry], [resolveGapEntry] and [hasGap] on it returns the
    answers of the set, ends in the queue of the resulting set with one entry per gap,
    and touches neither the outgoing sequence number, nor the pool, nor the outbound
    queues. *)
Theorem gap_queue_refines_set os s gaps :
  tracks s gaps ->
  exists s', run_gap_ops os s = (Ret (fst (spec_gap_ops (gap_capacity s) os gaps)), s') /\
    tracks s' (snd (spec_gap_ops (gap_capacity s) os gaps)) /\ keeps s s'.
Proof.
  revert s gaps. induction os as [|o os IH]; intros s gaps Ht.
  { by exists s. }
  destruct (gap_op_refines o s gaps Ht) as (s1 & E1 & Ht1 & Hk1).
  cbn [run_gap_ops spec_gap_ops]. rewrite (bind_ret _ _ _ _ _ E1).
  destruct (spec_gap_op (gap_capacity s) o gaps) as [r g1]; simpl in *.
  destruct (IH s1 g1 Ht1) as (s2 & E2 & Ht2 & Hk2). rewrite (bind_ret _ _ _ _ _ E2).
  rewrite (proj1 Hk1) in *. destruct (spec_gap_ops (gap_capacity s) os g1) as [rs g2]; simpl in *.
  exists s2. split; [done|]. split; [done|]. destruct Hk1 as (? & ? & ? & ?), Hk2 as (? & ? & ? & ?).
  split_and!; congruence.
Qed.

(** [escalateGapEntry] finds the entry of its number but loses every entry in front
    of it, and empties the queue when the number is not there; [clearAllGaps] empties an
    open queue, and on a queue that was shut down with entries in it, it never ends,
    however long it runs. *)
Lemma escalation_and_clearing s n l1 rest :
  q_wf (gap_queue_ (fst s)) -> gap_items s = l1 ++ rest ->
  Forall (fun e => seq_num e <> n) l1 ->
  (rest = [] \/ exists e l2, rest = e :: l2 /\ seq_num e = n) ->
  (q_open (gap_queue_ (fst s)) = true ->
   (exists s', escalateGapEntry n s = (Ret tt, s') /\
      gap_items s' = match rest with [] => [] | e :: l2 => l2 ++ [bump_retry e] end) /\
   (exists s', clearAllGaps s = (Ret tt, s') /\ gap_items s' = [])) /\
  (q_open (gap_queue_ (fst s)) = false -> gap_items s <> [] ->
   forall fuel, clear_loop fuel s = (NoFuel, s)).
Proof.
  intros Hw Hi Hn Hr. split.
  - intros Ho. split.
    + destruct (escalate_loop_run (S (length (gap_items s))) n l1 rest s (conj Hw Ho) Hi Hn)
        as (s' & E & Hq); [rewrite Hi, length_app; lia|done|].
      exists s'. split; [exact E|apply Hq].
    + destruct (clear_loop_open (S (length (gap_items s))) s (conj Hw Ho)) as (s' & E & Hq); [lia|].
      exists s'. split; [exact E|apply Hq].
  - intros Ho Hne fuel. by apply clear_loop_closed.
Qed.

(** ** Resend requests *)

Definition next_number (c : GapManager GQ) : GapManager GQ :=
  let x := session_context_ c in
  mkManager (is_running_ c) (gap_queue_ c)
    (mkContext (sender_comp_id x) (target_comp_id x) (wrap32 (outgoing_seq_num x + 1))).

(** The fields of a resend request for the one message [n], numbered [k], stamped at [t]. *)
Definition resend_fields (x : SessionContext) (n k t : Z) : gmap Z bytes :=
  <[Tag.MsgType := MsgTypes.ResendRequest]>
  (<[Tag.BeginSeqNo := int_to_string n]> (<[Tag.EndSeqNo := int_to_string n]>
  (<[Tag.SenderCompID := sender_comp_id x]> (<[Tag.TargetCompID := target_comp_id x]>
  (<[Tag.MsgSeqNum := int_to_string k]> (fields_ (setSendingTime t (with_fields ∅)))))))).

Inductive resend_outcome (n : Z) (c : GapManager GQ) (e : Env Q) : GapManager GQ -> Env Q -> Prop :=
  | resend_no_message e' :
      idle e e' -> pool_is_shutdown_ (env_pool e) = true \/ available (env_pool e) = 0 ->
      resend_outcome n c e c e'
  | resend_queue_full e' :
      idle e e' -> room e CRITICAL = O -> resend_outcome n c e (next_number c) e'
  | resend_sent a i m t e' :
      sent e CRITICAL a i m e' ->
      fields_ m = resend_fields (session_context_ c) n (outgoing_seq_num (session_context_ c)) t ->
      resend_outcome n c e (next_number c) e'.

Lemma resend_fields_built x n k t t0 :
  fields_ (updateLengthAndChecksum (setSendingTime t (setFieldInt Tag.MsgSeqNum k
    (setField Tag.TargetCompID (target_comp_id x) (setField Tag.SenderCompID (sender_comp_id x)
      (setFieldInt Tag.EndSeqNo n (setFieldInt Tag.BeginSeqNo n
        (setField Tag.MsgType MsgTypes.ResendRequest (newFixMessage t0)))))))))
  = resend_fields x n k t.
Proof.
  unfold resend_fields, updateLengthAndChecksum, invalidateCache, newFixMessage, setSendingTime, setField,
    setFieldInt, setFieldInternal, setField, with_fields. cbn [fields_].
  solve_fields.
Qed.

Lemma sendResendRequest_wp n c e :
  pool_wf (env_pool e) -> env_wf e ->
  wp (sendResendRequest n) (fun _ s' => resend_outcome n c e (fst s') (snd s')) (fun _ => False) (c, e).
Proof.
  intros Hp He. unfold sendResendRequest. apply wp_env_allocate; [done|done| |].
  2: { intros e' Hi Hc. apply wp_ret. by eapply resend_no_message. }
  intros a i e1 Hb. cbn zeta. apply wp_try.
  do 3 step_update.
  apply wp_bind. cbn [get_context wp].
  do 2 step_update.
  apply wp_bind. cbn [getNextSeqNum wp]. cbn [fst snd].
  step_update. step_now. do 2 step_update.
  eapply wp_env_push; [eassumption| |].
  - intros _ e'' Hs. apply wp_ret. eapply resend_sent; [exact Hs|]. apply resend_fields_built.
  - intros Hr e'' Hs. eapply wp_env_deallocate; [exact Hs|]. intros e3 Hi.
    by apply resend_queue_full.
Qed.

(** ** Processing the gaps *)

(** What one pass makes of the entries, asking for the numbers [k] in order. *)
Inductive kept : list GapQueueEntry -> list GapQueueEntry -> list Z -> Prop :=
  | kept_nil : kept [] [] []
  | kept_resolved e l l' k : is_resolved e = true -> kept l l' k -> kept (e :: l) l' k
  | kept_waiting e l l' k i :
      is_resolved e = false -> clock i <= timeout_deadline e ->
      kept l l' k -> kept (e :: l) (e :: l') k
  | kept_retried e l l' k i j :
      is_resolved e = false -> timeout_deadline e < clock i -> retry_count e < kMaxRetryCount ->
      kept l l' k ->
      kept (e :: l) (mkGap (seq_num e) (timestamp e) (clock j + kGapTimeoutMs * 1000000)
                       (wrap32 (retry_count e + 1)) false :: l') (seq_num e :: k)
  | kept_given_up e l l' k i :
      is_resolved e = false -> timeout_deadline e < clock i -> kMaxRetryCount <= retry_count e ->
      kept l l' k -> kept (e :: l) l' k.

(** The message at [a] is a resend request for the number [n]. *)
Definition asks (p : FixMessagePool) (n a : Z) : Prop :=
  exists m, deref p a = Some m /\ fields_ m !! Tag.MsgType = Some MsgTypes.ResendRequest /\
    fields_ m !! Tag.BeginSeqNo = Some (int_to_string n) /\
    fields_ m !! Tag.EndSeqNo = Some (int_to_string n).

(** Requests for the numbers [k] were made: each used up one outgoing number at most, those
    that found a message and room are in order at the back of the critical queue, each
    asking for its number, and every message taken from the pool is queued. *)
Definition requests (k : list Z) (s s' : state) : Prop :=
  exists j ns addrs, (length addrs <= j <= length k)%nat /\ ns `sublist_of` k /\
    Forall2 (asks (env_pool (snd s'))) ns addrs /\
    (forall b m, deref (env_pool (snd s)) b = Some m -> deref (env_pool (snd s')) b = Some m) /\
    session_context_ (fst s') = session_context_ (Nat.iter j next_number (fst s)) /\
    pool_wf (env_pool (snd s')) /\ env_wf (snd s') /\
    queued (snd s') CRITICAL = queued (snd s) CRITICAL ++ addrs /\
    (forall p, p <> CRITICAL -> queued (snd s') p = queued (snd s) p) /\
    base.size (live_set (env_pool (snd s'))) =
      (base.size (live_set (env_pool (snd s))) + length addrs)%nat.

Lemma requests_none s s' :
  session_context_ (fst s') = session_context_ (fst s) ->
  env_pool (snd s') = env_pool (snd s) -> env_queues (snd s') = env_queues (snd s) ->
  pool_wf (env_pool (snd s)) -> env_wf (snd s) -> requests [] s s'.
Proof.
  intros H1 H2 H3 Hp [He1 He2]. exists O, [], []. unfold queued. rewrite H2, H3, app_nil_r.
  split_and!; try done; simpl; try lia. split; by rewrite H3.
Qed.

Lemma context_of_next c c' :
  session_context_ c = session_context_ c' ->
  session_context_ (next_number c) = session_context_ (next_number c').
Proof. unfold next_number. simpl. by intros ->. Qed.

Lemma context_of_iter j c c' :
  session_context_ c = session_context_ c' ->
  session_context_ (Nat.iter j next_number c) = session_context_ (Nat.iter j next_number c').
Proof. intros E. induction j as [|j IH]; [done|]. simpl. by apply context_of_next. Qed.

Lemma requests_trans k1 k2 s1 s2 s3 :
  requests k1 s1 s2 -> requests k2 s2 s3 -> requests (k1 ++ k2) s1 s3.
Proof.
  intros (j1 & n1 & a1 & A1 & A2 & A3 & A4 & A5 & A6 & A7 & A8 & A9 & A10)
    (j2 & n2 & a2 & B1 & B2 & B3 & B4 & B5 & B6 & B7 & B8 & B9 & B10).
  exists (j2 + j1)%nat, (n1 ++ n2), (a1 ++ a2). rewrite B8, A8, B10, A10, app_assoc, !length_app.
  split_and!; try done; try lia.
  - by apply sublist_app.
  - apply Forall2_app; [|done]. eapply Forall2_impl; [exact A3|].
    intros n a (m & Hm & Hf). exists m. split; [by apply B4|done].
  - auto.
  - rewrite B5, (context_of_iter j2 _ _ A5). by rewrite Nat.iter_add.
  - intros p Hp. by rewrite B9, A9.
Qed.

Lemma requests_idle k j c e c' e' :
  idle e e' -> (j <= length k)%nat -> session_context_ c' = session_context_ (Nat.iter j next_number c) ->
  requests k (c, e) (c', e').
Proof.
  intros [Hs [He Hq]] Hj Hc. exists j, [], []. pose proof (same_objects_live _ _ Hs) as Hl.
  simpl. rewrite Hl, app_nil_r. split_and!; try done; try lia.
  - apply sublist_nil_l.
  - intros b m Hm. by rewrite (same_objects_deref _ _ b Hs).
  - apply Hs.
  - apply Hq.
  - intros p _; apply Hq.
Qed.

Lemma requests_resend n c e c' e' :
  pool_wf (env_pool e) -> resend_outcome n c e c' e' -> requests [n] (c, e) (c', e').
Proof.
  intros Hp Ho. destruct Ho as [e' Hi _|e' Hi _|a i m t e' (Hb & He & Hq & _ & Ho) Hf].
  - by apply (requests_idle _ 0); [|simpl; lia|].
  - by apply (requests_idle _ 1); [|simpl; lia|].
  - exists 1%nat, [n], [a]. simpl. split_and!; try done; try lia.
    + apply Forall2_cons. split; [|done]. exists m. split; [by eapply built_deref|]. rewrite Hf.
      unfold resend_fields. split_and!; by simplify_map_eq.
    + intros b o. eapply built_other; [exact Hb|apply Hp].
    + apply Hb.
    + by apply Ho.
    + rewrite (built_live _ _ _ _ _ Hb), size_union, size_singleton; [lia|].
      apply disjoint_singleton_l. rewrite elem_of_live_set. intros [o Hi].
      rewrite (built_free _ _ _ _ _ Hb) in Hi. congruence.
Qed.

Lemma resend_outcome_queue n c e c' e' :
  resend_outcome n c e c' e' -> gap_queue_ c' = gap_queue_ c /\ is_running_ c' = is_running_ c.
Proof. by intros []. Qed.

Lemma wp_env_now' (Post : Z -> state -> Prop) E s :
  Post (clock (env_ticks (snd s)))
    (fst s, mkEnv (env_pool (snd s)) (env_queues (snd s)) (S (env_ticks (snd s)))) ->
  wp (on_env (env_now clock)) Post E s.
Proof. done. Qed.

Definition loop_post (s : state) (keep out : list GapQueueEntry) (s' : state) : Prop :=
  exists l' k, out = keep ++ l' /\ kept (gap_items s) l' k /\ gap_ok s' /\ gap_items s' = [] /\
    gap_space s' = (gap_space s + length (gap_items s))%nat /\ requests k s s'.

Lemma loop_post_cons x r s s2 keep keep' k0 out s' :
  gap_items s = x :: r -> gap_items s2 = r -> gap_space s2 = S (gap_space s) ->
  requests k0 s s2 ->
  (forall l' k, kept r l' k -> exists l'', keep' ++ l' = keep ++ l'' /\ kept (x :: r) l'' (k0 ++ k)) ->
  loop_post s2 keep' out s' -> loop_post s keep out s'.
Proof.
  intros Hi Hi2 Hs Hr Hk (l' & k & -> & Hl & Ho & Hn & Hsp & Hq). rewrite Hi2 in *.
  destruct (Hk l' k Hl) as (l'' & E & Hl'). exists l'', (k0 ++ k). rewrite Hi.
  split_and!; try done; [rewrite Hsp, Hs; simpl; lia|]. by eapply requests_trans.
Qed.

Definition ready (s : state) : Prop :=
  gap_ok s /\ pool_wf (env_pool (snd s)) /\ env_wf (snd s).

(** Reading the clock changes no part of the state but the number of readings. *)
Definition ticked (s : state) : state :=
  (fst s, mkEnv (env_pool (snd s)) (env_queues (snd s)) (S (env_ticks (snd s)))).

Lemma ready_ticked s : ready s -> ready (ticked s).
Proof. intros (H1 & H2 & [H3 H4]). by split_and!. Qed.

Lemma requests_ticked k s s' : requests k s s' -> requests k s (ticked s').
Proof.
  intros (j & ns & addrs & H1 & H2 & H3 & H4 & H5 & H6 & [H7 H7'] & H8). exists j, ns, addrs.
  do 6 (split; [done|]). split; [by split|exact H8].
Qed.

Lemma pop_ready x r s :
  ready s -> gap_items s = x :: r ->
  exists s1, gap_pop s = (Ret (true, x), s1) /\ ready s1 /\ gap_items s1 = r /\
    gap_space s1 = S (gap_space s) /\ requests [] s s1.
Proof.
  intros (Ho & Hp & He) Hi. destruct (gap_pop_cons x r s Ho Hi) as (s1 & E & Hq).
  destruct Hq as (H1 & H2 & H3 & H4 & H5 & H6). exists s1.
  rewrite H2, Hi in H3. simpl in H3.
  split_and!; try done; try lia; [split_and!; by rewrite ?H6|].
  apply requests_none; by rewrite ?H6.
Qed.

Lemma process_loop_wp fuel keep s :
  ready s -> (length (gap_items s) < fuel)%nat ->
  wp (process_loop fuel keep) (loop_post s keep) (fun _ => False) s.
Proof.
  revert keep s. induction fuel as [|f IH]; intros keep s Hr Hf; [lia|].
  cbn [process_loop]. apply wp_bind. destruct (gap_items s) as [|x r] eqn:Hi.
  { destruct Hr as (Ho & Hp & He). destruct (gap_pop_nil s Ho Hi) as [y E].
    unfold wp at 1. rewrite E. apply wp_ret. exists [], []. rewrite app_nil_r, Hi.
    split_and!; first [done | apply kept_nil | simpl; lia | by apply requests_none]. }
  destruct (pop_ready x r s Hr Hi) as (s1 & E & Hr1 & Hi1 & Hs1 & Hq1).
  unfold wp at 1. rewrite E. simpl in Hf.
  assert (length (gap_items s1) < f)%nat as Hlt by (rewrite Hi1; lia).
  destruct (is_resolved x) eqn:Hres.
  { eapply wp_mono; [by apply IH| |done]. intros out s'.
    eapply (loop_post_cons x r s s1 keep keep []); try done.
    intros l' k Hl. exists l'. split; [done|]. by apply kept_resolved. }
  unfold isTimeout. apply wp_bind, wp_bind, wp_env_now', wp_ret.
  destruct (Z.ltb_spec (timeout_deadline x) (clock (env_ticks (snd s1)))) as [Ht|Ht].
  2: { fold (ticked s1). eapply wp_mono; [apply IH; [by apply ready_ticked|exact Hlt]| |done].
    intros out s'. eapply (loop_post_cons x r s (ticked s1) keep (keep ++ [x]) []); try done;
      [by apply requests_ticked|].
    intros l' k Hl. exists (x :: l'). rewrite <- app_assoc. split; [done|]. by eapply kept_waiting. }
  destruct (Z.ltb_spec (retry_count x) kMaxRetryCount) as [Hk|Hk].
  - apply wp_bind. fold (ticked s1). pose proof (ready_ticked s1 Hr1) as Hrt.
    eapply wp_mono; [apply (sendResendRequest_wp (seq_num x) (fst (ticked s1)) (snd (ticked s1))); apply Hrt| |done].
    intros [] s2 Ho. cbn beta in Ho. destruct (resend_outcome_queue _ _ _ _ _ Ho) as [Hg _].
    apply requests_resend in Ho; [|apply Hr1].
    assert (requests [seq_num x] s s2) as Hq2 by (apply (requests_trans [] [seq_num x] s (ticked s1)); [by apply requests_ticked|by destruct s2]).
    assert (ready (ticked s2)) as Hr2.
    { apply ready_ticked. destruct Hq2 as (j & ns & addrs & _ & _ & _ & _ & _ & H1 & H2 & _). split_and!; try done.
      unfold gap_ok. rewrite Hg. apply Hr1. }
    assert (gap_items (ticked s2) = r) as Hi2 by (rewrite <- Hi1; unfold gap_items; simpl; by rewrite Hg).
    apply wp_bind, wp_env_now'. fold (ticked s2).
    eapply wp_mono; [apply IH; [done|rewrite Hi2; lia]| |done]. intros out s'.
    eapply (loop_post_cons x r s (ticked s2) keep _ [seq_num x]); try done;
      [unfold gap_space; simpl; by rewrite Hg|by apply requests_ticked|].
    intros l' k Hl. eexists (_ :: l'). rewrite <- app_assoc. split; [done|]. by eapply kept_retried.
  - apply wp_bind. unfold handleTimeout. apply wp_bind, wp_env_now', wp_ret.
    fold (ticked s1). fold (ticked (ticked s1)).
    eapply wp_mono; [apply IH; [by apply ready_ticked, ready_ticked|exact Hlt]| |done].
    intros out s'. eapply (loop_post_cons x r s (ticked (ticked s1)) keep keep []); try done;
      [by apply requests_ticked, requests_ticked|].
    intros l' k Hl. exists l'. split; [done|]. by eapply kept_given_up.
Qed.

(** Retries left over the entries for the number [n]; every request for it uses up one. *)
Fixpoint budget (n : Z) (l : list GapQueueEntry) : Z :=
  match l with
  | [] => 0
  | e :: l => (if seq_num e =? n then kMaxRetryCount - retry_count e else 0) + budget n l
  end.
Definition retries_ok (l : list GapQueueEntry) : Prop :=
  Forall (fun e => 0 <= retry_count e <= kMaxRetryCount) l.

(** How often [n] occurs *)
Fixpoint times (n : Z) (l : list Z) : Z :=
  match l with [] => 0 | x :: l => (if x =? n then 1 else 0) + times n l end.

Lemma times_app n l1 l2 : times n (l1 ++ l2) = times n l1 + times n l2.
Proof. induction l1 as [|x l1 IH]; simpl; lia. Qed.

Lemma kept_length l l' k : kept l l' k -> (length l' <= length l)%nat.
Proof. induction 1; simpl; lia. Qed.

Lemma kept_budget n l l' k :
  kept l l' k -> retries_ok l -> retries_ok l' /\ times n k + budget n l' <= budget n l.
Proof.
  unfold retries_ok, kMaxRetryCount.
  induction 1 as [|e l l' k _ _ IH|e l l' k i _ _ _ IH|e l l' k i j _ _ Hlt _ IH|e l l' k i _ _ _ _ IH];
    intros Hok; [done|..];
    apply Forall_cons in Hok as [He Hok]; destruct (IH Hok) as [H1 H2];
    unfold kMaxRetryCount in *; simpl; unfold kMaxRetryCount; destruct (seq_num e =? n);
    split; try (apply Forall_cons; split); try done; simpl;
    rewrite ?wrap32_id by (unfold int32_range; lia); lia.
Qed.

Lemma kept_numbers l l' k : kept l l' k -> (seq_num <$> l') `sublist_of` (seq_num <$> l).
Proof. induction 1; simpl; by constructor. Qed.

Lemma budget_bound n l : retries_ok l -> 0 <= budget n l <= 5 * times n (seq_num <$> l).
Proof.
  induction 1 as [|e l He Hl IH]; [done|]. rewrite fmap_cons. cbn [budget times].
  unfold kMaxRetryCount in *. destruct (seq_num e =? n); lia.
Qed.

Lemma processGaps_run s :
  ready s ->
  exists s' k, processGaps s = (Ret tt, s') /\ ready s' /\ kept (gap_items s) (gap_items s') k /\
    gap_capacity s' = gap_capacity s /\ requests k s s'.
Proof.
  intros Hr.
  destruct (proj1 (wp_run _ _ _) (process_loop_wp (S (length (gap_items s))) [] s Hr ltac:(lia)))
    as (out & s1 & E & l' & k & -> & Hl & Ho & Hi & Hs & Hq).
  pose proof (kept_length _ _ _ Hl) as Hlen.
  destruct (requeue_all l' s1 Ho) as (s2 & E2 & (A1 & A2 & A3 & A4 & A5 & A6)); [lia|].
  rewrite Hi in A2, A3. simpl in A2, A3. exists s2, k. rewrite A2.
  unfold processGaps. rewrite (bind_ret gap_fuel _ s _ s eq_refl), (bind_ret _ _ _ _ _ E).
  destruct Hq as (j & ns & addrs & B1 & B2 & B3 & B4 & B5 & B6 & B7 & B8).
  split; [exact E2|]. split; [split; [done|split; by rewrite A6]|]. split; [done|].
  split; [unfold gap_capacity; lia|].
  exists j, ns, addrs. by rewrite A5, A6.
Qed.

(** [loop]: the passes of the manager's thread while it runs. *)
Fixpoint process_rounds (n : nat) : G unit :=
  match n with O => ret tt | S n' => processGaps ;;; process_rounds n' end.

(** [sendResendRequest] always returns, and does one of three things: without a free
    message in the pool nothing happens; with the critical queue full it takes the next
    outgoing sequence number, gives the message back and sends nothing; otherwise the
    message is at the back of the critical queue, live, with exactly the fields of a resend
    request for [n], and every other object of the pool is as before. *)
Lemma resend_request_exact n c e :
  pool_wf (env_pool e) -> env_wf e ->
  exists c' e', sendResendRequest n (c, e) = (Ret tt, (c', e')) /\ resend_outcome n c e c' e'.
Proof.
  intros Hp He. destruct (proj1 (wp_run _ _ _) (sendResendRequest_wp n c e Hp He)) as ([] & [c' e'] & E & Ho).
  by exists c', e'.
Qed.

(** One pass of [processGaps] always returns; it keeps the entries in order, drops
    exactly the resolved and the given-up ones, asks again for each expired entry with
    retries left, and every message it takes from the pool is at the back of the critical
    queue. *)
Lemma process_gaps_exact s :
  ready s ->
  exists s' k, processGaps s = (Ret tt, s') /\ ready s' /\
    kept (gap_items s) (gap_items s') k /\ requests k s s'.
Proof. intros Hr. destruct (processGaps_run s Hr) as (s' & k & ? & ? & ? & _ & ?). by exists s', k. Qed.

(** C33: however many passes the manager's loop makes, it returns from each, no gap
    appears or changes its number, the messages it queues are resend requests that ask, in
    order, for numbers it took up, and for each number it asks at most five times per entry
    of that number in the queue (one entry, when the gaps were added by [addGapEntry]). *)
Theorem resend_bounded n s :
  ready s -> retries_ok (gap_items s) ->
  exists s' asked, process_rounds n s = (Ret tt, s') /\ requests asked s s' /\
    (seq_num <$> gap_items s') `sublist_of` (seq_num <$> gap_items s) /\
    forall x, times x asked <= 5 * times x (seq_num <$> gap_items s).
Proof.
  intros Hr Hok.
  cut (exists s' asked, process_rounds n s = (Ret tt, s') /\ requests asked s s' /\
    (seq_num <$> gap_items s') `sublist_of` (seq_num <$> gap_items s) /\
    forall x, times x asked <= budget x (gap_items s)).
  { intros (s' & k & ? & ? & ? & Hk). exists s', k. split_and!; try done. intros x.
    pose proof (budget_bound x _ Hok). specialize (Hk x). lia. }
  revert s Hr Hok. induction n as [|n IH]; intros s Hr Hok.
  - exists s, []. split_and!; try done; [apply requests_none; try done; apply Hr|].
    intros x. simpl. apply (budget_bound x _ Hok).
  - destruct (processGaps_run s Hr) as (s1 & k1 & E1 & Hr1 & Hk1 & _ & Hq1).
    destruct (IH s1 Hr1 (proj1 (kept_budget 0 _ _ _ Hk1 Hok))) as (s2 & k2 & E2 & Hq2 & Hs2 & Hb2).
    exists s2, (k1 ++ k2). cbn [process_rounds]. rewrite (bind_ret _ _ _ _ _ E1).
    split; [done|]. split; [by eapply requests_trans|].
    split; [etrans; [exact Hs2|]; by eapply kept_numbers|].
    intros x. rewrite times_app. destruct (kept_budget x _ _ _ Hk1 Hok) as [_ Hb]. specialize (Hb2 x). lia.
Qed.
End Manager.

(** ** Instances *)

(** Three gaps in a queue that holds three, the first two past their deadline. *)
Definition sample_gaps : LockFreeQueue GapQueueEntry :=
  {| head_ := 0; tail_ := 3; capacity_ := 4; mask_ := 3;
     messages_ := [mkGap 5 0 10 0 false; mkGap 7 0 10 5 false; mkGap 9 0 99 1 false; newGapEntry];
     push_count_ := 3; pop_count_ := 0; drop_count_ := 0; queue_name_ := [];
     is_shutdown_ := false |}.
Definition sample_context : SessionContext := mkContext (str "GATEWAY") (str "BROKER") 1.
Definition sample_state (q : LockFreeQueue GapQueueEntry)
    : GapManager (LockFreeQueue GapQueueEntry) * Env (LockFreeQueue Z) :=
  (mkManager true q sample_context, small_env).

Lemma sample_gaps_wf : wf sample_gaps.
Proof. split; simpl; try lia; try done. by exists 2. Qed.

Lemma sample_gaps_ready : ready (sample_state sample_gaps).
Proof.
  split; [split; [exact sample_gaps_wf|done]|]. split; [exact small_env_pool_wf|exact small_env_wf].
Qed.

Lemma gap_queue_refines_set_witness :
  let start := sample_state (newQueue newGapEntry 4 []) in
  exists s', run_gap_ops (fun _ => 0)
      [AddGap 5; AddGap 7; AddGap 5; HasGap 7; ResolveGap 5; HasGap 5; ResolveGap 5] start
    = (Ret [Done; Done; Done; Answer true; Answer true; Answer false; Answer false], s').
Proof.
  destruct (gap_queue_refines_set (fun _ => 0)
    [AddGap 5; AddGap 7; AddGap 5; HasGap 7; ResolveGap 5; HasGap 5; ResolveGap 5]
    (sample_state (newQueue newGapEntry 4 [])) ∅) as (s' & E & _).
  - split; [split; [apply newQueue_wf; lia|done]|]. split; [constructor|]. split; [constructor|done].
  - exists s'. rewrite E. f_equal.
Defined.

(** Escalating number 7 loses the entry of number 5. *)
Lemma escalation_and_clearing_witness :
  exists s', escalateGapEntry 7 (sample_state sample_gaps) = (Ret tt, s') /\
    seq_num <$> gap_items s' = [9; 7].
Proof.
  destruct (escalation_and_clearing (sample_state sample_gaps) 7 [mkGap 5 0 10 0 false]
    [mkGap 7 0 10 5 false; mkGap 9 0 99 1 false] (proj1 (proj1 sample_gaps_ready))) as [Ho _].
  - by vm_compute.
  - constructor; [done|constructor].
  - right. by eexists _, _.
  - destruct (Ho eq_refl) as [(s' & E & Hi) _]. exists s'. split; [exact E|]. rewrite Hi. by vm_compute.
Defined.

Lemma resend_bounded_witness :
  exists s' k, process_rounds (fun i => 50 + 20000000000 * Z.of_nat i) 9 (sample_state sample_gaps)
               = (Ret tt, s') /\ requests k (sample_state sample_gaps) s' /\ times 5 k <= 5.
Proof.
  destruct (resend_bounded (fun i => 50 + 20000000000 * Z.of_nat i) 9 _ sample_gaps_ready)
    as (s' & k & E & Hq & _ & Hk).
  - vm_compute. repeat constructor; discriminate.
  - exists s', k. split; [exact E|]. split; [exact Hq|]. exact (Hk 5).
Defined.
