(* ===== verification/GapInterleaving.v ===== *)
(** [SequenceNumGapManager] with its thread: the gap thread runs [processGaps] while the
    session thread calls [addGapEntry], [hasGap] and [resolveGapEntry], and each of these
    takes the whole gap queue apart and puts it together again, without a lock.

    Calls are interleaved at every access to the ring buffer of the gap queue, as in
    [QueueInterleaving]: a step is one access of a [tryPop] or a [push], together with what
    the call does before its next access.  A call that runs alone is the sequential
    operation of [GapManager]; two calls at a time break the ring, which is made for one
    producer and one consumer, and lose gaps. *)
From S2P Require Import Prelude FixFields LockFreeQueue QueueInterleaving QueueInterface MessagePool FixMessage PriorityQueues MessageSending GapManager.

Inductive gap_call := CallProcess | CallOp (o : gap_op).

Abbreviation ring := (LockFreeQueue GapQueueEntry).

(** Where a call stands: inside a [tryPop] ([got] is what it has read), inside the [push] of
    an entry it puts back or of the entry it adds, or returned.  [answer] is the local flag
    ([has_gap], [is_resolved]), [held] the rest of the local vector. *)
Inductive task :=
  | Popping (c : gap_call) (answer : bool) (held : list GapQueueEntry) (p : pop_pc GapQueueEntry)
      (got : option GapQueueEntry)
  | Pushing (c : gap_call) (answer : bool) (held : list GapQueueEntry) (p : push_pc GapQueueEntry)
  | Adding (n : Z) (p : push_pc GapQueueEntry)
  | Returned (c : gap_call) (answer : bool).

(** The call begins, or goes on with the next [tryPop]. *)
Definition next_pop (c : gap_call) (answer : bool) (held : list GapQueueEntry) : task :=
  Popping c answer held CLoadShutdown None.
Definition begin (c : gap_call) : task := next_pop c false [].

Section Interleaving.
Context {Q : Type} `{QF : FifoQueue Z Q}.
Variable clock : nat -> Z.
Implicit Types s : state (Q:=Q) (GQ:=ring).
Abbreviation GM := (M (GapManager ring * Env Q)).

(** One access to the ring *)
Definition ring_access {P} (access : P -> ring -> P * ring * list GapQueueEntry) (p : P)
    : GM (P * list GapQueueEntry) :=
  fun s => let '(p', q', out) := access p (gap_queue_ (fst s)) in
           (Ret (p', out), (mkManager (is_running_ (fst s)) q' (session_context_ (fst s)), snd s)).

(** What the body of the loop of [processGaps] does with the entry it took: the entry to
    be put back, if any. *)
Definition handle_entry (entry : GapQueueEntry) : GM (option GapQueueEntry) :=
  if is_resolved entry then ret None
  else
    timed_out <-- isTimeout clock entry ;;
    if timed_out then
      if retry_count entry <? kMaxRetryCount then
        sendResendRequest clock (seq_num entry) ;;;
        t <-- on_env (env_now clock) ;;
        ret (Some (mkGap (seq_num entry) (timestamp entry) (t + kGapTimeoutMs * 1000000)
                     (wrap32 (retry_count entry + 1)) (is_resolved entry)))
      else handleTimeout clock entry ;;; ret None
    else ret (Some entry).

(** The next [push] of an entry that was held, or the end of the call. *)
Definition next_push (c : gap_call) (answer : bool) (held : list GapQueueEntry) : GM task :=
  match held with
  | entry :: held => ret (Pushing c answer held (PLoadShutdown entry))
  | [] =>
      match c, answer with
      | CallOp (AddGap n), false =>
          t <-- on_env (env_now clock) ;;
          ret (Adding n (PLoadShutdown (mkGap n t (t + kGapTimeoutMs * 1000000) 0 false)))
      | _, _ => ret (Returned c answer)
      end
  end.

(** A call whose [tryPop] returned [entry] *)
Definition took (c : gap_call) (answer : bool) (held : list GapQueueEntry) (entry : GapQueueEntry)
    : GM task :=
  match c with
  | CallProcess =>
      kept <-- handle_entry entry ;;
      match kept with
      | Some entry' => ret (next_pop c answer (held ++ [entry']))
      | None => ret (next_pop c answer held)
      end
  | CallOp (ResolveGap n) =>
      if (seq_num entry =? n) && negb (is_resolved entry) then next_push c true held
      else ret (next_pop c answer (held ++ [entry]))
  | CallOp (HasGap n) | CallOp (AddGap n) =>
      ret (next_pop c (if (seq_num entry =? n) && negb (is_resolved entry) then true else answer)
             (held ++ [entry]))
  end.

(** One step of a call; a call that has returned stays as it is. *)
Definition task_step (t : task) : GM task :=
  match t with
  | Popping c answer held p got =>
      r <-- ring_access (pop_access newGapEntry) p ;;
      let '(p', out) := r in
      let got := match out with entry :: _ => Some entry | [] => got end in
      match p' with
      | CIdle =>
          match got with
          | Some entry => took c answer held entry
          | None => next_push c answer held
          end
      | _ => ret (Popping c answer held p' got)
      end
  | Pushing c answer held p =>
      r <-- ring_access push_access p ;;
      match fst r with
      | PIdle => next_push c answer held
      | p' => ret (Pushing c answer held p')
      end
  | Adding n p =>
      r <-- ring_access push_access p ;;
      match fst r with
      | PIdle => ret (Returned (CallOp (AddGap n)) false)
      | p' => ret (Adding n p')
      end
  | Returned _ _ => ret t
  end.

(** * Calls that run alone *)

Definition alone (x y : task * state) : Prop := task_step (fst x) (snd x) = (Ret (fst y), snd y).

(** The accesses of one [tryPop] in a row are [tryPop]. *)
Lemma pop_alone c answer held s ok e s1 t s2 :
  gap_pop s = (Ret (ok, e), s1) ->
  (if ok then took c answer held e else next_push c answer held) s1 = (Ret t, s2) ->
  rtc alone (next_pop c answer held, s) (t, s2).
Proof.
  unfold gap_pop, next_pop. destruct s as [[run q ctx] env]. cbn [fst snd gap_queue_ is_running_ session_context_].
  unfold q_pop, gap_ring, ring_fifo, tryPop. intros E Ht.
  destruct (is_shutdown_ q) eqn:Hs.
  { injection E as <- _ <-. apply rtc_once. unfold alone. cbn [task_step fst snd]. unfold bind, ring_access.
    cbn [fst snd gap_queue_ pop_access]. rewrite Hs. exact Ht. }
  eapply rtc_l; [|eapply rtc_l].
  { instantiate (1 := (Popping c answer held CLoadHead None, (mkManager run q ctx, env))).
    unfold alone. cbn [task_step fst snd]. unfold bind, ring_access.
    cbn [fst snd gap_queue_ pop_access]. by rewrite Hs. }
  { instantiate (1 := (Popping c answer held (CLoadTail (head_ q)) None, (mkManager run q ctx, env))). done. }
  destruct (head_ q =? tail_ q) eqn:He.
  { injection E as <- _ <-. apply rtc_once. unfold alone. cbn [task_step fst snd]. unfold bind, ring_access.
    cbn [fst snd gap_queue_ pop_access]. rewrite He. exact Ht. }
  injection E as <- <- <-. set (x := default newGapEntry _) in *.
  eapply rtc_l; [|eapply rtc_l; [|eapply rtc_l; [|apply rtc_once]]].
  - instantiate (1 := (Popping c answer held (CRead (head_ q)) None, (mkManager run q ctx, env))).
    unfold alone. cbn [task_step fst snd]. unfold bind, ring_access.
    cbn [fst snd gap_queue_ pop_access]. by rewrite He.
  - instantiate (1 := (Popping c answer held (CStoreHead (head_ q) x) None, (mkManager run q ctx, env))). done.
  - by instantiate (1 := (Popping c answer held CCountPop (Some x),
      (mkManager run (set_head (Z.land (head_ q + 1) (mask_ q)) q) ctx, env))).
  - unfold alone. cbn [task_step fst snd]. unfold bind, ring_access.
    cbn [fst snd gap_queue_ pop_access is_running_ session_context_].
    rewrite <- Ht. unfold add_counts, set_head. simpl. by rewrite !Z.add_0_r, Hs.
Qed.

(** The accesses of one [push] in a row are [push]; [k] is the call inside the [push], [m]
    what it does when the [push] has returned. *)
Lemma push_alone (k : push_pc GapQueueEntry -> task) (m : GM task) e s b s1 t s2 :
  (forall p s', task_step (k p) s' =
     (r <-- ring_access push_access p ;; match fst r with PIdle => m | p' => ret (k p') end) s') ->
  gap_push e s = (Ret b, s1) -> m s1 = (Ret t, s2) -> rtc alone (k (PLoadShutdown e), s) (t, s2).
Proof.
  intros Hk E Hm. unfold gap_push in E. destruct s as [[run q ctx] env].
  unfold q_push, gap_ring, ring_fifo, push in E. cbn [fst snd gap_queue_ is_running_ session_context_] in E.
  assert (forall p p' q0 q' out, p' <> PIdle -> push_access p q0 = (p', q', out) ->
    alone (k p, (mkManager run q0 ctx, env)) (k p', (mkManager run q' ctx, env))) as Hgo.
  { intros p p' q0 q' out Hp Ha. unfold alone. cbn [fst snd]. rewrite Hk. unfold bind, ring_access.
    cbn [fst snd gap_queue_ is_running_ session_context_]. rewrite Ha. by destruct p'. }
  assert (forall p q0 q' out, push_access p q0 = (PIdle, q', out) -> s1 = (mkManager run q' ctx, env) ->
    alone (k p, (mkManager run q0 ctx, env)) (t, s2)) as Hend.
  { intros p q0 q' out Ha ->. unfold alone. cbn [fst snd]. rewrite Hk. unfold bind, ring_access.
    cbn [fst snd gap_queue_ is_running_ session_context_]. by rewrite Ha. }
  destruct (is_shutdown_ q) eqn:Hs.
  { injection E as <- <-. apply rtc_once. eapply Hend; [|done]. simpl. by rewrite Hs. }
  eapply rtc_l; [eapply (Hgo _ (PLoadTail e)); [done|simpl; by rewrite Hs]|].
  eapply rtc_l; [by eapply (Hgo _ (PLoadHead e (tail_ q)))|].
  set (nt := Z.land (tail_ q + 1) (mask_ q)) in *. destruct (nt =? head_ q) eqn:He.
  { injection E as <- <-. eapply rtc_l; [eapply (Hgo _ PCountDrop); [done|simpl; fold nt; by rewrite He]|].
    apply rtc_once. eapply Hend; [done|]. unfold add_counts. by rewrite !Z.add_0_r, Hs. }
  injection E as <- <-.
  eapply rtc_l; [eapply (Hgo _ (PWrite e (tail_ q) nt)); [done|simpl; fold nt; by rewrite He]|].
  eapply rtc_l; [by eapply (Hgo _ (PStoreTail e nt))|]. eapply rtc_l; [by eapply (Hgo _ PCountPush)|].
  apply rtc_once. eapply Hend; [done|]. unfold add_counts, set_tail, set_messages. simpl.
  by rewrite !Z.add_0_r, Hs.
Qed.

(** [m], then steps of the call alone, lead to [y]. *)
Definition runs (m : GM task) s (y : task * state) : Prop :=
  exists t s', m s = (Ret t, s') /\ rtc alone (t, s') y.

Lemma runs_ret t s y : rtc alone (t, s) y -> runs (ret t) s y.
Proof. intros Hr. by exists t, s. Qed.

Lemma pop_runs c answer held s ok e s1 y :
  gap_pop s = (Ret (ok, e), s1) ->
  runs (if ok then took c answer held e else next_push c answer held) s1 y ->
  rtc alone (next_pop c answer held, s) y.
Proof. intros E (t & s2 & E2 & Hr). etrans; [by eapply pop_alone|done]. Qed.

Lemma requeue_runs c answer held s s1 y :
  requeue held s = (Ret tt, s1) -> runs (next_push c answer []) s1 y -> runs (next_push c answer held) s y.
Proof.
  revert s. induction held as [|e held IH]; intros s E Hr; [by injection E as <-|].
  cbn [requeue] in E. apply bind_returns in E as (b & s2 & E1 & E). apply runs_ret.
  destruct (IH s2 E Hr) as (t & s3 & E3 & Hr3). etrans; [|exact Hr3].
  by eapply (push_alone (Pushing c answer held) (next_push c answer held)).
Qed.

Lemma hasGap_loop_runs fuel n c answer held s answer' held' s' y :
  c = HasGap n \/ c = AddGap n ->
  hasGap_loop fuel n answer held s = (Ret (answer', held'), s') ->
  runs (next_push (CallOp c) answer' held') s' y -> rtc alone (next_pop (CallOp c) answer held, s) y.
Proof.
  intros Hc E Hr. revert answer held s E. induction fuel as [|f IH]; intros answer held s E; [done|].
  cbn [hasGap_loop] in E. apply bind_returns in E as ([ok e] & s1 & E1 & E).
  eapply pop_runs; [exact E1|]. destruct ok; [|by injection E as -> -> ->].
  destruct Hc as [-> | ->]; by apply runs_ret, IH.
Qed.

Lemma resolve_loop_runs fuel n held s answer' held' s' y :
  resolve_loop fuel n held s = (Ret (answer', held'), s') ->
  runs (next_push (CallOp (ResolveGap n)) answer' held') s' y ->
  rtc alone (next_pop (CallOp (ResolveGap n)) false held, s) y.
Proof.
  intros E Hr. revert held s E. induction fuel as [|f IH]; intros held s E; [done|].
  cbn [resolve_loop] in E. apply bind_returns in E as ([ok e] & s1 & E1 & E).
  eapply pop_runs; [exact E1|]. destruct ok; [|by injection E as -> -> ->].
  cbn [took]. destruct (_ && _); [by injection E as <- <- <-|by apply runs_ret, IH].
Qed.

Lemma process_loop_runs fuel held s held' s' y :
  process_loop clock fuel held s = (Ret held', s') ->
  runs (next_push CallProcess false held') s' y -> rtc alone (next_pop CallProcess false held, s) y.
Proof.
  intros E Hr. revert held s E. induction fuel as [|f IH]; intros held s E; [done|].
  cbn [process_loop] in E. apply bind_returns in E as ([ok e] & s1 & E1 & E).
  eapply pop_runs; [exact E1|]. destruct ok; [|by injection E as -> ->].
  cbn [took]. unfold handle_entry. destruct (is_resolved e) eqn:Hres; [by apply runs_ret, IH|].
  apply bind_returns in E as (late & s2 & E2 & E). destruct late.
  - destruct (retry_count e <? kMaxRetryCount).
    + apply bind_returns in E as ([] & s3 & E3 & E). apply bind_returns in E as (t & s4 & E4 & E).
      eexists _, s4. split; [unfold bind; by rewrite E2, E3, E4|]. by apply IH.
    + apply bind_returns in E as ([] & s3 & E3 & E).
      eexists _, s3. split; [unfold bind; by rewrite E2, E3|]. by apply IH.
  - eexists _, s2. split; [unfold bind; by rewrite E2|]. by apply IH.
Qed.

(** What a sequential operation does, the same call does when nothing comes between. *)
Lemma call_alone o s r s' :
  run_gap_op clock o s = (Ret r, s') ->
  exists answer, rtc alone (begin (CallOp o), s) (Returned (CallOp o) answer, s') /\
    (r = Answer answer \/ r = Done).
Proof.
  assert (forall n c known s0 s1 y, c = HasGap n \/ c = AddGap n -> hasGap n s0 = (Ret known, s1) ->
    runs (next_push (CallOp c) known []) s1 y -> rtc alone (begin (CallOp c), s0) y) as Hhas.
  { intros n c known s0 s1 y Hc E Hr. unfold hasGap in E.
    apply bind_returns in E as (fuel & s2 & E2 & E). injection E2 as <- <-.
    apply bind_returns in E as ([has held] & s3 & E3 & E).
    apply bind_returns in E as ([] & s4 & E4 & E). injection E as <- <-.
    eapply hasGap_loop_runs; [exact Hc|exact E3|]. by eapply requeue_runs. }
  intros E. destruct o as [n|n|n]; cbn [run_gap_op] in E.
  - apply bind_returns in E as ([] & s1 & E1 & E). injection E as <- <-.
    unfold addGapEntry in E1. apply bind_returns in E1 as (known & s2 & E2 & E1).
    exists known. split; [|by right]. eapply (Hhas n); [by right|exact E2|]. destruct known.
    + injection E1 as <-. by apply runs_ret.
    + apply bind_returns in E1 as (t & s3 & E3 & E1). apply bind_returns in E1 as (b & s4 & E4 & E1).
      injection E1 as <-. eexists _, s3. split; [cbn [next_push]; unfold bind; by rewrite E3|].
      by eapply (push_alone (Adding n) (ret (Returned (CallOp (AddGap n)) false))).
  - apply bind_returns in E as (b & s1 & E1 & E). injection E as <- <-.
    unfold resolveGapEntry in E1. apply bind_returns in E1 as (fuel & s3 & E3 & E1). injection E3 as <- <-.
    apply bind_returns in E1 as ([has temp] & s4 & E4 & E1).
    apply bind_returns in E1 as ([] & s5 & E5 & E1). injection E1 as <- <-.
    exists has. split; [|by left]. eapply resolve_loop_runs; [exact E4|].
    eapply requeue_runs; [exact E5|]. by apply runs_ret.
  - apply bind_returns in E as (b & s1 & E1 & E). injection E as <- <-.
    exists b. split; [|by left]. eapply (Hhas n); [by left|exact E1|]. by apply runs_ret.
Qed.

Lemma pass_alone s s' :
  processGaps clock s = (Ret tt, s') ->
  rtc alone (begin CallProcess, s) (Returned CallProcess false, s').
Proof.
  unfold processGaps. intros E. apply bind_returns in E as (fuel & s1 & E1 & E). injection E1 as <- <-.
  apply bind_returns in E as (held & s2 & E2 & E3).
  eapply process_loop_runs; [exact E2|]. eapply requeue_runs; [exact E3|]. by apply runs_ret.
Qed.

(** * Calls interleaved *)

Definition calls_state : Type := list task * state (Q:=Q) (GQ:=ring).

(** Running a schedule: at each turn the named call makes one step. *)
Fixpoint run_calls (schedule : list nat) (x : calls_state) : option calls_state :=
  match schedule with
  | [] => Some x
  | i :: schedule =>
      match fst x !! i with
      | Some t =>
          match task_step t (snd x) with
          | (Ret t', s') => run_calls schedule (<[i := t']> (fst x), s')
          | _ => None
          end
      | None => None
      end
  end.
End Interleaving.

(** ** Instances *)

(** The gaps 7 and 9, neither of them late yet *)
Definition two_gaps : GapManager ring * Env (LockFreeQueue Z) :=
  sample_state (snd (push (mkGap 9 0 99 0 false) (snd (push (mkGap 7 0 99 0 false)
    (newQueue newGapEntry 4 []))))).

(** [n] steps of call [i] *)
Definition turns (i n : nat) : list nat := replicate n i.

(** While the gap thread holds the entry of 7, the other thread does not see it: the gap is
    not resolved although it is open, and adding it again makes it open twice, so that it
    is asked for twice. *)
Lemma gap_missed :
  (exists s', run_calls (fun _ => 0) (turns 0 6 ++ turns 1 15 ++ turns 0 21)
       (begin <$> [CallProcess; CallOp (ResolveGap 7)], two_gaps)
     = Some ([Returned CallProcess false; Returned (CallOp (ResolveGap 7)) false], s') /\
     seq_num <$> gap_items s' = [7; 9]) /\
  (exists s', run_calls (fun _ => 0) (turns 0 6 ++ turns 1 21 ++ turns 0 33)
       (begin <$> [CallProcess; CallOp (AddGap 7)], two_gaps)
     = Some ([Returned CallProcess false; Returned (CallOp (AddGap 7)) false], s') /\
     seq_num <$> gap_items s' = [7; 9; 7]).
Proof. split; eexists; (split; [by vm_compute|by vm_compute]). Qed.

(** Each thread holds one entry and both put theirs back at the same time: the two pushes
    write to the same slot, and the gap 7 is lost although nothing resolved it or gave it up. *)
Lemma gap_lost :
  exists s', run_calls (fun _ => 0)
      (turns 0 6 ++ turns 1 6 ++ turns 0 6 ++ turns 1 6 ++ [0; 1; 0; 1; 0; 1]%nat)
      (begin <$> [CallProcess; CallOp (HasGap 5)], two_gaps)
    = Some ([Returned CallProcess false; Returned (CallOp (HasGap 5)) false], s') /\
    seq_num <$> gap_items s' = [9].
Proof. eexists. split; by vm_compute. Qed.

(** Both threads take the same entry: [resolveGapEntry] says that it resolved the gap 7, and
    the gap thread puts it back. *)
Lemma gap_revived :
  exists s', run_calls (fun _ => 0) (turns 0 4 ++ turns 1 6 ++ turns 0 23)
      (begin <$> [CallProcess; CallOp (ResolveGap 7)], two_gaps)
    = Some ([Returned CallProcess false; Returned (CallOp (ResolveGap 7)) true], s') /\
    seq_num <$> gap_items s' = [7; 9].
Proof. eexists. split; by vm_compute. Qed.
