(* ===== verification/SessionManager.v ===== *)
(** [manager::InboundMessageManager] and [manager::FixSessionManager]
    ([inbound_message_manager.h/.cpp], [fix_session_manager.h/.cpp]): session state,
    sequence numbers, the handlers of the session messages, the messages the session
    sends, and the processing of an inbound message with its statistics.

    The base class and the session class are one record, as in the object.  The gap
    manager is the component of [GapManager]; the heartbeat thread is its flag and one
    turn of its loop ([heartbeat_turn]).  Steady clock readings are in nanoseconds, system
    clock readings in milliseconds.  Log output is left out. *)
From S2P Require Import Prelude FixFields Doubles LockFreeQueue QueueInterface MessagePool FixMessage PriorityQueues MessageSending GapManager.

(** [enum class SessionState] *)
Inductive SessionState :=
  | DISCONNECTED | CONNECTING | LOGON_SENT | LOGGED_ON | LOGOUT_SENT | DISCONNECTING.

#[export] Instance SessionState_eq_dec : EqDecision SessionState.
Proof. solve_decision. Defined.

(** [struct SessionConfig] *)
Record SessionConfig := mkConfig {
  cfg_sender_comp_id : bytes;
  cfg_target_comp_id : bytes;
  heartbeat_interval : Z;
  reset_sequence_numbers : bool;
  logon_timeout_seconds : Z;
  validate_sequence_numbers : bool
}.

(** [struct SessionStats] *)
Record SessionStats := mkStats {
  heartbeats_sent : Z; heartbeats_received : Z;
  test_requests_sent : Z; test_requests_received : Z;
  logons_sent : Z; logouts_sent : Z; sequence_resets_sent : Z; rejects_sent : Z;
  session_start_time : Z; last_heartbeat_time : Z;
  current_state : SessionState
}.

(** [struct ProcessingStats]; a type without an average latency has no entry in the map. *)
Record ProcessingStats := mkProcessing {
  total_messages_processed : Z;
  total_messages_routed : Z;
  total_processing_errors : Z;
  total_routing_errors : Z;
  last_message_time : Z;
  message_type_counts : FixMsgType -> Z;
  priority_routed : Priority -> Z;
  avg_processing_time_ns : double;
  message_type_avg_latency : FixMsgType -> option double
}.

(** The members of [InboundMessageManager]; the queues are shared pointers that may be
    unset, the outbound queues themselves are in the environment. *)
Record Inbound (Q : Type) := mkInbound {
  running_ : bool;
  inbound_queue_ : option Q;
  outbound_set : bool;
  stats_ : ProcessingStats;
  processing_start_time_ : Z
}.
Arguments mkInbound {Q}.
Arguments running_ {Q}.
Arguments inbound_queue_ {Q}.
Arguments outbound_set {Q}.
Arguments stats_ {Q}.
Arguments processing_start_time_ {Q}.

(** The session state and the sequence numbers of [FixSessionManager] *)
Record SessionCore := mkCore {
  session_state_ : SessionState;
  outgoing_seq_num_ : Z;
  expected_incoming_seq_num_ : Z
}.

(** Its heartbeat and test request members *)
Record HeartbeatTimer := mkTimer {
  heartbeat_timer_running_ : bool;
  last_heartbeat_sent_ : Z;
  last_message_received_ : Z;
  pending_test_request_id_ : bytes;
  test_request_sent_time_ : Z;
  test_req_id_counter_ : Z
}.

Record FixSessionManager (Q GQ : Type) := mkSession {
  s_inbound : Inbound Q;
  config_ : SessionConfig;
  sequence_num_gap_manager_ : option (GapManager GQ);
  message_pool_set : bool;
  s_core : SessionCore;
  s_timer : HeartbeatTimer;
  session_stats_ : SessionStats
}.
Arguments mkSession {Q GQ}.
Arguments s_inbound {Q GQ}.
Arguments config_ {Q GQ}.
Arguments sequence_num_gap_manager_ {Q GQ}.
Arguments message_pool_set {Q GQ}.
Arguments s_core {Q GQ}.
Arguments s_timer {Q GQ}.
Arguments session_stats_ {Q GQ}.

Definition no_processing : ProcessingStats := mkProcessing 0 0 0 0 0 (fun _ => 0) (fun _ => 0)
  d_zero (fun _ => None).

Section Session.
Context {Q GQ : Type} `{FifoQueue Z Q} `{FifoQueue GapQueueEntry GQ}.
Variable clock : nat -> Z.

Abbreviation Session := (FixSessionManager Q GQ).
Definition T := M (Session * Env Q).

(** The constructor *)
Definition newSession (config : SessionConfig) (gap : option (GapManager GQ)) : Session :=
  mkSession (mkInbound false None false no_processing 0) config gap false
    (mkCore DISCONNECTED 1 1) (mkTimer false 0 0 [] 0 1)
    (mkStats 0 0 0 0 0 0 0 0 0 0 DISCONNECTED).

(** ** Updates of the members *)
Definition on_inbound (f : Inbound Q -> Inbound Q) (s : Session) : Session :=
  mkSession (f (s_inbound s)) (config_ s) (sequence_num_gap_manager_ s) (message_pool_set s)
    (s_core s) (s_timer s) (session_stats_ s).
Definition on_processing (f : ProcessingStats -> ProcessingStats) : Session -> Session :=
  on_inbound (fun b => mkInbound (running_ b) (inbound_queue_ b) (outbound_set b) (f (stats_ b))
                         (processing_start_time_ b)).
Definition on_config (f : SessionConfig -> SessionConfig) (s : Session) : Session :=
  mkSession (s_inbound s) (f (config_ s)) (sequence_num_gap_manager_ s) (message_pool_set s)
    (s_core s) (s_timer s) (session_stats_ s).
Definition with_gap (g : option (GapManager GQ)) (s : Session) : Session :=
  mkSession (s_inbound s) (config_ s) g (message_pool_set s) (s_core s) (s_timer s)
    (session_stats_ s).
Definition on_core (f : SessionCore -> SessionCore) (s : Session) : Session :=
  mkSession (s_inbound s) (config_ s) (sequence_num_gap_manager_ s) (message_pool_set s)
    (f (s_core s)) (s_timer s) (session_stats_ s).
Definition on_timer (f : HeartbeatTimer -> HeartbeatTimer) (s : Session) : Session :=
  mkSession (s_inbound s) (config_ s) (sequence_num_gap_manager_ s) (message_pool_set s)
    (s_core s) (f (s_timer s)) (session_stats_ s).
Definition on_stats (f : SessionStats -> SessionStats) (s : Session) : Session :=
  mkSession (s_inbound s) (config_ s) (sequence_num_gap_manager_ s) (message_pool_set s)
    (s_core s) (s_timer s) (f (session_stats_ s)).

Definition set_expected (n : Z) (c : SessionCore) : SessionCore :=
  mkCore (session_state_ c) (outgoing_seq_num_ c) n.
Definition set_interval (n : Z) (c : SessionConfig) : SessionConfig :=
  mkConfig (cfg_sender_comp_id c) (cfg_target_comp_id c) n (reset_sequence_numbers c)
    (logon_timeout_seconds c) (validate_sequence_numbers c).
Definition set_timer_running (b : bool) (t : HeartbeatTimer) : HeartbeatTimer :=
  mkTimer b (last_heartbeat_sent_ t) (last_message_received_ t) (pending_test_request_id_ t)
    (test_request_sent_time_ t) (test_req_id_counter_ t).
Definition set_pending (id : bytes) (t : HeartbeatTimer) : HeartbeatTimer :=
  mkTimer (heartbeat_timer_running_ t) (last_heartbeat_sent_ t) (last_message_received_ t) id
    (test_request_sent_time_ t) (test_req_id_counter_ t).

(** [session_stats_.x += n], for the counters in the order of the structure *)
Definition count (hs hr ts tr lon lout sr rj : Z) (s : SessionStats) : SessionStats :=
  mkStats (heartbeats_sent s + hs) (heartbeats_received s + hr) (test_requests_sent s + ts)
    (test_requests_received s + tr) (logons_sent s + lon) (logouts_sent s + lout)
    (sequence_resets_sent s + sr) (rejects_sent s + rj) (session_start_time s)
    (last_heartbeat_time s) (current_state s).

Definition get_session : T Session := fun s => (Ret (fst s), s).
Definition update_session (f : Session -> Session) : T unit :=
  fun s => (Ret tt, (f (fst s), snd s)).
Definition now : T Z := on_env (env_now clock).

(** A call of the gap manager, when there is one *)
Definition on_gap (m : M (GapManager GQ * Env Q) unit) : T unit :=
  fun s => match sequence_num_gap_manager_ (fst s) with
           | None => (Ret tt, s)
           | Some g => let '(o, (g', e')) := m (g, snd s) in (o, (with_gap (Some g') (fst s), e'))
           end.

(** [message->getField(tag, value)] *)
Definition field (message tag : Z) : T (option bytes) := on_env (env_read (getField tag) message).
Definition set_field (message tag : Z) (value : bytes) : T unit :=
  on_env (env_update (setField tag value) message).

(** ** State, sequence numbers, configuration *)

(** [updateSessionState] *)
Definition updateSessionState (new_state : SessionState) : T unit :=
  update_session (on_core (fun c => mkCore new_state (outgoing_seq_num_ c) (expected_incoming_seq_num_ c))) ;;;
  update_session (on_stats (fun s =>
    mkStats (heartbeats_sent s) (heartbeats_received s) (test_requests_sent s)
      (test_requests_received s) (logons_sent s) (logouts_sent s) (sequence_resets_sent s)
      (rejects_sent s) (session_start_time s) (last_heartbeat_time s) new_state)).

(** [getNextOutgoingSeqNum]: the pre-increment of an atomic [int] *)
Definition getNextOutgoingSeqNum : T Z :=
  s <-- get_session ;;
  let n := wrap32 (outgoing_seq_num_ (s_core s) + 1) in
  update_session (on_core (fun c => mkCore (session_state_ c) n (expected_incoming_seq_num_ c))) ;;;
  ret n.

(** [updateHeartbeatInterval], [setSequenceNumbers], [setMessagePool], [setInboundQueue],
    [setOutboundQueues] *)
Definition updateHeartbeatInterval (seconds : Z) : T unit :=
  update_session (on_config (set_interval seconds)).
Definition setSequenceNumbers (incoming_seq outgoing_seq : Z) : T unit :=
  update_session (on_core (fun c => mkCore (session_state_ c) outgoing_seq incoming_seq)).
Definition setMessagePool (is_set : bool) : T unit :=
  update_session (fun s => mkSession (s_inbound s) (config_ s) (sequence_num_gap_manager_ s) is_set
                             (s_core s) (s_timer s) (session_stats_ s)).
Definition setInboundQueue (q : option Q) : T unit :=
  update_session (on_inbound (fun b => mkInbound (running_ b) q (outbound_set b) (stats_ b)
                                         (processing_start_time_ b))).
Definition setOutboundQueues (is_set : bool) : T unit :=
  update_session (on_inbound (fun b => mkInbound (running_ b) (inbound_queue_ b) is_set (stats_ b)
                                         (processing_start_time_ b))).

(** [startHeartbeatTimer], [stopHeartbeatTimer] *)
Definition startHeartbeatTimer : T unit :=
  s <-- get_session ;;
  if heartbeat_timer_running_ (s_timer s) then ret tt
  else update_session (on_timer (set_timer_running true)).
Definition stopHeartbeatTimer : T unit :=
  s <-- get_session ;;
  if negb (heartbeat_timer_running_ (s_timer s)) then ret tt
  else update_session (on_timer (set_timer_running false)).

(** [createTestRequestId] *)
Definition createTestRequestId : T bytes :=
  s <-- get_session ;;
  let t := s_timer s in
  update_session (on_timer (fun t =>
    mkTimer (heartbeat_timer_running_ t) (last_heartbeat_sent_ t) (last_message_received_ t)
      (pending_test_request_id_ t) (test_request_sent_time_ t) (u64 (test_req_id_counter_ t + 1)))) ;;;
  ret (str "TEST_" ++ to_string (test_req_id_counter_ t)).

(** ** Messages the session sends *)

(** The part all six [create] functions share: the pool, the allocation and the standard
    header with the sending time. *)
Definition create_header (type : bytes) : T (option Z) :=
  s <-- get_session ;;
  if negb (message_pool_set s) then ret None
  else
    msg <-- on_env (env_allocate clock) ;;
    match msg with
    | None => ret None
    | Some msg =>
        set_field msg Tag.BeginString (str "FIX.4.4") ;;;
        set_field msg Tag.MsgType type ;;;
        set_field msg Tag.SenderCompID (cfg_sender_comp_id (config_ s)) ;;;
        set_field msg Tag.TargetCompID (cfg_target_comp_id (config_ s)) ;;;
        n <-- getNextOutgoingSeqNum ;;
        set_field msg Tag.MsgSeqNum (to_string n) ;;;
        t <-- now ;;
        set_field msg Tag.SendingTime (put_time (t / 1000)) ;;;
        ret (Some msg)
    end.

(** The fields behind the header, when there is a message. *)
Definition then_set (create : T (option Z)) (k : Z -> T unit) : T (option Z) :=
  msg <-- create ;;
  match msg with
  | None => ret None
  | Some msg => k msg ;;; ret (Some msg)
  end.

(** [createLogonMessage] *)
Definition createLogonMessage : T (option Z) :=
  then_set (create_header (str "A")) (fun msg =>
    s <-- get_session ;;
    set_field msg Tag.HeartBtInt (to_string (heartbeat_interval (config_ s))) ;;;
    if reset_sequence_numbers (config_ s) then set_field msg Tag.ResetSeqNumFlag (str "Y")
    else ret tt).
(** [createLogoutMessage] *)
Definition createLogoutMessage (reason : bytes) : T (option Z) :=
  then_set (create_header (str "5")) (fun msg =>
    if is_nil reason then ret tt else set_field msg Tag.Text reason).
(** [createHeartbeatMessage] *)
Definition createHeartbeatMessage (test_req_id : bytes) : T (option Z) :=
  then_set (create_header (str "0")) (fun msg =>
    if is_nil test_req_id then ret tt else set_field msg Tag.TestReqID test_req_id).
(** [createTestRequestMessage] *)
Definition createTestRequestMessage : T (option Z) :=
  then_set (create_header (str "1")) (fun msg =>
    id <-- createTestRequestId ;;
    set_field msg Tag.TestReqID id ;;;
    update_session (on_timer (set_pending id))).
(** [createRejectMessage] *)
Definition createRejectMessage (ref_seq_num : Z) (reason : bytes) : T (option Z) :=
  then_set (create_header (str "3")) (fun msg =>
    set_field msg Tag.RefSeqNum (to_string ref_seq_num) ;;;
    if is_nil reason then ret tt else set_field msg Tag.Text reason).
(** [createSequenceResetMessage] *)
Definition createSequenceResetMessage (new_seq_num : Z) (gap_fill : bool) : T (option Z) :=
  then_set (create_header (str "4")) (fun msg =>
    set_field msg Tag.NewSeqNo (to_string new_seq_num) ;;;
    if gap_fill then set_field msg Tag.GapFillFlag (str "Y") else ret tt).

(** [routeToOutbound]; [None] is the null pointer. *)
Definition routeToOutbound (message : option Z) (priority : Priority) : T bool :=
  s <-- get_session ;;
  match message with
  | None => ret false
  | Some message =>
      if negb (outbound_set (s_inbound s)) then ret false
      else
        enqueued <-- on_env (env_push priority message) ;;
        update_session (on_processing (fun p =>
          if enqueued : bool then
            mkProcessing (total_messages_processed p) (total_messages_routed p + 1)
              (total_processing_errors p) (total_routing_errors p) (last_message_time p)
              (message_type_counts p)
              (fun x => if decide (x = priority) then priority_routed p x + 1 else priority_routed p x)
              (avg_processing_time_ns p) (message_type_avg_latency p)
          else
            mkProcessing (total_messages_processed p) (total_messages_routed p)
              (total_processing_errors p) (total_routing_errors p + 1) (last_message_time p)
              (message_type_counts p) (priority_routed p) (avg_processing_time_ns p)
              (message_type_avg_latency p))) ;;;
        ret enqueued
  end.

(** [sendResponse] *)
Definition sendResponse (response_message : option Z) (priority : Priority) : T bool :=
  match response_message with
  | None => ret false
  | Some _ => routeToOutbound response_message priority
  end.

(** The pattern of the [send] functions: create, route, count on success. *)
Definition send_with (create : T (option Z)) (priority : Priority) (on_success : T unit) : T bool :=
  msg <-- create ;;
  match msg with
  | None => ret false
  | Some msg =>
      success <-- routeToOutbound (Some msg) priority ;;
      if success : bool then on_success ;;; ret true else ret false
  end.

(** [sendLogon], [sendLogout], [sendHeartbeat], [sendTestRequest], [sendReject],
    [sendSequenceReset] *)
Definition sendLogon : T bool :=
  send_with createLogonMessage CRITICAL (update_session (on_stats (count 0 0 0 0 1 0 0 0))).
Definition sendLogout (reason : bytes) : T bool :=
  send_with (createLogoutMessage reason) CRITICAL
    (update_session (on_stats (count 0 0 0 0 0 1 0 0))).
Definition sendHeartbeat (test_req_id : bytes) : T bool :=
  send_with (createHeartbeatMessage test_req_id) HIGH
    (update_session (on_stats (count 1 0 0 0 0 0 0 0)) ;;;
     t <-- now ;;
     update_session (on_timer (fun h =>
       mkTimer (heartbeat_timer_running_ h) t (last_message_received_ h)
         (pending_test_request_id_ h) (test_request_sent_time_ h) (test_req_id_counter_ h)))).
Definition sendTestRequest : T bool :=
  send_with createTestRequestMessage HIGH
    (update_session (on_stats (count 0 0 1 0 0 0 0 0)) ;;;
     t <-- now ;;
     update_session (on_timer (fun h =>
       mkTimer (heartbeat_timer_running_ h) (last_heartbeat_sent_ h) (last_message_received_ h)
         (pending_test_request_id_ h) t (test_req_id_counter_ h)))).
Definition sendReject (ref_seq_num : Z) (reason : bytes) : T bool :=
  send_with (createRejectMessage ref_seq_num reason) MEDIUM
    (update_session (on_stats (count 0 0 0 0 0 0 0 1))).
Definition sendSequenceReset (new_seq_num : Z) (gap_fill : bool) : T bool :=
  send_with (createSequenceResetMessage new_seq_num gap_fill) CRITICAL
    (update_session (on_stats (count 0 0 0 0 0 0 1 0))).

(** ** Session management *)

(** [initiateLogon], [initiateLogout] *)
Definition initiateLogon : T bool :=
  s <-- get_session ;;
  if decide (session_state_ (s_core s) <> DISCONNECTED) then ret false
  else
    updateSessionState LOGON_SENT ;;;
    success <-- sendLogon ;;
    (if success : bool then update_session (on_stats (count 0 0 0 0 1 0 0 0))
     else updateSessionState DISCONNECTED) ;;;
    ret success.
Definition initiateLogout (reason : bytes) : T bool :=
  s <-- get_session ;;
  let current_state := session_state_ (s_core s) in
  if decide (current_state <> LOGGED_ON /\ current_state <> LOGON_SENT) then ret false
  else
    updateSessionState LOGOUT_SENT ;;;
    success <-- sendLogout reason ;;
    (if success : bool then update_session (on_stats (count 0 0 0 0 0 1 0 0)) else ret tt) ;;;
    ret success.

(** [shouldSendHeartbeat], [shouldSendTestRequest]: [duration_cast<seconds>] truncates *)
Definition shouldSendHeartbeat : T bool :=
  t <-- now ;;
  s <-- get_session ;;
  ret (heartbeat_interval (config_ s) <=? Z.quot (t - last_heartbeat_sent_ (s_timer s)) 1000000000).
Definition shouldSendTestRequest : T bool :=
  t <-- now ;;
  s <-- get_session ;;
  ret (wrap32 (heartbeat_interval (config_ s) * 2)
       <=? Z.quot (t - last_message_received_ (s_timer s)) 1000000000).

(** One turn of [heartbeatTimerFunction]; the result says whether the loop went on. *)
Definition heartbeat_turn : T bool :=
  s <-- get_session ;;
  if heartbeat_timer_running_ (s_timer s) && bool_decide (session_state_ (s_core s) = LOGGED_ON) then
    hb <-- shouldSendHeartbeat ;;
    (if hb : bool then sendHeartbeat [] else ret true) ;;;
    tr <-- shouldSendTestRequest ;;
    (if tr : bool then sendTestRequest else ret true) ;;;
    ret true
  else ret false.

(** [InboundMessageManager::start], [InboundMessageManager::stop] *)
Definition set_running (b : bool) : T unit :=
  update_session (on_inbound (fun x => mkInbound b (inbound_queue_ x) (outbound_set x) (stats_ x)
                                         (processing_start_time_ x))).
Definition inbound_start : T unit :=
  s <-- get_session ;;
  if running_ (s_inbound s) then ret tt
  else if bool_decide (inbound_queue_ (s_inbound s) = None) || negb (outbound_set (s_inbound s))
       then ret tt
  else set_running true.
Definition inbound_stop : T unit :=
  s <-- get_session ;;
  if negb (running_ (s_inbound s)) then ret tt else set_running false.

(** [FixSessionManager::start], [FixSessionManager::stop] *)
Definition start : T unit :=
  inbound_start ;;;
  on_gap start_gaps ;;;
  t <-- now ;;
  update_session (on_stats (fun s =>
    mkStats (heartbeats_sent s) (heartbeats_received s) (test_requests_sent s)
      (test_requests_received s) (logons_sent s) (logouts_sent s) (sequence_resets_sent s)
      (rejects_sent s) t (last_heartbeat_time s) (current_state s))).
Definition stop : T unit :=
  stopHeartbeatTimer ;;;
  updateSessionState DISCONNECTED ;;;
  on_gap stop_gaps ;;;
  inbound_stop.

(** ** Validation *)

(** [isValidSenderCompId], [isValidTargetCompId], [validateSessionMessage] *)
Definition isValidSenderCompId (c : SessionConfig) (sender_comp_id : bytes) : bool :=
  bool_decide (sender_comp_id = cfg_target_comp_id c).
Definition isValidTargetCompId (c : SessionConfig) (target_comp_id : bytes) : bool :=
  bool_decide (target_comp_id = cfg_sender_comp_id c).
Definition validateSessionMessage (message : Z) : T bool :=
  s <-- get_session ;;
  sender <-- field message Tag.SenderCompID ;;
  match sender with
  | None => ret false
  | Some sender_comp_id =>
      target <-- field message Tag.TargetCompID ;;
      match target with
      | None => ret false
      | Some target_comp_id =>
          ret (isValidSenderCompId (config_ s) sender_comp_id &&
               isValidTargetCompId (config_ s) target_comp_id)
      end
  end.

(** [for (int seq = expected_seq; seq < received_seq; ++seq) addGapEntry(seq);] *)
Fixpoint add_gaps (seq : Z) (n : nat) : T unit :=
  match n with
  | O => ret tt
  | S n' => on_gap (addGapEntry clock seq) ;;; add_gaps (seq + 1) n'
  end.

(** [validateSequenceNumber] *)
Definition validateSequenceNumber (message : Z) : T bool :=
  seq_num_str <-- field message Tag.MsgSeqNum ;;
  match seq_num_str with
  | None => ret false
  | Some seq_num_str =>
      match stoi seq_num_str with
      | StoiOk received_seq =>
          s <-- get_session ;;
          let expected_seq := expected_incoming_seq_num_ (s_core s) in
          poss_dup_flag <-- field message Tag.PossDupFlag ;;
          let is_resend := bool_decide (poss_dup_flag = Some (str "Y")) in
          if received_seq =? expected_seq then
            update_session (on_core (set_expected (wrap32 (expected_seq + 1)))) ;;; ret true
          else if expected_seq <? received_seq then
            if is_resend then
              update_session (on_core (set_expected (wrap32 (received_seq + 1)))) ;;; ret true
            else
              add_gaps expected_seq (Z.to_nat (received_seq - expected_seq)) ;;; ret false
          else ret is_resend
      | _ => ret false
      end
  end.

(** ** Handlers *)

(** [handleLogon] *)
Definition handleLogon (message : Z) : T bool :=
  heartbeat <-- field message Tag.HeartBtInt ;;
  match heartbeat with
  | Some heartbeat_str =>
      match stoi heartbeat_str with
      | StoiOk interval =>
          if 0 <? interval then update_session (on_config (set_interval interval)) else ret tt
      | _ => ret tt
      end
  | None => ret tt
  end ;;;
  updateSessionState LOGGED_ON ;;;
  startHeartbeatTimer ;;;
  ret true.

(** [handleLogout] *)
Definition handleLogout (message : Z) : T bool :=
  field message Tag.Text ;;;
  stopHeartbeatTimer ;;;
  s <-- get_session ;;
  (if decide (session_state_ (s_core s) = LOGGED_ON) then sendLogout (str "Logout acknowledged")
   else ret true) ;;;
  updateSessionState DISCONNECTED ;;;
  ret true.

(** [handleHeartbeat] *)
Definition handleHeartbeat (message : Z) : T bool :=
  update_session (on_stats (count 0 1 0 0 0 0 0 0)) ;;;
  t <-- now ;;
  update_session (on_stats (fun s =>
    mkStats (heartbeats_sent s) (heartbeats_received s) (test_requests_sent s)
      (test_requests_received s) (logons_sent s) (logouts_sent s) (sequence_resets_sent s)
      (rejects_sent s) (session_start_time s) t (current_state s))) ;;;
  id <-- field message Tag.TestReqID ;;
  s <-- get_session ;;
  (if decide (id = Some (pending_test_request_id_ (s_timer s)))
   then update_session (on_timer (set_pending [])) else ret tt) ;;;
  ret true.

(** [handleTestRequest] *)
Definition handleTestRequest (message : Z) : T bool :=
  update_session (on_stats (count 0 0 0 1 0 0 0 0)) ;;;
  id <-- field message Tag.TestReqID ;;
  match id with
  | None => ret false
  | Some test_req_id => sendHeartbeat test_req_id
  end.

(** [handleResendRequest] *)
Definition handleResendRequest (message : Z) : T bool :=
  begin_seq <-- field message Tag.BeginSeqNo ;;
  match begin_seq with
  | None => ret false
  | Some begin_seq_str =>
      end_seq <-- field message Tag.EndSeqNo ;;
      match end_seq with
      | None => ret false
      | Some end_seq_str =>
          match stoi begin_seq_str, stoi end_seq_str with
          | StoiOk _, StoiOk e => sendSequenceReset (wrap32 (e + 1)) true
          | _, _ => ret false
          end
      end
  end.

(** [handleSequenceReset] *)
Definition handleSequenceReset (message : Z) : T bool :=
  new_seq <-- field message Tag.NewSeqNo ;;
  match new_seq with
  | None => ret false
  | Some new_seq_str =>
      match stoi new_seq_str with
      | StoiOk n => update_session (on_core (set_expected n)) ;;; ret true
      | _ => ret false
      end
  end.

(** [handleReject] *)
Definition handleReject (message : Z) : T bool :=
  field message Tag.RefSeqNum ;;;
  field message Tag.Text ;;;
  ret true.

(** The dispatch of [handleMessage] *)
Definition dispatch (message : Z) (msg_type : bytes) : T bool :=
  if decide (msg_type = str "A") then handleLogon message
  else if decide (msg_type = str "5") then handleLogout message
  else if decide (msg_type = str "0") then handleHeartbeat message
  else if decide (msg_type = str "1") then handleTestRequest message
  else if decide (msg_type = str "2") then handleResendRequest message
  else if decide (msg_type = str "4") then handleSequenceReset message
  else if decide (msg_type = str "3") then handleReject message
  else ret false.

(** [handleMessage] *)
Definition handleMessage (message : option Z) : T bool :=
  match message with
  | None => ret false
  | Some message =>
      t <-- now ;;
      update_session (on_timer (fun h =>
        mkTimer (heartbeat_timer_running_ h) (last_heartbeat_sent_ h) t
          (pending_test_request_id_ h) (test_request_sent_time_ h) (test_req_id_counter_ h))) ;;;
      msg_type <-- field message Tag.MsgType ;;
      match msg_type with
      | None => ret false
      | Some msg_type_str =>
          valid <-- validateSessionMessage message ;;
          if negb valid then ret false
          else
            s <-- get_session ;;
            in_sequence <-- (if validate_sequence_numbers (config_ s)
                             then validateSequenceNumber message else ret true) ;;
            if negb in_sequence then ret false
            else try_catch (dispatch message msg_type_str) (ret false)
      end
  end.

(** [isMessageSupported] *)
Definition isMessageSupported (message : option Z) : T bool :=
  match message with
  | None => ret false
  | Some message =>
      t <-- field message Tag.MsgType ;;
      match t with
      | None => ret false
      | Some t => ret (bool_decide (t ∈ [str "A"; str "5"; str "0"; str "1"; str "2"; str "4"; str "3"]))
      end
  end.

(** ** Processing of inbound messages *)

(** [validateMessage] *)
Definition validateMessage (message : Z) : T bool :=
  msg_type <-- field message Tag.MsgType ;;
  sender <-- field message Tag.SenderCompID ;;
  target <-- field message Tag.TargetCompID ;;
  seq <-- field message Tag.MsgSeqNum ;;
  match msg_type, sender, target, seq with
  | Some msg_type, Some sender_comp_id, Some target_comp_id, Some seq_num =>
      if is_nil msg_type || is_nil sender_comp_id || is_nil target_comp_id || is_nil seq_num
      then ret false
      else match stoi seq_num with StoiOk n => ret (0 <? n) | _ => ret false end
  | _, _, _, _ => ret false
  end.

(** The mapping of the type string in [processMessage] *)
Definition processed_type (t : option bytes) : FixMsgType :=
  match t with
  | None => UNKNOWN
  | Some t =>
      if decide (t = str "A") then LOGON
      else if decide (t = str "5") then LOGOUT
      else if decide (t = str "0") then HEARTBEAT
      else if decide (t = str "1") then TEST_REQUEST
      else if decide (t = str "D") then NEW_ORDER_SINGLE
      else if decide (t = str "F") then ORDER_CANCEL_REQUEST
      else UNKNOWN
  end.

(** [recordProcessingStart], [updateStats], [recordProcessingEnd]; the flags [success] and
    [routed] are passed on and never read. *)
Definition recordProcessingStart : T unit :=
  t <-- now ;;
  update_session (on_inbound (fun b => mkInbound (running_ b) (inbound_queue_ b) (outbound_set b)
                                         (stats_ b) t)).
Definition inbound_updateStats (msg_type : FixMsgType) (processing_time : Z) (p : ProcessingStats)
    : ProcessingStats :=
  let new_time_ns := d_of_Z processing_time in
  let total := total_messages_processed p in
  let avg :=
    if total =? 0 then new_time_ns
    else ddiv (dadd (dmul (avg_processing_time_ns p) (d_of_Z total)) new_time_ns)
           (d_of_Z (u64 (total + 1))) in
  let count := message_type_counts p msg_type + 1 in
  let latency :=
    match message_type_avg_latency p msg_type with
    | None => new_time_ns
    | Some l => ddiv (dadd (dmul l (d_of_Z (count - 1))) new_time_ns) (d_of_Z count)
    end in
  mkProcessing total (total_messages_routed p) (total_processing_errors p) (total_routing_errors p)
    (last_message_time p)
    (fun x => if decide (x = msg_type) then count else message_type_counts p x) (priority_routed p)
    avg (fun x => if decide (x = msg_type) then Some latency else message_type_avg_latency p x).
Definition recordProcessingEnd (msg_type : FixMsgType) : T unit :=
  t <-- now ;;
  update_session (fun s =>
    on_processing (inbound_updateStats msg_type (t - processing_start_time_ (s_inbound s))) s).
Definition count_outcome (success : bool) : T unit :=
  update_session (on_processing (fun p =>
    mkProcessing (total_messages_processed p + (if success then 1 else 0)) (total_messages_routed p)
      (total_processing_errors p + (if success then 0 else 1)) (total_routing_errors p)
      (last_message_time p) (message_type_counts p) (priority_routed p)
      (avg_processing_time_ns p) (message_type_avg_latency p))).

(** [processMessage] *)
Definition processMessage (message : option Z) : T bool :=
  match message with
  | None => ret false
  | Some msg =>
      t <-- now ;;
      update_session (on_processing (fun p =>
        mkProcessing (total_messages_processed p) (total_messages_routed p)
          (total_processing_errors p) (total_routing_errors p) t (message_type_counts p)
          (priority_routed p) (avg_processing_time_ns p) (message_type_avg_latency p))) ;;;
      recordProcessingStart ;;;
      type_str <-- field msg Tag.MsgType ;;
      let msg_type := processed_type type_str in
      (* [Some b]: the [try] block returned [b]; [None]: it went on with [success] *)
      r <-- try_catch
        (valid <-- validateMessage msg ;;
         if negb valid then recordProcessingEnd msg_type ;;; ret (Some false, false)
         else
           supported <-- isMessageSupported message ;;
           if negb supported then recordProcessingEnd msg_type ;;; ret (Some false, false)
           else
             success <-- handleMessage message ;;
             count_outcome success ;;;
             ret (None, success))
        (count_outcome false ;;; ret (None, false)) ;;
      match r with
      | (Some b, _) => ret b
      | (None, success) => recordProcessingEnd msg_type ;;; ret success
      end
  end.

(** One turn of [processMessages] while [running_]: the result says whether a message was
    taken from the inbound queue. *)
Definition process_turn : T bool :=
  s <-- get_session ;;
  match inbound_queue_ (s_inbound s) with
  | None => ret false
  | Some q =>
      let '(ok, message, q') := q_pop q in
      setInboundQueue (Some q') ;;;
      if (ok : bool) && negb (message =? 0) then processMessage (Some message) ;;; ret true
      else ret false
  end.

(** [processMessages]; [turns] is how often the loop finds [running_] set before another
    thread stops the manager. *)
Fixpoint poll_loop (turns : nat) : T unit :=
  match turns with
  | O => ret tt
  | S turns => process_turn ;;; poll_loop turns
  end.
Definition processMessages (turns : nat) : T unit :=
  s <-- get_session ;;
  if negb (running_ (s_inbound s)) || bool_decide (inbound_queue_ (s_inbound s) = None) then ret tt
  else poll_loop turns.
End Session.
Arguments T : clear implicits.

(** [InboundMessageManager::getMessagePriority] *)
Definition inbound_priority (msg_type : FixMsgType) : Priority :=
  match msg_type with
  | LOGON | LOGOUT => CRITICAL
  | HEARTBEAT | TEST_REQUEST => HIGH
  | EXECUTION_REPORT | ORDER_CANCEL_REJECT => HIGH
  | NEW_ORDER_SINGLE | ORDER_CANCEL_REQUEST | ORDER_CANCEL_REPLACE_REQUEST => MEDIUM
  | SEQUENCE_RESET | RESEND_REQUEST | REJECT => MEDIUM
  | _ => LOW
  end.

(** [isSessionMessageType], [isTradingMessageType], [isAdminMessageType] *)
Definition isSessionMessageType (t : FixMsgType) : bool :=
  match t with
  | LOGON | LOGOUT | HEARTBEAT | TEST_REQUEST | RESEND_REQUEST | SEQUENCE_RESET | REJECT => true
  | _ => false
  end.
Definition isTradingMessageType (t : FixMsgType) : bool :=
  match t with
  | NEW_ORDER_SINGLE | ORDER_CANCEL_REQUEST | ORDER_CANCEL_REPLACE_REQUEST | EXECUTION_REPORT
  | ORDER_CANCEL_REJECT | ORDER_STATUS_REQUEST => true
  | _ => false
  end.
Definition isAdminMessageType (t : FixMsgType) : bool :=
  match t with
  | MARKET_DATA_REQUEST | MARKET_DATA_SNAPSHOT | MARKET_DATA_INCREMENTAL_REFRESH
  | MARKET_DATA_REQUEST_REJECT => true
  | _ => false
  end.

(** [getHandledMessageTypes] *)
Definition getHandledMessageTypes : list FixMsgType :=
  [LOGON; LOGOUT; HEARTBEAT; TEST_REQUEST; RESEND_REQUEST; SEQUENCE_RESET; REJECT].
