(* ===== verification/SessionSending.v ===== *)
(** What the [send] functions of [FixSessionManager] do: the fields of every message the
    session sends, its sequence number, the queue it goes to, and what happens to it when
    the queue is full. *)
From S2P Require Import Prelude FixFields LockFreeQueue QueueInterface MessagePool FixMessage PriorityQueues MessageSending GapManager SessionManager.

(** The messages the session sends. *)
Inductive outgoing :=
  | OLogon
  | OLogout (reason : bytes)
  | OHeartbeat (test_req_id : bytes)
  | OTestRequest
  | OReject (ref_seq_num : Z) (reason : bytes)
  | OSequenceReset (new_seq_num : Z) (gap_fill : bool).

Section Sending.
Context {Q GQ : Type} `{FifoQueue Z Q} `{FifoQueue GapQueueEntry GQ}.
Variable clock : nat -> Z.
Implicit Types (s : FixSessionManager Q GQ) (e : Env Q).

Definition send (o : outgoing) : T Q GQ bool :=
  match o with
  | OLogon => sendLogon clock
  | OLogout reason => sendLogout clock reason
  | OHeartbeat id => sendHeartbeat clock id
  | OTestRequest => sendTestRequest clock
  | OReject n reason => sendReject clock n reason
  | OSequenceReset n gap_fill => sendSequenceReset clock n gap_fill
  end.

Definition send_priority (o : outgoing) : Priority :=
  match o with
  | OLogon | OLogout _ | OSequenceReset _ _ => CRITICAL
  | OHeartbeat _ | OTestRequest => HIGH
  | OReject _ _ => MEDIUM
  end.

Definition send_type (o : outgoing) : bytes :=
  match o with
  | OLogon => str "A" | OLogout _ => str "5" | OHeartbeat _ => str "0"
  | OTestRequest => str "1" | OReject _ _ => str "3" | OSequenceReset _ _ => str "4"
  end.

(** The fields behind the standard header. *)
Definition send_body (s : FixSessionManager Q GQ) (o : outgoing) (fs : gmap Z bytes) : gmap Z bytes :=
  match o with
  | OLogon =>
      let fs := <[Tag.HeartBtInt := to_string (heartbeat_interval (config_ s))]> fs in
      if reset_sequence_numbers (config_ s) then <[Tag.ResetSeqNumFlag := str "Y"]> fs else fs
  | OLogout reason => if is_nil reason then fs else <[Tag.Text := reason]> fs
  | OHeartbeat id => if is_nil id then fs else <[Tag.TestReqID := id]> fs
  | OTestRequest =>
      <[Tag.TestReqID := str "TEST_" ++ to_string (test_req_id_counter_ (s_timer s))]> fs
  | OReject n reason =>
      let fs := <[Tag.RefSeqNum := to_string n]> fs in
      if is_nil reason then fs else <[Tag.Text := reason]> fs
  | OSequenceReset n gap_fill =>
      let fs := <[Tag.NewSeqNo := to_string n]> fs in
      if gap_fill then <[Tag.GapFillFlag := str "Y"]> fs else fs
  end.

Definition next_outgoing (s : FixSessionManager Q GQ) : Z :=
  wrap32 (outgoing_seq_num_ (s_core s) + 1).

(** All fields of the message, numbered with the next outgoing number, stamped at [t]. *)
Definition send_fields (s : FixSessionManager Q GQ) (o : outgoing) (t : Z) : gmap Z bytes :=
  send_body s o
    (<[Tag.BeginString := str "FIX.4.4"]> (<[Tag.MsgType := send_type o]>
    (<[Tag.SenderCompID := cfg_sender_comp_id (config_ s)]>
    (<[Tag.TargetCompID := cfg_target_comp_id (config_ s)]>
    (<[Tag.MsgSeqNum := to_string (next_outgoing s)]> {[Tag.SendingTime := put_time (t / 1000)]}))))).

(** What sending leaves alone in the session object. *)
Record same_session (s s' : FixSessionManager Q GQ) : Prop := {
  ss_config : config_ s' = config_ s;
  ss_gap : sequence_num_gap_manager_ s' = sequence_num_gap_manager_ s;
  ss_pool : message_pool_set s' = message_pool_set s;
  ss_state : session_state_ (s_core s') = session_state_ (s_core s);
  ss_expected : expected_incoming_seq_num_ (s_core s') = expected_incoming_seq_num_ (s_core s);
  ss_timer : heartbeat_timer_running_ (s_timer s') = heartbeat_timer_running_ (s_timer s);
  ss_current : current_state (session_stats_ s') = current_state (session_stats_ s);
  ss_inbound : inbound_queue_ (s_inbound s') = inbound_queue_ (s_inbound s);
  ss_outbound : outbound_set (s_inbound s') = outbound_set (s_inbound s)
}.

(** Logons counted by the statistics. *)
Definition sent_logons (o : outgoing) (ok : bool) : Z :=
  match o with OLogon => if ok then 1 else 0 | _ => 0 end.

Inductive send_outcome (o : outgoing) s e : bool -> FixSessionManager Q GQ -> Env Q -> Prop :=
  | send_no_message e' :
      idle e e' ->
      message_pool_set s = false \/ pool_is_shutdown_ (env_pool e) = true \/
        available (env_pool e) = 0 ->
      send_outcome o s e false s e'
  | send_lost a i m t s' e' :
      building e a i m e' -> fields_ m = send_fields s o t ->
      outbound_set (s_inbound s) = false \/ room e (send_priority o) = O ->
      same_session s s' -> outgoing_seq_num_ (s_core s') = next_outgoing s ->
      logons_sent (session_stats_ s') = logons_sent (session_stats_ s) ->
      send_outcome o s e false s' e'
  | send_ok a i m t s' e' :
      sent e (send_priority o) a i m e' -> fields_ m = send_fields s o t ->
      same_session s s' -> outgoing_seq_num_ (s_core s') = next_outgoing s ->
      logons_sent (session_stats_ s') = logons_sent (session_stats_ s) + sent_logons o true ->
      send_outcome o s e true s' e'.

(** ** Rules *)

Lemma wp_get_session {A} (k : FixSessionManager Q GQ -> T Q GQ A) Post E s e :
  wp (k s) Post E (s, e) -> wp (bind get_session k) Post E (s, e).
Proof. done. Qed.

Lemma wp_update_session {A} f (k : unit -> T Q GQ A) Post E s e :
  wp (k tt) Post E (f s, e) -> wp (bind (update_session f) k) Post E (s, e).
Proof. done. Qed.

Lemma same_session_refl s : same_session s s.
Proof. by split. Qed.

Definition numbered (s : FixSessionManager Q GQ) : FixSessionManager Q GQ :=
  on_core (fun c => mkCore (session_state_ c) (next_outgoing s) (expected_incoming_seq_num_ c)) s.

(** The header is complete: the message under construction has its fields. *)
Lemma create_header_wp type s e (Post : option Z -> FixSessionManager Q GQ * Env Q -> Prop) :
  pool_wf (env_pool e) -> env_wf e ->
  (forall e', idle e e' ->
     message_pool_set s = false \/ pool_is_shutdown_ (env_pool e) = true \/ available (env_pool e) = 0 ->
     Post None (s, e')) ->
  (forall a i m t e', building e a i m e' ->
     fields_ m = <[Tag.BeginString := str "FIX.4.4"]> (<[Tag.MsgType := type]>
       (<[Tag.SenderCompID := cfg_sender_comp_id (config_ s)]>
       (<[Tag.TargetCompID := cfg_target_comp_id (config_ s)]>
       (<[Tag.MsgSeqNum := to_string (next_outgoing s)]>
       {[Tag.SendingTime := put_time (t / 1000)]})))) ->
     Post (Some a) (numbered s, e')) ->
  wp (create_header clock type) Post (fun _ => False) (s, e).
Proof.
  intros Hp He Hn Hs. unfold create_header. apply wp_get_session.
  destruct (message_pool_set s) eqn:Hset; cbn [negb].
  2: { apply wp_ret, Hn; [by apply idle_refl|by left]. }
  apply wp_env_allocate; [done|done| |].
  2: { intros e' Hi Hc. apply wp_ret, Hn; [done|by right]. }
  intros a i e1 Hb. unfold set_field. do 4 step_update.
  apply wp_bind. unfold getNextOutgoingSeqNum. apply wp_get_session, wp_update_session, wp_ret.
  fold (next_outgoing s). fold (numbered s).
  step_update. unfold now. step_now. step_update. apply wp_ret.
  eapply Hs; [eassumption|].
  unfold newFixMessage, setSendingTime, setField, setFieldInternal, with_fields. cbn [fields_].
  solve_fields.
Qed.

Definition create (o : outgoing) : T Q GQ (option Z) :=
  match o with
  | OLogon => createLogonMessage clock
  | OLogout reason => createLogoutMessage clock reason
  | OHeartbeat id => createHeartbeatMessage clock id
  | OTestRequest => createTestRequestMessage clock
  | OReject n reason => createRejectMessage clock n reason
  | OSequenceReset n gap_fill => createSequenceResetMessage clock n gap_fill
  end.

Lemma then_set_wp hd k s e Post :
  wp hd (fun r x => match r with None => Post None x
                   | Some a => wp (k a) (fun _ => Post (Some a)) (fun _ => False) x end)
     (fun _ => False) (s, e) ->
  wp (then_set hd k : T Q GQ _) Post (fun _ => False) (s, e).
Proof.
  intros Hw. unfold then_set. apply wp_bind. eapply wp_mono; [exact Hw| |done].
  intros [a|] x Hx; [|done]. apply wp_bind. eapply wp_mono; [exact Hx| |done]. by intros [] y Hy.
Qed.

Lemma wp_set_last f a i m e0 (Post : unit -> FixSessionManager Q GQ * Env Q -> Prop) E s e :
  building e0 a i m e -> (forall e', building e0 a i (f m) e' -> Post tt (s, e')) ->
  wp (on_env (env_update f a)) Post E (s, e).
Proof.
  intros Hb Hk. cut (wp (bind (on_env (env_update f a)) ret) Post E (s, e)).
  - unfold wp, bind. by destruct (on_env (env_update f a) (s, e)) as [[] ?].
  - eapply wp_env_update; [exact Hb|]. intros e' He. by apply wp_ret, Hk.
Qed.

(** The session after a message of this kind was created. *)
Definition created (o : outgoing) s s' : Prop :=
  same_session s s' /\ outgoing_seq_num_ (s_core s') = next_outgoing s /\
  logons_sent (session_stats_ s') = logons_sent (session_stats_ s).

Lemma created_numbered o s : created o s (numbered s).
Proof. by split_and!; [split|..]. Qed.

Lemma fields_set tag v m : fields_ (setField tag v m) = <[tag := v]> (fields_ m).
Proof. done. Qed.

(** The last fields of a message: one more setter, or none. *)
Ltac finish_create Hd t Hf :=
  first
  [ apply wp_ret; eapply (Hd _ _ _ t); [eassumption|]; rewrite ?fields_set, Hf; done
  | eapply wp_set_last; [eassumption|]; intros ? ?; eapply (Hd _ _ _ t); [eassumption|];
    rewrite ?fields_set, Hf; done ].

Lemma create_wp o s e (Post : option Z -> FixSessionManager Q GQ * Env Q -> Prop) :
  pool_wf (env_pool e) -> env_wf e ->
  (forall e', idle e e' ->
     message_pool_set s = false \/ pool_is_shutdown_ (env_pool e) = true \/ available (env_pool e) = 0 ->
     Post None (s, e')) ->
  (forall a i m t s' e', building e a i m e' -> fields_ m = send_fields s o t -> created o s s' ->
     Post (Some a) (s', e')) ->
  wp (create o) Post (fun _ => False) (s, e).
Proof.
  intros Hp He Hn Hs. pose proof (created_numbered o s) as Hc.
  assert (forall a i m t e', building e a i m e' -> fields_ m = send_fields s o t ->
            Post (Some a) (numbered s, e')) as Hd by eauto.
  destruct o; cbn [create]; apply then_set_wp; (apply create_header_wp; [done|done|exact Hn|]);
    intros a i m t e' Hb Hf; unfold send_fields, send_body in Hd.
  - apply wp_get_session. step_update. change (config_ (numbered s)) with (config_ s) in *.
    destruct (reset_sequence_numbers (config_ s)); finish_create Hd t Hf.
  - destruct (is_nil reason); finish_create Hd t Hf.
  - destruct (is_nil test_req_id); finish_create Hd t Hf.
  - apply wp_bind. unfold createTestRequestId. apply wp_get_session, wp_update_session, wp_ret.
    step_update. eapply (Hs a i _ t); [eassumption|by rewrite fields_set, Hf|].
    destruct Hc as ([] & ? & ?). by split_and!; [split|..].
  - step_update. destruct (is_nil reason); finish_create Hd t Hf.
  - step_update. destruct gap_fill; finish_create Hd t Hf.
Qed.

(** The outcome of routing a message that was built for this purpose. *)
Lemma route_wp p a i m e0 s e (Post : bool -> FixSessionManager Q GQ * Env Q -> Prop) :
  building e0 a i m e ->
  (outbound_set (s_inbound s) = true -> room e0 p <> O ->
   forall e' s', sent e0 p a i m e' -> same_session s s' -> s_core s' = s_core s ->
     session_stats_ s' = session_stats_ s -> Post true (s', e')) ->
  (outbound_set (s_inbound s) = false \/ room e0 p = O ->
   forall e' s', building e0 a i m e' -> same_session s s' -> s_core s' = s_core s ->
     session_stats_ s' = session_stats_ s -> Post false (s', e')) ->
  wp (routeToOutbound (Some a) p) Post (fun _ => False) (s, e).
Proof.
  intros Hb Hok Hno. unfold routeToOutbound. apply wp_get_session.
  destruct (outbound_set (s_inbound s)) eqn:Ho; cbn [negb].
  - eapply wp_env_push; [exact Hb| |].
    + intros Hr e' Hs. apply wp_update_session, wp_ret. by apply Hok.
    + intros Hr e' Hb'. apply wp_update_session, wp_ret. apply Hno; [by right|done|by split|done|done].
  - apply wp_ret. apply Hno; [by left|done|by split|done|done].
Qed.

(** What the statement after a successful push may do. *)
Definition counts (o : outgoing) (m : T Q GQ unit) : Prop :=
  forall s e, exists s' t, m (s, e) = (Ret tt, (s', mkEnv (env_pool e) (env_queues e) t)) /\
    same_session s s' /\ s_core s' = s_core s /\
    logons_sent (session_stats_ s') = logons_sent (session_stats_ s) + sent_logons o true.

Lemma same_session_trans s1 s2 s3 : same_session s1 s2 -> same_session s2 s3 -> same_session s1 s3.
Proof. intros [] []. split; congruence. Qed.

Lemma send_with_wp o k s e :
  pool_wf (env_pool e) -> env_wf e -> counts o k ->
  wp (send_with (create o) (send_priority o) k)
    (fun b x => send_outcome o s e b (fst x) (snd x)) (fun _ => False) (s, e).
Proof.
  intros Hp He Hk. unfold send_with. apply wp_bind. apply create_wp; [done|done| |].
  { intros e' Hi Hc. apply wp_ret. by apply send_no_message. }
  intros a i m t s1 e1 Hb Hf (Hs1 & Ho1 & Hl1). apply wp_bind. eapply route_wp; [exact Hb| |].
  - intros _ _ e2 s2 Hs Hs2 Hc2 Hst2. apply wp_bind.
    destruct (Hk s2 e2) as (s3 & t3 & E & Hs3 & Hc3 & Hl3). unfold wp at 1. rewrite E. apply wp_ret.
    eapply send_ok; [by apply sent_tick|exact Hf|..].
    + eapply same_session_trans; [exact Hs1|]. by eapply same_session_trans.
    + cbn [fst]. by rewrite Hc3, Hc2.
    + cbn [fst]. by rewrite Hl3, Hst2, Hl1.
  - intros Hr e2 s2 Hb2 Hs2 Hc2 Hst2. apply wp_ret. eapply send_lost; [exact Hb2|exact Hf|..].
    + by rewrite <- (ss_outbound _ _ Hs1).
    + by eapply same_session_trans.
    + cbn [fst]. by rewrite Hc2.
    + cbn [fst]. by rewrite Hst2.
Qed.

Ltac solve_counts :=
  try done; intros x y; destruct y; eexists _, _; (split; [done|]); (split; [by split|]);
  split; try done; simpl; lia.

Lemma send_wp o s e :
  pool_wf (env_pool e) -> env_wf e ->
  wp (send o) (fun b x => send_outcome o s e b (fst x) (snd x)) (fun _ => False) (s, e).
Proof.
  intros Hp He. destruct o as [|reason|id| |n reason|n gap_fill].
  - apply (send_with_wp OLogon); solve_counts.
  - apply (send_with_wp (OLogout reason)); solve_counts.
  - apply (send_with_wp (OHeartbeat id)); solve_counts.
  - apply (send_with_wp OTestRequest); solve_counts.
  - apply (send_with_wp (OReject n reason)); solve_counts.
  - apply (send_with_wp (OSequenceReset n gap_fill)); solve_counts.
Qed.

(** C24: each of the six [send] functions of the session always returns and does one of
    three things.  Without a pool or a free message it returns false and nothing happens.
    Otherwise it takes the next outgoing sequence number and builds a message with exactly
    the header and body fields of its kind under that number; with room in the outbound
    queue of its priority the message is at the back of that queue and the result is true;
    without room it returns false, and the message stays allocated in the pool although no
    queue holds it. *)
Theorem session_send_exact o s e :
  pool_wf (env_pool e) -> env_wf e ->
  exists b s' e', send o (s, e) = (Ret b, (s', e')) /\ send_outcome o s e b s' e'.
Proof.
  intros Hp He. destruct (proj1 (wp_run _ _ _) (send_wp o s e Hp He)) as (b & [s' e'] & E & Ho).
  by exists b, s', e'.
Qed.
End Sending.
