(* ===== verification/SessionProperties.v ===== *)
(** The properties of the session: validation of incoming sequence numbers with gap
    detection, the state machine of the session, and the answer to a resend request. *)
From S2P Require Import Prelude FixFields LockFreeQueue QueueInterface MessagePool FixMessage PriorityQueues MessageSending GapManager SessionManager SessionSending.

Section Properties.
Context {Q GQ : Type} `{FifoQueue Z Q} `{FifoQueue GapQueueEntry GQ}.
Variable clock : nat -> Z.
Implicit Types (s : FixSessionManager Q GQ) (e : Env Q).

(** ** Reading fields *)

Lemma field_eval a tag m s e :
  deref (env_pool e) a = Some m -> field a tag (s, e) = (Ret (getField tag m), (s, e)).
Proof.
  intros Hd. unfold field, on_env, env_read, env_call. cbn [snd fst]. rewrite Hd. cbn [snd fst].
  rewrite update_object_id. by destruct e.
Qed.

Lemma wp_field {A} a tag m (k : option bytes -> T Q GQ A) Post E s e :
  deref (env_pool e) a = Some m -> wp (k (getField tag m)) Post E (s, e) ->
  wp (bind (field a tag) k) Post E (s, e).
Proof. intros Hd Hk. unfold wp. by rewrite (bind_ret _ _ _ _ _ (field_eval a tag m s e Hd)). Qed.

(** ** Gaps *)

Lemma add_gaps_refines n seq s e g gaps :
  sequence_num_gap_manager_ s = Some g -> tracks (g, e) gaps ->
  exists g' e', add_gaps clock seq n (s, e) = (Ret tt, (with_gap (Some g') s, e')) /\
    keeps (g, e) (g', e') /\
    (exists gaps', tracks (g', e') gaps' /\
      ((base.size gaps + n <= gap_capacity (g, e))%nat ->
       gaps' = gaps ∪ list_to_set (seqZ seq (Z.of_nat n)))).
Proof.
  revert seq s e g gaps. induction n as [|n IH]; intros seq s e g gaps Hg Ht.
  - exists g, e. split; [destruct s; simpl in *; by subst|]. split; [by split_and!|].
    exists gaps. split; [done|]. intros _. simpl. set_solver.
  - destruct (add_refines clock seq (g, e) gaps Ht) as ([g1 e1] & E1 & Ht1 & Hk1).
    unfold run_gap_op in E1. unfold bind in E1.
    destruct (addGapEntry clock seq (g, e)) as [[[]| | |] [g0 e0]] eqn:E0; simpl in E1; try done.
    injection E1 as -> ->.
    set (s1 := with_gap (Some g1) s).
    destruct (IH (seq + 1) s1 e1 g1 _ eq_refl Ht1) as (g2 & e2 & E2 & Hk2 & gaps2 & Ht2 & Hs2).
    exists g2, e2. cbn [add_gaps].
    assert (on_gap (addGapEntry clock seq) (s, e) = (Ret tt, (s1, e1))) as E3
      by (unfold on_gap; cbn [fst snd]; by rewrite Hg, E0).
    rewrite (bind_ret _ _ _ _ _ E3). split; [by rewrite E2|].
    destruct Hk1 as (K1 & K2 & K3 & K4), Hk2 as (L1 & L2 & L3 & L4).
    split; [split_and!; congruence|]. exists gaps2. split; [done|]. intros Hsz.
    cbn [spec_gap_op snd] in Hs2. rewrite decide_True in Hs2 by lia.
    rewrite Hs2; [|rewrite K1; pose proof (size_union_alt ({[seq]} : gset Z) gaps); rewrite size_singleton in *; 
      pose proof (subseteq_size (gaps ∖ {[seq]}) gaps ltac:(set_solver)); lia].
    rewrite (seqZ_cons seq (Z.of_nat (S n))) by lia. cbn [list_to_set].
    replace (Z.pred (Z.of_nat (S n))) with (Z.of_nat n) by lia. replace (Z.succ seq) with (seq + 1) by lia.
    set_solver.
Qed.

(** Without a gap manager nothing is recorded. *)
Lemma add_no_gaps n seq s e :
  sequence_num_gap_manager_ s = None -> add_gaps clock seq n (s, e) = (Ret tt, (s, e)).
Proof.
  intros Hg. revert seq. induction n as [|n IH]; intros seq; [done|]. cbn [add_gaps].
  assert (on_gap (addGapEntry clock seq) (s, e) = (Ret tt, (s, e))) as E
    by (unfold on_gap; cbn [fst]; by rewrite Hg).
  rewrite (bind_ret _ _ _ _ _ E). apply IH.
Qed.

(** C23: [validateSequenceNumber] decides every case.  A missing or malformed number is
    refused.  The expected number is accepted and the next one expected.  A duplicate
    marked with PossDupFlag is accepted, and moves the expectation forward if its number is
    beyond it.  Any other number is refused: a smaller one changes nothing; a larger one
    leaves the expectation alone and, when there is a gap manager whose queue has room for
    them, adds exactly the numbers from the expected one up to it to the gaps; without a
    gap manager nothing changes. *)
Theorem sequence_validation a m s e gaps :
  deref (env_pool e) a = Some m ->
  (forall g, sequence_num_gap_manager_ s = Some g -> tracks (g, e) gaps) ->
  exists b s' e', validateSequenceNumber clock a (s, e) = (Ret b, (s', e')) /\
    let expected := expected_incoming_seq_num_ (s_core s) in
    let dup := bool_decide (getField Tag.PossDupFlag m = Some (str "Y")) in
    match getFieldInt Tag.MsgSeqNum m with
    | None => b = false /\ s' = s /\ e' = e
    | Some n =>
        if n =? expected then
          b = true /\ s' = on_core (set_expected (wrap32 (expected + 1))) s /\ e' = e
        else if dup then
          b = true /\ e' = e /\
          s' = (if expected <? n then on_core (set_expected (wrap32 (n + 1))) s else s)
        else
          b = false /\
          if n <? expected then s' = s /\ e' = e
          else match sequence_num_gap_manager_ s with
               | None => s' = s /\ e' = e
               | Some g => exists g' gaps', s' = with_gap (Some g') s /\ keeps (g, e) (g', e') /\
                   tracks (g', e') gaps' /\
                   (Z.of_nat (base.size gaps) + (n - expected) <= Z.of_nat (gap_capacity (g, e)) ->
                    gaps' = gaps ∪ list_to_set (seqZ expected (n - expected)))
               end
    end.
Proof.
  intros Hd Ht. unfold validateSequenceNumber, getFieldInt.
  rewrite (bind_ret _ _ _ _ _ (field_eval a Tag.MsgSeqNum m s e Hd)).
  destruct (getField Tag.MsgSeqNum m) as [v|]; [|by eexists _, _, _].
  destruct (stoi v) as [n| |]; [|by eexists _, _, _..].
  rewrite (bind_ret get_session _ (s, e) s (s, e) eq_refl). cbn zeta.
  rewrite (bind_ret _ _ _ _ _ (field_eval a Tag.PossDupFlag m s e Hd)).
  set (expected := expected_incoming_seq_num_ (s_core s)).
  destruct (Z.eqb_spec n expected); [by eexists _, _, _|].
  destruct (Z.ltb_spec expected n); case_bool_decide; try (by eexists _, _, _).
  - destruct (Z.ltb_spec n expected); [lia|]. destruct (sequence_num_gap_manager_ s) as [g|] eqn:Hg.
    + destruct (add_gaps_refines (Z.to_nat (n - expected)) expected s e g gaps Hg (Ht g eq_refl))
        as (g' & e' & E & Hk & gaps' & Ht' & Hs).
      rewrite (bind_ret _ _ _ _ _ E). eexists _, _, _. split; [done|]. split; [done|].
      exists g', gaps'. split_and!; try done.
      intros Hc. rewrite Z2Nat.id in Hs by lia. apply Hs. lia.
    + rewrite (bind_ret _ _ _ _ _ (add_no_gaps _ _ s e Hg)). by eexists _, _, _.
  - eexists _, _, _. split; [done|]. split; [done|]. by destruct (Z.ltb_spec n expected); [|lia].
Qed.

(** ** The state machine *)

(** The parts of the world a session works on are well-formed. *)
Definition gap_manager_ok s : Prop :=
  match sequence_num_gap_manager_ s with
  | None => True
  | Some g => exists gaps, forall e, tracks (g, e) gaps
  end.
Definition world_ok s e : Prop := pool_wf (env_pool e) /\ env_wf e /\ gap_manager_ok s.

(** The session is in state [st] with the timer flag [tm], its statistics agree, and [ev]
    tells whether the number of counted logons is even. *)
Definition is_in (st : SessionState) (tm ev : bool) s e : Prop :=
  session_state_ (s_core s) = st /\ current_state (session_stats_ s) = st /\
  heartbeat_timer_running_ (s_timer s) = tm /\ Z.even (logons_sent (session_stats_ s)) = ev /\
  world_ok s e.

(** The states and timer flags that go together. *)
Definition allowed (st : SessionState) (tm : bool) : Prop :=
  match st with
  | DISCONNECTED | LOGON_SENT => tm = false
  | LOGGED_ON => tm = true
  | LOGOUT_SENT => True
  | CONNECTING | DISCONNECTING => False
  end.

Definition session_inv s e : Prop :=
  exists st tm, allowed st tm /\ is_in st tm true s e.

(** Computations that keep the session in its state. *)
Definition steady {A} (m : T Q GQ A) : Prop :=
  forall st tm ev s e, is_in st tm ev s e ->
    wp m (fun _ x => is_in st tm ev (fst x) (snd x)) (fun _ => False) (s, e).

Lemma steady_ret {A} (a : A) : steady (ret a).
Proof. by intros st tm ev s e Hi. Qed.

Lemma steady_bind {A B} (m : T Q GQ A) (k : A -> T Q GQ B) :
  steady m -> (forall a, steady (k a)) -> steady (bind m k).
Proof.
  intros Hm Hk st tm ev s e Hi. apply wp_bind. eapply wp_mono; [by apply Hm| |done].
  intros a [s' e'] Hi'. by apply Hk.
Qed.

Lemma steady_get : steady get_session.
Proof. by intros st tm ev s e Hi. Qed.

Lemma steady_now : steady (now clock).
Proof.
  intros st tm ev s e (H1 & H2 & H3 & H4 & H5 & [H6 H6'] & H7).
  unfold wp. simpl. do 4 (split; [done|]). split; [done|]. by split; [split|].
Qed.

Lemma steady_update f :
  (forall s, same_session s (f s) /\
     logons_sent (session_stats_ (f s)) = logons_sent (session_stats_ s)) ->
  steady (update_session f).
Proof.
  intros Hf st tm ev s e (H1 & H2 & H3 & H4 & H5 & H6 & H7). unfold wp. simpl.
  destruct (Hf s) as [[] Hl]. unfold is_in, world_ok, gap_manager_ok.
  rewrite ss_state, ss_current, ss_timer, Hl, ss_gap. by split_and!.
Qed.

(** A message that is live stays readable while the session is steady. *)
Lemma wp_field_in {A} a tag (k : option bytes -> T Q GQ A) Post s e :
  is_Some (deref (env_pool e) a) -> (forall v, wp (k v) Post (fun _ => False) (s, e)) ->
  wp (bind (field a tag) k) Post (fun _ => False) (s, e).
Proof. intros [m Hd] Hk. eapply wp_field; [exact Hd|apply Hk]. Qed.

Lemma send_outcome_in o b s e s' e' st tm ev :
  send_outcome o s e b s' e' -> is_in st tm ev s e ->
  is_in st tm (match o with OLogon => if b then negb ev else ev | _ => ev end) s' e'.
Proof.
  intros Ho (H1 & H2 & H3 & H4 & H5 & H6 & H7).
  destruct Ho as [e' Hi _|a i m t s' e' [Hb [He _]] _ _ Hs _ Hl|a i m t s' e' (Hb & He & _) _ Hs _ Hl].
  - unfold is_in, world_ok. rewrite H4. split_and!; try done; [by destruct o|by apply idle_pool_wf in Hi|by apply idle_wf in Hi].
  - destruct Hs. unfold is_in, world_ok, gap_manager_ok. rewrite ss_state, ss_current, ss_timer, Hl, ss_gap.
    split_and!; try done; [by destruct o|apply Hb].
  - destruct Hs. unfold is_in, world_ok, gap_manager_ok. rewrite ss_state, ss_current, ss_timer, Hl, ss_gap.
    split_and!; try done; [|apply Hb].
    destruct o; simpl; rewrite ?Z.add_0_r; try done. rewrite Z.even_add, H4. by destruct ev.
Qed.

Lemma wp_send o st tm ev s e :
  is_in st tm ev s e ->
  wp (send clock o) (fun b x => is_in st tm (match o with OLogon => if b then negb ev else ev | _ => ev end)
                                 (fst x) (snd x)) (fun _ => False) (s, e).
Proof.
  intros Hi. eapply wp_mono; [apply send_wp; apply Hi| |done].
  intros b [s' e'] Ho. by eapply send_outcome_in.
Qed.

Lemma steady_send o : o <> OLogon -> steady (send clock o).
Proof. intros Ho st tm ev s e Hi. pose proof (wp_send o st tm ev s e Hi) as Hw. by destruct o. Qed.

Lemma wp_state {A} st st' tm ev (k : unit -> T Q GQ A) Post s e :
  is_in st tm ev s e ->
  (forall s', is_in st' tm ev s' e -> config_ s' = config_ s ->
     wp (k tt) Post (fun _ => False) (s', e)) ->
  wp (bind (updateSessionState st') k) Post (fun _ => False) (s, e).
Proof.
  intros (H1 & H2 & H3 & H4 & H5) Hk. unfold wp, bind, updateSessionState. simpl. apply Hk; [|done].
  by split_and!.
Qed.

Lemma wp_start_timer {A} st tm ev (k : unit -> T Q GQ A) Post s e :
  is_in st tm ev s e ->
  (forall s', is_in st true ev s' e -> wp (k tt) Post (fun _ => False) (s', e)) ->
  wp (bind startHeartbeatTimer k) Post (fun _ => False) (s, e).
Proof.
  intros (H1 & H2 & H3 & H4 & H5) Hk. unfold startHeartbeatTimer. apply wp_bind, wp_get_session.
  destruct (heartbeat_timer_running_ (s_timer s)) eqn:Ht; [apply wp_ret|]; by apply Hk; split_and!.
Qed.

Lemma wp_stop_timer {A} st tm ev (k : unit -> T Q GQ A) Post s e :
  is_in st tm ev s e ->
  (forall s', is_in st false ev s' e -> wp (k tt) Post (fun _ => False) (s', e)) ->
  wp (bind stopHeartbeatTimer k) Post (fun _ => False) (s, e).
Proof.
  intros (H1 & H2 & H3 & H4 & H5) Hk. unfold stopHeartbeatTimer. apply wp_bind, wp_get_session.
  destruct (heartbeat_timer_running_ (s_timer s)) eqn:Ht; cbn [negb]; [|apply wp_ret];
    by apply Hk; split_and!.
Qed.

(** ** Validation keeps the state *)

(** Adding gaps allocates and frees nothing. *)
Lemma add_gaps_in n seq st tm ev s e :
  is_in st tm ev s e ->
  wp (add_gaps clock seq n)
    (fun _ x => is_in st tm ev (fst x) (snd x) /\ env_pool (snd x) = env_pool e) (fun _ => False) (s, e).
Proof.
  intros Hi. pose proof Hi as (H1 & H2 & H3 & H4 & H5 & H6 & H7). unfold gap_manager_ok in H7.
  destruct (sequence_num_gap_manager_ s) as [g|] eqn:Hg.
  - destruct H7 as [gaps Ht].
    destruct (add_gaps_refines n seq s e g gaps Hg (Ht e)) as (g' & e' & E & Hk & gaps' & Ht' & _).
    unfold wp. rewrite E. destruct Hk as (_ & _ & K1 & K2). simpl in K1, K2. simpl.
    split; [|done]. do 4 (split; [done|]). split; [by rewrite K1|].
    split; [by destruct H6; split; rewrite K2|]. by exists gaps'.
  - unfold wp. by rewrite (add_no_gaps n seq s e Hg).
Qed.

Lemma is_in_update f st tm ev s e :
  same_session s (f s) -> logons_sent (session_stats_ (f s)) = logons_sent (session_stats_ s) ->
  is_in st tm ev s e -> is_in st tm ev (f s) e.
Proof.
  intros [] Hl (H1 & H2 & H3 & H4 & H5 & H6 & H7). unfold is_in, world_ok, gap_manager_ok.
  rewrite ss_state, ss_current, ss_timer, Hl, ss_gap. by split_and!.
Qed.

Lemma is_in_expected n st tm ev s e : is_in st tm ev s e -> is_in st tm ev (on_core (set_expected n) s) e.
Proof. intros (H1 & H2 & H3 & H4 & H5). by split_and!. Qed.

Lemma validateSequence_in a st tm ev s e :
  is_in st tm ev s e -> is_Some (deref (env_pool e) a) ->
  wp (validateSequenceNumber clock a)
    (fun _ x => is_in st tm ev (fst x) (snd x) /\ env_pool (snd x) = env_pool e) (fun _ => False) (s, e).
Proof.
  intros Hi Hd. unfold validateSequenceNumber. apply wp_field_in; [done|]. intros [v|]; [|done].
  destruct (stoi v) as [n| |]; try done. apply wp_get_session. apply wp_field_in; [done|]. intros dup.
  destruct (_ =? _); [by apply wp_update_session, wp_ret; split; [apply is_in_expected|]|].
  destruct (_ <? _); [|done].
  case_bool_decide; [by apply wp_update_session, wp_ret; split; [apply is_in_expected|]|].
  apply wp_bind. eapply wp_mono; [by apply add_gaps_in| |done]. by intros [] [s' e'] Hi'.
Qed.

Lemma validateSession_in a st tm ev s e (Post : bool -> _ -> Prop) :
  is_in st tm ev s e -> is_Some (deref (env_pool e) a) -> (forall b, Post b (s, e)) ->
  wp (validateSessionMessage a) Post (fun _ => False) (s, e).
Proof.
  intros Hi Hd Hp. unfold validateSessionMessage. apply wp_get_session.
  apply wp_field_in; [done|]. intros [v|]; [|by apply wp_ret].
  apply wp_field_in; [done|]. intros [v'|]; by apply wp_ret.
Qed.

(** ** Handlers *)

(** The state a message of type [t] leads to: a logon that was handled logs on, a logout
    that was handled disconnects, everything else leaves the state alone. *)
Definition handled_state (t : option bytes) (handled : bool) (st : SessionState) : SessionState :=
  if handled then
    if decide (t = Some (str "A")) then LOGGED_ON
    else if decide (t = Some (str "5")) then DISCONNECTED else st
  else st.

Definition moved (t : option bytes) (st : SessionState) (handled : bool)
    (x : FixSessionManager Q GQ * Env Q) : Prop :=
  exists tm', allowed (handled_state t handled st) tm' /\
    is_in (handled_state t handled st) tm' true (fst x) (snd x).

Lemma moved_same t st tm s e : allowed st tm -> is_in st tm true s e -> moved t st false (s, e).
Proof. intros Ha Hi. by exists tm. Qed.

Lemma handleLogon_in a st tm s e :
  is_in st tm true s e -> is_Some (deref (env_pool e) a) ->
  wp (handleLogon a) (moved (Some (str "A")) st) (fun _ => False) (s, e).
Proof.
  intros Hi Hd. unfold handleLogon. apply wp_field_in; [done|]. intros v. apply wp_bind.
  assert (forall n, is_in st tm true (on_config (set_interval n) s) e) as Hn
    by (intros n; destruct Hi as (? & ? & ? & ? & ?); by split_and!).
  assert (forall s', is_in st tm true s' e ->
    wp (updateSessionState LOGGED_ON ;;; startHeartbeatTimer ;;; ret true)
       (moved (Some (str "A")) st) (fun _ => False) (s', e)) as Hrest.
  { intros s' Hi'. eapply (wp_state _ LOGGED_ON); [exact Hi'|]. intros s1 H1 _.
    eapply wp_start_timer; [exact H1|]. intros s2 H2. apply wp_ret.
    by exists true. }
  destruct v as [v|]; [|by apply Hrest]. destruct (stoi v) as [n| |]; try (by apply Hrest).
  destruct (0 <? n); [|by apply Hrest]. apply Hrest, Hn.
Qed.

Lemma handleLogout_in a st tm s e :
  is_in st tm true s e -> is_Some (deref (env_pool e) a) ->
  wp (handleLogout clock a) (moved (Some (str "5")) st) (fun _ => False) (s, e).
Proof.
  intros Hi Hd. unfold handleLogout. apply wp_field_in; [done|]. intros _.
  eapply wp_stop_timer; [exact Hi|]. intros s1 H1. apply wp_get_session. apply wp_bind.
  assert (forall x, is_in st false true (fst x) (snd x) ->
    wp (updateSessionState DISCONNECTED ;;; ret true) (moved (Some (str "5")) st)
       (fun _ => False) x) as Hrest.
  { intros [s2 e2] H2. eapply (wp_state _ DISCONNECTED); [exact H2|]. intros s3 H3 _. apply wp_ret.
    by exists false. }
  case_decide; [|by apply Hrest].
  eapply wp_mono; [apply (steady_send (OLogout _)); [done|exact H1]| |done].
  intros b x Hx. by apply Hrest.
Qed.

Lemma is_in_count a b c d f g h st tm ev s e :
  is_in st tm ev s e -> is_in st tm ev (on_stats (count a b c d 0 f g h) s) e.
Proof. intros Hi. apply is_in_update; [by split|simpl; lia|done]. Qed.

Lemma handleHeartbeat_in a st tm s e :
  is_in st tm true s e -> is_Some (deref (env_pool e) a) ->
  wp (handleHeartbeat clock a) (fun _ x => is_in st tm true (fst x) (snd x)) (fun _ => False) (s, e).
Proof.
  intros Hi Hd. unfold handleHeartbeat. apply wp_update_session, wp_env_now, wp_update_session.
  apply (is_in_count 0 1 0 0 0 0 0) in Hi.
  set (e1 := mkEnv _ _ _).
  match goal with |- wp _ _ _ (?s2, _) => assert (is_in st tm true s2 e1) as H2 end.
  { destruct Hi as (H1 & H2 & H3 & H4 & H5 & [H6 H6'] & H7). do 4 (split; [done|]). split; [done|]. by split; [split|]. }
  apply wp_field_in; [done|]. intros v. apply wp_get_session. apply wp_bind.
  case_decide; [|by apply wp_ret]. apply (is_in_update (on_timer (set_pending []))); [by split|done|done].
Qed.

Lemma handleTestRequest_in a st tm s e :
  is_in st tm true s e -> is_Some (deref (env_pool e) a) ->
  wp (handleTestRequest clock a) (fun _ x => is_in st tm true (fst x) (snd x)) (fun _ => False) (s, e).
Proof.
  intros Hi Hd. unfold handleTestRequest. apply wp_update_session. apply wp_field_in; [done|].
  apply (is_in_count 0 0 0 1 0 0 0) in Hi.
  intros [v|]; [|by apply wp_ret]. by apply (steady_send (OHeartbeat v)).
Qed.

Lemma handleResendRequest_in a st tm s e :
  is_in st tm true s e -> is_Some (deref (env_pool e) a) ->
  wp (handleResendRequest clock a) (fun _ x => is_in st tm true (fst x) (snd x)) (fun _ => False) (s, e).
Proof.
  intros Hi Hd. unfold handleResendRequest. apply wp_field_in; [done|]. intros [v|]; [|by apply wp_ret].
  apply wp_field_in; [done|]. intros [v'|]; [|by apply wp_ret].
  destruct (stoi v); [|by apply wp_ret..]. destruct (stoi v'); [|by apply wp_ret..].
  by apply (steady_send (OSequenceReset _ _)).
Qed.

Lemma handleSequenceReset_in a st tm s e :
  is_in st tm true s e -> is_Some (deref (env_pool e) a) ->
  wp (handleSequenceReset a) (fun _ x => is_in st tm true (fst x) (snd x)) (fun _ => False) (s, e).
Proof.
  intros Hi Hd. unfold handleSequenceReset. apply wp_field_in; [done|]. intros [v|]; [|by apply wp_ret].
  destruct (stoi v); [|by apply wp_ret..]. by apply wp_update_session, wp_ret, is_in_expected.
Qed.

Lemma handleReject_in a st tm s e :
  is_in st tm true s e -> is_Some (deref (env_pool e) a) ->
  wp (handleReject a) (fun _ x => is_in st tm true (fst x) (snd x)) (fun _ => False) (s, e).
Proof.
  intros Hi Hd. unfold handleReject. apply wp_field_in; [done|]. intros _.
  apply wp_field_in; [done|]. intros _. by apply wp_ret.
Qed.

(** Runs that keep the state are moves, of any type that moves nothing. *)
Lemma wp_moved t st tm s e (m : T Q GQ bool) :
  allowed st tm -> t <> str "A" -> t <> str "5" ->
  wp m (fun _ x => is_in st tm true (fst x) (snd x)) (fun _ => False) (s, e) ->
  wp m (moved (Some t) st) (fun _ => False) (s, e).
Proof.
  intros Ha HA H5 Hw. eapply wp_mono; [exact Hw| |done]. intros b [s' e'] Hi.
  assert (handled_state (Some t) b st = st) as E
    by (unfold handled_state; destruct b; [rewrite !decide_False by congruence|]; done).
  exists tm. by rewrite E.
Qed.

Lemma dispatch_in a t st tm s e :
  allowed st tm -> is_in st tm true s e -> is_Some (deref (env_pool e) a) ->
  wp (dispatch clock a t) (moved (Some t) st) (fun _ => False) (s, e).
Proof.
  intros Ha Hi Hd. unfold dispatch.
  destruct (decide (t = str "A")) as [->|HA]; [by eapply handleLogon_in|].
  destruct (decide (t = str "5")) as [->|H5]; [by eapply handleLogout_in|].
  repeat (case_decide as Hx; [clear Hx; eapply wp_moved; [exact Ha|done|done|];
    first [by apply handleHeartbeat_in | by apply handleTestRequest_in | by apply handleResendRequest_in
          | by apply handleSequenceReset_in | by apply handleReject_in]|clear Hx]).
  apply wp_ret. by eapply moved_same.
Qed.

Lemma is_in_tick n st tm ev s e :
  is_in st tm ev s e -> is_in st tm ev s (mkEnv (env_pool e) (env_queues e) n).
Proof.
  intros (H1 & H2 & H3 & H4 & H5 & [H6 H6'] & H7). do 4 (split; [done|]). split; [done|].
  by split; [split|].
Qed.

Lemma handleMessage_in a m st tm s e :
  allowed st tm -> is_in st tm true s e -> deref (env_pool e) a = Some m ->
  wp (handleMessage clock (Some a)) (moved (getField Tag.MsgType m) st) (fun _ => False) (s, e).
Proof.
  intros Ha Hi Hd. unfold handleMessage. apply wp_env_now, wp_update_session.
  set (e1 := mkEnv _ _ _). set (s1 := on_timer _ s).
  assert (is_in st tm true s1 e1) as H1
    by (apply (is_in_update (on_timer _)); [by split|done|by apply is_in_tick]).
  eapply wp_field; [exact Hd|]. destruct (getField Tag.MsgType m) as [t|] eqn:Ht; [|by apply wp_ret; eapply moved_same].
  apply wp_bind. eapply validateSession_in; [exact H1|by eexists|]. intros [|]; cbn [negb];
    [|by apply wp_ret; eapply moved_same].
  apply wp_get_session. apply wp_bind.
  assert (forall b x, is_in st tm true (fst x) (snd x) /\ env_pool (snd x) = env_pool e1 ->
    wp (if negb b then ret false else try_catch (dispatch clock a t) (ret false))
       (moved (Some t) st) (fun _ => False) x) as Hrest.
  { intros b [s2 e2] [H2 Hp]. cbn [fst snd] in *. destruct b; cbn [negb].
    - apply wp_try. eapply wp_mono; [apply (dispatch_in a t st tm); [done|done|]|done|done].
      rewrite Hp. by eexists.
    - apply wp_ret. by eapply moved_same. }
  destruct (validate_sequence_numbers (config_ s1)).
  - eapply wp_mono; [by apply validateSequence_in; [|eexists]| |done]. intros b x Hx. by apply Hrest.
  - by apply wp_ret, Hrest.
Qed.

(** ** The calls of the session's clients *)

(** The public interface, and the turns of the heartbeat thread; a turn of [processMessages]
    is [processMessage] on what it takes from the inbound queue. *)
Inductive session_call :=
  | CLogon
  | CLogout (reason : bytes)
  | CMessage (a : Z)
  | CHeartbeatTurn
  | CStart
  | CStop
  | CSetMessagePool (is_set : bool)
  | CSetInboundQueue (q : option Q)
  | CSetOutboundQueues (is_set : bool)
  | CSetSequenceNumbers (incoming_seq outgoing_seq : Z)
  | CUpdateHeartbeatInterval (seconds : Z)
  | CNextOutgoing.

Definition run_call (c : session_call) : T Q GQ bool :=
  match c with
  | CLogon => initiateLogon clock
  | CLogout reason => initiateLogout clock reason
  | CMessage a => processMessage clock (Some a)
  | CHeartbeatTurn => heartbeat_turn clock
  | CStart => start clock ;;; ret true
  | CStop => stop ;;; ret true
  | CSetMessagePool b => setMessagePool b ;;; ret true
  | CSetInboundQueue q => setInboundQueue q ;;; ret true
  | CSetOutboundQueues b => setOutboundQueues b ;;; ret true
  | CSetSequenceNumbers i o => setSequenceNumbers i o ;;; ret true
  | CUpdateHeartbeatInterval n => updateHeartbeatInterval n ;;; ret true
  | CNextOutgoing => getNextOutgoingSeqNum ;;; ret true
  end.

(** The gap thread runs *)
Definition gap_thread_runs s : bool :=
  match sequence_num_gap_manager_ s with Some g => is_running_ g | None => false end.

(** A message passed in is live, and a session is started whose gap thread does not run. *)
Definition call_ready (c : session_call) (x : FixSessionManager Q GQ * Env Q) : Prop :=
  match c with
  | CMessage a => is_Some (deref (env_pool (snd x)) a)
  | CStart => gap_thread_runs (fst x) = false
  | _ => True
  end.

(** The state changes of each call that returns [b]. *)
Definition call_move (c : session_call) (e : Env Q) (b : bool) (st st' : SessionState) : Prop :=
  match c with
  | CLogon => if b then st = DISCONNECTED /\ st' = LOGON_SENT else st' = st
  | CLogout _ =>
      if decide (st = LOGGED_ON \/ st = LOGON_SENT) then st' = LOGOUT_SENT else b = false /\ st' = st
  | CMessage a => st' = handled_state (m ← deref (env_pool e) a; getField Tag.MsgType m) b st
  | CStop => st' = DISCONNECTED
  | _ => st' = st
  end.

Definition call_post (c : session_call) (e : Env Q) (st : SessionState) (b : bool)
    (x : FixSessionManager Q GQ * Env Q) : Prop :=
  exists st' tm', allowed st' tm' /\ is_in st' tm' true (fst x) (snd x) /\ call_move c e b st st'.

Lemma initiateLogon_in st tm s e :
  allowed st tm -> is_in st tm true s e ->
  wp (initiateLogon clock) (call_post CLogon e st) (fun _ => False) (s, e).
Proof.
  intros Ha Hi. unfold initiateLogon. apply wp_get_session.
  rewrite (proj1 Hi). case_decide as Hst.
  { apply wp_ret. by exists st, tm. }
  assert (st = DISCONNECTED) as -> by (destruct st; try done; by destruct Hst). simpl in Ha. subst tm.
  eapply (wp_state _ LOGON_SENT); [exact Hi|]. intros s1 H1 _. apply wp_bind.
  eapply wp_mono; [apply (wp_send OLogon), H1| |done]. intros [|] [s2 e2] H2; cbn [fst snd negb] in H2.
  - apply wp_update_session, wp_ret. exists LOGON_SENT, false. split; [done|]. split; [|done].
    destruct H2 as (A1 & A2 & A3 & A4 & A5). split_and!; try done.
    simpl. rewrite Z.even_add. simpl in A4. by rewrite A4.
  - eapply (wp_state _ DISCONNECTED); [exact H2|]. intros s3 H3 _. apply wp_ret.
    by exists DISCONNECTED, false.
Qed.

Lemma initiateLogout_in reason st tm s e :
  allowed st tm -> is_in st tm true s e ->
  wp (initiateLogout clock reason) (call_post (CLogout reason) e st) (fun _ => False) (s, e).
Proof.
  intros Ha Hi. unfold initiateLogout. apply wp_get_session. cbn zeta.
  rewrite (proj1 Hi). case_decide as Hst.
  { apply wp_ret. exists st, tm. split_and!; try done. simpl. rewrite decide_False; [done|naive_solver]. }
  assert (st = LOGGED_ON \/ st = LOGON_SENT) as Hs by (destruct st; try (by left); try (by right); by destruct Hst).
  eapply (wp_state _ LOGOUT_SENT); [exact Hi|]. intros s1 H1 _. apply wp_bind.
  eapply wp_mono; [apply (steady_send (OLogout reason)); [done|exact H1]| |done].
  intros b [s2 e2] H2. assert (forall s3, is_in LOGOUT_SENT tm true s3 e2 -> call_post (CLogout reason) e st b (s3, e2)) as Hp.
  { intros s3 H3. exists LOGOUT_SENT, tm. split_and!; try done. simpl. by rewrite decide_True. }
  destruct b; [apply wp_update_session, wp_ret|apply wp_ret]; apply Hp; [|done].
  by apply (is_in_count 0 0 0 0 1 0 0).
Qed.

Lemma steady_should_heartbeat : steady (shouldSendHeartbeat clock).
Proof. apply steady_bind; [apply steady_now|]. intros t. apply steady_bind; [apply steady_get|]. intros s. apply steady_ret. Qed.
Lemma steady_should_test : steady (shouldSendTestRequest clock).
Proof. apply steady_bind; [apply steady_now|]. intros t. apply steady_bind; [apply steady_get|]. intros s. apply steady_ret. Qed.

Lemma steady_heartbeat_turn : steady (heartbeat_turn clock).
Proof.
  apply steady_bind; [apply steady_get|]. intros s. destruct (_ && _); [|apply steady_ret].
  apply steady_bind; [apply steady_should_heartbeat|]. intros hb.
  apply steady_bind; [destruct hb; [by apply (steady_send (OHeartbeat []))|apply steady_ret]|]. intros _.
  apply steady_bind; [apply steady_should_test|]. intros tr.
  apply steady_bind; [destruct tr; [by apply (steady_send OTestRequest)|apply steady_ret]|]. intros _.
  apply steady_ret.
Qed.

Lemma steady_gap_flag (m : M (GapManager GQ * Env Q) unit) :
  (forall g e, exists b, m (g, e) = (Ret tt, (mkManager b (gap_queue_ g) (session_context_ g), e))) ->
  steady (on_gap m).
Proof.
  intros Hm st tm ev s e Hi. unfold wp, on_gap. cbn [fst snd].
  destruct (sequence_num_gap_manager_ s) as [g|] eqn:Hg; [|done].
  destruct (Hm g e) as [b ->]. destruct Hi as (H1 & H2 & H3 & H4 & H5 & H6 & H7).
  do 4 (split; [done|]). do 2 (split; [done|]). unfold gap_manager_ok in *. rewrite Hg in H7. done.
Qed.

Lemma inbound_start_in s e :
  exists s', inbound_start (s, e) = (Ret tt, (s', e)) /\
    sequence_num_gap_manager_ s' = sequence_num_gap_manager_ s /\
    forall st tm ev, is_in st tm ev s e -> is_in st tm ev s' e.
Proof.
  unfold inbound_start, bind, get_session. cbn [fst]. repeat case_match; try (by exists s).
  eexists. split; [reflexivity|]. split; [done|]. intros st tm ev. by apply (is_in_update (on_inbound _)).
Qed.

(** Starting: with the gap thread running already, a second thread is assigned to it. *)
Lemma start_in st tm ev s e :
  is_in st tm ev s e ->
  if gap_thread_runs s then fst (start clock (s, e)) = Ub
  else wp (start clock) (fun _ x => is_in st tm ev (fst x) (snd x)) (fun _ => False) (s, e).
Proof.
  intros Hi. destruct (inbound_start_in s e) as (s1 & E & Hg & Hi1). specialize (Hi1 _ _ _ Hi).
  unfold start, gap_thread_runs. rewrite <- Hg. unfold wp. rewrite (bind_ret _ _ _ _ _ E).
  assert (steady (t <-- now clock ;; update_session (on_stats (fun x =>
    mkStats (heartbeats_sent x) (heartbeats_received x) (test_requests_sent x)
      (test_requests_received x) (logons_sent x) (logouts_sent x) (sequence_resets_sent x)
      (rejects_sent x) t (last_heartbeat_time x) (current_state x))))) as Hrest.
  { apply steady_bind; [apply steady_now|]. intros t. apply steady_update. intros s'. by split; [split|]. }
  assert (forall g, sequence_num_gap_manager_ s1 = Some g ->
    on_gap start_gaps (s1, e) = (if is_running_ g then Ub else Ret tt,
      (with_gap (Some (mkManager true (gap_queue_ g) (session_context_ g))) s1, e))) as Hgo.
  { intros g Hs. unfold on_gap. cbn [fst snd]. rewrite Hs. unfold start_gaps. cbn [fst snd].
    by destruct (is_running_ g). }
  destruct (sequence_num_gap_manager_ s1) as [g|] eqn:Hs1.
  - specialize (Hgo g eq_refl). destruct (is_running_ g); [unfold bind; by rewrite Hgo|].
    rewrite (bind_ret _ _ _ _ _ Hgo). apply Hrest.
    destruct Hi1 as (H1 & H2 & H3 & H4 & H5 & H6 & H7).
    do 4 (split; [done|]). do 2 (split; [done|]). unfold gap_manager_ok in *. rewrite Hs1 in H7. done.
  - assert (on_gap start_gaps (s1, e) = (Ret tt, (s1, e))) as E2 by (unfold on_gap; cbn [fst]; by rewrite Hs1).
    rewrite (bind_ret _ _ _ _ _ E2). by apply Hrest.
Qed.

Lemma stop_in st tm s e :
  is_in st tm true s e ->
  wp stop (fun _ x => is_in DISCONNECTED false true (fst x) (snd x)) (fun _ => False) (s, e).
Proof.
  intros Hi. unfold stop. eapply wp_stop_timer; [exact Hi|]. intros s1 H1.
  eapply (wp_state _ DISCONNECTED); [exact H1|]. intros s2 H2 _.
  assert (steady (on_gap stop_gaps ;;; inbound_stop)) as Hs; [|by apply Hs].
  apply steady_bind; [apply steady_gap_flag; intros g e'; by exists false|]. intros [].
  apply steady_bind; [apply steady_get|]. intros s'. destruct (negb _); [apply steady_ret|].
  apply steady_update. intros s''. by split; [split|].
Qed.

Lemma steady_record t : steady (recordProcessingEnd clock t).
Proof.
  apply steady_bind; [apply steady_now|]. intros t'. apply steady_update. intros s. by split; [split|].
Qed.

Lemma steady_count b : steady (count_outcome b).
Proof. apply steady_update. intros s. by split; [split|]. Qed.

(** A steady computation keeps what a move established. *)
Lemma moved_then {A B} t st b (m : T Q GQ A) (v : B) (f : B -> bool) x :
  moved t st b x -> steady m -> f v = b ->
  wp (m ;;; ret v) (fun r => moved t st (f r)) (fun _ => False) x.
Proof.
  destruct x as [s e]. intros (tm & Ha & Hi) Hm Hf. apply wp_bind.
  eapply wp_mono; [by apply Hm| |done]. intros a y Hy. apply wp_ret. rewrite Hf. by exists tm.
Qed.

(** What the [try] block of [processMessage] says about its message *)
Definition handled_flag (r : option bool * bool) : bool :=
  match r with (Some b, _) => b | (None, success) => success end.

Lemma validateMessage_in a st tm ev s e (Post : bool -> _ -> Prop) :
  is_in st tm ev s e -> is_Some (deref (env_pool e) a) -> (forall b, Post b (s, e)) ->
  wp (validateMessage a) Post (fun _ => False) (s, e).
Proof.
  intros Hi Hd Hp. unfold validateMessage. do 4 (apply wp_field_in; [done|]; intros [?|]);
    repeat case_match; by apply wp_ret.
Qed.

Lemma processMessage_in a m st tm s e :
  allowed st tm -> is_in st tm true s e -> deref (env_pool e) a = Some m ->
  wp (processMessage clock (Some a)) (moved (getField Tag.MsgType m) st) (fun _ => False) (s, e).
Proof.
  intros Ha Hi Hd. unfold processMessage, recordProcessingStart.
  apply wp_env_now, wp_update_session, wp_bind, wp_env_now.
  set (e1 := mkEnv _ _ _). set (s1 := on_processing _ s). unfold wp at 1. cbn [update_session fst snd].
  set (s2 := on_inbound _ s1). match goal with |- wp _ _ _ (_, ?x) => set (e2 := x) end.
  assert (is_in st tm true s2 e2) as H2.
  { apply (is_in_update (on_inbound _)); [by split|done|].
    apply (is_in_update (on_processing _)); [by split|done|]. subst e2. by apply is_in_tick, is_in_tick. }
  eapply wp_field; [exact Hd|]. cbn zeta.
  set (mt := processed_type _). set (ty := getField Tag.MsgType m) in *. apply wp_bind.
  apply (wp_mono _ (fun r => moved ty st (handled_flag r)) _ (fun _ => False)); [| |done].
  2: { intros [[b|] c] x Hx; [by apply wp_ret|].
       by apply (moved_then ty st c (recordProcessingEnd clock mt) c (fun b => b)); [|apply steady_record|]. }
  apply wp_try. eapply (wp_mono _ (fun r => moved ty st (handled_flag r)) _ (fun _ => False)); [|done|done].
  apply wp_bind. eapply validateMessage_in; [exact H2|by eexists|].
  assert (wp (recordProcessingEnd clock mt ;;; ret (Some false, false))
            (fun r => moved ty st (handled_flag r)) (fun _ => False) (s2, e2)) as Hstop.
  { apply (moved_then ty st false); [by eapply moved_same|apply steady_record|done]. }
  intros [|]; cbn [negb]; [|apply Hstop].
  apply wp_bind. unfold isMessageSupported. eapply wp_field; [exact Hd|]. fold ty.
  destruct ty as [t|] eqn:Ht; [|apply wp_ret; apply Hstop].
  apply wp_ret. case_bool_decide; cbn [negb]; [|apply Hstop].
  apply wp_bind. eapply wp_mono; [eapply (handleMessage_in a m); done| |done]. fold ty. rewrite Ht.
  intros b x Hx. by apply (moved_then (Some t) st b); [|apply steady_count|].
Qed.

(** The setters touch none of the parts that the invariant speaks about. *)
Lemma set_in (f : FixSessionManager Q GQ -> FixSessionManager Q GQ) c st tm s e :
  (forall s, session_state_ (s_core (f s)) = session_state_ (s_core s) /\
     current_state (session_stats_ (f s)) = current_state (session_stats_ s) /\
     heartbeat_timer_running_ (s_timer (f s)) = heartbeat_timer_running_ (s_timer s) /\
     logons_sent (session_stats_ (f s)) = logons_sent (session_stats_ s) /\
     sequence_num_gap_manager_ (f s) = sequence_num_gap_manager_ s) ->
  call_move c e true st st -> allowed st tm -> is_in st tm true s e ->
  wp (update_session f ;;; ret true) (call_post c e st) (fun _ => False) (s, e).
Proof.
  intros Hf Hc Ha (H1 & H2 & H3 & H4 & H5 & H6 & H7). apply wp_update_session, wp_ret.
  destruct (Hf s) as (F1 & F2 & F3 & F4 & F5). exists st, tm. split; [done|]. split; [|done].
  unfold is_in, world_ok, gap_manager_ok. cbn [fst snd]. rewrite F1, F2, F3, F4, F5. by split_and!.
Qed.

Lemma call_in c st tm s e :
  allowed st tm -> is_in st tm true s e -> call_ready c (s, e) ->
  wp (run_call c) (call_post c e st) (fun _ => False) (s, e).
Proof.
  intros Ha Hi Hl. destruct c; cbn [run_call]; try (by apply (set_in _ _ st tm)).
  - by eapply initiateLogon_in.
  - by eapply initiateLogout_in.
  - destruct Hl as [m Hd]. eapply wp_mono; [by eapply processMessage_in| |done].
    intros b x (tm' & H1 & H2). eexists _, tm'. split_and!; [done|done|]. cbn [snd] in Hd. simpl. by rewrite Hd.
  - eapply wp_mono; [by apply steady_heartbeat_turn| |done]. intros b x Hx. by exists st, tm.
  - pose proof (start_in _ _ _ _ _ Hi) as Hs. simpl in Hl. rewrite Hl in Hs.
    apply wp_bind. eapply wp_mono; [exact Hs| |done]. intros [] x Hx. apply wp_ret. by exists st, tm.
  - apply wp_bind. eapply wp_mono; [by eapply stop_in| |done]. intros [] x Hx. apply wp_ret.
    by exists DISCONNECTED, false.
Qed.

(** Calls of the session, interleaved with whatever the rest of the gateway does to the
    pool, the queues and the clock. *)
Inductive session_step : FixSessionManager Q GQ * Env Q -> FixSessionManager Q GQ * Env Q -> Prop :=
  | step_call c s e b x : call_ready c (s, e) -> run_call c (s, e) = (Ret b, x) -> session_step (s, e) x
  | step_environment s e e' : pool_wf (env_pool e') -> env_wf e' -> session_step (s, e) (s, e').

Lemma session_step_inv x y :
  session_step x y -> session_inv (fst x) (snd x) -> session_inv (fst y) (snd y).
Proof.
  intros [c s e b z Hl E|s e e' Hp He] (st & tm & Ha & Hi).
  - pose proof (call_in c st tm s e Ha Hi Hl) as Hw. unfold wp in Hw. rewrite E in Hw.
    destruct Hw as (st' & tm' & H1 & H2 & _). by exists st', tm'.
  - exists st, tm. split; [done|]. destruct Hi as (H1 & H2 & H3 & H4 & H5 & H6 & H7). by split_and!.
Qed.

Lemma session_reach_inv x y :
  rtc session_step x y -> session_inv (fst x) (snd x) -> session_inv (fst y) (snd y).
Proof. induction 1 as [z|z1 z2 z3 Hs _ IH]; [done|]. intros Hi. by apply IH, (session_step_inv z1). Qed.

(** C21: from a new session, after any calls interleaved with any activity of the rest of
    the gateway: the session is DISCONNECTED or LOGON_SENT with the heartbeat timer off,
    LOGGED_ON with the timer on, or LOGOUT_SENT, and never CONNECTING or DISCONNECTING; the
    published statistics show the same state; the number of logons they count is even,
    because each one is counted twice; and every further call on live messages returns and
    moves the state exactly as its table says, by its result: a logon that was queued leads
    from DISCONNECTED to LOGON_SENT and one that was not leaves the state, a logout leads to
    LOGOUT_SENT, a logon or logout message that was handled to LOGGED_ON or DISCONNECTED, a
    stop to DISCONNECTED, everything else nowhere.  A start while the gap thread runs ends
    the program. *)
Theorem session_state_machine config gap e0 x :
  world_ok (newSession config gap) e0 ->
  rtc session_step (newSession config gap, e0) x ->
  session_inv (fst x) (snd x) /\
  (forall c, call_ready c x ->
    exists b y, run_call c x = (Ret b, y) /\
      call_post c (snd x) (session_state_ (s_core (fst x))) b y) /\
  (gap_thread_runs (fst x) = true -> fst (run_call CStart x) = Ub).
Proof.
  intros Hw Hr.
  assert (session_inv (fst x) (snd x)) as Hinv.
  { apply (session_reach_inv _ _ Hr). exists DISCONNECTED, false. by split_and!. }
  split; [exact Hinv|]. destruct Hinv as (st & tm & Ha & Hi). destruct x as [s e].
  cbn [fst snd] in *. split.
  - intros c Hl. rewrite (proj1 Hi).
    destruct (proj1 (wp_run _ _ _) (call_in c st tm s e Ha Hi Hl)) as (b & y & E & Hp). by exists b, y.
  - intros Hg. pose proof (start_in _ _ _ _ _ Hi) as Hs. rewrite Hg in Hs. cbn [run_call]. unfold bind.
    by destruct (start clock (s, e)) as [[]].
Qed.

(** A resend request with numeric bounds is always answered, whatever its first
    number, by one gap fill whose NewSeqNo is its EndSeqNo plus one, in 32 bits, sent like
    any other session message; so the request for everything up to infinity, EndSeqNo 0,
    is answered with NewSeqNo 1. *)
Lemma resend_request_gap_filled a m first last s e :
  pool_wf (env_pool e) -> env_wf e -> deref (env_pool e) a = Some m ->
  getFieldInt Tag.BeginSeqNo m = Some first -> getFieldInt Tag.EndSeqNo m = Some last ->
  exists ok s' e', handleResendRequest clock a (s, e) = (Ret ok, (s', e')) /\
    send_outcome (OSequenceReset (wrap32 (last + 1)) true) s e ok s' e'.
Proof.
  intros Hp He Hd Hb Hl. unfold handleResendRequest. unfold getFieldInt in Hb, Hl.
  rewrite (bind_ret _ _ _ _ _ (field_eval a Tag.BeginSeqNo m s e Hd)).
  destruct (getField Tag.BeginSeqNo m) as [v|]; [|done].
  rewrite (bind_ret _ _ _ _ _ (field_eval a Tag.EndSeqNo m s e Hd)).
  destruct (getField Tag.EndSeqNo m) as [v'|]; [|done].
  destruct (stoi v); [|done..]. destruct (stoi v') as [n| |]; [|done..]. injection Hl as ->.
  destruct (proj1 (wp_run _ _ _) (send_wp clock (OSequenceReset (wrap32 (last + 1)) true) s e Hp He))
    as (ok & [s' e'] & E & Ho).
  by exists ok, s', e'.
Qed.
End Properties.

(** ** Instances *)

(** A resend request for everything from message 5 on, itself numbered 4. *)
Definition resend_message : FixMessage :=
  with_fields (list_to_map [(Tag.MsgType, str "2"); (Tag.BeginSeqNo, str "5"); (Tag.EndSeqNo, str "0");
    (Tag.MsgSeqNum, str "4"); (Tag.SenderCompID, str "BROKER"); (Tag.TargetCompID, str "GATEWAY")]).

Definition session_pool : FixMessagePool := snd (allocate resend_message (env_pool small_env)).
Definition session_env : Env (LockFreeQueue Z) := mkEnv session_pool (env_queues small_env) 0.
Definition sample_manager : GapManager (LockFreeQueue GapQueueEntry) :=
  mkManager true (newQueue newGapEntry 4 []) sample_context.
Definition sample_config : SessionConfig := mkConfig (str "GATEWAY") (str "BROKER") 30 false 30 true.
Definition sample_session : FixSessionManager (LockFreeQueue Z) (LockFreeQueue GapQueueEntry) :=
  mkSession (mkInbound true None true no_processing 0) sample_config (Some sample_manager) true
    (mkCore DISCONNECTED 1 1) (mkTimer false 0 0 [] 0 1) (mkStats 0 0 0 0 0 0 0 0 0 0 DISCONNECTED).

Lemma session_pool_wf : pool_wf (env_pool session_env).
Proof. eapply client_step_wf; [exact small_env_pool_wf|constructor]. Qed.

Lemma session_env_wf : env_wf session_env.
Proof. destruct small_env_wf. by split. Qed.

Lemma sample_tracks (e : Env (LockFreeQueue Z)) : tracks (sample_manager, e) ∅.
Proof. split; [split; [apply newQueue_wf; lia|done]|]. split; [constructor|]. by split; [constructor|]. Qed.

Lemma session_message_at : deref (env_pool session_env) 4224 = Some resend_message.
Proof. by vm_compute. Qed.

Lemma session_send_exact_witness :
  exists b s' e', send (fun _ => 0) (OHeartbeat (str "X")) (sample_session, session_env) = (Ret b, (s', e')) /\
    send_outcome (OHeartbeat (str "X")) sample_session session_env b s' e'.
Proof.
  exact (session_send_exact (fun _ => 0) (OHeartbeat (str "X")) sample_session session_env
           session_pool_wf session_env_wf).
Defined.

(** Message 4 arrives when 1 is expected: refused, and 1, 2, 3 are gaps. *)
Lemma sequence_validation_witness :
  exists s' e' g', validateSequenceNumber (fun _ => 0) 4224 (sample_session, session_env)
                   = (Ret false, (s', e')) /\ tracks (g', e') {[1; 2; 3]}.
Proof.
  destruct (sequence_validation (fun _ => 0) 4224 resend_message sample_session session_env
    ∅ session_message_at)
    as (b & s' & e' & E & Hx).
  { intros g Hg. injection Hg as <-. exact (sample_tracks session_env). }
  change (getFieldInt Tag.MsgSeqNum resend_message) with (Some 4) in Hx.
  destruct Hx as (-> & g' & gaps' & -> & _ & Ht & Hg).
  exists (with_gap (Some g') sample_session), e', g'. split; [exact E|].
  rewrite Hg in Ht; [|vm_compute; discriminate]. exact Ht.
Defined.

(** A new session that is given its pool and queues logs on. *)
Definition wired : FixSessionManager (LockFreeQueue Z) (LockFreeQueue GapQueueEntry) * Env (LockFreeQueue Z) :=
  snd ((run_call (fun _ => 0) (CSetMessagePool true) ;;; run_call (fun _ => 0) (CSetOutboundQueues true) ;;;
        run_call (fun _ => 0) CLogon) (newSession sample_config (Some sample_manager), session_env)).

Lemma wired_reached :
  rtc (session_step (fun _ => 0)) (newSession sample_config (Some sample_manager), session_env) wired.
Proof.
  eapply rtc_l; [eapply (step_call _ (CSetMessagePool true)); [done|reflexivity]|].
  eapply rtc_l; [eapply (step_call _ (CSetOutboundQueues true)); [done|reflexivity]|].
  eapply rtc_l; [|apply rtc_refl]. eapply (step_call _ CLogon _ _ true); [done|]. by vm_compute.
Qed.

Lemma session_state_machine_witness :
  session_state_ (s_core (fst wired)) = LOGON_SENT /\ logons_sent (session_stats_ (fst wired)) = 2 /\
  session_inv (fst wired) (snd wired) /\
  fst (run_call (fun _ => 0) CStart wired) = Ub.
Proof.
  destruct (session_state_machine (fun _ => 0) sample_config (Some sample_manager) session_env wired)
    as (Hi & _ & Hu).
  - split; [exact session_pool_wf|]. split; [exact session_env_wf|]. exists ∅. exact sample_tracks.
  - exact wired_reached.
  - split; [vm_compute; reflexivity|]. split; [vm_compute; reflexivity|]. split; [exact Hi|].
    apply Hu. vm_compute. reflexivity.
Defined.
