(* ===== verification/SessionAnswers.v ===== *)
(** The inbound side and the outbound side of the session together: the polling loop
    [processMessages] of the inbound manager, [processMessage] with its validation and
    dispatch, the handlers of test and resend requests, and the messages they send. *)
From S2P Require Import Prelude FixFields LockFreeQueue QueueInterface MessagePool FixMessage PriorityQueues MessageSending GapManager SessionManager SessionSending SessionProperties.

(** The requests of the counterparty that call for an answer. *)
Inductive request := RTest (id : bytes) | RResend (first last : Z).

Definition request_type (r : request) : bytes :=
  match r with RTest _ => str "1" | RResend _ _ => str "2" end.

(** What the session has to send: a heartbeat with the same identifier; a sequence reset
    that fills the gap up to the number after the last one asked for. *)
Definition answer (r : request) : outgoing :=
  match r with
  | RTest id => OHeartbeat id
  | RResend first last => OSequenceReset (wrap32 (last + 1)) true
  end.

(** [m] is the request [r] under the number [n], addressed to the session of [c]. *)
Record is_request (c : SessionConfig) (n : Z) (r : request) (m : FixMessage) : Prop := {
  rq_type : getField Tag.MsgType m = Some (request_type r);
  rq_sender : getField Tag.SenderCompID m = Some (cfg_target_comp_id c);
  rq_target : getField Tag.TargetCompID m = Some (cfg_sender_comp_id c);
  rq_number : getField Tag.MsgSeqNum m = Some (to_string n);
  rq_body : match r with
            | RTest id => getField Tag.TestReqID m = Some id
            | RResend first last =>
                getField Tag.BeginSeqNo m = Some (to_string first) /\
                getField Tag.EndSeqNo m = Some (to_string last) /\
                int32_range first /\ int32_range last
            end
}.

Section Answers.
Context {Q GQ : Type} `{QF : FifoQueue Z Q} `{GF : FifoQueue GapQueueEntry GQ}.
Variable clock : nat -> Z.
Implicit Types (s : FixSessionManager Q GQ) (e : Env Q).

(** A session that is connected to its pool and queues and checks numbers, between two
    named parties. *)
Record serving s : Prop := {
  sv_pool : message_pool_set s = true;
  sv_outbound : outbound_set (s_inbound s) = true;
  sv_checks : validate_sequence_numbers (config_ s) = true;
  sv_sender : cfg_sender_comp_id (config_ s) <> [];
  sv_target : cfg_target_comp_id (config_ s) <> []
}.

Lemma wp_eval {A B} (m : T Q GQ A) (k : A -> T Q GQ B) Post E x a x' :
  m x = (Ret a, x') -> wp (k a) Post E x' -> wp (bind m k) Post E x.
Proof. intros Hm Hk. unfold wp. by rewrite (bind_ret _ _ _ _ _ Hm). Qed.

(** ** Validation of a request *)

Section Request.
Context (a : Z) (m : FixMessage) (n : Z) (r : request) (c : SessionConfig).
Context (Hm : is_request c n r m) (Hn : 0 < n <= 2147483647).
Context (Hs1 : cfg_sender_comp_id c <> []) (Hs2 : cfg_target_comp_id c <> []).

Lemma not_nil (l : bytes) : l <> [] -> is_nil l = false.
Proof. by destruct l. Qed.

Lemma request_stoi : stoi (to_string n) = StoiOk n.
Proof. apply stoi_to_string. unfold int32_range. lia. Qed.

Lemma request_validates s e :
  deref (env_pool e) a = Some m -> validateMessage a (s, e) = (Ret true, (s, e)).
Proof.
  intros Hd. unfold validateMessage. destruct Hm as [H1 H2 H3 H4 _].
  do 4 rewrite (bind_ret _ _ _ _ _ (field_eval a _ m s e Hd)).
  rewrite H1, H2, H3, H4, request_stoi, (not_nil _ Hs1), (not_nil _ Hs2).
  assert (is_nil (to_string n) = false) as ->.
  { apply not_nil. intros E. pose proof request_stoi as Hst. by rewrite E in Hst. }
  assert (is_nil (request_type r) = false) as -> by (by destruct r).
  cbn [orb]. by rewrite (proj2 (Z.ltb_lt 0 n)) by lia.
Qed.

Lemma request_supported s e :
  deref (env_pool e) a = Some m -> isMessageSupported (Some a) (s, e) = (Ret true, (s, e)).
Proof.
  intros Hd. unfold isMessageSupported.
  rewrite (bind_ret _ _ _ _ _ (field_eval a _ m s e Hd)), (rq_type _ _ _ _ Hm). by destruct r.
Qed.

Lemma request_addressed s e :
  deref (env_pool e) a = Some m -> config_ s = c ->
  validateSessionMessage a (s, e) = (Ret true, (s, e)).
Proof.
  intros Hd Hc. unfold validateSessionMessage.
  rewrite (bind_ret get_session _ (s, e) s (s, e) eq_refl).
  rewrite (bind_ret _ _ _ _ _ (field_eval a _ m s e Hd)), (rq_sender _ _ _ _ Hm).
  rewrite (bind_ret _ _ _ _ _ (field_eval a _ m s e Hd)), (rq_target _ _ _ _ Hm).
  unfold isValidSenderCompId, isValidTargetCompId. by rewrite Hc, !bool_decide_true by done.
Qed.

Lemma request_in_sequence s e :
  deref (env_pool e) a = Some m -> expected_incoming_seq_num_ (s_core s) = n ->
  validateSequenceNumber clock a (s, e)
  = (Ret true, (on_core (set_expected (wrap32 (n + 1))) s, e)).
Proof.
  intros Hd He. unfold validateSequenceNumber.
  rewrite (bind_ret _ _ _ _ _ (field_eval a _ m s e Hd)), (rq_number _ _ _ _ Hm), request_stoi.
  rewrite (bind_ret get_session _ (s, e) s (s, e) eq_refl). cbn zeta.
  rewrite (bind_ret _ _ _ _ _ (field_eval a _ m s e Hd)), He. by rewrite Z.eqb_refl.
Qed.

(** ** Answering one request *)

(** The environment can take the message [o]. *)
Record can_send e (o : outgoing) : Prop := {
  cs_pool : pool_wf (env_pool e);
  cs_env : env_wf e;
  cs_open : pool_is_shutdown_ (env_pool e) = false;
  cs_free : 0 < available (env_pool e);
  cs_room : room e (send_priority o) <> O
}.

(** [s] and [s'] build the same answers and are linked to the same queues. *)
Record same_links s s' : Prop := {
  sl_config : config_ s' = config_ s;
  sl_pool : message_pool_set s' = message_pool_set s;
  sl_inbound : inbound_queue_ (s_inbound s') = inbound_queue_ (s_inbound s);
  sl_outbound : outbound_set (s_inbound s') = outbound_set (s_inbound s)
}.

(** The answer with the session's next number is at the back of its queue. *)
Definition replied s e s' e' : Prop :=
  (exists b i m' t, sent e (send_priority (answer r)) b i m' e' /\
     fields_ m' = send_fields s (answer r) t) /\
  same_links s s' /\ outgoing_seq_num_ (s_core s') = next_outgoing s.

Lemma same_links_trans s1 s2 s3 : same_links s1 s2 -> same_links s2 s3 -> same_links s1 s3.
Proof. intros [] []. split; congruence. Qed.

Lemma replied_from s s1 e e1 s' e' :
  same_links s s1 -> outgoing_seq_num_ (s_core s1) = outgoing_seq_num_ (s_core s) -> idle e e1 ->
  replied s1 e1 s' e' -> replied s e s' e'.
Proof.
  intros Hl Ho He ((b & i & m' & t & Hb & Hf) & Hl' & Ho').
  assert (next_outgoing s1 = next_outgoing s) as En by (unfold next_outgoing; by rewrite Ho).
  split_and!; [|by eapply same_links_trans|congruence].
  exists b, i, m', t. split; [by eapply idle_sent|].
  rewrite Hf. unfold send_fields. rewrite En, (sl_config _ _ Hl). by case r.
Qed.

Lemma send_replies s e b s' e' :
  serving s -> can_send e (answer r) -> send_outcome (answer r) s e b s' e' ->
  b = true /\ replied s e s' e' /\
  expected_incoming_seq_num_ (s_core s') = expected_incoming_seq_num_ (s_core s).
Proof.
  intros [] [] Ho. destruct Ho as [e' Hi Hc|a0 i0 m0 t s' e' Hb Hf Hc Hss|a0 i0 m0 t s' e' Hb Hf Hss Hout _].
  - destruct Hc as [Hc|[Hc|Hc]]; [congruence|congruence|lia].
  - destruct Hc as [Hc|Hc]; congruence.
  - split; [done|]. split; [|apply Hss]. split; [by exists a0, i0, m0, t|].
    split; [|done]. split; apply Hss.
Qed.

(** The handler of the request. *)
Lemma dispatch_replies s e :
  deref (env_pool e) a = Some m -> serving s -> can_send e (answer r) ->
  wp (dispatch clock a (request_type r))
    (fun b x => b = true /\ replied s e (fst x) (snd x) /\
       expected_incoming_seq_num_ (s_core (fst x)) = expected_incoming_seq_num_ (s_core s))
    (fun _ => False) (s, e).
Proof.
  intros Hd Hs Hc. pose proof (rq_body _ _ _ _ Hm) as Hb.
  destruct r as [id|first last] eqn:Er; cbn [answer] in *.
  - assert (dispatch clock a (request_type (RTest id)) = (handleTestRequest clock a : T Q GQ bool))
      as -> by reflexivity.
    unfold handleTestRequest. apply wp_update_session. set (s1 := on_stats _ s).
    eapply wp_field; [exact Hd|]. rewrite Hb.
    eapply wp_mono; [apply (send_wp clock (OHeartbeat id)); apply Hc| |done].
    intros b [s' e'] Ho. cbn [fst snd] in *. pose proof (send_replies s1 e b s' e') as Hr.
    rewrite Er in Hr. destruct Hr as (-> & Hr & Hx); [by destruct Hs; split|done|done|].
    split; [done|]. split; [|done]. eapply replied_from; [..|exact Hr]; [by split|done|].
    apply idle_refl; apply Hc.
  - assert (dispatch clock a (request_type (RResend first last))
            = (handleResendRequest clock a : T Q GQ bool)) as -> by reflexivity.
    destruct Hb as (H1 & H2 & H3 & H4). unfold handleResendRequest.
    eapply wp_field; [exact Hd|]. rewrite H1. eapply wp_field; [exact Hd|]. rewrite H2.
    rewrite !stoi_to_string by done.
    eapply wp_mono; [apply (send_wp clock (OSequenceReset (wrap32 (last + 1)) true)); apply Hc| |done].
    intros b [s' e'] Ho. cbn [fst snd] in *. pose proof (send_replies s e b s' e') as Hr.
    rewrite Er in Hr. by apply Hr.
Qed.

(** Clock readings change nothing a message needs. *)
Lemma can_send_tick e o t : can_send e o -> can_send (mkEnv (env_pool e) (env_queues e) t) o.
Proof. intros [? [] ???]. by split; [|split|..]. Qed.

Lemma tick_idle e o t : can_send e o -> idle e (mkEnv (env_pool e) (env_queues e) t).
Proof. intros Hc. apply idle_tick, idle_refl; apply Hc. Qed.

Definition settled s e (b : bool) (x : FixSessionManager Q GQ * Env Q) : Prop :=
  b = true /\ replied s e (fst x) (snd x) /\
  expected_incoming_seq_num_ (s_core (fst x)) = wrap32 (n + 1).

Lemma settled_from s s1 e e1 b x :
  same_links s s1 -> outgoing_seq_num_ (s_core s1) = outgoing_seq_num_ (s_core s) -> idle e e1 ->
  settled s1 e1 b x -> settled s e b x.
Proof. intros Hl Ho He (Hb & Hr & Hx). split; [done|]. split; [|done]. by eapply replied_from. Qed.

Lemma handleMessage_replies s e :
  deref (env_pool e) a = Some m -> serving s -> config_ s = c ->
  expected_incoming_seq_num_ (s_core s) = n -> can_send e (answer r) ->
  wp (handleMessage clock (Some a)) (settled s e) (fun _ => False) (s, e).
Proof.
  intros Hd Hs Hc He Hcs. unfold handleMessage. apply wp_env_now, wp_update_session.
  set (e1 := mkEnv _ _ _). set (s1 := on_timer _ s).
  eapply wp_field; [exact Hd|]. rewrite (rq_type _ _ _ _ Hm).
  eapply wp_eval; [by apply (request_addressed s1 e1)|]. cbn [negb]. apply wp_get_session.
  change (validate_sequence_numbers (config_ s1)) with (validate_sequence_numbers (config_ s)).
  rewrite (sv_checks _ Hs). eapply wp_eval; [by apply (request_in_sequence s1 e1)|]. cbn [negb].
  set (s2 := on_core _ s1). apply wp_try.
  eapply wp_mono; [apply (dispatch_replies s2 e1); [done|by destruct Hs; split|by apply can_send_tick]
                  | |done].
  intros b x (Hb & Hr & Hx). apply (settled_from s s2 e e1); [by split|done|by eapply tick_idle|].
  by split_and!.
Qed.

(** [processMessage] validates, dispatches, counts and returns true. *)
Lemma processMessage_replies s e :
  deref (env_pool e) a = Some m -> serving s -> config_ s = c ->
  expected_incoming_seq_num_ (s_core s) = n -> can_send e (answer r) ->
  wp (processMessage clock (Some a)) (settled s e) (fun _ => False) (s, e).
Proof.
  intros Hd Hs Hc He Hcs. unfold processMessage, recordProcessingStart.
  apply wp_env_now, wp_update_session, wp_bind, wp_env_now.
  set (e1 := mkEnv _ _ _). set (s1 := on_processing _ s). unfold wp at 1. cbn [update_session fst snd].
  set (s2 := on_inbound _ s1). match goal with |- wp _ _ _ (_, ?x) => set (e2 := x) end.
  assert (serving s2) as Hs2' by (by destruct Hs; split).
  assert (can_send e2 (answer r)) as Hcs2 by (apply (can_send_tick e _ (S (S (env_ticks e)))); done).
  assert (idle e e2) as Hi by (apply (tick_idle e (answer r) (S (S (env_ticks e)))); done).
  eapply wp_field; [exact Hd|]. cbn zeta. set (mt := processed_type _). apply wp_bind, wp_try.
  eapply wp_eval; [by apply (request_validates s2 e2)|]. cbn [negb].
  eapply wp_eval; [by apply (request_supported s2 e2)|]. cbn [negb]. apply wp_bind.
  eapply wp_mono; [by apply (handleMessage_replies s2 e2)| |done].
  intros b [s3 e3] Hx. apply (settled_from s s2 e e2) in Hx; [|by split|done|done].
  unfold count_outcome. apply wp_update_session, wp_ret. unfold recordProcessingEnd.
  apply wp_bind, wp_env_now. unfold wp at 1. cbn [update_session fst snd]. apply wp_ret.
  destruct Hx as (-> & ((b' & i & m' & t & Hsent & Hf) & [] & Ho) & Hx). cbn [fst snd] in *.
  split; [done|]. split; [|done]. split_and!; [|by split|done].
  exists b', i, m', t. split; [by apply sent_tick|done].
Qed.
End Request.

(** ** The polling loop *)

(** The fields of the answer, under the number [num], stamped at [t]. *)
Definition answer_fields (c : SessionConfig) (num : Z) (r : request) (t : Z) : gmap Z bytes :=
  let header :=
    <[Tag.BeginString := str "FIX.4.4"]> (<[Tag.MsgType := send_type (answer r)]>
    (<[Tag.SenderCompID := cfg_sender_comp_id c]> (<[Tag.TargetCompID := cfg_target_comp_id c]>
    (<[Tag.MsgSeqNum := to_string num]> {[Tag.SendingTime := put_time (t / 1000)]})))) in
  match r with
  | RTest id => if is_nil id then header else <[Tag.TestReqID := id]> header
  | RResend _ last =>
      <[Tag.GapFillFlag := str "Y"]> (<[Tag.NewSeqNo := to_string (wrap32 (last + 1))]> header)
  end.

Lemma send_answer_fields s r t :
  send_fields s (answer r) t = answer_fields (config_ s) (next_outgoing s) r t.
Proof. by case r. Qed.

Definition queue_of (x : Z * request) : Priority := send_priority (answer (snd x)).

(** The session is serving, the requests [rs] wait in its inbound queue in the order of
    their numbers, and there is room for all the answers. *)
Record waiting s e (rs : list (Z * request)) : Prop := {
  wt_serving : serving s;
  wt_queue : exists q, inbound_queue_ (s_inbound s) = Some q /\ q_wf q /\ q_open q = true /\
               q_items q = map fst rs;
  wt_numbers : 0 < expected_incoming_seq_num_ (s_core s) /\
               expected_incoming_seq_num_ (s_core s) + Z.of_nat (length rs) <= 2147483647;
  wt_requests k a r : rs !! k = Some (a, r) ->
    a <> 0 /\ exists m, deref (env_pool e) a = Some m /\
      is_request (config_ s) (expected_incoming_seq_num_ (s_core s) + Z.of_nat k) r m;
  wt_pool : pool_wf (env_pool e);
  wt_env : env_wf e;
  wt_open : pool_is_shutdown_ (env_pool e) = false;
  wt_free : Z.of_nat (length rs) <= available (env_pool e);
  wt_room p : (length (filter (fun x => queue_of x = p) rs) <= room e p)%nat
}.

(** [bs] are the answers to [rs]: live messages with their fields, at the back of the
    queues of their priorities; every message that was live still is. *)
Record answered s e (rs : list (Z * request)) (bs : list Z) e' : Prop := {
  aw_length : length bs = length rs;
  aw_queues p : queued e' p = queued e p ++ map fst (filter (fun y => queue_of (snd y) = p) (zip bs rs));
  aw_fields k b a r : bs !! k = Some b -> rs !! k = Some (a, r) ->
    exists m t, deref (env_pool e') b = Some m /\
      fields_ m = answer_fields (config_ s) (wrap32 (outgoing_seq_num_ (s_core s) + 1 + Z.of_nat k)) r t;
  aw_kept b o : deref (env_pool e) b = Some o -> deref (env_pool e') b = Some o;
  aw_available : available (env_pool e') = available (env_pool e) - Z.of_nat (length rs)
}.

Lemma built_available p0 a i m p :
  pool_wf p0 -> built p0 a i m p -> available p = available p0 - 1.
Proof.
  intros Hw Hb. pose proof (size_live_set p (built_wf _ _ _ _ _ Hb)) as H1.
  pose proof (size_live_set p0 Hw) as H0. rewrite (built_live _ _ _ _ _ Hb), size_union in H1.
  - rewrite size_singleton in H1. unfold available. rewrite (built_size _ _ _ _ _ Hb). lia.
  - rewrite disjoint_singleton_l, elem_of_live_set. intros [o Ho].
    by rewrite (built_free _ _ _ _ _ Hb) in Ho.
Qed.

(** An empty queue: the turn does nothing. *)
Lemma idle_turn s e : waiting s e [] -> process_turn clock (s, e) = (Ret false, (s, e)).
Proof.
  intros Hw. destruct (wt_queue _ _ _ Hw) as (q & Hq & Hwf & Ho & Hi).
  destruct (q_pop_empty q Hwf (or_intror Hi)) as [x Hx].
  unfold process_turn. rewrite (bind_ret get_session _ (s, e) s (s, e) eq_refl), Hq, Hx.
  destruct s as [[] ??????]. cbn in Hq. by subst.
Qed.

Lemma idle_loop k s e : waiting s e [] -> poll_loop clock k (s, e) = (Ret tt, (s, e)).
Proof.
  intros Hw. induction k as [|k IH]; [done|]. cbn [poll_loop].
  by rewrite (bind_ret _ _ _ _ _ (idle_turn s e Hw)).
Qed.

(** What is left to do after the first request was answered by [sent]. *)
Lemma waiting_next a r rs s e s' e' q b i m t :
  waiting s e ((a, r) :: rs) -> sent e (queue_of (a, r)) b i m e' ->
  fields_ m = answer_fields (config_ s) (next_outgoing s) r t ->
  config_ s' = config_ s -> message_pool_set s' = message_pool_set s ->
  outbound_set (s_inbound s') = outbound_set (s_inbound s) ->
  inbound_queue_ (s_inbound s') = Some q -> q_wf q -> q_open q = true -> q_items q = map fst rs ->
  expected_incoming_seq_num_ (s_core s') = expected_incoming_seq_num_ (s_core s) + 1 ->
  waiting s' e' rs /\ answered s e [(a, r)] [b] e'.
Proof.
  intros [[] _ Hn Hr Hp He Ho Hf Hrm] (Hb & He' & Hq1 & Hq2 & Hq3) Hm Hc Hps Hos Hq Hqw Hqo Hqi Hx.
  pose proof (built_available _ _ _ _ _ Hp Hb) as Hav. cbn [length] in *.
  assert (forall b o, deref (env_pool e) b = Some o -> deref (env_pool e') b = Some o) as Hkeep.
  { intros b' o. apply (built_other _ _ _ _ _ b' o Hb), Hp. }
  split; split.
  - split; congruence.
  - by exists q.
  - lia.
  - intros k a' r' Hk. destruct (Hr (S k) a' r' Hk) as (Ha & m' & Hd & Hreq).
    split; [done|]. exists m'. split; [by apply Hkeep|]. rewrite Hc, Hx.
    by replace (expected_incoming_seq_num_ (s_core s) + 1 + Z.of_nat k)
      with (expected_incoming_seq_num_ (s_core s) + Z.of_nat (S k)) by lia.
  - apply Hb.
  - done.
  - by rewrite (built_open _ _ _ _ _ Hb).
  - lia.
  - intros p. specialize (Hrm p). rewrite filter_cons in Hrm.
    destruct (decide (queue_of (a, r) = p)) as [<-|Hne]; [cbn [length] in Hrm; lia|].
    by destruct (Hq3 p ltac:(done)) as [_ ->].
  - done.
  - intros p. cbn [zip_with]. rewrite filter_cons. cbn [snd].
    destruct (decide (queue_of (a, r) = p)) as [<-|Hne]; [by rewrite Hq1|].
    rewrite app_nil_r. by destruct (Hq3 p ltac:(done)).
  - intros [|k] b' a' r' Hk1 Hk2; [|done]. simplify_eq/=. exists m, t.
    split; [by eapply built_deref|]. rewrite Hm. unfold next_outgoing. by rewrite Z.add_0_r.
  - exact Hkeep.
  - cbn [length]. lia.
Qed.

Lemma busy_turn a r rs s e :
  waiting s e ((a, r) :: rs) ->
  exists b s' e', process_turn clock (s, e) = (Ret true, (s', e')) /\
    waiting s' e' rs /\ answered s e [(a, r)] [b] e' /\ config_ s' = config_ s /\
    outgoing_seq_num_ (s_core s') = next_outgoing s /\
    expected_incoming_seq_num_ (s_core s') = expected_incoming_seq_num_ (s_core s) + 1.
Proof.
  intros Hw. destruct (wt_queue _ _ _ Hw) as (q & Hq & Hqw & Hqo & Hqi).
  destruct (q_pop_ok a (map fst rs) q Hqw Hqo Hqi) as (q' & Hpop & Hqw' & Hqo' & Hqi' & _).
  destruct (wt_requests _ _ _ Hw O a r eq_refl) as (Ha & m & Hd & Hm). rewrite Z.add_0_r in Hm.
  pose proof (wt_numbers _ _ _ Hw) as Hn. cbn [length] in Hn.
  set (s1 := on_inbound (fun b => mkInbound (running_ b) (Some q') (outbound_set b) (stats_ b)
                                    (processing_start_time_ b)) s).
  assert (serving s1) as Hs1 by (by destruct (wt_serving _ _ _ Hw); split).
  assert (can_send e (answer r)) as Hcs.
  { pose proof (wt_room _ _ _ Hw (queue_of (a, r))) as Hr. rewrite filter_cons_True in Hr by done.
    pose proof (wt_free _ _ _ Hw) as Hf. cbn [length] in *.
    split; [apply Hw..|lia|]. unfold queue_of in Hr. cbn [snd] in Hr. lia. }
  destruct (proj1 (wp_run _ _ _) (processMessage_replies a m _ r _ Hm ltac:(lia)
    (sv_sender _ (wt_serving _ _ _ Hw)) (sv_target _ (wt_serving _ _ _ Hw)) s1 e Hd Hs1 eq_refl eq_refl Hcs))
    as (b & [s' e'] & E & _ & ((b' & i & m' & t & Hsent & Hf) & [] & Ho) & Hx).
  cbn [fst snd] in *.
  assert (process_turn clock (s, e) = (Ret true, (s', e'))) as Et.
  { unfold process_turn. rewrite (bind_ret get_session _ (s, e) s (s, e) eq_refl), Hq, Hpop.
    unfold setInboundQueue. rewrite (bind_ret (update_session _) _ (s, e) tt (s1, e) eq_refl).
    rewrite (proj2 (Z.eqb_neq a 0)) by done. cbn [negb andb]. by rewrite (bind_ret _ _ _ _ _ E). }
  rewrite wrap32_id in Hx by (unfold int32_range; lia).
  rewrite send_answer_fields in Hf.
  destruct (waiting_next a r rs s e s' e' q' b' i m' t Hw Hsent Hf) as [Hw' Han]; try done.
  exists b', s', e'. split_and!; done.
Qed.

Lemma wrap32_add x y : wrap32 (wrap32 x + y) = wrap32 (x + y).
Proof.
  unfold wrap32. f_equal.
  replace ((x + 2147483648) mod 4294967296 - 2147483648 + y + 2147483648)
    with ((x + 2147483648) mod 4294967296 + y) by lia.
  rewrite Zplus_mod_idemp_l. f_equal. lia.
Qed.

Lemma answered_cons x rs s e b bs s1 e1 e2 :
  answered s e [x] [b] e1 -> answered s1 e1 rs bs e2 -> config_ s1 = config_ s ->
  outgoing_seq_num_ (s_core s1) = next_outgoing s -> answered s e (x :: rs) (b :: bs) e2.
Proof.
  intros [_ Q1 F1 K1 A1] [L2 Q2 F2 K2 A2] Hc Ho. cbn [length] in *. split.
  - cbn [length]. lia.
  - intros p. rewrite Q2, Q1, <- app_assoc. f_equal. cbn [zip_with]. rewrite !filter_cons, filter_nil.
    by destruct (decide (queue_of (snd (b, x)) = p)).
  - intros [|k] b' a' r' Hk1 Hk2.
    + destruct (F1 O b' a' r' Hk1 Hk2) as (m & t & Hd & Hf). exists m, t. split; [by apply K2|done].
    + destruct (F2 k b' a' r' Hk1 Hk2) as (m & t & Hd & Hf). exists m, t. split; [done|].
      rewrite Hf, Hc, Ho. unfold next_outgoing. f_equal.
      rewrite <- Z.add_assoc, wrap32_add. f_equal. lia.
  - intros b' o Hd. by apply K2, K1.
  - rewrite A2, A1. cbn [length]. lia.
Qed.

Lemma loop_answers rs : forall turns s e,
  waiting s e rs -> (length rs <= turns)%nat ->
  exists bs s' e', poll_loop clock turns (s, e) = (Ret tt, (s', e')) /\
    answered s e rs bs e' /\ waiting s' e' [] /\
    expected_incoming_seq_num_ (s_core s')
      = expected_incoming_seq_num_ (s_core s) + Z.of_nat (length rs).
Proof.
  induction rs as [|[a r] rs IH]; intros turns s e Hw Ht.
  - exists [], s, e. rewrite (idle_loop turns s e Hw). split_and!; [done| |done|cbn [length]; lia].
    split; [done| |done|done|cbn [length]; lia]. intros p. by rewrite app_nil_r.
  - destruct turns as [|turns]; cbn [length] in *; [lia|].
    destruct (busy_turn a r rs s e Hw) as (b & s1 & e1 & E1 & Hw1 & Ha1 & Hc1 & Ho1 & Hx1).
    destruct (IH turns s1 e1 Hw1 ltac:(lia)) as (bs & s2 & e2 & E2 & Ha2 & Hw2 & Hx2).
    exists (b :: bs), s2, e2. cbn [poll_loop]. rewrite (bind_ret _ _ _ _ _ E1), E2.
    split_and!; [done|by eapply answered_cons|done|lia].
Qed.

(** The loop runs when the session is running and has a queue. *)
Lemma running_loop turns s e q :
  running_ (s_inbound s) = true -> inbound_queue_ (s_inbound s) = Some q ->
  processMessages clock turns (s, e) = poll_loop clock turns (s, e).
Proof.
  intros Hr Hq. unfold processMessages.
  rewrite (bind_ret get_session _ (s, e) s (s, e) eq_refl), Hr, Hq. by rewrite bool_decide_false.
Qed.

(** C25: the session answers.  Let test requests and resend requests wait in the inbound
    queue of a running session, numbered from the number the session expects, with room
    for the answers in pool and queues.  Then [processMessages], given as many turns as
    there are requests or more, takes every request and answers each once and in order:
    the queue of each priority grows by the answers of that priority and nothing else, the
    [k]-th answer is a live message with exactly the header, its own consecutive sequence
    number, and the identifier of the test request or the number after the last one asked
    for; and the session expects the number behind the last request.  The requests
    themselves stay in the pool: nobody frees them, and each request takes two slots for
    good, its own and that of its answer. *)
Theorem requests_answered turns rs s e :
  running_ (s_inbound s) = true -> waiting s e rs -> (length rs <= turns)%nat ->
  exists bs s' e', processMessages clock turns (s, e) = (Ret tt, (s', e')) /\
    answered s e rs bs e' /\ waiting s' e' [] /\
    expected_incoming_seq_num_ (s_core s')
      = expected_incoming_seq_num_ (s_core s) + Z.of_nat (length rs).
Proof.
  intros Hr Hw Ht. destruct (wt_queue _ _ _ Hw) as (q & Hq & _).
  rewrite (running_loop turns s e q Hr Hq). by apply loop_answers.
Qed.
End Answers.

(** ** An instance: a test request and a resend request *)

Definition request_message (n : Z) (r : request) : FixMessage :=
  with_fields (list_to_map ([(Tag.MsgType, request_type r); (Tag.SenderCompID, str "BROKER");
    (Tag.TargetCompID, str "GATEWAY"); (Tag.MsgSeqNum, to_string n)] ++
    match r with
    | RTest id => [(Tag.TestReqID, id)]
    | RResend first last => [(Tag.BeginSeqNo, to_string first); (Tag.EndSeqNo, to_string last)]
    end)).

Definition two_requests : list (Z * request) := [(4096, RTest (str "PING")); (4160, RResend 5 7)].

Definition request_env : Env (LockFreeQueue Z) :=
  match newPool 4 (Some 4096) 64 with
  | Some p0 =>
      let p1 := snd (allocate (request_message 1 (RTest (str "PING"))) p0) in
      let p2 := snd (allocate (request_message 2 (RResend 5 7)) p1) in
      mkEnv p2 (replicate 4 (newQueue 0 2 [])) 0
  | None => small_env
  end.

Definition request_session : FixSessionManager (LockFreeQueue Z) (LockFreeQueue GapQueueEntry) :=
  mkSession (mkInbound true (Some (snd (push 4160 (snd (push 4096 (newQueue 0 4 [])))))) true
               no_processing 0)
    sample_config (Some sample_manager) true (mkCore LOGGED_ON 1 1) (mkTimer true 0 0 [] 0 1)
    (mkStats 0 0 0 0 0 0 0 0 0 0 LOGGED_ON).

Lemma two_requests_wait : waiting request_session request_env two_requests.
Proof.
  split.
  - by split.
  - eexists. split; [done|]. split; [|by vm_compute].
    refine (proj1 (push_accepted 0 4160 (snd (push 4096 (newQueue 0 4 []))) _ _ eq_refl)).
    refine (proj1 (push_accepted 0 4096 (newQueue 0 4 []) _ _ eq_refl)). apply newQueue_wf. lia.
  - by vm_compute.
  - intros [|[|k]] a r E; simplify_eq/=.
    + split; [done|]. eexists. split; [by vm_compute|]. by split; vm_compute.
    + split; [done|]. eexists. split; [by vm_compute|]. by split; vm_compute.
  - eapply client_step_wf; [eapply client_step_wf; [|constructor]|constructor].
    by apply (newPool_wf 4 (Some 4096) 64).
  - split; [done|]. repeat constructor; apply newQueue_wf; lia.
  - done.
  - by vm_compute.
  - intros []; by vm_compute; lia.
Qed.

(** The heartbeat is in the HIGH queue, the sequence reset in the CRITICAL one. *)
Lemma requests_answered_witness :
  exists b1 b2 s' e',
    processMessages (fun _ => 0) 3 (request_session, request_env) = (Ret tt, (s', e')) /\
    queued e' HIGH = [b1] /\ queued e' CRITICAL = [b2] /\
    available (env_pool e') = 0 /\ expected_incoming_seq_num_ (s_core s') = 3.
Proof.
  destruct (requests_answered (fun _ => 0) 3 two_requests request_session request_env eq_refl
    two_requests_wait ltac:(vm_compute; lia)) as (bs & s' & e' & E & [L Hq _ _ Ha] & _ & Hx).
  destruct bs as [|b1 [|b2 [|]]]; try discriminate L.
  exists b1, b2, s', e'. split; [exact E|]. split; [apply (Hq HIGH)|]. split; [apply (Hq CRITICAL)|].
  split; [rewrite Ha; by vm_compute|exact Hx].
Defined.
