(* ===== verification/OutboundMessage.v ===== *)
(** [common::Message] ([message.h], [message.cpp]): the envelope of an outbound text with
    its priority, time stamps, state and error, its copies and moves, its orderings and the
    names of its enumerations.

    A [steady_clock::time_point] is its count of nanoseconds, an [int64_t]; the stamps are
    kept in [uint64_t], 0 meaning not set.  A [std::function] member is the identity of the
    function it holds, or nothing.  What a moved-from string or function holds is not
    specified by the language: it is an argument of the move. *)
From S2P Require Import Prelude FixFields PriorityQueues.

(** Two's complement reduction to [int64_t]. *)
Definition s64 (z : Z) : Z := (z + 9223372036854775808) mod 18446744073709551616 - 9223372036854775808.
Definition int64_range (z : Z) : Prop := -9223372036854775808 <= z <= 9223372036854775807.

(** [enum class MessageType] *)
Module MessageType.
Inductive MessageType :=
  | ORDER | CANCEL | FILL | HEARTBEAT | LOGON | LOGOUT | REJECT | ACCEPT | ERROR | UNKNOWN.
#[global] Instance MessageType_eq_dec : EqDecision MessageType.
Proof. solve_decision. Defined.
End MessageType.
Import MessageType (MessageType).

(** [enum class MessageState] *)
Module MessageState.
Inductive MessageState := PENDING | SENDING | SENT | FAILED | EXPIRED.
#[global] Instance MessageState_eq_dec : EqDecision MessageState.
Proof. solve_decision. Defined.
End MessageState.
Import MessageState (MessageState).

Module Outbound.

(** The members of the class *)
Record Message := mkMessage {
  message_id_ : bytes;
  sequence_number_ : bytes;
  payload_ : bytes;
  payload_size_ : Z;
  priority_ : Priority;
  message_type_ : MessageType;
  session_id_ : bytes;
  destination_ : bytes;
  creation_time_ : Z;
  queue_entry_time_ns_ : Z;
  send_time_ns_ : Z;
  deadline_time_ns_ : Z;
  completion_callback_ : option Z;
  error_callback_ : option Z;
  user_callback_ : option Z;
  user_context_ : Z;
  state_ : MessageState;
  retry_count_ : Z;
  error_code_ : Z;
  error_message_ : bytes
}.

(** [timePointToNanos], [nanosToTimePoint] *)
Definition timePointToNanos (tp : Z) : Z := u64 tp.
Definition nanosToTimePoint (nanos : Z) : Z := s64 nanos.

(** [generateSequenceNumber]: the text, and the static counter after it. *)
Definition generateSequenceNumber (sequence_counter : Z) : bytes * Z :=
  (to_string sequence_counter, u64 (sequence_counter + 1)).

(** [initializeTimestamps]; [now] is the clock. *)
Definition initializeTimestamps (now : Z) (m : Message) : Message :=
  mkMessage (message_id_ m) (sequence_number_ m) (payload_ m) (payload_size_ m) (priority_ m)
    (message_type_ m) (session_id_ m) (destination_ m) now 0 0
    (if deadline_time_ns_ m =? 0 then 0 else deadline_time_ns_ m)
    (completion_callback_ m) (error_callback_ m) (user_callback_ m) (user_context_ m)
    (state_ m) (retry_count_ m) (error_code_ m) (error_message_ m).

(** The detailed constructor; the creation time is set in its body. *)
Definition newDetailed (now : Z) (message_id sequence_number payload : bytes) (priority : Priority)
    (message_type : MessageType) (session_id destination : bytes) (deadline : Z) : Message :=
  initializeTimestamps now
    (mkMessage message_id sequence_number payload (Z.of_nat (length payload)) priority
       message_type session_id destination 0 0 0
       (if deadline =? 0 then 0 else timePointToNanos deadline)
       None None None 0 MessageState.PENDING 0 0 []).

(** The simple constructor, with the static counter. *)
Definition newMessage (now : Z) (message_id payload : bytes) (priority : Priority)
    (message_type : MessageType) (session_id destination : bytes) (sequence_counter : Z)
    : Message * Z :=
  let '(sequence_number, counter') := generateSequenceNumber sequence_counter in
  (initializeTimestamps now
     (mkMessage message_id sequence_number payload (Z.of_nat (length payload)) priority
        message_type session_id destination 0 0 0 0 None None None 0 MessageState.PENDING 0 0 []),
   counter').

(** ** Copying and moving *)

(** [copyFrom], on the object it overwrites *)
Definition copyFrom (this other : Message) : Message :=
  mkMessage (message_id_ other) (sequence_number_ other) (payload_ other) (payload_size_ other)
    (priority_ other) (message_type_ other) (session_id_ other) (destination_ other)
    (creation_time_ other) (queue_entry_time_ns_ other) (send_time_ns_ other)
    (deadline_time_ns_ other) (completion_callback_ other) (error_callback_ other)
    (user_callback_ other) (user_context_ other) (state_ other) (retry_count_ other)
    (error_code_ other) (error_message_ other).

(** [moveFrom]: the target and the source after it; [left] and [left_f] are what a
    moved-from string and a moved-from function hold. *)
Definition moveFrom (left : bytes -> bytes) (left_f : option Z -> option Z) (this other : Message)
    : Message * Message :=
  (mkMessage (message_id_ other) (sequence_number_ other) (payload_ other) (payload_size_ other)
     (priority_ other) (message_type_ other) (session_id_ other) (destination_ other)
     (creation_time_ other) (queue_entry_time_ns_ other) (send_time_ns_ other)
     (deadline_time_ns_ other) (completion_callback_ other) (error_callback_ other)
     (user_callback_ other) (user_context_ other) (state_ other) (retry_count_ other)
     (error_code_ other) (error_message_ other),
   mkMessage (left (message_id_ other)) (left (sequence_number_ other)) (left (payload_ other))
     (payload_size_ other) (priority_ other) (message_type_ other) (left (session_id_ other))
     (left (destination_ other)) (creation_time_ other) (queue_entry_time_ns_ other)
     (send_time_ns_ other) (deadline_time_ns_ other) (left_f (completion_callback_ other))
     (left_f (error_callback_ other)) (left_f (user_callback_ other)) (user_context_ other)
     (state_ other) (retry_count_ other) (error_code_ other) []).

(** The copy assignment between different objects, and the copy constructor: a fresh
    object overwritten by [copyFrom]. *)
Definition copyAssignMessage (this other : Message) : Message := copyFrom this other.
Definition copyConstructMessage (raw other : Message) : Message := copyFrom raw other.

(** ** Time *)

(** [getQueueEntryTime], [getSendTime], [getDeadlineTime] *)
Definition stamp_time (nanos : Z) : Z := if nanos =? 0 then 0 else nanosToTimePoint nanos.
Definition getQueueEntryTime (m : Message) : Z := stamp_time (queue_entry_time_ns_ m).
Definition getSendTime (m : Message) : Z := stamp_time (send_time_ns_ m).
Definition getDeadlineTime (m : Message) : Z := stamp_time (deadline_time_ns_ m).

(** [getQueueLatency], [getSendLatency], [getTotalLatency]: [uint64_t] differences read
    as [int64_t]. *)
Definition getQueueLatency (m : Message) : Z :=
  if queue_entry_time_ns_ m =? 0 then 0
  else s64 (u64 (queue_entry_time_ns_ m - timePointToNanos (creation_time_ m))).
Definition getSendLatency (m : Message) : Z :=
  if (send_time_ns_ m =? 0) || (queue_entry_time_ns_ m =? 0) then 0
  else s64 (u64 (send_time_ns_ m - queue_entry_time_ns_ m)).
Definition getTotalLatency (m : Message) : Z :=
  if send_time_ns_ m =? 0 then 0
  else s64 (u64 (send_time_ns_ m - timePointToNanos (creation_time_ m))).

(** [isExpired], [getTimeToDeadline], at the clock reading [now] *)
Definition isExpired (now : Z) (m : Message) : bool :=
  if deadline_time_ns_ m =? 0 then false else deadline_time_ns_ m <? timePointToNanos now.
Definition getTimeToDeadline (now : Z) (m : Message) : Z :=
  if deadline_time_ns_ m =? 0 then 9223372036854775807
  else if deadline_time_ns_ m <? timePointToNanos now then 0
  else s64 (u64 (deadline_time_ns_ m - timePointToNanos now)).

(** The object with other stamps, with another state and error, with other callbacks *)
Definition with_stamps (entry send deadline : Z) (m : Message) : Message :=
  mkMessage (message_id_ m) (sequence_number_ m) (payload_ m) (payload_size_ m) (priority_ m)
    (message_type_ m) (session_id_ m) (destination_ m) (creation_time_ m) entry send deadline
    (completion_callback_ m) (error_callback_ m) (user_callback_ m) (user_context_ m)
    (state_ m) (retry_count_ m) (error_code_ m) (error_message_ m).
Definition with_status (state : MessageState) (retries code : Z) (text : bytes) (m : Message) : Message :=
  mkMessage (message_id_ m) (sequence_number_ m) (payload_ m) (payload_size_ m) (priority_ m)
    (message_type_ m) (session_id_ m) (destination_ m) (creation_time_ m) (queue_entry_time_ns_ m)
    (send_time_ns_ m) (deadline_time_ns_ m) (completion_callback_ m) (error_callback_ m)
    (user_callback_ m) (user_context_ m) state retries code text.
Definition with_callbacks (completion error user : option Z) (context : Z) (m : Message) : Message :=
  mkMessage (message_id_ m) (sequence_number_ m) (payload_ m) (payload_size_ m) (priority_ m)
    (message_type_ m) (session_id_ m) (destination_ m) (creation_time_ m) (queue_entry_time_ns_ m)
    (send_time_ns_ m) (deadline_time_ns_ m) completion error user context
    (state_ m) (retry_count_ m) (error_code_ m) (error_message_ m).

(** [setQueueEntryTime], [setSendTime], [setDeadlineTime] *)
Definition setQueueEntryTime (time : Z) (m : Message) : Message :=
  with_stamps (timePointToNanos time) (send_time_ns_ m) (deadline_time_ns_ m) m.
Definition setSendTime (time : Z) (m : Message) : Message :=
  with_stamps (queue_entry_time_ns_ m) (timePointToNanos time) (deadline_time_ns_ m) m.
Definition setDeadlineTime (time : Z) (m : Message) : Message :=
  with_stamps (queue_entry_time_ns_ m) (send_time_ns_ m) (timePointToNanos time) m.

(** [setState], [isPending], [isSending], [isSent], [isFailed], [isExpiredState],
    [incrementRetryCount], [setError], [clearError] *)
Definition setState (state : MessageState) (m : Message) : Message :=
  with_status state (retry_count_ m) (error_code_ m) (error_message_ m) m.
Definition in_state (state : MessageState) (m : Message) : bool := bool_decide (state_ m = state).
Definition isPending (m : Message) : bool := in_state MessageState.PENDING m.
Definition isSending (m : Message) : bool := in_state MessageState.SENDING m.
Definition isSent (m : Message) : bool := in_state MessageState.SENT m.
Definition isFailed (m : Message) : bool := in_state MessageState.FAILED m.
Definition isExpiredState (m : Message) : bool := in_state MessageState.EXPIRED m.
Definition incrementRetryCount (m : Message) : Message :=
  with_status (state_ m) (wrap32 (retry_count_ m + 1)) (error_code_ m) (error_message_ m) m.
Definition setError (code : Z) (text : bytes) (m : Message) : Message :=
  with_status (state_ m) (retry_count_ m) code text m.
Definition clearError (m : Message) : Message :=
  with_status (state_ m) (retry_count_ m) 0 [] m.

(** [setCompletionCallback], [setErrorCallback], [setUserCallback] *)
Definition setCompletionCallback (f : option Z) (m : Message) : Message :=
  with_callbacks f (error_callback_ m) (user_callback_ m) (user_context_ m) m.
Definition setErrorCallback (f : option Z) (m : Message) : Message :=
  with_callbacks (completion_callback_ m) f (user_callback_ m) (user_context_ m) m.
Definition setUserCallback (f : option Z) (context : Z) (m : Message) : Message :=
  with_callbacks (completion_callback_ m) (error_callback_ m) f context m.

(** A call of a callback: the function, the message and the further arguments.
    [executeCompletionCallback], [executeErrorCallback], [executeUserCallback] make at
    most one. *)
Inductive callback_call :=
  | CallCompletion (f : Z) (m : Message)
  | CallError (f : Z) (m : Message) (code : Z) (text : bytes)
  | CallUser (f : Z) (m : Message) (context : Z).
Definition executeCompletionCallback (m : Message) : option callback_call :=
  f ← completion_callback_ m; Some (CallCompletion f m).
Definition executeErrorCallback (code : Z) (text : bytes) (m : Message) : option callback_call :=
  f ← error_callback_ m; Some (CallError f m code text).
Definition executeUserCallback (m : Message) : option callback_call :=
  f ← user_callback_ m; Some (CallUser f m (user_context_ m)).

(** ** Comparison *)

(** [static_cast<int>(priority_)] *)
Definition priority_value (p : Priority) : Z := Z.of_nat (getPriorityIndex p).

(** [operator<], [operator>], [operator==] and [MessagePriorityComparator] *)
Definition message_lt (a b : Message) : bool := priority_value (priority_ a) <? priority_value (priority_ b).
Definition message_gt (a b : Message) : bool := priority_value (priority_ b) <? priority_value (priority_ a).
Definition message_eq (a b : Message) : bool :=
  bool_decide (message_id_ a = message_id_ b) && bool_decide (sequence_number_ a = sequence_number_ b).
Definition comparator (lhs rhs : Message) : bool :=
  priority_value (priority_ lhs) <? priority_value (priority_ rhs).
End Outbound.

(** * Names of the enumerations *)

(** [messageTypeToString], [messageStateToString], [priorityToString] *)
Definition messageTypeToString (type : MessageType) : bytes :=
  match type with
  | MessageType.ORDER => str "ORDER"
  | MessageType.CANCEL => str "CANCEL"
  | MessageType.FILL => str "FILL"
  | MessageType.HEARTBEAT => str "HEARTBEAT"
  | MessageType.LOGON => str "LOGON"
  | MessageType.LOGOUT => str "LOGOUT"
  | MessageType.REJECT => str "REJECT"
  | MessageType.ACCEPT => str "ACCEPT"
  | MessageType.ERROR => str "ERROR"
  | MessageType.UNKNOWN => str "UNKNOWN"
  end.
Definition messageStateToString (state : MessageState) : bytes :=
  match state with
  | MessageState.PENDING => str "PENDING"
  | MessageState.SENDING => str "SENDING"
  | MessageState.SENT => str "SENT"
  | MessageState.FAILED => str "FAILED"
  | MessageState.EXPIRED => str "EXPIRED"
  end.
Definition priorityToString (priority : Priority) : bytes :=
  match priority with
  | LOW => str "LOW"
  | MEDIUM => str "MEDIUM"
  | HIGH => str "HIGH"
  | CRITICAL => str "CRITICAL"
  end.

(** The chain of comparisons of the conversions back: the first name that matches *)
Fixpoint first_named {A} (name : A -> bytes) (s : bytes) (l : list A) (otherwise : A) : A :=
  match l with
  | [] => otherwise
  | x :: l' => if bool_decide (s = name x) then x else first_named name s l' otherwise
  end.

(** [stringToMessageType], [stringToMessageState], [stringToPriority] *)
Definition stringToMessageType (type_str : bytes) : MessageType :=
  first_named messageTypeToString type_str
    [MessageType.ORDER; MessageType.CANCEL; MessageType.FILL; MessageType.HEARTBEAT;
     MessageType.LOGON; MessageType.LOGOUT; MessageType.REJECT; MessageType.ACCEPT;
     MessageType.ERROR] MessageType.UNKNOWN.
Definition stringToMessageState (state_str : bytes) : MessageState :=
  first_named messageStateToString state_str
    [MessageState.PENDING; MessageState.SENDING; MessageState.SENT; MessageState.FAILED;
     MessageState.EXPIRED] MessageState.PENDING.
Definition stringToPriority (priority_str : bytes) : Priority :=
  first_named priorityToString priority_str [LOW; MEDIUM; HIGH; CRITICAL] LOW.

(** [getStateString], [getTypeString], [getPriorityString], [toString] *)
Definition getStateString (m : Outbound.Message) : bytes := messageStateToString (Outbound.state_ m).
Definition getTypeString (m : Outbound.Message) : bytes := messageTypeToString (Outbound.message_type_ m).
Definition getPriorityString (m : Outbound.Message) : bytes := priorityToString (Outbound.priority_ m).
Definition message_toString (m : Outbound.Message) : bytes :=
  str "Message{id=" ++ Outbound.message_id_ m ++ str ", seq=" ++ Outbound.sequence_number_ m ++
  str ", type=" ++ getTypeString m ++ str ", state=" ++ getStateString m ++
  str ", priority=" ++ getPriorityString m ++
  str ", payload_size=" ++ to_string (Outbound.payload_size_ m) ++
  str ", created=" ++ to_string (Outbound.creation_time_ m) ++
  str ", queue_latency=" ++ to_string (Outbound.getQueueLatency m) ++ str "ns" ++
  str ", send_latency=" ++ to_string (Outbound.getSendLatency m) ++ str "ns" ++
  str ", total_latency=" ++ to_string (Outbound.getTotalLatency m) ++ str "ns" ++
  str ", retry_count=" ++ to_string (Outbound.retry_count_ m) ++ str "}".

(** * Lemmas *)

Lemma s64_mod z : s64 z mod 18446744073709551616 = z mod 18446744073709551616.
Proof.
  unfold s64. rewrite Zminus_mod_idemp_l. f_equal. lia.
Qed.

Lemma s64_id z : int64_range z -> s64 z = z.
Proof. unfold s64, int64_range. intros H. rewrite Z.mod_small; lia. Qed.

Lemma s64_range z : int64_range (s64 z).
Proof.
  unfold s64, int64_range. pose proof (Z.mod_pos_bound (z + 9223372036854775808) 18446744073709551616).
  lia.
Qed.

Lemma s64_u64 z : s64 (u64 z) = s64 z.
Proof. unfold s64, u64. by rewrite Zplus_mod_idemp_l. Qed.

Lemma u64_id z : 0 <= z < 18446744073709551616 -> u64 z = z.
Proof. apply Z.mod_small. Qed.

Lemma message_type_names t : stringToMessageType (messageTypeToString t) = t.
Proof. by destruct t. Qed.
Lemma message_state_names s : stringToMessageState (messageStateToString s) = s.
Proof. by destruct s. Qed.
Lemma priority_names p : stringToPriority (priorityToString p) = p.
Proof. by destruct p. Qed.

(** The stamps of a message give its latencies: for clock readings in order, queue and
    send latency are the differences and add up to the total latency; a deadline has passed
    exactly when the clock is beyond it, and the time left is the difference, never
    negative. *)
Lemma outbound_times m entry sent deadline now :
  0 <= Outbound.creation_time_ m <= entry -> 0 < entry <= sent -> sent <= 9223372036854775807 ->
  0 < deadline <= 9223372036854775807 -> 0 <= now <= 9223372036854775807 ->
  let m' := Outbound.setDeadlineTime deadline
              (Outbound.setSendTime sent (Outbound.setQueueEntryTime entry m)) in
  Outbound.getQueueLatency m' = entry - Outbound.creation_time_ m /\
  Outbound.getSendLatency m' = sent - entry /\
  Outbound.getTotalLatency m' = Outbound.getQueueLatency m' + Outbound.getSendLatency m' /\
  (Outbound.isExpired now m' = true <-> deadline < now) /\
  Outbound.getTimeToDeadline now m' = Z.max 0 (deadline - now).
Proof.
  intros Hc He Hs Hd Hn m'. subst m'.
  unfold Outbound.getTotalLatency, Outbound.getQueueLatency, Outbound.getSendLatency,
    Outbound.isExpired, Outbound.getTimeToDeadline, Outbound.timePointToNanos,
    Outbound.setDeadlineTime, Outbound.setSendTime, Outbound.setQueueEntryTime,
    Outbound.timePointToNanos, Outbound.with_stamps.
  cbn [Outbound.creation_time_ Outbound.queue_entry_time_ns_ Outbound.send_time_ns_
       Outbound.deadline_time_ns_].
  rewrite (u64_id entry), (u64_id sent), (u64_id deadline), (u64_id now),
    (u64_id (Outbound.creation_time_ m)), !s64_u64 by lia.
  destruct (Z.eqb_spec entry 0); [lia|]. destruct (Z.eqb_spec sent 0); [lia|].
  destruct (Z.eqb_spec deadline 0); [lia|]. cbn [orb].
  rewrite !s64_id by (unfold int64_range; lia). rewrite Z.ltb_lt.
  split_and!; try lia; try done. destruct (Z.ltb_spec deadline now); lia.
Qed.

