(* ===== verification/MutexQueue.v ===== *)
(** [utils::PriorityQueue] ([priority_queue.h], [priority_queue.cpp]): the blocking priority
    queue of outbound messages, with its overflow policies, counters and waiting.

    The queue holds pointers to messages of the global pool; [std::priority_queue] is the
    class [MaxHeap] below, which leaves open what it does among equal priorities.  The
    mutex makes the code between taking and releasing it one step; a thread that waits on
    a condition variable releases it, and comes back when the condition holds or its
    time is over.  The average latency (a [double]) is kept as its two counters. *)
From S2P Require Import Prelude FixFields MessagePool PriorityQueues OutboundMessage.
Import Outbound.

(** ** [std::priority_queue] *)

(** [key] is what the comparator compares, read through the pointers.  [heap_top] is an
    element with the largest key. *)
Class MaxHeap (H : Type) := {
  heap_elems : H -> list Z;
  heap_empty : H;
  heap_push : (Z -> Z) -> Z -> H -> H;
  heap_top : H -> Z;
  heap_pop : (Z -> Z) -> H -> H;
  heap_ok : (Z -> Z) -> H -> Prop;
  heap_empty_elems : heap_elems heap_empty = [];
  heap_empty_ok key : heap_ok key heap_empty;
  heap_push_ok key x h :
    heap_ok key h ->
    heap_ok key (heap_push key x h) /\ heap_elems (heap_push key x h) ≡ₚ x :: heap_elems h;
  heap_pop_ok key h :
    heap_ok key h -> heap_elems h <> [] ->
    heap_ok key (heap_pop key h) /\ heap_elems h ≡ₚ heap_top h :: heap_elems (heap_pop key h) /\
    (forall y, y ∈ heap_elems h -> key y <= key (heap_top h));
  heap_ok_ext key key' h :
    (forall y, y ∈ heap_elems h -> key y = key' y) -> heap_ok key h -> heap_ok key' h
}.

(** A heap for running the definitions: a list with decreasing keys. *)
Fixpoint insert_sorted (key : Z -> Z) (x : Z) (l : list Z) : list Z :=
  match l with
  | [] => [x]
  | y :: l' => if key y <? key x then x :: l else y :: insert_sorted key x l'
  end.

Definition keys_decrease (key : Z -> Z) (l : list Z) : Prop :=
  StronglySorted (fun a b => key b <= key a) l.

Lemma insert_sorted_perm key x l : insert_sorted key x l ≡ₚ x :: l.
Proof.
  induction l as [|y l IH]; simpl; [done|]. destruct (key y <? key x); [done|].
  rewrite IH. apply Permutation_swap.
Qed.

Lemma insert_sorted_ok key x l : keys_decrease key l -> keys_decrease key (insert_sorted key x l).
Proof.
  unfold keys_decrease. induction 1 as [|y l Hs IH Hall]; simpl.
  - repeat constructor.
  - destruct (Z.ltb_spec (key y) (key x)).
    + constructor; [by constructor|]. constructor; [lia|].
      eapply Forall_impl; [exact Hall|]. simpl. lia.
    + constructor; [done|]. rewrite insert_sorted_perm. by constructor.
Qed.

#[export] Program Instance sorted_heap : MaxHeap (list Z) := {|
  heap_elems := fun l => l;
  heap_empty := [];
  heap_push := insert_sorted;
  heap_top := fun l => default 0 (head l);
  heap_pop := fun _ l => tail l;
  heap_ok := keys_decrease
|}.
Next Obligation. done. Qed.
Next Obligation. constructor. Qed.
Next Obligation. intros key x h Hh. split; [by apply insert_sorted_ok|apply insert_sorted_perm]. Qed.
Next Obligation.
  intros key [|x l] Hh Hne; [done|]. inversion Hh as [|? ? Hs Hall]; subst. simpl.
  split; [done|]. split; [done|]. intros y [->|Hy]%elem_of_cons; [lia|].
  by apply (proj1 (Forall_forall _ _) Hall).
Qed.
Next Obligation.
  unfold keys_decrease. intros key key' h. induction 2 as [|y l Hs IH Hall]; constructor.
  - apply IH. intros z Hz. apply H. by right.
  - apply Forall_forall. intros z Hz. pose proof (proj1 (Forall_forall _ _) Hall z Hz).
    rewrite <- (H y), <- (H z) by (by constructor). done.
Qed.

(** ** The object *)

(** [enum class OverflowPolicy] *)
Inductive OverflowPolicy := DROP_OLDEST | DROP_NEWEST | BLOCK | REJECT.
#[export] Instance OverflowPolicy_eq_dec : EqDecision OverflowPolicy.
Proof. solve_decision. Defined.

(** [overflowPolicyToString], [stringToOverflowPolicy] *)
Definition overflowPolicyToString (policy : OverflowPolicy) : bytes :=
  match policy with
  | DROP_OLDEST => str "DROP_OLDEST"
  | DROP_NEWEST => str "DROP_NEWEST"
  | BLOCK => str "BLOCK"
  | REJECT => str "REJECT"
  end.
Definition stringToOverflowPolicy (policy_str : bytes) : OverflowPolicy :=
  first_named overflowPolicyToString policy_str [DROP_OLDEST; DROP_NEWEST; BLOCK; REJECT] DROP_OLDEST.

(** The members of the class *)
Record PriorityQueue (H : Type) := mkPQ {
  queue_ : H;
  max_size_ : Z;
  overflow_policy_ : OverflowPolicy;
  pq_name_ : bytes;
  pq_is_shutdown_ : bool;
  total_pushed_ : Z;
  total_popped_ : Z;
  total_dropped_ : Z;
  peak_size_ : Z;
  total_latency_ns_ : Z;
  latency_samples_ : Z
}.
Arguments mkPQ {H}. Arguments queue_ {H}. Arguments max_size_ {H}. Arguments overflow_policy_ {H}.
Arguments pq_name_ {H}. Arguments pq_is_shutdown_ {H}. Arguments total_pushed_ {H}.
Arguments total_popped_ {H}. Arguments total_dropped_ {H}. Arguments peak_size_ {H}.
Arguments total_latency_ns_ {H}. Arguments latency_samples_ {H}.

(** The queue with the global message pool and the number of clock readings *)
Record PqWorld (H : Type) := mkPqWorld {
  pw_pq : PriorityQueue H;
  pw_pool : MessagePool Message;
  pw_ticks : nat
}.
Arguments mkPqWorld {H}. Arguments pw_pq {H}. Arguments pw_pool {H}. Arguments pw_ticks {H}.

Section Operations.
Context {H : Type} `{MaxHeap H}.
Variable clock : nat -> Z.
Implicit Types q : PriorityQueue H.

(** The constructor *)
Definition newPriorityQueue (max_size : Z) (policy : OverflowPolicy) (name : bytes) : PriorityQueue H :=
  mkPQ heap_empty max_size policy name false 0 0 0 0 0 0.

Definition pq_size q : Z := Z.of_nat (length (heap_elems (queue_ q))).
Definition pq_empty q : bool := bool_decide (heap_elems (queue_ q) = []).

(** What the comparator sees behind a pointer *)
Definition key_of (pool : MessagePool Message) (a : Z) : Z :=
  match deref pool a with Some m => priority_value (priority_ m) | None => 0 end.

Definition PM := M (PqWorld H).

Definition pq_now : PM Z :=
  fun w => (Ret (clock (pw_ticks w)), mkPqWorld (pw_pq w) (pw_pool w) (S (pw_ticks w))).
Definition get_pq : PM (PriorityQueue H) := fun w => (Ret (pw_pq w), w).
Definition on_pq (f : PriorityQueue H -> PriorityQueue H) : PM unit :=
  fun w => (Ret tt, mkPqWorld (f (pw_pq w)) (pw_pool w) (pw_ticks w)).

(** [Message::destroy]: nothing for a null pointer, else back to the global pool *)
Definition destroyMessage (message : option Z) : PM unit :=
  fun w => (Ret tt, mkPqWorld (pw_pq w)
              (match message with None => pw_pool w | Some _ => deallocate message (pw_pool w) end)
              (pw_ticks w)).

(** A method call through the pointer: undefined behaviour without a live object *)
Definition on_message (f : Message -> Message) (a : Z) : PM unit :=
  fun w => match deref (pw_pool w) a with
           | Some _ => (Ret tt, mkPqWorld (pw_pq w) (update_object f a (pw_pool w)) (pw_ticks w))
           | None => (Ub, w)
           end.

Definition count_pq (pushed popped dropped : Z) : PM unit :=
  on_pq (fun q => mkPQ (queue_ q) (max_size_ q) (overflow_policy_ q) (pq_name_ q) (pq_is_shutdown_ q)
    (total_pushed_ q + pushed) (total_popped_ q + popped) (total_dropped_ q + dropped)
    (peak_size_ q) (total_latency_ns_ q) (latency_samples_ q)).

Definition set_queue (h : H) q : PriorityQueue H :=
  mkPQ h (max_size_ q) (overflow_policy_ q) (pq_name_ q) (pq_is_shutdown_ q) (total_pushed_ q)
    (total_popped_ q) (total_dropped_ q) (peak_size_ q) (total_latency_ns_ q) (latency_samples_ q).

(** [queue_.push(message)]; [queue_.top()] and [queue_.pop()] *)
Definition heap_push_here (a : Z) : PM unit :=
  fun w => (Ret tt, mkPqWorld (set_queue (heap_push (key_of (pw_pool w)) a (queue_ (pw_pq w))) (pw_pq w))
              (pw_pool w) (pw_ticks w)).
Definition heap_take : PM Z :=
  fun w => (Ret (heap_top (queue_ (pw_pq w))),
            mkPqWorld (set_queue (heap_pop (key_of (pw_pool w)) (queue_ (pw_pq w))) (pw_pq w))
              (pw_pool w) (pw_ticks w)).

(** The loop that raises [peak_size_]: without interference one turn sets it. *)
Definition raise_peak : PM unit :=
  on_pq (fun q => mkPQ (queue_ q) (max_size_ q) (overflow_policy_ q) (pq_name_ q) (pq_is_shutdown_ q)
    (total_pushed_ q) (total_popped_ q) (total_dropped_ q)
    (if peak_size_ q <? pq_size q then pq_size q else peak_size_ q)
    (total_latency_ns_ q) (latency_samples_ q)).

(** [recordLatency] *)
Definition recordLatency (start_time : Z) : PM unit :=
  end_time <-- pq_now ;;
  on_pq (fun q => mkPQ (queue_ q) (max_size_ q) (overflow_policy_ q) (pq_name_ q) (pq_is_shutdown_ q)
    (total_pushed_ q) (total_popped_ q) (total_dropped_ q) (peak_size_ q)
    (u64 (total_latency_ns_ q + (end_time - start_time))) (latency_samples_ q + 1)).

(** [handleOverflow] *)
Definition handleOverflow : PM bool :=
  q <-- get_pq ;;
  if bool_decide (overflow_policy_ q = DROP_OLDEST) && negb (pq_empty q) then
    dropped <-- heap_take ;;
    destroyMessage (Some dropped) ;;;
    count_pq 0 0 1 ;;;
    ret true
  else ret false.

(** [pushInternal]: the insertion, which [push] repeats before recording the latency *)
Definition pushInternal (message : Z) : PM bool :=
  heap_push_here message ;;;
  count_pq 1 0 0 ;;;
  raise_peak ;;;
  ret true.

(** ** [push] *)

(** Where a push stands after a step: finished, or waiting for room. *)
Inductive push_status := PushDone (result : bool) | PushWaiting.

(** Before the mutex is taken: the finished result, or the start time *)
Definition push_begin (message : option Z) : PM (bool + Z) :=
  q <-- get_pq ;;
  if pq_is_shutdown_ q then destroyMessage message ;;; ret (inl false)
  else
    match message with
    | None => ret (inl false)
    | Some a =>
        start_time <-- pq_now ;;
        on_message (setQueueEntryTime start_time) a ;;;
        ret (inr start_time)
    end.

Definition push_insert (start_time a : Z) : PM push_status :=
  heap_push_here a ;;;
  count_pq 1 0 0 ;;;
  raise_peak ;;;
  recordLatency start_time ;;;
  ret (PushDone true).

Definition push_refuse (a : Z) (dropped : Z) : PM push_status :=
  count_pq 0 0 dropped ;;; destroyMessage (Some a) ;;; ret (PushDone false).

(** With the mutex: up to the end, or to the wait of the [BLOCK] policy *)
Definition push_locked (start_time a : Z) : PM push_status :=
  q <-- get_pq ;;
  if max_size_ q <=? pq_size q then
    match overflow_policy_ q with
    | DROP_OLDEST => b <-- handleOverflow ;; if b then push_insert start_time a else push_refuse a 0
    | DROP_NEWEST => push_refuse a 1
    | BLOCK => if pq_is_shutdown_ q then push_refuse a 0 else ret PushWaiting
    | REJECT => push_refuse a 1
    end
  else push_insert start_time a.

(** Woken with the mutex: the predicate of the wait decides *)
Definition push_woken (timed_out : bool) (start_time a : Z) : PM push_status :=
  q <-- get_pq ;;
  if (pq_size q <? max_size_ q) || pq_is_shutdown_ q then
    if pq_is_shutdown_ q then push_refuse a 0 else push_insert start_time a
  else if timed_out then push_refuse a 0 else ret PushWaiting.

(** [push(message, timeout)] while no other thread uses the queue: a wait ends with its
    time. *)
Definition pq_push (message : option Z) : PM bool :=
  r <-- push_begin message ;;
  match r, message with
  | inr start_time, Some a =>
      s <-- push_locked start_time a ;;
      match s with
      | PushDone b => ret b
      | PushWaiting =>
          s' <-- push_woken true start_time a ;;
          match s' with PushDone b => ret b | PushWaiting => ret false end
      end
  | inl b, _ => ret b
  | inr _, None => ret false
  end.

(** ** [pop] *)

Inductive pop_status := PopDone (message : option Z) | PopWaiting.

Definition pop_take : PM pop_status :=
  a <-- heap_take ;; count_pq 0 1 0 ;;; ret (PopDone (Some a)).

(** With the mutex, at first and whenever woken; [timed_out] when the time is over *)
Definition pop_locked (timed_out : bool) : PM pop_status :=
  q <-- get_pq ;;
  if negb (pq_empty q) || pq_is_shutdown_ q then
    if pq_empty q then ret (PopDone None) else pop_take
  else if timed_out then ret (PopDone None) else ret PopWaiting.

(** [pop(message, timeout)] while no other thread uses the queue *)
Definition pq_pop : PM (option Z) :=
  s <-- pop_locked true ;;
  match s with PopDone r => ret r | PopWaiting => ret None end.

(** [tryPop] *)
Definition pq_tryPop : PM (option Z) :=
  q <-- get_pq ;;
  if pq_empty q then ret None
  else a <-- heap_take ;; count_pq 0 1 0 ;;; ret (Some a).

(** ** Management *)

(** [clear] *)
Fixpoint pq_clear_loop (fuel : nat) : PM unit :=
  match fuel with
  | O => nofuel
  | S f =>
      q <-- get_pq ;;
      if pq_empty q then ret tt
      else msg <-- heap_take ;; destroyMessage (Some msg) ;;; pq_clear_loop f
  end.
Definition pq_clear : PM unit :=
  q <-- get_pq ;; pq_clear_loop (S (length (heap_elems (queue_ q)))).

(** [shutdown], [setOverflowPolicy] *)
Definition pq_shutdown : PM unit :=
  on_pq (fun q => mkPQ (queue_ q) (max_size_ q) (overflow_policy_ q) (pq_name_ q) true (total_pushed_ q)
    (total_popped_ q) (total_dropped_ q) (peak_size_ q) (total_latency_ns_ q) (latency_samples_ q)).
Definition setOverflowPolicy (policy : OverflowPolicy) : PM unit :=
  on_pq (fun q => mkPQ (queue_ q) (max_size_ q) policy (pq_name_ q) (pq_is_shutdown_ q) (total_pushed_ q)
    (total_popped_ q) (total_dropped_ q) (peak_size_ q) (total_latency_ns_ q) (latency_samples_ q)).

(** [setMaxSize] *)
Fixpoint shrink_loop (fuel : nat) : PM unit :=
  match fuel with
  | O => nofuel
  | S f =>
      q <-- get_pq ;;
      if (max_size_ q <? pq_size q) && bool_decide (overflow_policy_ q = DROP_OLDEST) then
        msg <-- heap_take ;; destroyMessage (Some msg) ;;; count_pq 0 0 1 ;;; shrink_loop f
      else ret tt
  end.
Definition setMaxSize (max_size : Z) : PM unit :=
  on_pq (fun q => mkPQ (queue_ q) max_size (overflow_policy_ q) (pq_name_ q) (pq_is_shutdown_ q)
    (total_pushed_ q) (total_popped_ q) (total_dropped_ q) (peak_size_ q) (total_latency_ns_ q)
    (latency_samples_ q)) ;;;
  q <-- get_pq ;; shrink_loop (S (length (heap_elems (queue_ q)))).

(** The destructor *)
Definition pq_destructor : PM unit := pq_shutdown ;;; pq_clear.

(** [getStats], the integer part: size, capacity, pushed, popped, dropped, peak, and the
    two counters of the average latency *)
Definition getQueueStats q : Z * Z * Z * Z * Z * Z * (Z * Z) * bytes :=
  (pq_size q, max_size_ q, total_pushed_ q, total_popped_ q, total_dropped_ q, peak_size_ q,
   (total_latency_ns_ q, latency_samples_ q), overflowPolicyToString (overflow_policy_ q)).
End Operations.

(** * Invariant *)

Section Invariant.
Context {H : Type} `{MaxHeap H}.
Variable clock : nat -> Z.
Implicit Types w : PqWorld H.

Definition pq_items w : list Z := heap_elems (queue_ (pw_pq w)).

Lemma pq_size_items w : pq_size (pw_pq w) = Z.of_nat (length (pq_items w)).
Proof. done. Qed.

(** The messages in the queue and those the threads hold ([owned]) are live and all
    different, and apart from [others] they are all the messages that are allocated. *)
Record pq_inv (others : Z) (owned : list Z) w : Prop := {
  inv_pool : pool_wf (pw_pool w);
  inv_heap : heap_ok (key_of (pw_pool w)) (queue_ (pw_pq w));
  inv_nodup : NoDup (pq_items w ++ owned);
  inv_live : forall a, a ∈ pq_items w ++ owned -> is_Some (deref (pw_pool w) a);
  inv_count : allocated_count_ (pw_pool w) = others + Z.of_nat (length (pq_items w ++ owned));
  inv_room : pq_size (pw_pq w) <= max_size_ (pw_pq w)
}.

Lemma pq_inv_perm others owned owned' w :
  owned ≡ₚ owned' -> pq_inv others owned w -> pq_inv others owned' w.
Proof.
  intros Hp [H1 H2 H3 H4 H5 H6]. split; try done.
  - by rewrite <- Hp.
  - intros a. rewrite <- Hp. apply H4.
  - by rewrite <- Hp.
Qed.

(** The queue object changed, but neither its elements nor its bound. *)
Lemma pq_inv_frame others owned q' p w t :
  queue_ q' = queue_ (pw_pq w) -> max_size_ q' = max_size_ (pw_pq w) -> p = pw_pool w ->
  pq_inv others owned w -> pq_inv others owned (mkPqWorld q' p t).
Proof.
  intros Hq Hm -> [H1 H2 H3 H4 H5 H6].
  split; unfold pq_items, pq_size in *; cbn [pw_pq pw_pool]; rewrite ?Hq, ?Hm; done.
Qed.

(** The keys of live messages survive changes of other messages. *)
Lemma heap_ok_same p p' h :
  (forall a, a ∈ heap_elems h -> priority_ <$> deref p' a = priority_ <$> deref p a) ->
  heap_ok (key_of p) h -> heap_ok (key_of p') h.
Proof.
  intros Hs. apply heap_ok_ext. intros y Hy. specialize (Hs y Hy). unfold key_of.
  destruct (deref p y), (deref p' y); simpl in Hs; congruence.
Qed.

Lemma inv_push_here others owned a w :
  pq_inv others (a :: owned) w -> pq_size (pw_pq w) < max_size_ (pw_pq w) ->
  exists w', heap_push_here a w = (Ret tt, w') /\ pq_inv others owned w' /\
    pq_items w' ≡ₚ a :: pq_items w.
Proof.
  intros [H1 H2 H3 H4 H5 H6] Hs. eexists. split; [reflexivity|].
  destruct (heap_push_ok _ a _ H2) as [Ho Hp].
  set (w' := mkPqWorld _ _ _).
  assert (pq_items w' ≡ₚ a :: pq_items w) as Hi by done.
  assert (pq_items w' ++ owned ≡ₚ pq_items w ++ a :: owned) as Hio
    by (rewrite Hi; simpl; apply Permutation_middle).
  split; [|done]. split; try done.
  - by rewrite Hio.
  - intros b. rewrite Hio. apply H4.
  - by rewrite Hio.
  - rewrite !pq_size_items in *. change (max_size_ (pw_pq w')) with (max_size_ (pw_pq w)).
    rewrite Hi. simpl. lia.
Qed.

Lemma inv_take others owned w :
  pq_inv others owned w -> pq_items w <> [] ->
  exists a w', heap_take w = (Ret a, w') /\ pq_inv others (a :: owned) w' /\
    pw_pool w' = pw_pool w /\ pq_items w ≡ₚ a :: pq_items w' /\
    (forall y, y ∈ pq_items w -> key_of (pw_pool w) y <= key_of (pw_pool w) a) /\
    pq_size (pw_pq w') + 1 = pq_size (pw_pq w).
Proof.
  intros [H1 H2 H3 H4 H5 H6] Hne. do 2 eexists. split; [reflexivity|].
  destruct (heap_pop_ok _ _ H2 Hne) as (Ho & Hp & Hm).
  set (w' := mkPqWorld _ _ _). set (a := heap_top _) in *.
  assert (pq_items w ≡ₚ a :: pq_items w') as Hi by done.
  assert (pq_items w' ++ a :: owned ≡ₚ pq_items w ++ owned) as Hio
    by (rewrite Hi; simpl; symmetry; apply Permutation_middle).
  assert (pq_size (pw_pq w') + 1 = pq_size (pw_pq w)) as Hsz.
  { rewrite !pq_size_items, Hi. simpl. lia. }
  split; [|split; [done|split; [done|split; [exact Hm|done]]]]. split; try done.
  - by rewrite Hio.
  - intros b. rewrite Hio. apply H4.
  - by rewrite Hio.
  - change (max_size_ (pw_pq w')) with (max_size_ (pw_pq w)). lia.
Qed.

Lemma inv_destroy others owned a w :
  pq_inv others (a :: owned) w ->
  exists w', destroyMessage (Some a) w = (Ret tt, w') /\ pq_inv others owned w' /\
    pw_pq w' = pw_pq w.
Proof.
  intros [H1 H2 H3 H4 H5 H6]. eexists. split; [reflexivity|]. split; [|done].
  destruct (H4 a) as [o Ho]; [set_solver|].
  destruct (deallocate_deref a _ o H1 Ho) as (Hw & _ & Hd & Hc).
  assert (a ∉ pq_items w ++ owned) as Hna.
  { rewrite <- Permutation_middle in H3. by apply NoDup_cons in H3 as [? _]. }
  assert (forall b, b ∈ pq_items w ++ owned ->
            deref (deallocate (Some a) (pw_pool w)) b = deref (pw_pool w) b) as Hsame.
  { intros b Hb. apply Hd. by intros ->. }
  split; unfold pq_items in *; cbn [pw_pool pw_pq]; try done.
  - eapply heap_ok_same; [|exact H2]. intros b Hb. rewrite Hsame; [done|set_solver].
  - rewrite <- Permutation_middle in H3. by apply NoDup_cons in H3 as [_ ?].
  - intros b Hb. rewrite Hsame by done. apply H4. set_solver.
  - rewrite Hc, H5, !length_app. simpl. lia.
Qed.

Lemma inv_on_message others owned f a w :
  (forall m, priority_ (f m) = priority_ m) ->
  pq_inv others owned w -> a ∈ owned ->
  exists w', on_message f a w = (Ret tt, w') /\ pq_inv others owned w' /\ pw_pq w' = pw_pq w.
Proof.
  intros Hf [H1 H2 H3 H4 H5 H6] Ha. unfold on_message.
  destruct (H4 a) as [o Ho]; [set_solver|]. rewrite Ho. eexists. split; [reflexivity|].
  split; [|done].
  pose proof (pw_bytes _ H1) as Hb.
  split; unfold pq_items in *; cbn [pw_pool pw_pq]; try done.
  - by apply update_object_wf.
  - eapply heap_ok_same; [|exact H2]. intros b _.
    destruct (update_object_deref_cases f a (pw_pool w) b) as [-> | ->]; [done|].
    destruct (deref (pw_pool w) b); simpl; by rewrite ?Hf.
  - intros b Hb'. destruct (update_object_deref_cases f a (pw_pool w) b) as [-> | ->];
      [by apply H4|]. rewrite fmap_is_Some. by apply H4.
  - rewrite <- H5. unfold update_object. by destruct (slot_of (pw_pool w) a).
Qed.

(** The configuration and the shutdown flag are as before. *)
Definition same_config w w' : Prop :=
  max_size_ (pw_pq w') = max_size_ (pw_pq w) /\
  overflow_policy_ (pw_pq w') = overflow_policy_ (pw_pq w) /\
  pq_is_shutdown_ (pw_pq w') = pq_is_shutdown_ (pw_pq w).

Lemma same_config_refl w : same_config w w.
Proof. done. Qed.
Lemma same_config_trans w1 w2 w3 : same_config w1 w2 -> same_config w2 w3 -> same_config w1 w3.
Proof. unfold same_config. intuition congruence. Qed.

(** Rules for the steps *)

Definition no_throw : PqWorld H -> Prop := fun _ => False.

Lemma wp_get_pq {A} (k : PriorityQueue H -> PM A) Post w :
  wp (k (pw_pq w)) Post no_throw w -> wp (bind get_pq k) Post no_throw w.
Proof. done. Qed.

(** Counters change, the queue does not. *)
Definition counters_only (f : PriorityQueue H -> PriorityQueue H) : Prop :=
  forall q, queue_ (f q) = queue_ q /\ max_size_ (f q) = max_size_ q /\
    overflow_policy_ (f q) = overflow_policy_ q /\ pq_is_shutdown_ (f q) = pq_is_shutdown_ q.

Lemma wp_on_pq {A} f (k : unit -> PM A) others owned Post w :
  counters_only f -> pq_inv others owned w ->
  (forall w', pq_inv others owned w' -> pq_items w' = pq_items w -> pw_pool w' = pw_pool w ->
     same_config w w' -> wp (k tt) Post no_throw w') ->
  wp (bind (on_pq f) k) Post no_throw w.
Proof.
  intros Hf Hw Hk. unfold wp, bind, on_pq. destruct (Hf (pw_pq w)) as (H1 & H2 & H3 & H4).
  apply Hk; try done.
  - by apply (pq_inv_frame _ _ _ _ w).
  - unfold pq_items. simpl. by rewrite H1.
Qed.

Lemma count_counters pushed popped dropped :
  counters_only (fun q => mkPQ (queue_ q) (max_size_ q) (overflow_policy_ q) (pq_name_ q) (pq_is_shutdown_ q)
    (total_pushed_ q + pushed) (total_popped_ q + popped) (total_dropped_ q + dropped)
    (peak_size_ q) (total_latency_ns_ q) (latency_samples_ q)).
Proof. done. Qed.

Lemma wp_take {A} (k : Z -> PM A) others owned Post w :
  pq_inv others owned w -> pq_items w <> [] ->
  (forall a w', pq_inv others (a :: owned) w' -> pw_pool w' = pw_pool w ->
     pq_items w ≡ₚ a :: pq_items w' ->
     (forall y, y ∈ pq_items w -> key_of (pw_pool w) y <= key_of (pw_pool w) a) ->
     same_config w w' -> wp (k a) Post no_throw w') ->
  wp (bind heap_take k) Post no_throw w.
Proof.
  intros Hw Hne Hk. destruct (inv_take _ _ _ Hw Hne) as (a & w' & E & Hi & Hp & Hit & Hm & _).
  unfold wp, bind. rewrite E. apply Hk; try done. unfold heap_take in E. by simplify_eq.
Qed.

Lemma wp_destroy {A} a (k : unit -> PM A) others owned Post w :
  pq_inv others (a :: owned) w ->
  (forall w', pq_inv others owned w' -> pw_pq w' = pw_pq w ->
     (forall b, b ∈ pq_items w ++ owned -> deref (pw_pool w') b = deref (pw_pool w) b) ->
     deref (pw_pool w') a = None -> wp (k tt) Post no_throw w') ->
  wp (bind (destroyMessage (Some a)) k) Post no_throw w.
Proof.
  intros Hw Hk. destruct (inv_destroy _ _ _ _ Hw) as (w' & E & Hi & Hq).
  unfold wp, bind. rewrite E. apply Hk; try done; unfold destroyMessage in E; simplify_eq;
    destruct Hw as [H1 H2 H3 H4 H5 H6]; destruct (H4 a) as [o Ho]; try set_solver;
    destruct (deallocate_deref a _ o H1 Ho) as (_ & Hn & Hd & _); simpl.
  - intros b Hb. apply Hd. intros ->. rewrite <- Permutation_middle in H3.
    by apply NoDup_cons in H3 as [? _].
  - done.
Qed.

Lemma wp_push_here {A} a (k : unit -> PM A) others owned Post w :
  pq_inv others (a :: owned) w -> pq_size (pw_pq w) < max_size_ (pw_pq w) ->
  (forall w', pq_inv others owned w' -> pq_items w' ≡ₚ a :: pq_items w ->
     pw_pool w' = pw_pool w -> same_config w w' -> wp (k tt) Post no_throw w') ->
  wp (bind (heap_push_here a) k) Post no_throw w.
Proof.
  intros Hw Hs Hk. destruct (inv_push_here _ _ _ _ Hw Hs) as (w' & E & Hi & Hit).
  unfold wp, bind. rewrite E. apply Hk; try done; unfold heap_push_here in E; by simplify_eq.
Qed.

Lemma wp_now {A} (k : Z -> PM A) others owned Post w :
  pq_inv others owned w ->
  (forall w', pq_inv others owned w' -> pw_pq w' = pw_pq w -> pw_pool w' = pw_pool w ->
     wp (k (clock (pw_ticks w))) Post no_throw w') ->
  wp (bind (pq_now clock) k) Post no_throw w.
Proof.
  intros Hw Hk. unfold wp, bind, pq_now. apply Hk; try done. by apply (pq_inv_frame _ _ _ _ w).
Qed.

Lemma wp_record_latency {A} start (k : unit -> PM A) others owned Post w :
  pq_inv others owned w ->
  (forall w', pq_inv others owned w' -> pq_items w' = pq_items w -> pw_pool w' = pw_pool w ->
     same_config w w' -> wp (k tt) Post no_throw w') ->
  wp (bind (recordLatency clock start) k) Post no_throw w.
Proof.
  intros Hw Hk. unfold wp, bind, recordLatency, bind, pq_now, on_pq. apply Hk; try done.
  by apply (pq_inv_frame _ _ _ _ w).
Qed.
End Invariant.

(** One counter step of a routine, the queue being the same *)
Ltac step_counter := eapply wp_on_pq; [done|eassumption|intros ? ? ? ? ?].
