(* ===== verification/MutexQueueProperties.v ===== *)
(** Properties of the blocking priority queue: what a push does under every overflow
    policy, in which order messages leave, and that threads that share the queue neither
    lose a message nor touch one that is gone. *)
From S2P Require Import Prelude FixFields MessagePool PriorityQueues OutboundMessage MutexQueue.
Import Outbound.

Section Specs.
Context {H : Type} `{MaxHeap H}.
Variable clock : nat -> Z.
Implicit Types w : PqWorld H.

Definition full w : Prop := max_size_ (pw_pq w) <= pq_size (pw_pq w).

(** The queue [w'] holds what [w] held, and [a]. *)
Definition added (a : Z) w w' : Prop := pq_items w' ≡ₚ a :: pq_items w.

(** [y] has the largest key: of all queued messages it has the least urgent priority. *)
Definition least_urgent (y : Z) w : Prop :=
  y ∈ pq_items w /\ forall z, z ∈ pq_items w -> key_of (pw_pool w) z <= key_of (pw_pool w) y.

(** [y] left the queue and went back to the pool, and [a] came in. *)
Definition replaced (y a : Z) w w' : Prop :=
  least_urgent y w /\ deref (pw_pool w') y = None /\
  exists rest, pq_items w ≡ₚ y :: rest /\ pq_items w' ≡ₚ a :: rest.

(** [a] went back to the pool. *)
Definition refused (a : Z) w w' : Prop :=
  pq_items w' = pq_items w /\ deref (pw_pool w') a = None.

(** There is nothing to drop: another policy, or no message. *)
Definition cannot_drop w : Prop :=
  overflow_policy_ (pw_pq w) = DROP_OLDEST -> pq_items w = [].

(** What a push of [a] with the mutex makes of [w]. *)
Definition push_effect (a : Z) w (s : push_status) w' : Prop :=
  match s with
  | PushDone true =>
      (~ full w /\ added a w w') \/
      (full w /\ overflow_policy_ (pw_pq w) = DROP_OLDEST /\ exists y, replaced y a w w')
  | PushDone false => full w /\ refused a w w' /\ cannot_drop w
  | PushWaiting => full w /\ overflow_policy_ (pw_pq w) = BLOCK /\ w' = w
  end.

(** Who owns [a] afterwards. *)
Definition still_owned (a : Z) (s : push_status) : list Z :=
  match s with PushDone _ => [] | PushWaiting => [a] end.

Lemma push_insert_wp start a others owned w :
  pq_inv others (a :: owned) w -> ~ full w ->
  wp (push_insert clock start a)
    (fun s w' => s = PushDone true /\ pq_inv others owned w' /\ added a w w' /\
                 pw_pool w' = pw_pool w /\ same_config w w') no_throw w.
Proof.
  intros Hw Hf. unfold full in Hf. unfold push_insert, count_pq, raise_peak.
  eapply wp_push_here; [exact Hw|lia|]. intros w1 Hw1 Hi1 Hp1 Hc1.
  step_counter. step_counter. eapply wp_record_latency; [eassumption|]. intros w4 Hw4 Hi4 Hp4 Hc4.
  apply wp_ret. split; [done|]. split; [done|]. unfold added, same_config in *.
  split_and!; intuition congruence.
Qed.

Lemma push_refuse_wp a dropped others owned w :
  pq_inv others (a :: owned) w -> 
  wp (push_refuse a dropped)
    (fun s w' => s = PushDone false /\ pq_inv others owned w' /\ refused a w w' /\ same_config w w')
    no_throw w.
Proof.
  intros Hw. unfold push_refuse, count_pq. step_counter.
  eapply wp_destroy; [eassumption|]. intros w2 Hw2 Hq2 _ Hn2. apply wp_ret.
  split; [done|]. split; [done|]. unfold refused, same_config, pq_items in *. rewrite Hq2.
  split_and!; intuition congruence.
Qed.

Lemma empty_items w : pq_empty (pw_pq w) = true <-> pq_items w = [].
Proof. unfold pq_empty, pq_items. apply bool_decide_eq_true. Qed.

(** An overflow of a queue that drops: the least urgent message goes. *)
Lemma handleOverflow_wp others owned w :
  pq_inv others owned w -> overflow_policy_ (pw_pq w) = DROP_OLDEST ->
  wp handleOverflow
    (fun b w' => same_config w w' /\
       if b then exists y, least_urgent y w /\ pq_items w ≡ₚ y :: pq_items w' /\
              deref (pw_pool w') y = None /\
              (forall c, c ∈ owned -> deref (pw_pool w') c = deref (pw_pool w) c) /\
              pq_inv others owned w'
       else pq_items w = [] /\ w' = w) no_throw w.
Proof.
  intros Hw Hp. unfold handleOverflow. apply wp_get_pq. rewrite Hp. simpl.
  destruct (pq_empty (pw_pq w)) eqn:E; simpl.
  { apply wp_ret. split; [done|]. by apply empty_items in E. }
  assert (pq_items w <> []) as Hne by (rewrite <- empty_items, E; done).
  eapply wp_take; [exact Hw|done|]. intros y w1 Hw1 Hp1 Hi1 Hm1 Hc1.
  eapply wp_destroy; [exact Hw1|]. intros w2 Hw2 Hq2 Hd2 Hn2. unfold count_pq.
  eapply wp_on_pq; [done|exact Hw2|]. intros w3 Hw3 Hi3 Hp3 Hc3. apply wp_ret.
  assert (pq_items w3 = pq_items w1) as Hi by (rewrite Hi3; unfold pq_items; by rewrite Hq2).
  split.
  - unfold same_config in *. rewrite Hq2 in *. intuition congruence.
  - exists y. split; [split; [rewrite Hi1; set_solver|done]|]. rewrite Hi, Hp3. split_and!; try done.
    intros c Hc. rewrite <- Hp1. apply Hd2. set_solver.
Qed.

Lemma inv_full_size others owned w :
  pq_inv others owned w -> full w -> pq_size (pw_pq w) = max_size_ (pw_pq w).
Proof. intros Hw Hf. pose proof (inv_room _ _ _ Hw). unfold full in Hf. lia. Qed.

(** The step of a push with the mutex, at first and when woken. *)
Definition push_step_ok (a : Z) others owned w (s : push_status) w' : Prop :=
  pq_inv others (still_owned a s ++ owned) w' /\ same_config w w' /\ push_effect a w s w'.

Lemma push_insert_ok start a others owned w :
  pq_inv others (a :: owned) w -> ~ full w ->
  wp (push_insert clock start a) (push_step_ok a others owned w) no_throw w.
Proof.
  intros Hw Hf. eapply wp_mono; [by apply push_insert_wp| |done].
  intros s w' (-> & Hi & Ha & _ & Hc). split; [done|]. split; [done|]. by left.
Qed.

Lemma push_refuse_ok a dropped others owned w :
  pq_inv others (a :: owned) w -> full w -> cannot_drop w ->
  wp (push_refuse a dropped) (push_step_ok a others owned w) no_throw w.
Proof.
  intros Hw Hf Hd. eapply wp_mono; [by apply push_refuse_wp| |done].
  intros s w' (-> & Hi & Ha & Hc). split; [done|]. by split.
Qed.

Lemma push_dropping_ok start a others owned w :
  pq_inv others (a :: owned) w -> full w -> overflow_policy_ (pw_pq w) = DROP_OLDEST ->
  wp (b <-- handleOverflow ;; if b : bool then push_insert clock start a else push_refuse a 0)
    (push_step_ok a others owned w) no_throw w.
Proof.
  intros Hw Hf Hp. apply wp_bind.
  eapply wp_mono; [by apply (handleOverflow_wp others (a :: owned))| |done].
  intros [] w1 [Hc1 Hb].
  - destruct Hb as (y & Hy & Hi & Hn & _ & Hw1).
    eapply wp_mono; [apply push_insert_wp; [exact Hw1|]| |done].
    + unfold full. rewrite (proj1 Hc1). pose proof (inv_full_size _ _ _ Hw Hf) as Hs.
      rewrite pq_size_items in *. rewrite Hi in Hs. simpl in Hs. lia.
    + intros s w' (-> & Hi' & Ha & Hpool & Hc). split; [done|].
      split; [by eapply same_config_trans|]. right. split; [done|]. split; [done|].
      exists y. split; [done|]. rewrite Hpool. split; [done|]. by exists (pq_items w1).
  - destruct Hb as [Hn ->]. apply push_refuse_ok; [done|done|]. by intros _.
Qed.

Lemma push_locked_ok start a others owned w :
  pq_inv others (a :: owned) w ->
  wp (push_locked clock start a) (push_step_ok a others owned w) no_throw w.
Proof.
  intros Hw. unfold push_locked. apply wp_get_pq.
  destruct (Z.leb_spec (max_size_ (pw_pq w)) (pq_size (pw_pq w))) as [Hf|Hf].
  2: { apply push_insert_ok; [done|]. unfold full. lia. }
  destruct (overflow_policy_ (pw_pq w)) eqn:Hp.
  - by apply push_dropping_ok.
  - apply push_refuse_ok; [done..|]. unfold cannot_drop. by rewrite Hp.
  - destruct (pq_is_shutdown_ (pw_pq w)).
    + apply push_refuse_ok; [done..|]. unfold cannot_drop. by rewrite Hp.
    + apply wp_ret. split; [done|]. by split.
  - apply push_refuse_ok; [done..|]. unfold cannot_drop. by rewrite Hp.
Qed.

(** When a push that waited is woken: it goes on as a first try would, or gives up. *)
Definition push_woken_effect (a : Z) w (s : push_status) w' : Prop :=
  match s with
  | PushDone true => ~ full w /\ added a w w'
  | PushDone false => refused a w w'
  | PushWaiting => full w /\ w' = w
  end.

Lemma push_woken_ok timed_out start a others owned w :
  pq_inv others (a :: owned) w ->
  wp (push_woken clock timed_out start a)
    (fun s w' => pq_inv others (still_owned a s ++ owned) w' /\ same_config w w' /\
                 push_woken_effect a w s w') no_throw w.
Proof.
  intros Hw. unfold push_woken. apply wp_get_pq.
  assert (wp (push_refuse a 0)
    (fun s w' => pq_inv others (still_owned a s ++ owned) w' /\ same_config w w' /\
                 push_woken_effect a w s w') no_throw w) as Hr.
  { eapply wp_mono; [by apply push_refuse_wp| |done].
    intros s w' (-> & Hi & Ha & Hc). split; [done|]. by split. }
  destruct (Z.ltb_spec (pq_size (pw_pq w)) (max_size_ (pw_pq w))) as [Hf|Hf]; simpl.
  - destruct (pq_is_shutdown_ (pw_pq w)); [done|].
    eapply wp_mono; [apply push_insert_wp; [done|unfold full; lia]| |done].
    intros s w' (-> & Hi & Ha & _ & Hc). split; [done|]. split; [done|]. split; [unfold full; lia|done].
  - destruct (pq_is_shutdown_ (pw_pq w)); [done|]. destruct timed_out; [done|].
    apply wp_ret. split; [done|]. by split.
Qed.

(** ** Leaving the queue *)

(** The taken message is least urgent, and the caller owns it. *)
Definition taken (others : Z) owned (r : option Z) w w' : Prop :=
  same_config w w' /\ pw_pool w' = pw_pool w /\
  match r with
  | Some a => least_urgent a w /\ pq_items w ≡ₚ a :: pq_items w' /\ pq_inv others (a :: owned) w'
  | None => pq_inv others owned w' /\ w' = w
  end.

Lemma take_wp {A} (wrap : Z -> A) others owned w :
  pq_inv others owned w -> pq_items w <> [] ->
  wp (a <-- heap_take ;; count_pq 0 1 0 ;;; ret (wrap a))
    (fun r w' => exists a, r = wrap a /\ taken others owned (Some a) w w') no_throw w.
Proof.
  intros Hw Hne. eapply wp_take; [exact Hw|done|]. intros a w1 Hw1 Hp1 Hi1 Hm1 Hc1.
  unfold count_pq. step_counter. apply wp_ret. exists a. split; [done|].
  match goal with E : pq_items _ = pq_items w1 |- _ => rename E into Hi2 end.
  split; [unfold same_config in *; intuition congruence|]. split; [congruence|].
  split; [split; [rewrite Hi1; set_solver|done]|]. by rewrite Hi2.
Qed.

Lemma tryPop_wp others owned w :
  pq_inv others owned w ->
  wp pq_tryPop (fun r w' => taken others owned r w w' /\ (r = None -> pq_items w = [])) no_throw w.
Proof.
  intros Hw. unfold pq_tryPop. apply wp_get_pq. destruct (pq_empty (pw_pq w)) eqn:E.
  - apply wp_ret. split; [done|]. intros _. by apply empty_items.
  - eapply wp_mono; [apply (take_wp Some); [exact Hw|]| |done].
    + by rewrite <- empty_items, E.
    + intros r w' (a & -> & Ht). done.
Qed.

Lemma pop_locked_wp timed_out others owned w :
  pq_inv others owned w ->
  wp (pop_locked timed_out)
    (fun s w' => match s with
                 | PopDone r => taken others owned r w w' /\ (r = None -> pq_items w = [])
                 | PopWaiting => w' = w /\ pq_items w = [] /\ timed_out = false
                 end) no_throw w.
Proof.
  intros Hw. unfold pop_locked. apply wp_get_pq.
  destruct (pq_empty (pw_pq w)) eqn:E; simpl.
  - apply empty_items in E.
    destruct (pq_is_shutdown_ (pw_pq w)); [by apply wp_ret|].
    destruct timed_out; apply wp_ret; done.
  - unfold pop_take. eapply wp_mono; [apply (take_wp (fun a => PopDone (Some a))); [exact Hw|]| |done].
    + by rewrite <- empty_items, E.
    + intros r w' (a & -> & Ht). done.
Qed.

Lemma pq_clear_loop_wp fuel others owned w :
  pq_inv others owned w -> (length (pq_items w) < fuel)%nat ->
  wp (pq_clear_loop fuel)
    (fun _ w' => pq_inv others owned w' /\ pq_items w' = [] /\ same_config w w') no_throw w.
Proof.
  revert w. induction fuel as [|f IH]; intros w Hw Hl; [lia|]. cbn [pq_clear_loop].
  apply wp_get_pq. destruct (pq_empty (pw_pq w)) eqn:E.
  - apply wp_ret. split; [done|]. by apply empty_items in E.
  - eapply wp_take; [exact Hw|by rewrite <- empty_items, E|]. intros a w1 Hw1 _ Hi1 _ Hc1.
    eapply wp_destroy; [exact Hw1|]. intros w2 Hw2 Hq2 _ _.
    assert (pq_items w2 = pq_items w1) as Hi2 by (unfold pq_items; by rewrite Hq2).
    eapply wp_mono; [apply IH; [exact Hw2|]| |done].
    + rewrite Hi2. rewrite Hi1 in Hl. simpl in Hl. lia.
    + intros _ w' (Hi & Hn & Hc). split; [done|]. split; [done|].
      unfold same_config in *. rewrite Hq2 in *. intuition congruence.
Qed.
End Specs.

(** * Threads that share the queue *)

Section Threads.
Context {H : Type} `{MaxHeap H}.
Variable clock : nat -> Z.

(** Where a thread stands in the call it makes, and the result of a finished call *)
Inductive thread :=
  | TPush (message : option Z)
  | TPushLock (start_time a : Z)
  | TPushWait (start_time a : Z)
  | TPop
  | TPopWait
  | TTryPop
  | TClear
  | TShutdown
  | TPushed (result : bool)
  | TPopped (result : option Z)
  | TDone.

(** The message a thread holds the pointer of and answers for *)
Definition owns (t : thread) : list Z :=
  match t with
  | TPush (Some a) | TPushLock _ a | TPushWait _ a | TPopped (Some a) => [a]
  | _ => []
  end.

Definition after_push (start_time a : Z) (s : push_status) : thread :=
  match s with PushDone b => TPushed b | PushWaiting => TPushWait start_time a end.
Definition after_pop (s : pop_status) : thread :=
  match s with PopDone r => TPopped r | PopWaiting => TPopWait end.

(** The next step of a thread; [timed_out] is for a thread that waits. *)
Definition thread_step (timed_out : bool) (t : thread) : M (PqWorld H) thread :=
  match t with
  | TPush message =>
      r <-- push_begin clock message ;;
      ret match r, message with
          | inr start_time, Some a => TPushLock start_time a
          | inl b, _ => TPushed b
          | inr _, None => TPushed false
          end
  | TPushLock start_time a => s <-- push_locked clock start_time a ;; ret (after_push start_time a s)
  | TPushWait start_time a =>
      s <-- push_woken clock timed_out start_time a ;; ret (after_push start_time a s)
  | TPop => s <-- pop_locked false ;; ret (after_pop s)
  | TPopWait => s <-- pop_locked timed_out ;; ret (after_pop s)
  | TTryPop => r <-- pq_tryPop ;; ret (TPopped r)
  | TClear => pq_clear ;;; ret TDone
  | TShutdown => pq_shutdown ;;; ret TDone
  | TPushed _ | TPopped _ | TDone => ret t
  end.

(** Any thread may take the next step. *)
Inductive monitor_step : list thread * PqWorld H -> list thread * PqWorld H -> Prop :=
  | monitor_thread i t timed_out t' ts w w' :
      ts !! i = Some t -> thread_step timed_out t w = (Ret t', w') ->
      monitor_step (ts, w) (<[i := t']> ts, w').

Lemma push_begin_wp message others owned w :
  pq_inv others (owns (TPush message) ++ owned) w ->
  wp (push_begin clock message)
    (fun r w' => match r, message with
                 | inr _, Some a => pq_inv others (a :: owned) w'
                 | inl false, _ => pq_inv others owned w'
                 | _, _ => False
                 end) no_throw w.
Proof.
  intros Hw. unfold push_begin. apply wp_get_pq. destruct message as [a|]; simpl in Hw.
  - destruct (pq_is_shutdown_ (pw_pq w)).
    + eapply wp_destroy; [exact Hw|]. intros w1 Hw1 _ _ _. by apply wp_ret.
    + eapply wp_now; [exact Hw|]. intros w1 Hw1 _ _. apply wp_bind.
      destruct (inv_on_message others (a :: owned) (setQueueEntryTime (clock (pw_ticks w))) a w1)
        as (w2 & E & Hw2 & _); [done|done|set_solver|].
      unfold wp. by rewrite E.
  - destruct (pq_is_shutdown_ (pw_pq w)); [|by apply wp_ret].
    unfold wp, bind, destroyMessage, ret. simpl. by apply (pq_inv_frame _ _ _ _ w).
Qed.

(** One step keeps the invariant, with what the thread owns afterwards. *)
Lemma thread_step_inv timed_out t others owned w :
  pq_inv others (owns t ++ owned) w ->
  wp (thread_step timed_out t) (fun t' w' => pq_inv others (owns t' ++ owned) w') no_throw w.
Proof.
  intros Hw. destruct t as [message|start a|start a| | | | | |b|r|]; cbn [thread_step];
    try (by apply wp_ret); apply wp_bind.
  - eapply wp_mono; [by apply push_begin_wp| |done]. intros [[]|start] w' Hr; apply wp_ret.
    + done.
    + by destruct message.
    + by destruct message.
  - eapply wp_mono; [exact (push_locked_ok clock start a others owned w Hw)| |done].
    intros [] w' (Hi & _); by apply wp_ret.
  - eapply wp_mono; [exact (push_woken_ok clock timed_out start a others owned w Hw)| |done].
    intros [] w' (Hi & _); by apply wp_ret.
  - eapply wp_mono; [exact (pop_locked_wp false others owned w Hw)| |done].
    intros [[a|]|] w' Hr; apply wp_ret; cbn; [by apply Hr|by apply Hr|by destruct Hr as [-> _]].
  - eapply wp_mono; [exact (pop_locked_wp timed_out others owned w Hw)| |done].
    intros [[a|]|] w' Hr; apply wp_ret; cbn; [by apply Hr|by apply Hr|by destruct Hr as [-> _]].
  - eapply wp_mono; [exact (tryPop_wp others owned w Hw)| |done].
    intros [a|] w' Hr; apply wp_ret; by apply Hr.
  - unfold pq_clear. apply wp_get_pq.
    eapply wp_mono; [apply (pq_clear_loop_wp clock); [exact Hw|unfold pq_items; lia]| |done].
    intros _ w' (Hi & _). by apply wp_ret.
  - unfold wp, bind, pq_shutdown, on_pq, ret. by apply (pq_inv_frame _ _ _ _ w).
Qed.

Definition all_owned (ts : list thread) : list Z := concat (map owns ts).

Lemma all_owned_at ts i t :
  ts !! i = Some t ->
  exists rest, all_owned ts ≡ₚ owns t ++ rest /\ forall t', all_owned (<[i := t']> ts) ≡ₚ owns t' ++ rest.
Proof.
  revert i. induction ts as [|u ts IH]; intros [|i] Hi; simplify_eq/=.
  - by exists (all_owned ts).
  - destruct (IH _ Hi) as (rest & H1 & H2). exists (owns u ++ rest). unfold all_owned in *. simpl.
    split; [|intros t'; rewrite H2]; rewrite ?H1; apply Permutation_app_swap_app.
Qed.

Lemma monitor_reachable others c c' :
  rtc monitor_step c c' -> pq_inv others (all_owned c.1) c.2 -> pq_inv others (all_owned c'.1) c'.2.
Proof.
  induction 1 as [|c1 c2 c3 Hs _ IH]; [done|]. intros Hw. apply IH.
  destruct Hs as [i t to t' ts w w' Hi E]. simpl in *.
  destruct (all_owned_at ts i t Hi) as (rest & H1 & H2).
  eapply pq_inv_perm; [symmetry; apply H2|].
  pose proof (thread_step_inv to t others rest w) as Hwp. unfold wp in Hwp. rewrite E in Hwp.
  apply Hwp. by eapply pq_inv_perm.
Qed.
End Threads.

(** * Properties *)

Section Theorems.
Context {H : Type} `{MaxHeap H}.
Variable clock : nat -> Z.
Implicit Types w : PqWorld H.

(** C26: threads that push, wait, pop, clear and shut down in any interleaving keep every
    message: at any time the messages in the queue and those the threads answer for are live,
    all different, and all there is of the pool beyond the messages of others (nothing is
    lost, nothing freed twice); the queue never exceeds its bound; and the next step of
    every thread returns, without touching a message that is gone. *)
Theorem monitor_safe others ts0 w0 ts w :
  pq_inv others (all_owned ts0) w0 -> rtc (monitor_step clock) (ts0, w0) (ts, w) ->
  pq_inv others (all_owned ts) w /\
  forall i t timed_out, ts !! i = Some t ->
    exists t' w', thread_step clock timed_out t w = (Ret t', w') /\
                  monitor_step clock (ts, w) (<[i := t']> ts, w').
Proof.
  intros Hw Hr. assert (pq_inv others (all_owned ts) w) as Hi
    by exact (monitor_reachable clock others _ _ Hr Hw).
  split; [done|]. intros i t to Ht. destruct (all_owned_at ts i t Ht) as (rest & H1 & _).
  destruct (proj1 (wp_run _ _ _) (thread_step_inv clock to t others rest w
              (pq_inv_perm _ _ _ _ H1 Hi))) as (t' & w' & E & _).
  exists t', w'. split; [done|]. by econstructor.
Qed.

(** The single-threaded push, by cases. *)
Lemma pq_push_wp a others owned w :
  pq_inv others (a :: owned) w -> pq_is_shutdown_ (pw_pq w) = false ->
  wp (pq_push clock (Some a))
    (fun b w' => pq_inv others owned w' /\ same_config w w' /\
       if b : bool then
         (~ full w /\ added a w w') \/
         (full w /\ overflow_policy_ (pw_pq w) = DROP_OLDEST /\ exists y, replaced y a w w')
       else full w /\ refused a w w' /\ cannot_drop w) no_throw w.
Proof.
  intros Hw Hs. unfold pq_push. apply wp_bind.
  unfold push_begin. apply wp_get_pq. rewrite Hs.
  eapply wp_now; [exact Hw|]. intros w1 Hw1 Hq1 Hp1. apply wp_bind.
  destruct (inv_on_message others (a :: owned) (setQueueEntryTime (clock (pw_ticks w))) a w1)
    as (w2 & E & Hw2 & Hq2); [done|done|set_solver|].
  unfold wp at 1. rewrite E. cbn beta iota. apply wp_ret.
  assert (pw_pq w2 = pw_pq w) as Hq by congruence.
  assert (forall y, key_of (pw_pool w2) y = key_of (pw_pool w) y) as Hk.
  { intros y. unfold on_message in E. destruct (deref (pw_pool w1) a); [|done]. simplify_eq. simpl.
    rewrite Hp1. unfold key_of.
    destruct (update_object_deref_cases (setQueueEntryTime (clock (pw_ticks w))) a (pw_pool w) y)
      as [-> | ->]; [done|]. by destruct (deref (pw_pool w) y). }
  apply wp_bind. eapply wp_mono; [by apply (push_locked_ok clock (clock (pw_ticks w)) a)| |done].
  intros s w3 (Hi & Hc & He). unfold push_effect, full, added, replaced, refused, least_urgent,
    cannot_drop, same_config, pq_items in *.
  rewrite Hq in *. destruct s as [b|].
  - apply wp_ret. split; [done|]. split; [done|]. destruct b; [|done].
    destruct He as [|(? & ? & y & (Hy1 & Hy2) & Hrest)]; [by left|right]. split; [done|]. split; [done|].
    exists y. split; [|done]. split; [done|]. intros z Hz. rewrite <- !Hk. by apply Hy2.
  - destruct He as (Hf & Hp & ->). apply wp_bind. unfold push_woken. apply wp_get_pq.
    rewrite Hq, Hs. destruct (Z.ltb_spec (pq_size (pw_pq w)) (max_size_ (pw_pq w))); [lia|]. simpl.
    eapply wp_mono; [apply push_refuse_wp; exact Hi| |done].
    intros s w4 (-> & Hi4 & [Hr1 Hr2] & Hc4). apply wp_ret.
    unfold same_config, pq_items in *. rewrite Hq in Hr1. split; [done|].
    split; [intuition congruence|]. split; [done|]. split; [done|]. by rewrite Hp.
Qed.

(** C27: a push into an open queue, by cases: with room, the message is added and the others stay;
    in a full queue that drops, the queued message with the numerically largest priority is
    given back to the pool for it; in every other full queue the message itself is given
    back and the queue stays as it was. *)
Theorem push_exact a others owned w :
  pq_inv others (a :: owned) w -> pq_is_shutdown_ (pw_pq w) = false ->
  exists b w', pq_push clock (Some a) w = (Ret b, w') /\ pq_inv others owned w' /\
    if b : bool then
      (~ full w /\ added a w w') \/
      (full w /\ overflow_policy_ (pw_pq w) = DROP_OLDEST /\ exists y, replaced y a w w')
    else full w /\ refused a w w' /\ cannot_drop w.
Proof.
  intros Hw Hs. destruct (proj1 (wp_run _ _ _) (pq_push_wp a others owned w Hw Hs))
    as (b & w' & E & Hi & _ & He). by exists b, w'.
Qed.

(** A consumer that calls [tryPop] until the queue is empty. *)
Fixpoint pop_all (fuel : nat) : M (PqWorld H) (list Z) :=
  match fuel with
  | O => nofuel
  | S f =>
      r <-- pq_tryPop ;;
      match r with
      | Some a => l <-- pop_all f ;; ret (a :: l)
      | None => ret []
      end
  end.

Lemma pop_all_wp fuel others owned w :
  pq_inv others owned w -> (length (pq_items w) < fuel)%nat ->
  wp (pop_all fuel)
    (fun l w' => l ≡ₚ pq_items w /\ keys_decrease (key_of (pw_pool w)) l /\
                 pq_items w' = [] /\ pq_inv others (l ++ owned) w') no_throw w.
Proof.
  revert owned w. induction fuel as [|f IH]; intros owned w Hw Hl; [lia|]. cbn [pop_all].
  apply wp_bind. eapply wp_mono; [exact (tryPop_wp others owned w Hw)| |done].
  intros [a|] w1 [(Hc & Hp & Ht) He].
  - destruct Ht as ([_ Hm] & Hi & Hw1). apply wp_bind.
    eapply wp_mono; [apply (IH (a :: owned)); [exact Hw1|rewrite Hi in Hl; simpl in Hl; lia]| |done].
    intros l w2 (Hl2 & Hk & Hn & Hw2). apply wp_ret. rewrite Hp in Hk. split_and!.
    + by rewrite Hi, Hl2.
    + constructor; [done|]. apply Forall_forall. intros y Hy. apply Hm. rewrite Hi, <- Hl2. by right.
    + done.
    + eapply pq_inv_perm; [|exact Hw2]. simpl. symmetry. apply Permutation_middle.
  - destruct Ht as [Hw1 ->]. apply wp_ret. rewrite (He eq_refl). split_and!; try done. constructor.
Qed.

Lemma keys_decrease_later key l i j a b :
  keys_decrease key l -> l !! i = Some a -> l !! j = Some b -> key a < key b -> (j < i)%nat.
Proof.
  intros Hs. revert i j. induction Hs as [|x l Hs IH Hall]; intros i j; [done|].
  destruct i as [|i], j as [|j]; simpl; intros Hi Hj Hlt; simplify_eq; try lia.
  - pose proof (Forall_lookup_1 _ _ _ _ Hall Hj). simpl in *. lia.
  - specialize (IH _ _ Hi Hj Hlt). lia.
Qed.

(** The queue serves the least urgent messages first: emptying it returns every message,
    ordered by falling numeric priority, so that a CRITICAL message (number 0) comes out
    after every other one, although the comments promise the opposite. *)
Lemma least_urgent_first others owned w :
  pq_inv others owned w ->
  exists l w', pop_all (S (length (pq_items w))) w = (Ret l, w') /\
    l ≡ₚ pq_items w /\ pq_items w' = [] /\ pq_inv others (l ++ owned) w' /\
    (forall i j a b ma mb, l !! i = Some a -> l !! j = Some b ->
       deref (pw_pool w) a = Some ma -> deref (pw_pool w) b = Some mb ->
       priority_ ma = CRITICAL -> priority_ mb <> CRITICAL -> (j < i)%nat).
Proof.
  intros Hw. destruct (proj1 (wp_run _ _ _) (pop_all_wp (S (length (pq_items w))) others owned w Hw
    (Nat.lt_succ_diag_r _))) as (l & w' & E & Hl & Hk & Hn & Hi).
  exists l, w'. split_and!; try done. intros i j a b ma mb Ha Hb Hma Hmb Hc Hnc.
  eapply keys_decrease_later; [exact Hk|exact Ha|exact Hb|].
  unfold key_of. rewrite Hma, Hmb, Hc. by destruct (priority_ mb).
Qed.
End Theorems.

(** * Witnesses *)

(** A pool of four messages, the first three live. *)
Definition text_message (p : Priority) : Message :=
  newDetailed 0 [] [] (str "x") p MessageType.ORDER [] [] 0.
Definition pool4 : MessagePool Message :=
  snd (allocate (text_message HIGH) (snd (allocate (text_message LOW)
    (snd (allocate (text_message CRITICAL) (default (initializeFreeList
      {| pool_size_ := 4; pool_start_ := 4096; slot_bytes_ := 64; pool_slots_ := [None; None; None; None];
         free_list_head_ := 0; free_list_nodes_ := []; allocated_count_ := 0;
         total_allocations_ := 0; total_deallocations_ := 0; allocation_failures_ := 0;
         pool_is_shutdown_ := false |}) (newPool 4 (Some 4096) 64))))))).

(** The queue holds the CRITICAL and the LOW message and is full; HIGH comes. *)
Definition sample_world : PqWorld (list Z) :=
  mkPqWorld (mkPQ [4160; 4096] 2 DROP_OLDEST (str "q") false 2 0 0 2 0 0) pool4 0.

Lemma pool4_wf : pool_wf pool4.
Proof.
  unfold pool4. do 3 (eapply client_step_wf; [|apply client_allocate]).
  eapply (newPool_wf 4 (Some 4096) 64); [lia|lia|reflexivity].
Qed.

Lemma sample_inv : pq_inv 0 [4224] sample_world.
Proof.
  split; [apply pool4_wf| | | |reflexivity|vm_compute; discriminate].
  - repeat constructor. vm_compute. discriminate.
  - apply (bool_decide_unpack _). vm_compute. exact I.
  - assert (Forall (fun a => is_Some (deref pool4 a)) [4160; 4096; 4224]) as Hf.
    { repeat constructor; vm_compute; eauto. }
    intros a Ha. apply (proj1 (Forall_forall _ _) Hf). done.
Qed.

Definition zero_clock (n : nat) : Z := 0.

Lemma monitor_safe_witness :
  pq_inv 0 [4224] sample_world /\
  exists t' w', thread_step zero_clock false (TPush (Some 4224)) sample_world = (Ret t', w').
Proof.
  destruct (monitor_safe zero_clock 0 [TPush (Some 4224); TTryPop] sample_world
              [TPush (Some 4224); TTryPop] sample_world sample_inv (rtc_refl _ _)) as [Hi Hs].
  destruct (Hs 0%nat (TPush (Some 4224)) false eq_refl) as (t' & w' & E & _).
  split; [exact Hi|]. exists t', w'. exact E.
Defined.

(** The full queue gives up its LOW message for the HIGH one. *)
Lemma push_exact_witness :
  exists b w', pq_push zero_clock (Some 4224) sample_world = (Ret b, w') /\ pq_inv 0 [] w' /\ b = true.
Proof.
  destruct (push_exact zero_clock 4224 0 [] sample_world sample_inv eq_refl) as (b & w' & E & Hi & _).
  exists b, w'. split; [exact E|]. split; [exact Hi|]. vm_compute in E. injection E as <- _. reflexivity.
Defined.

Lemma least_urgent_first_witness :
  exists l w', pop_all 3 sample_world = (Ret l, w') /\ l ≡ₚ [4160; 4096] /\ pq_inv 0 (l ++ [4224]) w'.
Proof.
  destruct (least_urgent_first 0 [4224] sample_world sample_inv) as (l & w' & E & Hl & _ & Hi & _).
  exists l, w'. split; [exact E|]. split; [exact Hl|exact Hi].
Defined.
