(* ===== verification/TcpConnection.v ===== *)
(** [network::TcpConnection] ([tcp_connection.h], [tcp_connection.cpp]): creating and
    connecting the socket, sending with partial writes, the receive loop, disconnecting
    and error handling.

    The operating system is the class [Sockets]: its state, the system calls the code
    makes, and what their documentation says of [send] and [recv].  The registered
    callbacks are recorded as events in the order they are called.  Assigning to a joinable
    [std::thread] terminates the program and is undefined behaviour of the model. *)
From S2P Require Import Prelude.

(** ** The system calls *)

Inductive errno := ECONNRESET | EPIPE | EWOULDBLOCK | ENOTCONN | EINTR | EOTHER (code : Z).
#[export] Instance errno_eq_dec : EqDecision errno.
Proof. solve_decision. Defined.

Inductive sockopt := SO_REUSEADDR | TCP_NODELAY | SO_KEEPALIVE | SO_LINGER | SO_RCVBUF | SO_SNDBUF.

(** [sys_sent] is what the peer will read: [send] adds the bytes it reports, at most those
    it was given, and nothing on an error.  [recv] returns at most as many bytes as the
    buffer holds. *)
Class Sockets (W : Type) := {
  sys_socket : W -> Z * W;
  sys_setsockopt : Z -> sockopt -> W -> Z * W;
  sys_getfl : Z -> W -> Z * W;
  sys_setfl : Z -> Z -> W -> Z * W;
  sys_resolve : bytes -> W -> option Z;
  sys_connect : Z -> Z -> Z -> W -> Z * W;
  sys_send : Z -> bytes -> W -> (Z + errno) * W;
  sys_recv : Z -> Z -> W -> (bytes + errno) * W;
  sys_close : Z -> W -> Z * W;
  sys_strerror : errno -> bytes;
  sys_sent : W -> bytes;
  sys_send_ok fd data w n w' :
    sys_send fd data w = (inl n, w') ->
    0 <= n <= Z.of_nat (length data) /\ sys_sent w' = sys_sent w ++ take (Z.to_nat n) data;
  sys_send_error fd data w e w' : sys_send fd data w = (inr e, w') -> sys_sent w' = sys_sent w;
  sys_recv_quiet fd n w : sys_sent (snd (sys_recv fd n w)) = sys_sent w;
  sys_recv_size fd n w data w' :
    sys_recv fd n w = (inl data, w') -> Z.of_nat (length data) <= n;
  sys_close_quiet fd w : sys_sent (snd (sys_close fd w)) = sys_sent w;
  sys_setup_quiet w :
    sys_sent (snd (sys_socket w)) = sys_sent w /\
    (forall fd o, sys_sent (snd (sys_setsockopt fd o w)) = sys_sent w) /\
    (forall fd, sys_sent (snd (sys_getfl fd w)) = sys_sent w) /\
    (forall fd f, sys_sent (snd (sys_setfl fd f w)) = sys_sent w) /\
    (forall fd a p, sys_sent (snd (sys_connect fd a p w)) = sys_sent w)
}.

(** ** The object *)

(** [constants::INVALID_SOCKET], [constants::BUFFER_SIZE] *)
Definition INVALID_SOCKET : Z := -1.
Definition BUFFER_SIZE : Z := 8192.

(** [O_NONBLOCK] *)
Definition O_NONBLOCK : Z := 2048.

(** A call of a registered callback *)
Inductive tcp_event := OnData (data : bytes) | OnError (text : bytes) | OnDisconnect.

(** The members of the class; [thread_joinable_] is [receive_thread_.joinable()] and a
    callback is whether one is registered. *)
Record TcpConnection := mkTcp {
  socket_fd_ : Z;
  server_addr_ : Z * Z;
  connected_ : bool;
  receiving_ : bool;
  host_ : bytes;
  port_ : Z;
  thread_joinable_ : bool;
  receive_buffer_ : bytes;
  last_error_ : bytes;
  data_callback_ : bool;
  error_callback_ : bool;
  disconnect_callback_ : bool
}.

(** The constructor *)
Definition newTcp : TcpConnection :=
  mkTcp INVALID_SOCKET (0, 0) false false [] 0 false [] [] false false false.

(** Members with a new value *)
Definition with_socket (fd : Z) (c : TcpConnection) : TcpConnection :=
  mkTcp fd (server_addr_ c) (connected_ c) (receiving_ c) (host_ c) (port_ c) (thread_joinable_ c)
    (receive_buffer_ c) (last_error_ c) (data_callback_ c) (error_callback_ c) (disconnect_callback_ c).
Definition with_address (addr : Z * Z) (host : bytes) (port : Z) (c : TcpConnection) : TcpConnection :=
  mkTcp (socket_fd_ c) addr (connected_ c) (receiving_ c) host port (thread_joinable_ c)
    (receive_buffer_ c) (last_error_ c) (data_callback_ c) (error_callback_ c) (disconnect_callback_ c).
Definition with_flags (connected receiving joinable : bool) (c : TcpConnection) : TcpConnection :=
  mkTcp (socket_fd_ c) (server_addr_ c) connected receiving (host_ c) (port_ c) joinable
    (receive_buffer_ c) (last_error_ c) (data_callback_ c) (error_callback_ c) (disconnect_callback_ c).
Definition with_error (text : bytes) (c : TcpConnection) : TcpConnection :=
  mkTcp (socket_fd_ c) (server_addr_ c) (connected_ c) (receiving_ c) (host_ c) (port_ c)
    (thread_joinable_ c) (receive_buffer_ c) text (data_callback_ c) (error_callback_ c)
    (disconnect_callback_ c).
Definition with_tcp_callbacks (data error disconnect : bool) (c : TcpConnection) : TcpConnection :=
  mkTcp (socket_fd_ c) (server_addr_ c) (connected_ c) (receiving_ c) (host_ c) (port_ c)
    (thread_joinable_ c) (receive_buffer_ c) (last_error_ c) data error disconnect.

(** The object, the operating system and the calls of callbacks so far *)
Record TcpWorld (W : Type) := mkTcpWorld {
  tw_tcp : TcpConnection;
  tw_os : W;
  tw_events : list tcp_event
}.
Arguments mkTcpWorld {W}. Arguments tw_tcp {W}. Arguments tw_os {W}. Arguments tw_events {W}.

Section Operations.
Context {W : Type} `{Sockets W}.
Implicit Types s : TcpWorld W.

Definition TM := M (TcpWorld W).

Definition tcp_get : TM TcpConnection := fun s => (Ret (tw_tcp s), s).
Definition tcp_set (f : TcpConnection -> TcpConnection) : TM unit :=
  fun s => (Ret tt, mkTcpWorld (f (tw_tcp s)) (tw_os s) (tw_events s)).
Definition tcp_sys {A} (f : W -> A * W) : TM A :=
  fun s => (Ret (fst (f (tw_os s))), mkTcpWorld (tw_tcp s) (snd (f (tw_os s))) (tw_events s)).
Definition tcp_emit (e : tcp_event) : TM unit :=
  fun s => (Ret tt, mkTcpWorld (tw_tcp s) (tw_os s) (tw_events s ++ [e])).

Definition set_connected (b : bool) : TM unit :=
  tcp_set (fun c => with_flags b (receiving_ c) (thread_joinable_ c) c).
Definition set_receiving (b : bool) : TM unit :=
  tcp_set (fun c => with_flags (connected_ c) b (thread_joinable_ c) c).

(** ** Connecting *)

(** [createSocket] *)
Definition createSocket : TM unit :=
  fd <-- tcp_sys sys_socket ;;
  tcp_set (with_socket fd) ;;;
  if fd =? INVALID_SOCKET then throw else ret tt.

(** An option that must be set, and one whose failure is only logged *)
Definition require_option (o : sockopt) : TM unit :=
  c <-- tcp_get ;;
  r <-- tcp_sys (sys_setsockopt (socket_fd_ c) o) ;;
  if r <? 0 then throw else ret tt.
Definition try_option (o : sockopt) : TM unit :=
  c <-- tcp_get ;;
  r <-- tcp_sys (sys_setsockopt (socket_fd_ c) o) ;;
  ret tt.

(** [configureSocket] *)
Definition configureSocket : TM unit :=
  require_option SO_REUSEADDR ;;;
  require_option TCP_NODELAY ;;;
  require_option SO_KEEPALIVE ;;;
  c <-- tcp_get ;;
  flags <-- tcp_sys (sys_getfl (socket_fd_ c)) ;;
  (if flags <? 0 then throw else ret tt) ;;;
  r <-- tcp_sys (sys_setfl (socket_fd_ c) (Z.lor flags O_NONBLOCK)) ;;
  (if r <? 0 then throw else ret tt) ;;;
  require_option SO_LINGER ;;;
  try_option SO_RCVBUF ;;;
  try_option SO_SNDBUF.

(** [setupSocketAddress]: [htons] keeps the low 16 bits of the port. *)
Definition setupSocketAddress (host : bytes) (port : Z) : TM unit :=
  tcp_set (with_address (0, port mod 65536) host port) ;;;
  a <-- (fun s => (Ret (sys_resolve host (tw_os s)), s)) ;;
  match a with
  | None => throw
  | Some addr => tcp_set (with_address (addr, port mod 65536) host port)
  end.

(** [handleConnectionResult] *)
Definition handleConnectionResult (result : Z) : bool := negb (result <? 0).

(** [connect] *)
Definition tcp_connect (host : bytes) (port : Z) : TM bool :=
  setupSocketAddress host port ;;;
  createSocket ;;;
  configureSocket ;;;
  c <-- tcp_get ;;
  result <-- tcp_sys (sys_connect (socket_fd_ c) (fst (server_addr_ c)) (snd (server_addr_ c))) ;;
  ret (handleConnectionResult result).

(** ** Errors *)

Definition error_text (error : errno) : bytes :=
  match error with
  | ECONNRESET => str "Connection reset by peer"
  | EPIPE => str "Broken pipe (connection closed)"
  | EWOULDBLOCK => str "Send would block (non-blocking socket)"
  | ENOTCONN => str "Socket not connected"
  | EINTR => str "Send interrupted by signal"
  | EOTHER _ => str "Socket error: " ++ sys_strerror error
  end.

Definition connection_lost (error : errno) : bool :=
  match error with ECONNRESET | EPIPE | ENOTCONN => true | _ => false end.

(** [handleSocketError] *)
Definition handleSocketError (error : errno) : TM unit :=
  (if connection_lost error then set_connected false else ret tt) ;;;
  tcp_set (with_error (error_text error)) ;;;
  c <-- tcp_get ;;
  (if error_callback_ c then tcp_emit (OnError (error_text error)) else ret tt) ;;;
  if negb (connected_ c) && disconnect_callback_ c then tcp_emit OnDisconnect else ret tt.

(** ** Sending *)

(** [sendRaw]: -1 on an error *)
Definition sendRaw (data : bytes) : TM Z :=
  c <-- tcp_get ;;
  if socket_fd_ c =? INVALID_SOCKET then ret (-1)
  else
    r <-- tcp_sys (sys_send (socket_fd_ c) data) ;;
    match r with
    | inl n => ret n
    | inr e => handleSocketError e ;;; ret (-1)
    end.

(** The loop of [handlePartialSend] on the bytes that remain; each turn sends at least one *)
Fixpoint partial_send_loop (fuel : nat) (remaining : bytes) : TM bool :=
  match fuel with
  | O => nofuel
  | S f =>
      match remaining with
      | [] => ret true
      | _ =>
          result <-- sendRaw remaining ;;
          if result <? 0 then ret false
          else if result =? 0 then set_connected false ;;; ret false
          else partial_send_loop f (drop (Z.to_nat result) remaining)
      end
  end.

(** [handlePartialSend]: pointer arithmetic outside the data is undefined. *)
Definition handlePartialSend (data : bytes) (bytesSent : Z) : TM bool :=
  if (bytesSent <? 0) || (Z.of_nat (length data) <? bytesSent) then ub
  else
    let remaining := drop (Z.to_nat bytesSent) data in
    partial_send_loop (S (length remaining)) remaining.

(** [send(const std::string &)] and [send(const std::vector<char> &)], which differ in
    their performance counters *)
Definition tcp_send (message : bytes) : TM bool :=
  c <-- tcp_get ;;
  if negb (connected_ c) then ret false
  else
    match message with
    | [] => ret true
    | _ =>
        bytes_sent <-- sendRaw message ;;
        if bytes_sent <? 0 then ret false
        else if bytes_sent <? Z.of_nat (length message) then handlePartialSend message bytes_sent
        else ret true
    end.

(** ** Receiving *)

(** [onDataReceived], [handleConnectionLost] *)
Definition onDataReceived (data : bytes) : TM unit :=
  c <-- tcp_get ;;
  if data_callback_ c then tcp_emit (OnData data) else ret tt.
Definition handleConnectionLost : TM unit :=
  set_connected false ;;;
  c <-- tcp_get ;;
  if disconnect_callback_ c then tcp_emit OnDisconnect else ret tt.

(** [startReceiveLoop] *)
Definition startReceiveLoop : TM unit :=
  c <-- tcp_get ;;
  if receiving_ c then ret tt
  else if negb (connected_ c) then ret tt
  else
    set_receiving true ;;;
    if thread_joinable_ c then ub
    else tcp_set (fun c => with_flags (connected_ c) (receiving_ c) true c).

(** One turn of [receiveLoop]: whether the thread goes on.  When it does not, it has left
    the loop and cleared [receiving_]. *)
Definition receive_turn : TM bool :=
  c <-- tcp_get ;;
  if receiving_ c && connected_ c then
    r <-- tcp_sys (sys_recv (socket_fd_ c) BUFFER_SIZE) ;;
    match r with
    | inl [] => set_connected false ;;; handleConnectionLost ;;; set_receiving false ;;; ret false
    | inl data => onDataReceived data ;;; ret true
    | inr error =>
        handleSocketError error ;;;
        if bool_decide (error = EWOULDBLOCK) || bool_decide (error = EINTR) then ret true
        else set_receiving false ;;; ret false
    end
  else set_receiving false ;;; ret false.

(** [stopReceiveLoop]: the join waits for the thread, which then runs to its end. *)
Definition stopReceiveLoop : TM unit :=
  c <-- tcp_get ;;
  if negb (receiving_ c) then ret tt
  else
    set_receiving false ;;;
    if thread_joinable_ c
    then tcp_set (fun c => with_flags (connected_ c) (receiving_ c) false c)
    else ret tt.

(** ** Disconnecting *)

(** [disconnect] *)
Definition tcp_disconnect : TM unit :=
  c <-- tcp_get ;;
  if negb (connected_ c) then ret tt
  else
    stopReceiveLoop ;;;
    set_connected false ;;;
    c <-- tcp_get ;;
    if socket_fd_ c =? INVALID_SOCKET then ret tt
    else tcp_sys (sys_close (socket_fd_ c)) ;;; tcp_set (with_socket INVALID_SOCKET).

(** [setDataCallback], [setErrorCallback], [setDisconnectCallback] *)
Definition setDataCallback (b : bool) : TM unit :=
  tcp_set (fun c => with_tcp_callbacks b (error_callback_ c) (disconnect_callback_ c) c).
Definition setTcpErrorCallback (b : bool) : TM unit :=
  tcp_set (fun c => with_tcp_callbacks (data_callback_ c) b (disconnect_callback_ c) c).
Definition setDisconnectCallback (b : bool) : TM unit :=
  tcp_set (fun c => with_tcp_callbacks (data_callback_ c) (error_callback_ c) b c).

(** [cleanup] *)
Definition tcp_cleanup : TM unit :=
  stopReceiveLoop ;;;
  c <-- tcp_get ;;
  (if connected_ c then tcp_disconnect else ret tt) ;;;
  tcp_set (fun c => mkTcp (socket_fd_ c) (server_addr_ c) (connected_ c) (receiving_ c) (host_ c) (port_ c)
    (thread_joinable_ c) [] (last_error_ c) false false false).
End Operations.

(** * Lemmas *)

Section Lemmas.
Context {W : Type} `{Sockets W}.
Implicit Types s : TcpWorld W.

Definition wire s : bytes := sys_sent (tw_os s).

(** An operation keeps [P], also when it throws. *)
Definition keeps {A} (P : TcpWorld W -> Prop) (m : TM A) : Prop := forall s, P s -> P (snd (m s)).

Lemma keeps_ret {A} P (a : A) : keeps P (ret a).
Proof. by intros s. Qed.
Lemma keeps_throw {A} P : keeps P (@throw (TcpWorld W) A).
Proof. by intros s. Qed.
Lemma keeps_bind {A B} P (m : TM A) (k : A -> TM B) :
  keeps P m -> (forall a, keeps P (k a)) -> keeps P (bind m k).
Proof.
  intros Hm Hk s Hs. specialize (Hm s Hs). unfold bind. destruct (m s) as [[a| | |] s'] eqn:E;
    simpl in *; try done. by apply Hk.
Qed.

(** What [tcp_get] read is known in the rest. *)
Lemma keeps_get {A} P (k : TcpConnection -> TM A) :
  (forall s, P s -> P (snd (k (tw_tcp s) s))) -> keeps P (bind tcp_get k).
Proof. done. Qed.

(** ** Sending *)

Lemma handleSocketError_wire e s :
  exists s', handleSocketError e s = (Ret tt, s') /\ wire s' = wire s.
Proof.
  unfold handleSocketError, set_connected, tcp_set, tcp_get, tcp_emit, bind, ret, wire.
  destruct (connection_lost e); simpl; repeat case_match; simplify_eq; eexists; by split.
Qed.

(** One [sendRaw]: an error and nothing written, or some bytes of the data. *)
Lemma sendRaw_cases data s :
  (exists s', sendRaw data s = (Ret (-1), s') /\ wire s' = wire s) \/
  (exists n s', sendRaw data s = (Ret n, s') /\ 0 <= n <= Z.of_nat (length data) /\
     wire s' = wire s ++ take (Z.to_nat n) data).
Proof.
  unfold sendRaw, tcp_get, bind. destruct (socket_fd_ (tw_tcp s) =? INVALID_SOCKET).
  { left. by exists s. }
  unfold tcp_sys. destruct (sys_send _ data (tw_os s)) as [[n|e] w'] eqn:E; simpl.
  - right. destruct (sys_send_ok _ _ _ _ _ E) as [Hn Hw]. do 2 eexists. split; [reflexivity|]. by split.
  - left. pose proof (sys_send_error _ _ _ _ _ E) as Hw.
    destruct (handleSocketError_wire e (mkTcpWorld (tw_tcp s) w' (tw_events s))) as (s' & E' & Hs').
    rewrite E'. exists s'. split; [done|]. rewrite Hs'. done.
Qed.

(** The end of a failed attempt on [rest]: the last thing done was to offer all of it to the
    system, which reported an error or accepted nothing; accepting nothing marks the
    connection as down. *)
Definition gave_up (rest : bytes) s' : Prop :=
  rest <> [] /\ exists s1 r s2, sendRaw rest s1 = (Ret r, s2) /\ r <= 0 /\ wire s1 = wire s' /\
    s' = (if r =? 0 then snd (set_connected false s2) else s2).

(** The data went out up to byte [n]: all of it exactly when the call says so, and the rest
    was refused otherwise. *)
Definition sent_upto (data : bytes) s (b : bool) s' : Prop :=
  exists n, (n <= length data)%nat /\ wire s' = wire s ++ take n data /\
    (b = true <-> n = length data) /\ (b = false -> gave_up (drop n data) s').

Lemma sent_upto_all data s s' : wire s' = wire s ++ data -> sent_upto data s true s'.
Proof. intros Hw. exists (length data). rewrite firstn_all. by split_and!. Qed.

(** An attempt of which nothing was accepted *)
Lemma sent_upto_error data s r s2 s' :
  data <> [] -> sendRaw data s = (Ret r, s2) -> r <= 0 -> wire s2 = wire s ->
  s' = (if r =? 0 then snd (set_connected false s2) else s2) -> sent_upto data s false s'.
Proof.
  intros Hd E Hr Hw ->.
  assert (wire (if r =? 0 then snd (set_connected false s2) else s2) = wire s) as Hw' by by case_match.
  exists 0%nat. rewrite take_0, app_nil_r, drop_0. split_and!; [lia|done| |].
  - destruct data; [done|]. split; [done|]. simpl. lia.
  - intros _. split; [done|]. by exists s, r, s2.
Qed.

Lemma sent_upto_more data n s s1 b s' :
  (n <= length data)%nat -> wire s1 = wire s ++ take n data ->
  sent_upto (drop n data) s1 b s' -> sent_upto data s b s'.
Proof.
  intros Hn H1 (m & Hm & Hw & Hb & Hg). rewrite length_drop in *. exists (n + m)%nat.
  split_and!; [lia| |rewrite Hb; lia|by rewrite drop_drop in Hg].
  rewrite Hw, H1, <- app_assoc. f_equal. by rewrite take_take_drop.
Qed.

Lemma partial_send_loop_ok fuel remaining s :
  (length remaining < fuel)%nat ->
  exists b s', partial_send_loop fuel remaining s = (Ret b, s') /\ sent_upto remaining s b s'.
Proof.
  revert remaining s. induction fuel as [|f IH]; intros remaining s Hl; [lia|].
  destruct remaining as [|x r]; [exists true, s; split; [done|]; apply sent_upto_all; by rewrite app_nil_r|].
  set (data := x :: r) in *. assert (data <> []) as Hd by done.
  change (partial_send_loop (S f) data) with
    (result <-- sendRaw data ;;
     if result <? 0 then ret false
     else if result =? 0 then set_connected false ;;; ret false
     else partial_send_loop f (drop (Z.to_nat result) data)).
  unfold bind at 1. destruct (sendRaw_cases data s) as [(s' & E & Hw)|(n & s' & E & Hn & Hw)]; rewrite E.
  { exists false, s'. split; [done|]. by apply (sent_upto_error data s (-1) s'). }
  destruct (Z.ltb_spec n 0); [lia|]. destruct (Z.eqb_spec n 0) as [->|Hne].
  - eexists false, _. split; [reflexivity|]. rewrite take_0, app_nil_r in Hw.
    by apply (sent_upto_error data s 0 s').
  - destruct (IH (drop (Z.to_nat n) data) s') as (b & s2 & E2 & Hs2); [rewrite length_drop; lia|].
    exists b, s2. split; [done|]. eapply sent_upto_more; [|exact Hw|done]. lia.
Qed.

Lemma handlePartialSend_ok data n s :
  0 <= n <= Z.of_nat (length data) ->
  exists b s', handlePartialSend data n s = (Ret b, s') /\ sent_upto (drop (Z.to_nat n) data) s b s'.
Proof.
  intros Hn. unfold handlePartialSend. destruct (Z.ltb_spec n 0); [lia|].
  destruct (Z.ltb_spec (Z.of_nat (length data)) n); [lia|]. apply partial_send_loop_ok. lia.
Qed.

(** ** The connection flag *)

(** What the data callback was given *)
Definition data_of (e : tcp_event) : option bytes := match e with OnData d => Some d | _ => None end.
Definition delivered s : list bytes := omap data_of (tw_events s).

(** A predicate of an object that is not connected and not receiving, which no assignment
    short of setting a flag, no system call that writes nothing and no callback other than
    the data callback disturbs. *)
Record idle (P : TcpWorld W -> Prop) : Prop := {
  idle_connected s : P s -> connected_ (tw_tcp s) = false;
  idle_receiving s : P s -> receiving_ (tw_tcp s) = false;
  idle_set f :
    (forall c, connected_ c = false -> connected_ (f c) = false) ->
    (forall c, receiving_ c = false -> receiving_ (f c) = false) -> keeps P (tcp_set f);
  idle_sys A (f : W -> A * W) : (forall w, sys_sent (snd (f w)) = sys_sent w) -> keeps P (tcp_sys f);
  idle_emit e : data_of e = None -> keeps P (tcp_emit e)
}.

(** Not disturbed by writing and by delivering data either *)
Definition writable (P : TcpWorld W -> Prop) : Prop := forall A (f : W -> A * W), keeps P (tcp_sys f).
Definition deliverable (P : TcpWorld W -> Prop) : Prop := forall e, keeps P (tcp_emit e).

Section Idle.
Variable P : TcpWorld W -> Prop.
Hypothesis IP : idle P.

Lemma idle_option o : keeps P (require_option o) /\ keeps P (try_option o).
Proof.
  split; apply keeps_get; intros s Hs.
  - apply (keeps_bind P); [apply IP; intros w; apply sys_setup_quiet| |done].
    intros r. destruct (r <? 0); [apply keeps_throw|apply keeps_ret].
  - apply (keeps_bind P); [apply IP; intros w; apply sys_setup_quiet| |done].
    intros r. apply keeps_ret.
Qed.

Lemma idle_create : keeps P createSocket.
Proof.
  apply keeps_bind; [apply IP; intros w; apply sys_setup_quiet|intros fd].
  apply keeps_bind; [by apply IP|intros _].
  destruct (fd =? INVALID_SOCKET); [apply keeps_throw|apply keeps_ret].
Qed.

Lemma idle_configure : keeps P configureSocket.
Proof.
  unfold configureSocket. do 3 (apply keeps_bind; [apply idle_option|intros _]).
  apply keeps_get. intros s Hs.
  apply (keeps_bind P); [apply IP; intros w; apply sys_setup_quiet| |done].
  intros flags. apply keeps_bind; [destruct (flags <? 0); [apply keeps_throw|apply keeps_ret]|intros _].
  apply keeps_bind; [apply IP; intros w; apply sys_setup_quiet|intros r].
  apply keeps_bind; [destruct (r <? 0); [apply keeps_throw|apply keeps_ret]|intros _].
  do 2 (apply keeps_bind; [apply idle_option|intros _]). apply idle_option.
Qed.

Lemma idle_address host port : keeps P (setupSocketAddress host port).
Proof.
  apply keeps_bind; [by apply IP|intros _]. apply keeps_bind; [by intros s|intros [addr|]];
    [by apply IP|apply keeps_throw].
Qed.

Lemma idle_connect host port : keeps P (tcp_connect host port).
Proof.
  unfold tcp_connect. apply keeps_bind; [apply idle_address|intros _].
  apply keeps_bind; [apply idle_create|intros _]. apply keeps_bind; [apply idle_configure|intros _].
  apply keeps_bind; [by intros s|intros c].
  apply keeps_bind; [apply IP; intros w; apply sys_setup_quiet|intros r; apply keeps_ret].
Qed.

Lemma idle_lost : keeps P handleConnectionLost.
Proof.
  apply keeps_bind; [by apply IP|intros _]. apply keeps_get. intros s Hs.
  destruct (disconnect_callback_ (tw_tcp s)); [by apply IP|done].
Qed.

Lemma idle_error e : keeps P (handleSocketError e).
Proof.
  apply keeps_bind; [destruct (connection_lost e); [by apply IP|apply keeps_ret]|intros _].
  apply keeps_bind; [by apply IP|intros _]. apply keeps_bind; [by intros s|intros c].
  apply keeps_bind; [destruct (error_callback_ c); [by apply IP|apply keeps_ret]|intros _].
  destruct (negb (connected_ c) && disconnect_callback_ c); [by apply IP|apply keeps_ret].
Qed.

Lemma idle_send data s : P s -> tcp_send data s = (Ret false, s).
Proof. intros Hs. unfold tcp_send, bind, tcp_get. by rewrite (idle_connected P IP). Qed.
Lemma idle_start s : P s -> startReceiveLoop s = (Ret tt, s).
Proof.
  intros Hs. unfold startReceiveLoop, bind, tcp_get.
  by rewrite (idle_receiving P IP), (idle_connected P IP).
Qed.
Lemma idle_stop s : P s -> stopReceiveLoop s = (Ret tt, s).
Proof. intros Hs. unfold stopReceiveLoop, bind, tcp_get. by rewrite (idle_receiving P IP). Qed.
Lemma idle_disconnect s : P s -> tcp_disconnect s = (Ret tt, s).
Proof. intros Hs. unfold tcp_disconnect, bind, tcp_get. by rewrite (idle_connected P IP). Qed.

(** The receive loop ends at once. *)
Lemma idle_receive s :
  P s -> receive_turn s = (Ret false, snd (set_receiving false s)) /\ P (snd (set_receiving false s)).
Proof.
  intros Hs. split; [|by apply IP].
  unfold receive_turn, bind, tcp_get. by rewrite (idle_connected P IP), andb_false_r.
Qed.

Lemma idle_cleanup : keeps P tcp_cleanup.
Proof.
  intros s Hs. unfold tcp_cleanup, bind at 1. rewrite idle_stop by done.
  unfold bind at 1, tcp_get. rewrite (idle_connected P IP) by done.
  apply (keeps_bind P); [apply keeps_ret|intros _; by apply IP|done].
Qed.

Lemma idle_sendRaw data : writable P -> keeps P (sendRaw data).
Proof.
  intros HW. apply keeps_get. intros s Hs. destruct (_ =? _); [done|].
  apply (keeps_bind P); [apply HW| |done]. intros [n|e]; [apply keeps_ret|].
  apply keeps_bind; [apply idle_error|intros _; apply keeps_ret].
Qed.

Lemma idle_partial data n : writable P -> keeps P (handlePartialSend data n).
Proof.
  intros HW. unfold handlePartialSend. destruct (_ || _); [by intros s|].
  set (r := drop _ data). clearbody r. generalize (S (length r)) as fuel. intros fuel. revert r.
  induction fuel as [|f IH]; intros r; [by intros s|]. destruct r as [|x r]; [apply keeps_ret|].
  cbn [partial_send_loop]. apply keeps_bind; [by apply idle_sendRaw|intros k].
  destruct (k <? 0); [apply keeps_ret|]. destruct (k =? 0); [|apply IH].
  apply keeps_bind; [by apply IP|intros _; apply keeps_ret].
Qed.

Lemma idle_data data : deliverable P -> keeps P (onDataReceived data).
Proof. intros HD. apply keeps_get. intros s Hs. destruct (data_callback_ _); [by apply HD|done]. Qed.
End Idle.

(** Not connected and not receiving *)
Definition down s : Prop := connected_ (tw_tcp s) = false /\ receiving_ (tw_tcp s) = false.

Lemma idle_down : idle down /\ writable down /\ deliverable down.
Proof.
  split_and!; [|by intros A f s|by intros e s].
  split; [by intros s []|by intros s []| |by intros A f _ s|by intros e _ s].
  intros f H1 H2 s []. split; simpl; auto.
Qed.
Lemma idle_wire x : idle (fun s => down s /\ wire s = x) /\ deliverable (fun s => down s /\ wire s = x).
Proof.
  split; [|by intros e s]. split; [by intros s [[] _]|by intros s [[] _]| | |by intros e _ s].
  - intros f H1 H2 s [[] ?]. split; [split; simpl; auto|done].
  - intros A f Hf s [Hs Hw]. split; [done|]. unfold wire in *. simpl. by rewrite Hf.
Qed.
Lemma idle_delivered x :
  idle (fun s => down s /\ delivered s = x) /\ writable (fun s => down s /\ delivered s = x).
Proof.
  split; [|by intros A f s]. split; [by intros s [[] _]|by intros s [[] _]| |by intros A f _ s|].
  - intros f H1 H2 s [[] ?]. split; [split; simpl; auto|done].
  - intros e He s [Hs Hd]. split; [done|]. unfold delivered in *. simpl. rewrite omap_app, Hd.
    cbn. rewrite He. by rewrite app_nil_r.
Qed.

(** Not connected, not receiving, nothing written since [w0], no data delivered. *)
Record offline (w0 : W) s : Prop := {
  of_connected : connected_ (tw_tcp s) = false;
  of_receiving : receiving_ (tw_tcp s) = false;
  of_wire : wire s = sys_sent w0;
  of_data : forall d, OnData d ∉ tw_events s
}.

Lemma idle_offline w0 : idle (offline w0).
Proof.
  split; [by intros s []|by intros s []| | |].
  - intros f H1 H2 s [Hc Hr Hw Hd]. split; simpl; auto.
  - intros A f Hf s [Hc Hr Hw Hd]. split; try done. unfold wire in *. simpl. by rewrite Hf.
  - intros e He s [Hc Hr Hw Hd]. split; try done. simpl. intros d.
    rewrite elem_of_app, list_elem_of_singleton. intros [?|<-]; [by eapply Hd|done].
Qed.
End Lemmas.

(** * Properties *)

(** The methods of the public interface that change anything; [CallReceive] is a turn of
    [receiveLoop], made by the thread or by calling it.  [isConnected], [getRemoteHost],
    [getRemotePort], [getLastError] and [handleConnectionResult] only return a value, and
    [reconnect] and [onError] are declared without a body. *)
Inductive tcp_call :=
  | CallCreateSocket
  | CallConfigureSocket
  | CallConnect (host : bytes) (port : Z)
  | CallSetupAddress (host : bytes) (port : Z)
  | CallSend (message : bytes)
  | CallSendRaw (data : bytes)
  | CallPartialSend (data : bytes) (bytesSent : Z)
  | CallStart
  | CallReceive
  | CallOnData (data : bytes)
  | CallDisconnect
  | CallConnectionLost
  | CallSocketError (error : errno)
  | CallCleanup
  | CallStop
  | CallSetData (b : bool)
  | CallSetError (b : bool)
  | CallSetDisconnect (b : bool).

(** The methods that write past the [connected_] guard of [send], and the one that hands
    data to the callback outside the receive loop *)
Definition writes (c : tcp_call) : bool :=
  match c with CallSendRaw _ | CallPartialSend _ _ => true | _ => false end.
Definition delivers (c : tcp_call) : bool := match c with CallOnData _ => true | _ => false end.

Section Theorems.
Context {W : Type} `{Sockets W}.

Definition discard {A} (m : M (TcpWorld W) A) : M (TcpWorld W) unit := m ;;; ret tt.

Definition run_call (c : tcp_call) : M (TcpWorld W) unit :=
  match c with
  | CallCreateSocket => createSocket
  | CallConfigureSocket => configureSocket
  | CallConnect host port => discard (tcp_connect host port)
  | CallSetupAddress host port => setupSocketAddress host port
  | CallSend message => discard (tcp_send message)
  | CallSendRaw data => discard (sendRaw data)
  | CallPartialSend data bytesSent => discard (handlePartialSend data bytesSent)
  | CallStart => startReceiveLoop
  | CallReceive => discard receive_turn
  | CallOnData data => onDataReceived data
  | CallDisconnect => tcp_disconnect
  | CallConnectionLost => handleConnectionLost
  | CallSocketError error => handleSocketError error
  | CallCleanup => tcp_cleanup
  | CallStop => stopReceiveLoop
  | CallSetData b => setDataCallback b
  | CallSetError b => setTcpErrorCallback b
  | CallSetDisconnect b => setDisconnectCallback b
  end.

(** States of a connection object created when the system was in [w0]; a call may throw. *)
Inductive tcp_reach (w0 : W) : TcpWorld W -> Prop :=
  | reach_new : tcp_reach w0 (mkTcpWorld newTcp w0 [])
  | reach_call s c : tcp_reach w0 s -> tcp_reach w0 (snd (run_call c s)).

Lemma keeps_discard {A} P (m : M (TcpWorld W) A) : keeps P m -> keeps P (discard m).
Proof. intros Hm. apply keeps_bind; [done|intros a; apply keeps_ret]. Qed.
Lemma keeps_still {A} (P : TcpWorld W -> Prop) (m : M (TcpWorld W) A) a :
  (forall s, P s -> m s = (Ret a, s)) -> keeps P m.
Proof. intros Hm s Hs. by rewrite Hm. Qed.

Lemma run_call_keeps P c :
  idle P -> (writes c = true -> writable P) -> (delivers c = true -> deliverable P) ->
  keeps P (run_call c).
Proof.
  intros IP HW HD. destruct c; cbn [run_call writes delivers] in *.
  - by apply idle_create.
  - by apply idle_configure.
  - by apply keeps_discard, idle_connect.
  - by apply idle_address.
  - eapply keeps_discard, keeps_still. intros s. by apply (idle_send P).
  - apply keeps_discard, idle_sendRaw; auto.
  - apply keeps_discard, idle_partial; auto.
  - eapply keeps_still. intros s. by apply (idle_start P).
  - apply keeps_discard. intros s Hs. by destruct (idle_receive P IP s Hs) as [-> ?].
  - apply idle_data; auto.
  - eapply keeps_still. intros s. by apply (idle_disconnect P).
  - by apply idle_lost.
  - by apply idle_error.
  - by apply idle_cleanup.
  - eapply keeps_still. intros s. by apply (idle_stop P).
  - by apply IP.
  - by apply IP.
  - by apply IP.
Qed.

Lemma tcp_reach_down w0 s : tcp_reach w0 s -> down s.
Proof.
  induction 1 as [|s c _ IH]; [done|]. destruct idle_down as (? & ? & ?). by apply run_call_keeps.
Qed.

(** C39: no sequence of calls of the public methods ever connects a [TcpConnection]:
    [connect] leaves [connected_] false, so in every reachable state the object is not
    connected and the receive loop does not run; every [send] refuses and [startReceiveLoop]
    and [disconnect] return at once, all without any effect; bytes are written only by
    calling [sendRaw] or [handlePartialSend] past the guard of [send], and data reaches the
    callback only by calling [onDataReceived]. *)
Theorem tcp_never_connected w0 s :
  tcp_reach w0 s ->
  connected_ (tw_tcp s) = false /\ receiving_ (tw_tcp s) = false /\
  (forall message, tcp_send message s = (Ret false, s)) /\
  startReceiveLoop s = (Ret tt, s) /\ tcp_disconnect s = (Ret tt, s) /\
  (forall c, writes c = false -> wire (snd (run_call c s)) = wire s) /\
  (forall c, delivers c = false -> delivered (snd (run_call c s)) = delivered s).
Proof.
  intros Hd%tcp_reach_down. pose proof Hd as [Hc Hr]. destruct idle_down as (HI & _ & _).
  split_and!; try done.
  - intros m. by apply (idle_send down).
  - by apply (idle_start down).
  - by apply (idle_disconnect down).
  - intros c Hw. destruct (idle_wire (wire s)) as [HP HQ].
    assert (keeps (fun x => down x /\ wire x = wire s) (run_call c)) as Hk
      by (apply run_call_keeps; [done|intros; congruence|intros; done]). by apply Hk.
  - intros c Hw. destruct (idle_delivered (delivered s)) as [HP HQ].
    assert (keeps (fun x => down x /\ delivered x = delivered s) (run_call c)) as Hk
      by (apply run_call_keeps; [done|intros; done|intros; congruence]). by apply Hk.
Qed.

(** [send] on a connection that is up *)
Lemma tcp_send_ok message s :
  connected_ (tw_tcp s) = true ->
  exists b s', tcp_send message s = (Ret b, s') /\
    exists n, (n <= length message)%nat /\ wire s' = wire s ++ take n message /\
      (b = true <-> n = length message).
Proof.
  intros Hc. unfold tcp_send, bind at 1, tcp_get. rewrite Hc. cbn [negb].
  destruct message as [|x r]; [exists true, s; split; [done|]; exists 0%nat; by rewrite app_nil_r|].
  set (data := x :: r). unfold bind.
  assert (forall b s', sent_upto data s b s' -> exists n, (n <= length data)%nat /\
    wire s' = wire s ++ take n data /\ (b = true <-> n = length data)) as Hout by firstorder.
  destruct (sendRaw_cases data s) as [(s' & E & Hw)|(n & s' & E & Hn & Hw)]; rewrite E.
  { exists false, s'. split; [done|]. apply Hout. by apply (sent_upto_error data s (-1) s'). }
  destruct (Z.ltb_spec n 0); [lia|]. destruct (Z.ltb_spec n (Z.of_nat (length data))).
  - destruct (handlePartialSend_ok data n s' Hn) as (b & s2 & E2 & Hs2).
    exists b, s2. split; [done|]. apply Hout. eapply sent_upto_more; [|exact Hw|done]. lia.
  - exists true, s'. split; [done|]. apply Hout, sent_upto_all. rewrite Hw. f_equal.
    apply take_ge. lia.
Qed.

End Theorems.

(** * Witnesses *)

(** A system whose [send] accepts at most three bytes at a time and whose [connect]
    succeeds at once; the state is what was sent. *)
#[export] Program Instance three_bytes : Sockets bytes := {|
  sys_socket := fun w => (5, w);
  sys_setsockopt := fun _ _ w => (0, w);
  sys_getfl := fun _ w => (0, w);
  sys_setfl := fun _ _ w => (0, w);
  sys_resolve := fun _ _ => Some 2130706433;
  sys_connect := fun _ _ _ w => (0, w);
  sys_send := fun _ data w => (inl (Z.of_nat (length (take 3 data))), w ++ take 3 data);
  sys_recv := fun _ _ w => (inr EWOULDBLOCK, w);
  sys_close := fun _ w => (0, w);
  sys_strerror := fun _ => [];
  sys_sent := fun w => w
|}.
Next Obligation.
  intros fd data w n w' E. injection E as <- <-.
  destruct data as [|a [|b [|c d]]]; (split; [simpl; lia|done]).
Qed.
Next Obligation. done. Qed.
Next Obligation. done. Qed.
Next Obligation. done. Qed.
Next Obligation. done. Qed.
Next Obligation. done. Qed.

(** The object after a [connect] that succeeded, and after a first write past the guard *)
Definition opened : TcpWorld bytes :=
  snd (run_call (CallConnect (str "localhost") 9878) (mkTcpWorld newTcp [] [])).
Definition written : TcpWorld bytes := snd (run_call (CallSendRaw (str "8=FIX.4.4")) opened).

Lemma opened_reach : tcp_reach [] opened.
Proof. apply reach_call, reach_new. Defined.

Lemma tcp_never_connected_witness :
  fst (tcp_connect (str "localhost") 9878 (mkTcpWorld newTcp [] [])) = Ret true /\
  wire written = str "8=F" /\ connected_ (tw_tcp written) = false /\
  tcp_send (str "8=FIX") written = (Ret false, written) /\
  wire (snd (run_call (CallSend (str "8=FIX")) written)) = str "8=F".
Proof.
  assert (tcp_reach [] written) as Hr by apply reach_call, opened_reach.
  destruct (tcp_never_connected [] written Hr) as (Hc & _ & Hs & _ & _ & Hw & _).
  split; [reflexivity|]. split; [reflexivity|]. split; [exact Hc|]. split; [apply Hs|].
  rewrite Hw by reflexivity. reflexivity.
Defined.

