(* ===== verification/AsyncSender.v ===== *)
(** [network::AsyncSender] ([async_sender.h], [async_sender.cpp]): the consumer thread that
    takes messages from an outbound queue and sends them, with its retries, counters and
    the drain at the end.

    The sender is proved against two interfaces: [OutQueue], which both kinds of queue
    implement, and [Transport], which [TcpConnection] implements.  Other threads stop the
    sender: [interference n] tells whether [stop] ([Some false]) or [shutdown]
    ([Some true]) ran before the sender's [n]-th read of its flags.  [error_callback_] has
    no setter and is never called. *)
From S2P Require Import Prelude FixFields LockFreeQueue QueueInterface MessagePool PriorityQueues OutboundMessage MutexQueue MutexQueueProperties TcpConnection.
Import Outbound.

(** ** Interfaces *)

(** A queue of message pointers, as its consumer sees it; the messages are in a pool. *)
Class OutQueue (Q : Type) := {
  oq_items : Q -> list Z;
  oq_ok : MessagePool Message -> Q -> Prop;
  oq_tryPop : MessagePool Message -> Q -> option Z * Q;
  oq_size : Q -> Z;
  oq_pop_some p q a q' :
    oq_ok p q -> oq_tryPop p q = (Some a, q') -> oq_items q ≡ₚ a :: oq_items q' /\ oq_ok p q';
  oq_pop_none p q q' : oq_ok p q -> oq_tryPop p q = (None, q') -> oq_items q = [] /\ q' = q;
  oq_ok_ext p p' q :
    (forall a, a ∈ oq_items q -> deref p' a = deref p a) -> oq_ok p q -> oq_ok p' q
}.

(** A connection: whether it is up, and sending. *)
Class Transport (C : Type) := {
  t_connected : C -> bool;
  t_send : bytes -> M C bool;
  t_send_ends data c : (exists b, fst (t_send data c) = Ret b) \/ fst (t_send data c) = Throw
}.

(** ** The object *)

(** The flags, counters and configuration of the class *)
Record AsyncSender := mkSender {
  running_ : bool;
  shutdown_requested_ : bool;
  total_sent_ : Z;
  total_failed_ : Z;
  total_retried_ : Z;
  enable_batch_processing_ : bool;
  batch_size_ : Z;
  max_retries_ : nat;
  base_timeout_ : Z
}.

(** The constructors; they throw on null pointers, which the model has none of. *)
Definition newSender : AsyncSender := mkSender false false 0 0 0 false 100 3 100.

(** [setMaxRetries], [setBatchSize], [resetStats] *)
Definition setMaxRetries (n : nat) (s : AsyncSender) : AsyncSender :=
  mkSender (running_ s) (shutdown_requested_ s) (total_sent_ s) (total_failed_ s) (total_retried_ s)
    (enable_batch_processing_ s) (batch_size_ s) n (base_timeout_ s).
Definition setBatchSize (size : Z) (s : AsyncSender) : AsyncSender :=
  mkSender (running_ s) (shutdown_requested_ s) (total_sent_ s) (total_failed_ s) (total_retried_ s)
    (1 <? size) size (max_retries_ s) (base_timeout_ s).
Definition resetSenderStats (s : AsyncSender) : AsyncSender :=
  mkSender (running_ s) (shutdown_requested_ s) 0 0 0 (enable_batch_processing_ s) (batch_size_ s)
    (max_retries_ s) (base_timeout_ s).
Definition count_sender (sent failed retried : Z) (s : AsyncSender) : AsyncSender :=
  mkSender (running_ s) (shutdown_requested_ s) (total_sent_ s + sent) (total_failed_ s + failed)
    (total_retried_ s + retried) (enable_batch_processing_ s) (batch_size_ s) (max_retries_ s)
    (base_timeout_ s).
Definition with_run_flags (running requested : bool) (s : AsyncSender) : AsyncSender :=
  mkSender running requested (total_sent_ s) (total_failed_ s) (total_retried_ s)
    (enable_batch_processing_ s) (batch_size_ s) (max_retries_ s) (base_timeout_ s).

(** [start], [stop], [shutdown], as far as the flags go: the thread is started by the first
    and joined by the others. *)
Definition sender_start (s : AsyncSender) : AsyncSender :=
  if running_ s then s else with_run_flags true false s.
Definition sender_stop (s : AsyncSender) : AsyncSender := with_run_flags false (shutdown_requested_ s) s.
Definition sender_shutdown (s : AsyncSender) : AsyncSender :=
  if running_ s then with_run_flags false true s else s.

(** The sender with its queue, the pool, the connection, the number of reads of the flags
    and the milliseconds it slept between tries *)
Record SenderWorld (Q C : Type) := mkSW {
  sw_sender : AsyncSender;
  sw_queue : Q;
  sw_pool : MessagePool Message;
  sw_conn : C;
  sw_reads : nat;
  sw_slept : list Z
}.
Arguments mkSW {Q C}. Arguments sw_sender {Q C}. Arguments sw_queue {Q C}. Arguments sw_pool {Q C}.
Arguments sw_conn {Q C}. Arguments sw_reads {Q C}. Arguments sw_slept {Q C}.

Section Operations.
Context {Q C : Type} `{OutQueue Q} `{Transport C}.
Variable interference : nat -> option bool.
Implicit Types w : SenderWorld Q C.

Definition SM := M (SenderWorld Q C).

Definition get_sender : SM AsyncSender := fun w => (Ret (sw_sender w), w).
Definition on_sender (f : AsyncSender -> AsyncSender) : SM unit :=
  fun w => (Ret tt, mkSW (f (sw_sender w)) (sw_queue w) (sw_pool w) (sw_conn w) (sw_reads w) (sw_slept w)).

(** What another thread did before the next read of the flags *)
Definition interfere (n : nat) (s : AsyncSender) : AsyncSender :=
  match interference n with
  | None => s
  | Some false => sender_stop s
  | Some true => sender_shutdown s
  end.
Definition read_flags : SM AsyncSender :=
  fun w => let s := interfere (sw_reads w) (sw_sender w) in
           (Ret s, mkSW s (sw_queue w) (sw_pool w) (sw_conn w) (S (sw_reads w)) (sw_slept w)).

(** [running_.load()], [shutdown_requested_.load()] *)
Definition load_running : SM bool := s <-- read_flags ;; ret (running_ s).
Definition load_shutdown : SM bool := s <-- read_flags ;; ret (shutdown_requested_ s).

(** [tryPopMessage], and [popMessage] of the mutex-based queue, whose wait ends with its
    time when nothing comes *)
Definition tryPopMessage : SM (option Z) :=
  fun w => let '(r, q) := oq_tryPop (sw_pool w) (sw_queue w) in
           (Ret r, mkSW (sw_sender w) q (sw_pool w) (sw_conn w) (sw_reads w) (sw_slept w)).

(** [isConnected], [tcp_connection_->send(message_data)] *)
Definition sender_isConnected : SM bool := fun w => (Ret (t_connected (sw_conn w)), w).
Definition conn_send (data : bytes) : SM bool :=
  fun w => let '(r, c) := t_send data (sw_conn w) in
           (r, mkSW (sw_sender w) (sw_queue w) (sw_pool w) c (sw_reads w) (sw_slept w)).

(** [message->getPayload()] *)
Definition read_payload (a : Z) : SM bytes :=
  fun w => match deref (sw_pool w) a with Some m => (Ret (payload_ m), w) | None => (Ub, w) end.

(** [Message::destroy], by the guard that owns the message *)
Definition sender_destroy (a : Z) : SM unit :=
  fun w => (Ret tt, mkSW (sw_sender w) (sw_queue w) (deallocate (Some a) (sw_pool w)) (sw_conn w)
                      (sw_reads w) (sw_slept w)).

Definition sleep_for (ms : Z) : SM unit :=
  fun w => (Ret tt, mkSW (sw_sender w) (sw_queue w) (sw_pool w) (sw_conn w) (sw_reads w)
                      (sw_slept w ++ [ms])).

(** [calculateTimeout] *)
Definition calculateTimeout (s : AsyncSender) : Z := base_timeout_ s.

(** One try: whether it succeeded.  The result of [send] is not looked at. *)
Definition try_send (a : Z) : SM bool :=
  try_catch
    (up <-- sender_isConnected ;;
     if negb up then throw
     else data <-- read_payload a ;; conn_send data ;;; ret true)
    (ret false).

(** [handleSendFailure]: logs the id and the priority of the message *)
Definition handleSendFailure (a : Z) : SM unit :=
  fun w => match deref (sw_pool w) a with Some _ => (Ret tt, w) | None => (Ub, w) end.

(** The handler of a failed try *)
Definition after_failure (a : Z) (retry_count : nat) : SM unit :=
  s <-- get_sender ;;
  if decide (retry_count <= max_retries_ s)%nat then
    on_sender (count_sender 0 0 1) ;;;
    sleep_for (calculateTimeout s * Z.of_nat retry_count)
  else handleSendFailure a.

(** The loop of [sendMessage]: whether a try succeeded *)
Fixpoint send_loop (fuel : nat) (a : Z) (retry_count : nat) : SM bool :=
  match fuel with
  | O => nofuel
  | S f =>
      s <-- get_sender ;;
      if decide (retry_count <= max_retries_ s)%nat then
        running <-- load_running ;;
        if negb running then ret false
        else
          ok <-- try_send a ;;
          if ok : bool then ret true
          else after_failure a (S retry_count) ;;; send_loop f a (S retry_count)
      else ret false
  end.

(** [sendMessage] *)
Definition sendMessage (message : option Z) : SM unit :=
  match message with
  | None => ret tt
  | Some a =>
      s <-- get_sender ;;
      success <-- send_loop (S (S (max_retries_ s))) a 0 ;;
      on_sender (if success : bool then count_sender 1 0 0 else count_sender 0 1 0) ;;;
      sender_destroy a
  end.

(** One turn of [senderLoopMutex] and of [senderLoopLockFree] while [running_]: whether the
    loop goes on.  They differ in how long they wait for a message. *)
Definition sender_turn : SM bool :=
  running <-- load_running ;;
  if negb running then ret false
  else
    r <-- tryPopMessage ;;
    sendMessage r ;;;
    requested <-- load_shutdown ;;
    ret (negb requested).

(** The loop that drains the queue at the end *)
Fixpoint drain_loop (fuel : nat) : SM unit :=
  match fuel with
  | O => nofuel
  | S f =>
      r <-- tryPopMessage ;;
      match r with
      | None => ret tt
      | Some a => sendMessage (Some a) ;;; drain_loop f
      end
  end.

(** [senderLoop]: turns until one leaves the loop, then the drain *)
Fixpoint sender_loop (fuel : nat) : SM unit :=
  match fuel with
  | O => nofuel
  | S f =>
      continue <-- sender_turn ;;
      if continue : bool then sender_loop f
      else fun w => drain_loop (S (length (oq_items (sw_queue w)))) w
  end.
End Operations.

(** * Lemmas *)

Section Lemmas.
Context {Q C : Type} `{OutQueue Q} `{Transport C}.
Variable interference : nat -> option bool.
Implicit Types w : SenderWorld Q C.

(** As for the queue: what is queued and what the sender holds is live, different and all. *)
Record sender_inv (others : Z) (owned : list Z) w : Prop := {
  si_pool : pool_wf (sw_pool w);
  si_queue : oq_ok (sw_pool w) (sw_queue w);
  si_nodup : NoDup (oq_items (sw_queue w) ++ owned);
  si_live : forall a, a ∈ oq_items (sw_queue w) ++ owned -> is_Some (deref (sw_pool w) a);
  si_count : allocated_count_ (sw_pool w) = others + Z.of_nat (length (oq_items (sw_queue w) ++ owned))
}.

Lemma sender_inv_frame others owned w w' :
  sw_pool w' = sw_pool w -> sw_queue w' = sw_queue w ->
  sender_inv others owned w -> sender_inv others owned w'.
Proof. intros Hp Hq [H1 H2 H3 H4 H5]. split; rewrite ?Hp, ?Hq; done. Qed.

(** The configuration stays; stopped stays stopped. *)
Definition sender_same (s s' : AsyncSender) : Prop :=
  max_retries_ s' = max_retries_ s /\ base_timeout_ s' = base_timeout_ s /\
  (running_ s = false -> running_ s' = false).

Lemma interfere_same n s :
  sender_same s (interfere interference n s) /\
  total_sent_ (interfere interference n s) = total_sent_ s /\
  total_failed_ (interfere interference n s) = total_failed_ s /\
  total_retried_ (interfere interference n s) = total_retried_ s.
Proof.
  unfold interfere, sender_same. destruct (interference n) as [[]|]; [|done..].
  unfold sender_shutdown. destruct (running_ s) eqn:E; simpl; rewrite ?E; done.
Qed.

(** Reads of the flags go on, and a stop before one of them has its effect. *)
Definition flags_follow w w' : Prop :=
  (sw_reads w <= sw_reads w')%nat /\
  (running_ (sw_sender w) = false -> running_ (sw_sender w') = false) /\
  (forall n, (sw_reads w <= n < sw_reads w')%nat -> interference n <> None ->
     running_ (sw_sender w') = false).

Lemma flags_follow_refl w w' :
  sw_sender w' = sw_sender w -> sw_reads w' = sw_reads w -> flags_follow w w'.
Proof. intros E1 E2. split; [lia|]. split; [by rewrite E1|]. intros n ?. lia. Qed.

Lemma flags_follow_trans w1 w2 w3 : flags_follow w1 w2 -> flags_follow w2 w3 -> flags_follow w1 w3.
Proof.
  intros (A1 & A2 & A3) (B1 & B2 & B3). split; [lia|]. split; [auto|]. intros n Hn Hi.
  destruct (decide (n < sw_reads w2)%nat); [apply B2, (A3 n); [lia|done]|apply (B3 n); [lia|done]].
Qed.

Lemma flags_follow_read w q p c l :
  flags_follow w (mkSW (interfere interference (sw_reads w) (sw_sender w)) q p c (S (sw_reads w)) l).
Proof.
  split; [simpl; lia|]. split; [apply interfere_same|]. intros n Hn Hi. simpl in *.
  assert (n = sw_reads w) as -> by lia. unfold interfere.
  destruct (interference (sw_reads w)) as [[]|]; [|done..].
  unfold sender_shutdown. by destruct (running_ (sw_sender w)) eqn:E.
Qed.

(** Stopped, or without a connection *)
Definition idle_sender w : Prop :=
  running_ (sw_sender w) = false \/ t_connected (sw_conn w) = false.

(** Since [w] the sender made [k] retries after number [r], on a message with this text. *)
Record tried (text : bytes) (r k : nat) (ok : bool) w w' : Prop := {
  tr_queue : sw_queue w' = sw_queue w;
  tr_pool : sw_pool w' = sw_pool w;
  tr_same : sender_same (sw_sender w) (sw_sender w');
  tr_flags : flags_follow w w';
  tr_sent : total_sent_ (sw_sender w') = total_sent_ (sw_sender w);
  tr_failed : total_failed_ (sw_sender w') = total_failed_ (sw_sender w);
  tr_retried : total_retried_ (sw_sender w') = total_retried_ (sw_sender w) + Z.of_nat k;
  tr_slept : sw_slept w' = sw_slept w ++
               map (fun i => base_timeout_ (sw_sender w) * Z.of_nat i) (seq (S r) k);
  tr_bound : (r + k <= max_retries_ (sw_sender w))%nat;
  tr_ok : ok = true -> exists c b, t_connected c = true /\ t_send text c = (Ret b, sw_conn w');
  tr_stopped : running_ (sw_sender w) = false -> k = 0%nat;
  tr_idle : idle_sender w -> ok = false /\ sw_conn w' = sw_conn w
}.

(** A try on a live message: it returns, and when it succeeded the text went to [send]. *)
Lemma try_send_cases a m w :
  deref (sw_pool w) a = Some m ->
  exists ok c', try_send a w = (Ret ok, mkSW (sw_sender w) (sw_queue w) (sw_pool w) c' (sw_reads w) (sw_slept w)) /\
    (ok = true -> t_connected (sw_conn w) = true /\ exists b, t_send (payload_ m) (sw_conn w) = (Ret b, c')) /\
    (t_connected (sw_conn w) = false -> ok = false /\ c' = sw_conn w).
Proof.
  intros Hm. destruct w as [s q p c n l]. simpl in *.
  unfold try_send, try_catch, bind, sender_isConnected, read_payload, conn_send. simpl.
  destruct (t_connected c) eqn:Ec; simpl; [|by exists false, c]. rewrite Hm. simpl.
  destruct (t_send (payload_ m) c) as [r c'] eqn:Et.
  destruct (t_send_ends (payload_ m) c) as [[b Hb]|Hb]; rewrite Et in Hb; simpl in Hb; subst r; simpl.
  - exists true, c'. split; [done|]. split; [|done]. intros _. split; [done|]. by exists b.
  - by exists false, c'.
Qed.

(** The ends of the loop: not running, sent, no retries left. *)
Lemma tried_now text r ok w w' :
  sw_queue w' = sw_queue w -> sw_pool w' = sw_pool w -> sender_same (sw_sender w) (sw_sender w') ->
  flags_follow w w' -> total_sent_ (sw_sender w') = total_sent_ (sw_sender w) ->
  total_failed_ (sw_sender w') = total_failed_ (sw_sender w) ->
  total_retried_ (sw_sender w') = total_retried_ (sw_sender w) -> sw_slept w' = sw_slept w ->
  (r <= max_retries_ (sw_sender w))%nat ->
  (ok = true -> exists c b, t_connected c = true /\ t_send text c = (Ret b, sw_conn w')) ->
  (idle_sender w -> ok = false /\ sw_conn w' = sw_conn w) ->
  tried text r 0 ok w w'.
Proof. intros. split; simpl; rewrite ?app_nil_r; try done; try lia. Qed.

(** A retry after the first read and a failed try. *)
Lemma tried_again text r k ok w s1 c1 w' :
  let w2 := mkSW (count_sender 0 0 1 s1) (sw_queue w) (sw_pool w) c1 (S (sw_reads w))
              (sw_slept w ++ [base_timeout_ s1 * Z.of_nat (S r)]) in
  s1 = interfere interference (sw_reads w) (sw_sender w) -> running_ (sw_sender w) = true ->
  (t_connected (sw_conn w) = false -> c1 = sw_conn w) ->
  tried text (S r) k ok w2 w' -> tried text r (S k) ok w w'.
Proof.
  intros w2 E1 Hrun Hdown [T1 T2 T3 TF T4 T5 T6 T7 T8 T9 _ T11].
  destruct (interfere_same (sw_reads w) (sw_sender w)) as ((Em & Eb & _) & Es & Ef & Er).
  rewrite <- E1 in *. unfold w2, count_sender in *. simpl in *.
  split; try done; try lia; try congruence.
  - destruct T3 as (A1 & A2 & A3). simpl in *. split; [congruence|]. split; [congruence|].
    intros F. by rewrite F in Hrun.
  - eapply flags_follow_trans; [|exact TF].
    pose proof (flags_follow_read w (sw_queue w) (sw_pool w) c1 (sw_slept w)) as (F1 & F2 & F3).
    rewrite <- E1 in *. split_and!; simpl in *; [lia|done|done].
  - by rewrite T7, Eb, <- app_assoc.
  - intros [F|F]; [by rewrite F in Hrun|]. rewrite (Hdown F) in *. apply T11. by right.
Qed.

Lemma send_loop_ok fuel a m r w :
  deref (sw_pool w) a = Some m ->
  (r <= max_retries_ (sw_sender w))%nat -> (max_retries_ (sw_sender w) + 1 < fuel + r)%nat ->
  exists ok k w', send_loop interference fuel a r w = (Ret ok, w') /\ tried (payload_ m) r k ok w w'.
Proof.
  revert r w. induction fuel as [|f IH]; intros r w Hm Hr Hf; [lia|].
  cbn [send_loop]. unfold bind at 1, get_sender. rewrite decide_True by done.
  unfold load_running, read_flags, bind at 1, bind at 1, ret at 1. cbv beta iota zeta.
  destruct (interfere_same (sw_reads w) (sw_sender w)) as (Hsame & E1 & E2 & E3).
  pose proof (fun c => flags_follow_read w (sw_queue w) (sw_pool w) c (sw_slept w)) as Hfl.
  remember (interfere interference (sw_reads w) (sw_sender w)) as s1 eqn:Hs1.
  destruct (running_ s1) eqn:Hrun; simpl.
  2: { exists false, 0%nat. eexists. split; [reflexivity|]. by apply tried_now. }
  assert (running_ (sw_sender w) = true) as Hrun0.
  { destruct (running_ (sw_sender w)) eqn:E; [done|]. destruct Hsame as (_ & _ & Hs).
    by rewrite (Hs E) in Hrun. }
  set (w1 := mkSW s1 (sw_queue w) (sw_pool w) (sw_conn w) (S (sw_reads w)) (sw_slept w)).
  destruct (try_send_cases a m w1 Hm) as (ok & c' & Et & Hok & Hdown). unfold bind at 1. rewrite Et.
  cbn [sw_sender sw_queue sw_pool sw_conn sw_reads sw_slept w1].
  destruct ok.
  { exists true, 0%nat. eexists. split; [reflexivity|]. destruct (Hok eq_refl) as (Hc & b & Hb).
    apply tried_now; try done; [intros _; by exists (sw_conn w), b|].
    intros [F|F]; [by rewrite F in Hrun0|by apply Hdown in F as [? _]]. }
  unfold bind at 1, after_failure, bind at 1, get_sender. cbn [sw_sender].
  destruct (decide (S r <= max_retries_ s1)%nat) as [Hle|Hgt].
  - unfold bind at 1, on_sender, sleep_for, calculateTimeout.
    cbn [sw_sender sw_queue sw_pool sw_conn sw_reads sw_slept].
    match goal with |- context [send_loop interference f a (S r) ?w2] =>
      destruct (IH (S r) w2) as (ok & k & w' & E & Ht);
        [done|exact Hle|unfold count_sender; simpl; destruct Hsame as (-> & _); lia|] end.
    exists ok, (S k), w'. split; [exact E|]. eapply tried_again; [done|done| |exact Ht].
    intros F. by apply Hdown in F as [_ ->].
  - unfold handleSendFailure. cbn [sw_pool]. rewrite Hm.
    destruct f as [|f]; [lia|]. cbn [send_loop]. unfold bind at 1, get_sender. cbn [sw_sender].
    rewrite decide_False by done. exists false, 0%nat. eexists. split; [reflexivity|].
    apply tried_now; try done. intros [F|F]; [by rewrite F in Hrun0|by apply Hdown].
Qed.

Lemma sender_destroy_inv others owned a w :
  sender_inv others (a :: owned) w ->
  exists w', sender_destroy a w = (Ret tt, w') /\ sender_inv others owned w' /\
    deref (sw_pool w') a = None /\ sw_queue w' = sw_queue w /\ sw_conn w' = sw_conn w /\
    sw_sender w' = sw_sender w /\ sw_slept w' = sw_slept w /\ sw_reads w' = sw_reads w.
Proof.
  intros [H1 H2 H3 H4 H5]. eexists. split; [reflexivity|].
  destruct (H4 a) as [o Ho]; [set_solver|].
  destruct (deallocate_deref a _ o H1 Ho) as (Hw & Hn & Hd & Hc). split; [|done].
  assert (a ∉ oq_items (sw_queue w) ++ owned) as Hna.
  { rewrite <- Permutation_middle in H3. by apply NoDup_cons in H3 as [? _]. }
  assert (forall b, b ∈ oq_items (sw_queue w) ++ owned ->
            deref (deallocate (Some a) (sw_pool w)) b = deref (sw_pool w) b) as Hsame.
  { intros b Hb. apply Hd. by intros ->. }
  split; cbn [sw_pool sw_queue]; try done.
  - eapply oq_ok_ext; [|exact H2]. intros b Hb. apply Hsame. set_solver.
  - rewrite <- Permutation_middle in H3. by apply NoDup_cons in H3 as [_ ?].
  - intros b Hb. rewrite Hsame by done. apply H4. set_solver.
  - rewrite Hc, H5, !length_app. simpl. lia.
Qed.

(** What sending one message did. *)
Record sent_one (m : Message) (a : Z) (ok : bool) (k : nat) w w' : Prop := {
  so_queue : sw_queue w' = sw_queue w;
  so_gone : deref (sw_pool w') a = None;
  so_same : sender_same (sw_sender w) (sw_sender w');
  so_flags : flags_follow w w';
  so_sent : total_sent_ (sw_sender w') = total_sent_ (sw_sender w) + (if ok then 1 else 0);
  so_failed : total_failed_ (sw_sender w') = total_failed_ (sw_sender w) + (if ok then 0 else 1);
  so_retried : total_retried_ (sw_sender w') = total_retried_ (sw_sender w) + Z.of_nat k;
  so_slept : sw_slept w' = sw_slept w ++
               map (fun i => base_timeout_ (sw_sender w) * Z.of_nat i) (seq 1 k);
  so_bound : (k <= max_retries_ (sw_sender w))%nat;
  so_ok : ok = true -> exists c b, t_connected c = true /\ t_send (payload_ m) c = (Ret b, sw_conn w');
  so_stopped : running_ (sw_sender w) = false -> k = 0%nat;
  so_idle : idle_sender w -> ok = false /\ sw_conn w' = sw_conn w
}.

Lemma sendMessage_ok others owned a m w :
  sender_inv others (a :: owned) w -> deref (sw_pool w) a = Some m ->
  exists ok k w', sendMessage interference (Some a) w = (Ret tt, w') /\
    sender_inv others owned w' /\ sent_one m a ok k w w'.
Proof.
  intros Hw Hm. unfold sendMessage, bind at 1, get_sender.
  destruct (send_loop_ok (S (S (max_retries_ (sw_sender w)))) a m 0 w Hm) as (ok & k & w1 & E & Ht); [lia|lia|].
  unfold bind at 1. rewrite E. destruct Ht as [T1 T2 T3 TF T4 T5 T6 T7 T8 T9 T10 T11].
  unfold bind at 1, on_sender.
  match goal with |- context [sender_destroy a ?w2] =>
    destruct (sender_destroy_inv others owned a w2) as (w3 & E3 & Hi & Hg & Hq & Hc & Hs & Hl & Hn) end.
  { by apply (sender_inv_frame _ _ w). }
  rewrite E3. exists ok, k, w3. split; [done|]. split; [done|]. simpl in *.
  split; rewrite ?Hs, ?Hq, ?Hl, ?Hc; try done; try (destruct ok; simpl; lia); try (destruct ok; done).
  destruct TF as (F1 & F2 & F3). unfold flags_follow. rewrite Hs, Hn.
  split; [exact F1|]. split; [destruct ok; exact F2|destruct ok; exact F3].
Qed.

(** Taking a message from the queue *)
Lemma tryPopMessage_ok others owned w :
  sender_inv others owned w ->
  exists r w', tryPopMessage w = (Ret r, w') /\ sw_sender w' = sw_sender w /\ sw_pool w' = sw_pool w /\
    sw_conn w' = sw_conn w /\ sw_reads w' = sw_reads w /\ sw_slept w' = sw_slept w /\
    match r with
    | Some a => oq_items (sw_queue w) ≡ₚ a :: oq_items (sw_queue w') /\ sender_inv others (a :: owned) w' /\
                is_Some (deref (sw_pool w') a)
    | None => oq_items (sw_queue w) = [] /\ sender_inv others owned w' /\ w' = w
    end.
Proof.
  intros [H1 H2 H3 H4 H5]. unfold tryPopMessage.
  destruct (oq_tryPop (sw_pool w) (sw_queue w)) as [[a|] q] eqn:E.
  - destruct (oq_pop_some _ _ _ _ H2 E) as [Hi Ho]. do 2 eexists. split; [reflexivity|].
    split_and!; try done; simpl.
    + assert (oq_items q ++ a :: owned ≡ₚ oq_items (sw_queue w) ++ owned) as Hio
        by (rewrite Hi; simpl; symmetry; apply Permutation_middle).
      split; simpl; rewrite ?Hio; try done. intros b. rewrite Hio. apply H4.
    + apply H4. rewrite Hi. set_solver.
  - destruct (oq_pop_none _ _ _ H2 E) as [Hi ->]. do 2 eexists. split; [reflexivity|].
    split_and!; try done; by destruct w.
Qed.

(** Messages sent or failed so far *)
Definition accounted w : Z := total_sent_ (sw_sender w) + total_failed_ (sw_sender w).

Lemma drain_loop_ok fuel others owned w :
  sender_inv others owned w -> (length (oq_items (sw_queue w)) < fuel)%nat ->
  exists w', drain_loop interference fuel w = (Ret tt, w') /\ sender_inv others owned w' /\
    oq_items (sw_queue w') = [] /\
    accounted w' = accounted w + Z.of_nat (length (oq_items (sw_queue w))) /\
    (idle_sender w ->
       sw_conn w' = sw_conn w /\ total_sent_ (sw_sender w') = total_sent_ (sw_sender w)).
Proof.
  revert w. induction fuel as [|f IH]; intros w Hw Hl; [lia|]. cbn [drain_loop].
  destruct (tryPopMessage_ok _ _ _ Hw) as (r & w1 & E & Hs & Hp & Hc & _ & _ & Hr).
  unfold bind at 1. rewrite E. destruct r as [a|].
  - destruct Hr as (Hi & Hw1 & [m Hm]).
    destruct (sendMessage_ok _ _ _ _ _ Hw1 Hm) as (ok & k & w2 & E2 & Hw2 & So).
    unfold bind. rewrite E2. rewrite Hi in Hl. simpl in Hl.
    destruct (IH w2 Hw2) as (w' & E' & Hw' & Hn & Ha & Hst); [rewrite (so_queue _ _ _ _ _ _ So); lia|].
    exists w'. split; [done|]. split; [done|]. split; [done|].
    destruct So as [S1 S2 (_ & _ & S3) SF S4 S5 S6 S7 S8 S9 _ S11]. rewrite Hs in *. split.
    + rewrite Ha, S1, Hi. unfold accounted in *. rewrite S4, S5. simpl. destruct ok; lia.
    + intros F. unfold idle_sender in S11. rewrite Hs, Hc in S11. destruct (S11 F) as (-> & Hc2).
      destruct Hst as [Hc' Hs'].
      { destruct F as [F|F]; [left; by apply S3|right; by rewrite Hc2]. }
      split; [congruence|]. lia.
  - destruct Hr as (Hi & Hw1 & ->). exists w. split; [done|]. split; [done|]. split; [done|].
    rewrite Hi. simpl. split; [lia|]. done.
Qed.
End Lemmas.
