(* ===== verification/SenderProperties.v ===== *)
(** The sender against its interfaces, and the two queues and the TCP connection as
    implementations of them: a message is sent or counted as failed and freed exactly once,
    the thread ends when it is stopped, and what the drain and the connection make of the
    messages. *)
From S2P Require Import Prelude FixFields LockFreeQueue QueueInterface MessagePool PriorityQueues OutboundMessage MutexQueue MutexQueueProperties TcpConnection AsyncSender.
Import Outbound.

(** ** Implementations of the interfaces *)

(** The mutex-based queue *)
Definition mutex_tryPop {H} `{MaxHeap H} (p : MessagePool Message) (q : PriorityQueue H)
    : option Z * PriorityQueue H :=
  match pq_tryPop (mkPqWorld q p 0) with
  | (Ret r, w) => (r, pw_pq w)
  | (_, w) => (None, pw_pq w)
  end.

#[export] Program Instance mutex_out {H} `{MaxHeap H} : OutQueue (PriorityQueue H) := {|
  oq_items := fun q => heap_elems (queue_ q);
  oq_ok := fun p q => heap_ok (key_of p) (queue_ q);
  oq_tryPop := mutex_tryPop;
  oq_size := pq_size
|}.
Next Obligation.
  intros H MH p q a q' Hok. unfold mutex_tryPop, pq_tryPop, bind, get_pq, heap_take, count_pq, on_pq. simpl.
  unfold pq_empty. case_bool_decide as E; [done|]. simpl. intros [= <- <-]. simpl.
  destruct (heap_pop_ok _ _ Hok E) as (? & ? & _). by split.
Qed.
Next Obligation.
  intros H MH p q q' Hok. unfold mutex_tryPop, pq_tryPop, bind, get_pq, heap_take, count_pq, on_pq. simpl.
  unfold pq_empty. case_bool_decide as E; [|done]. simpl. intros [= <-]. done.
Qed.
Next Obligation.
  intros H MH p p' q Hs Hok. eapply heap_ok_same; [|exact Hok]. intros a Ha. by rewrite Hs.
Qed.

(** The lock-free queue, while it is open *)
#[export] Program Instance lockfree_out : OutQueue (LockFreeQueue Z) := {|
  oq_items := q_items;
  oq_ok := fun _ q => q_wf q /\ q_open q = true;
  oq_tryPop := fun _ q => match q_pop q with (true, x, q') => (Some x, q') | (false, _, q') => (None, q') end;
  oq_size := size
|}.
Next Obligation.
  intros p q a q' [Hw Ho] E. destruct (q_items q) as [|x r] eqn:Ei.
  { destruct (q_pop_empty q Hw (or_intror Ei)) as [y Ey]. by rewrite Ey in E. }
  destruct (q_pop_ok x r q Hw Ho Ei) as (q1 & E1 & Hw1 & Ho1 & Hi1 & _). rewrite E1 in E.
  injection E as <- <-. rewrite Hi1. by split.
Qed.
Next Obligation.
  intros p q q' [Hw Ho] E. destruct (q_items q) as [|x r] eqn:Ei.
  { destruct (q_pop_empty q Hw (or_intror Ei)) as [y Ey]. rewrite Ey in E. injection E as <-. done. }
  destruct (q_pop_ok x r q Hw Ho Ei) as (q1 & E1 & _). by rewrite E1 in E.
Qed.
Next Obligation. done. Qed.

(** The TCP connection *)
#[export] Program Instance tcp_transport {W} `{Sockets W} : Transport (TcpWorld W) := {|
  t_connected := fun s => connected_ (tw_tcp s);
  t_send := tcp_send
|}.
Next Obligation.
  intros W HS data s. left. destruct (connected_ (tw_tcp s)) eqn:E.
  - destruct (tcp_send_ok data s E) as (b & s' & -> & _). by exists b.
  - unfold tcp_send, bind, tcp_get. rewrite E. by exists false.
Qed.

(** ** The sender's loop *)

Section Loop.
Context {Q C : Type} `{OutQueue Q} `{Transport C}.
Variable interference : nat -> option bool.
Implicit Types w : SenderWorld Q C.

(** Messages still queued, sent and failed: what a turn keeps *)
Definition balance w : Z := accounted w + Z.of_nat (length (oq_items (sw_queue w))).

(** A turn of the loop took at most one message. *)
Record turned w w' : Prop := {
  tu_balance : balance w' = balance w;
  tu_flags : flags_follow interference w w';
  tu_reads : (sw_reads w < sw_reads w')%nat;
  tu_idle : idle_sender w ->
    sw_conn w' = sw_conn w /\ total_sent_ (sw_sender w') = total_sent_ (sw_sender w)
}.

(** Sending what was popped, if anything *)
Lemma send_popped_ok others owned r w w0 :
  sender_inv others (match r with Some a => a :: owned | None => owned end) w ->
  match r with Some a => is_Some (deref (sw_pool w) a) | None => True end ->
  sw_sender w = sw_sender w0 -> sw_conn w = sw_conn w0 -> sw_reads w = sw_reads w0 ->
  exists w', sendMessage interference r w = (Ret tt, w') /\ sender_inv others owned w' /\
    sw_queue w' = sw_queue w /\
    accounted w' = accounted w0 + (match r with Some _ => 1 | None => 0 end) /\
    flags_follow interference w0 w' /\
    (idle_sender w0 -> sw_conn w' = sw_conn w0 /\ total_sent_ (sw_sender w') = total_sent_ (sw_sender w0)).
Proof.
  intros Hw Hr Es Ec Er. destruct r as [a|].
  - destruct Hr as [m Hm]. destruct (sendMessage_ok interference _ _ _ _ _ Hw Hm)
      as (ok & k & w' & E & Hw' & So).
    exists w'. split; [done|]. split; [done|]. destruct So as [S1 S2 S3 SF S4 S5 S6 S7 S8 S9 _ S11].
    unfold idle_sender, flags_follow, accounted in *. rewrite Es, ?Ec, ?Er in *.
    split; [done|]. split; [rewrite S4, S5; destruct ok; lia|]. split; [done|].
    intros F. destruct (S11 F) as [-> ->]. split; [done|]. lia.
  - exists w. split; [done|]. split; [done|]. unfold accounted. rewrite Es, Ec. split; [done|].
    split; [lia|]. split; [|done]. by apply flags_follow_refl.
Qed.

Lemma sender_turn_ok others owned w :
  sender_inv others owned w ->
  exists continue w', sender_turn interference w = (Ret continue, w') /\
    sender_inv others owned w' /\ turned w w' /\
    (running_ (sw_sender w) = false -> continue = false).
Proof.
  intros Hw. unfold sender_turn, load_running, read_flags, bind at 1, bind at 1, ret at 1. cbv beta iota zeta.
  destruct (interfere_same interference (sw_reads w) (sw_sender w)) as ((_ & _ & Hs) & E1 & E2 & E3).
  pose proof (flags_follow_read interference w (sw_queue w) (sw_pool w) (sw_conn w) (sw_slept w)) as Hfl.
  remember (mkSW (interfere interference (sw_reads w) (sw_sender w)) (sw_queue w) (sw_pool w) (sw_conn w)
              (S (sw_reads w)) (sw_slept w)) as w1 eqn:Hw1.
  assert (sender_inv others owned w1) as Hi1 by (subst w1; by apply (sender_inv_frame _ _ w)).
  assert (interfere interference (sw_reads w) (sw_sender w) = sw_sender w1) as Es by (by subst w1).
  assert (sw_queue w1 = sw_queue w /\ sw_conn w1 = sw_conn w /\ sw_reads w1 = S (sw_reads w)) as (Eq & Ec & Er)
    by (by subst w1). clear Hw1. rewrite Es in *.
  assert (accounted w1 = accounted w) as Ea by (unfold accounted; lia).
  assert (idle_sender w -> idle_sender w1) as Hidle.
  { intros [F|F]; [left; by apply Hs|right; by rewrite Ec]. }
  destruct (running_ (sw_sender w1)) eqn:Hrun; simpl.
  2: { exists false, w1. split; [done|]. split; [done|]. split; [|done]. split; try done.
       - unfold balance. by rewrite Ea, Eq.
       - lia. }
  destruct (tryPopMessage_ok others owned w1 Hi1) as (r & w2 & Ep & Es2 & Ep2 & Ec2 & Er2 & _ & Hr).
  unfold bind at 1. rewrite Ep.
  destruct (send_popped_ok others owned r w2 w1) as (w3 & E & Hi3 & Hq3 & Ha3 & Hf3 & Hid3); try done.
  { by destruct r; apply Hr. }
  { destruct r; [by apply Hr|done]. }
  unfold bind at 1. rewrite E. unfold load_shutdown, read_flags, bind at 1, bind at 1, ret at 1.
  cbv beta iota zeta.
  destruct (interfere_same interference (sw_reads w3) (sw_sender w3)) as (_ & E4 & E5 & _).
  pose proof (flags_follow_read interference w3 (sw_queue w3) (sw_pool w3) (sw_conn w3) (sw_slept w3)) as Hfl3.
  do 2 eexists. split; [reflexivity|]. split; [eapply sender_inv_frame; [| |exact Hi3]; reflexivity|].
  assert (forall F, running_ (sw_sender w) = false -> F) as Hno.
  { intros F HF. exfalso. apply Hs in HF. congruence. }
  split; [|by apply Hno]. split.
  - unfold balance, accounted in *. simpl. rewrite E4, E5, Hq3.
    destruct r as [a|]; [destruct Hr as (Hperm & _); rewrite Eq in Hperm; rewrite Hperm; simpl; lia|].
    destruct Hr as (Hn & _ & ->). rewrite Eq. lia.
  - eapply flags_follow_trans; [exact Hfl|]. eapply flags_follow_trans; [exact Hf3|done].
  - destruct Hf3. simpl. lia.
  - intros F. destruct (Hid3 (Hidle F)) as [Hc3 Hs3]. simpl. split; congruence.
Qed.

Lemma turned_idle w w' : turned w w' -> idle_sender w -> idle_sender w'.
Proof.
  intros [_ (_ & Tn & _) _ Ti] Hi. destruct (Ti Hi) as [Hc _].
  destruct Hi as [F|F]; [left; by apply Tn|right; by rewrite Hc].
Qed.

(** Once stopped, one more turn; until then, at most a turn per read before the stop. *)
Lemma sender_loop_ok fuel others owned n w :
  sender_inv others owned w ->
  (running_ (sw_sender w) = false /\ (0 < fuel)%nat) \/
  (interference n <> None /\ (sw_reads w <= n)%nat /\ (n + 1 < fuel + sw_reads w)%nat) ->
  exists w', sender_loop interference fuel w = (Ret tt, w') /\ sender_inv others owned w' /\
    oq_items (sw_queue w') = [] /\ balance w' = balance w /\
    (idle_sender w ->
       sw_conn w' = sw_conn w /\ total_sent_ (sw_sender w') = total_sent_ (sw_sender w)).
Proof.
  revert w. induction fuel as [|f IH]; intros w Hw Hstop; [lia|]. cbn [sender_loop].
  destruct (sender_turn_ok others owned w Hw) as (continue & w1 & E & Hw1 & Ht & Hend).
  unfold bind. rewrite E. pose proof (turned_idle _ _ Ht) as Hid.
  destruct Ht as [Tb (Tr & Tn & Tf) Tl Ti]. destruct continue.
  - destruct Hstop as [[F _]|(Hi & Hn & Hf)]; [by specialize (Hend F)|].
    destruct (IH w1 Hw1) as (w' & E' & Hw' & Hq & Hb & Hd).
    { destruct (decide (n < sw_reads w1)%nat) as [Hlt|Hge].
      - left. split; [apply (Tf n); [lia|done]|]. lia.
      - right. split; [done|]. lia. }
    exists w'. split; [done|]. split; [done|]. split; [done|]. split; [lia|].
    intros F. destruct (Ti F) as [Hc Hs], (Hd (Hid F)) as [Hc' Hs']. split; congruence.
  - destruct (drain_loop_ok interference (S (length (oq_items (sw_queue w1)))) others owned w1 Hw1)
      as (w' & E' & Hw' & Hq & Ha & Hd); [lia|].
    exists w'. split; [done|]. split; [done|]. split; [done|]. split.
    { unfold balance in *. rewrite Hq. simpl. lia. }
    intros F. destruct (Ti F) as [Hc Hs], (Hd (Hid F)) as [Hc' Hs']. split; congruence.
Qed.

(** * Properties *)

(** C28: [sendMessage] on a live message always returns and settles it exactly once: the message
    goes back to the pool, either [total_sent_] or [total_failed_] grows by one, at most
    [max_retries_] retries are made, the [i]-th after [i] times the base timeout (not
    exponential), and a message counted as sent was handed to [send] on a connection that
    was up (whatever [send] answered). *)
Theorem send_once others owned a m w :
  sender_inv others (a :: owned) w -> deref (sw_pool w) a = Some m ->
  exists ok k w', sendMessage interference (Some a) w = (Ret tt, w') /\
    sender_inv others owned w' /\ deref (sw_pool w') a = None /\ sw_queue w' = sw_queue w /\
    total_sent_ (sw_sender w') = total_sent_ (sw_sender w) + (if ok : bool then 1 else 0) /\
    total_failed_ (sw_sender w') = total_failed_ (sw_sender w) + (if ok then 0 else 1) /\
    total_retried_ (sw_sender w') = total_retried_ (sw_sender w) + Z.of_nat k /\
    (k <= max_retries_ (sw_sender w))%nat /\
    sw_slept w' = sw_slept w ++ map (fun i => base_timeout_ (sw_sender w) * Z.of_nat i) (seq 1 k) /\
    (ok = true -> exists c b, t_connected c = true /\ t_send (payload_ m) c = (Ret b, sw_conn w')).
Proof.
  intros Hw Hm. destruct (sendMessage_ok interference _ _ _ _ _ Hw Hm) as (ok & k & w' & E & Hw' & So).
  exists ok, k, w'. destruct So. by split_and!.
Qed.

(** C29: the sender's thread ends: when another thread stops it before the [n]-th read of its flags,
    the loop makes at most [n + 1] turns and the drain empties the queue; every message
    that was queued is then counted once as sent or failed and back in the pool. *)
Theorem sender_ends others owned n w :
  sender_inv others owned w -> interference n <> None -> (sw_reads w <= n)%nat ->
  exists w', sender_loop interference (n + 2) w = (Ret tt, w') /\ sender_inv others owned w' /\
    oq_items (sw_queue w') = [] /\
    total_sent_ (sw_sender w') + total_failed_ (sw_sender w') =
      total_sent_ (sw_sender w) + total_failed_ (sw_sender w) +
      Z.of_nat (length (oq_items (sw_queue w))) /\
    allocated_count_ (sw_pool w') = others + Z.of_nat (length owned).
Proof.
  intros Hw Hi Hn. destruct (sender_loop_ok (n + 2) others owned n w Hw)
    as (w' & E & Hw' & Hq & Hb & _); [right; split_and!; [done|done|lia]|].
  exists w'. split; [done|]. split; [done|]. split; [done|].
  unfold balance, accounted in Hb. rewrite Hq in Hb. split; [simpl in Hb; lia|].
  rewrite (si_count _ _ _ Hw'), Hq. done.
Qed.
End Loop.

(** Messages are lost when the sender is stopped or its TCP connection is used as the code
    uses it: after [stop], and on every connection object reachable through its interface
    (none is ever connected), the loop and its drain write nothing to the socket; every queued
    message is freed and counted as failed. *)
Lemma unsent_messages_discarded {Q W} `{OutQueue Q} `{Sockets W} interference others owned n w0
    (w : SenderWorld Q (TcpWorld W)) :
  sender_inv others owned w ->
  running_ (sw_sender w) = false \/
  (tcp_reach w0 (sw_conn w) /\ interference n <> None /\ (sw_reads w <= n)%nat) ->
  exists w', sender_loop interference (n + 2) w = (Ret tt, w') /\
    oq_items (sw_queue w') = [] /\ wire (sw_conn w') = wire (sw_conn w) /\
    total_sent_ (sw_sender w') = total_sent_ (sw_sender w) /\
    total_failed_ (sw_sender w') =
      total_failed_ (sw_sender w) + Z.of_nat (length (oq_items (sw_queue w))).
Proof.
  intros Hw Hi. destruct (sender_loop_ok interference (n + 2) others owned n w Hw)
    as (w' & E & Hw' & Hq & Hb & Hid).
  { destruct Hi as [F|(_ & Hi & Hn)]; [left; split; [done|lia]|right; split_and!; [done|done|lia]]. }
  destruct Hid as [Hc Hs].
  { destruct Hi as [F|(Hr & _)]; [by left|right]. by destruct (tcp_reach_down w0 (sw_conn w) Hr). }
  exists w'. split; [done|]. split; [done|]. split; [by rewrite Hc|]. split; [done|].
  unfold balance, accounted in Hb. rewrite Hq in Hb. simpl in Hb. lia.
Qed.

(** * Witnesses *)

(** A sender with the queue of the two sample messages, a third one in its hands, and a
    connection on which [connect] was called. *)
Definition sample_conn : TcpWorld bytes :=
  snd (run_call (CallConnect (str "localhost") 9878) (mkTcpWorld newTcp [] [])).
Definition sample_sender : SenderWorld (PriorityQueue (list Z)) (TcpWorld bytes) :=
  mkSW (sender_start newSender) (pw_pq sample_world) pool4 sample_conn 0 [].
Definition stop_at_five (n : nat) : option bool := if decide (n = 5)%nat then Some false else None.

Lemma sample_sender_inv : sender_inv 0 [4224] sample_sender.
Proof. destruct sample_inv as [H1 H2 H3 H4 H5 _]. by split. Qed.

Lemma send_once_witness :
  exists ok k w', sendMessage stop_at_five (Some 4224) sample_sender = (Ret tt, w') /\
    sender_inv 0 [] w' /\ (k <= 3)%nat /\ ok = false.
Proof.
  destruct (send_once stop_at_five 0 [] 4224 (text_message HIGH) sample_sender sample_sender_inv eq_refl)
    as (ok & k & w' & E & Hi & _ & _ & Hs & _ & _ & Hk & _).
  exists ok, k, w'. split; [exact E|]. split; [exact Hi|]. split; [exact Hk|].
  destruct ok; [|reflexivity]. exfalso. vm_compute in E. injection E as <-. vm_compute in Hs. discriminate.
Defined.

Lemma sender_ends_witness :
  exists w', sender_loop stop_at_five 7 sample_sender = (Ret tt, w') /\ allocated_count_ (sw_pool w') = 1.
Proof.
  destruct (sender_ends stop_at_five 0 [4224] 5 sample_sender sample_sender_inv) as (w' & E & _ & _ & _ & Hc);
    [discriminate|apply Nat.le_0_l|].
  exists w'. split; [exact E|exact Hc].
Defined.

Lemma unsent_messages_discarded_witness :
  exists w', sender_loop stop_at_five 7 sample_sender = (Ret tt, w') /\
    wire (sw_conn w') = [] /\ total_failed_ (sw_sender w') = 2.
Proof.
  destruct (unsent_messages_discarded stop_at_five 0 [4224] 5 [] sample_sender sample_sender_inv)
    as (w' & E & _ & Hw & _ & Hf).
  - right. split; [apply reach_call, reach_new|]. split; [discriminate|apply Nat.le_0_l].
  - exists w'. split; [exact E|]. split; [exact Hw|exact Hf].
Defined.
