(* ===== verification/AsyncSenderManager.v ===== *)
(** [manager::AsyncSenderManager] and its factory ([async_sender_manager.h],
    [async_sender_manager.cpp]): one queue and one sender per priority over a shared
    connection, their creation, start, stop and shutdown, and the entry point for outbound
    messages.

    The maps keyed by priority are functions.  Thread affinity, scheduling class and
    real-time priority are requests to the operating system whose results are only
    printed; they are in [ThreadSetup], and the statistics in [Summaries]. *)
From S2P Require Import Prelude FixFields LockFreeQueue QueueInterface MessagePool PriorityQueues OutboundMessage MutexQueue MutexQueueProperties TcpConnection AsyncSender SenderProperties.
Import Outbound.

(** [enum class QueueType] *)
Inductive QueueType := MUTEX_BASED | LOCK_FREE.

(** [getQueueTypeString] *)
Definition queueTypeString (t : QueueType) : bytes :=
  match t with MUTEX_BASED => str "MUTEX_BASED" | LOCK_FREE => str "LOCK_FREE" end.

(** [struct CorePinningConfig] *)
Record CorePinningConfig := mkPinning {
  critical_core : Z; high_core : Z; medium_core : Z; low_core : Z;
  enable_core_pinning : bool; enable_real_time_priority : bool;
  queue_type : QueueType;
  critical_queue_size : Z; high_queue_size : Z; medium_queue_size : Z; low_queue_size : Z
}.

(** The default member initialisers, and the configurations of the factory *)
Definition pinning_defaults : CorePinningConfig :=
  mkPinning 0 1 2 3 true false MUTEX_BASED 1024 2048 4096 8192.
Definition with_sizes (c h m l : Z) (g : CorePinningConfig) : CorePinningConfig :=
  mkPinning (critical_core g) (high_core g) (medium_core g) (low_core g) (enable_core_pinning g)
    (enable_real_time_priority g) (queue_type g) c h m l.
Definition with_options (pinning real_time : bool) (t : QueueType) (g : CorePinningConfig) : CorePinningConfig :=
  mkPinning (critical_core g) (high_core g) (medium_core g) (low_core g) pinning real_time t
    (critical_queue_size g) (high_queue_size g) (medium_queue_size g) (low_queue_size g).
Definition createM1MaxConfig : CorePinningConfig := with_sizes 512 1024 2048 4096 pinning_defaults.
Definition createIntelConfig : CorePinningConfig := pinning_defaults.
Definition createDefaultConfig : CorePinningConfig := with_options false false MUTEX_BASED pinning_defaults.
Definition createLowLatencyConfig : CorePinningConfig :=
  with_options true true MUTEX_BASED (with_sizes 256 512 1024 2048 createM1MaxConfig).
Definition createHighThroughputConfig : CorePinningConfig :=
  with_sizes 2048 4096 8192 16384 createM1MaxConfig.
Definition createLockFreeConfig : CorePinningConfig :=
  with_options false false LOCK_FREE (with_sizes 512 1024 2048 4096 createDefaultConfig).
Definition createLockFreeM1MaxConfig : CorePinningConfig :=
  with_options true true LOCK_FREE (with_sizes 256 512 1024 2048 createM1MaxConfig).

(** [getOptimalCoreAssignment], for the number of cores [detectPerformanceCores] reports *)
Definition getOptimalCoreAssignment (num_cores : Z) : list Z :=
  map Z.of_nat (seq 0 (Z.to_nat (Z.min 4 num_cores))).

(** [getQueueSizeForPriority], [getCoreForPriority] *)
Definition getQueueSizeForPriority (g : CorePinningConfig) (p : Priority) : Z :=
  match p with
  | CRITICAL => critical_queue_size g
  | HIGH => high_queue_size g
  | MEDIUM => medium_queue_size g
  | LOW => low_queue_size g
  end.

(** [std::unordered_map<Priority, X>] *)
Definition pmap (X : Type) := Priority -> option X.
Definition pmap_empty {X} : pmap X := fun _ => None.
Definition pmap_set {X} (p : Priority) (x : X) (m : pmap X) : pmap X :=
  fun p' => if decide (p' = p) then Some x else m p'.

(** The members of the class; [C] is the connection object. *)
Record AsyncSenderManager (H C : Type) := mkManager {
  config_ : CorePinningConfig;
  tcp_connection_ : option C;
  priority_queues_ : pmap (PriorityQueue H);
  lockfree_queues_ : pmap (LockFreeQueue Z);
  async_senders_ : pmap AsyncSender;
  priority_to_core_ : pmap Z;
  am_running_ : bool;
  am_shutdown_requested_ : bool
}.
Arguments mkManager {H C}. Arguments config_ {H C}. Arguments tcp_connection_ {H C}.
Arguments priority_queues_ {H C}. Arguments lockfree_queues_ {H C}. Arguments async_senders_ {H C}.
Arguments priority_to_core_ {H C}. Arguments am_running_ {H C}. Arguments am_shutdown_requested_ {H C}.

Section Operations.
Context {H W : Type} `{MaxHeap H} `{Sockets W}.
Implicit Types m : AsyncSenderManager H TcpConnection.

(** The constructors *)
Definition newManager (g : CorePinningConfig) : AsyncSenderManager H TcpConnection :=
  mkManager g None pmap_empty pmap_empty pmap_empty
    (pmap_set CRITICAL (critical_core g) (pmap_set HIGH (high_core g)
      (pmap_set MEDIUM (medium_core g) (pmap_set LOW (low_core g) pmap_empty)))) false false.
Definition newDefaultManager : AsyncSenderManager H TcpConnection := newManager pinning_defaults.

Definition getCoreForPriority m (p : Priority) : Z := default 0 (priority_to_core_ m p).

(** [setCoreAffinity], [setRealTimePriority] *)
Definition setCoreAffinity (p : Priority) (core_id : Z) m :=
  mkManager (config_ m) (tcp_connection_ m) (priority_queues_ m) (lockfree_queues_ m) (async_senders_ m)
    (pmap_set p core_id (priority_to_core_ m)) (am_running_ m) (am_shutdown_requested_ m).
Definition setRealTimePriority (p : Priority) (enable : bool) m :=
  mkManager (with_options (enable_core_pinning (config_ m)) enable (queue_type (config_ m)) (config_ m))
    (tcp_connection_ m) (priority_queues_ m) (lockfree_queues_ m) (async_senders_ m)
    (priority_to_core_ m) (am_running_ m) (am_shutdown_requested_ m).

(** [createTcpConnection] *)
Definition createTcpConnection m :=
  mkManager (config_ m) (Some newTcp) (priority_queues_ m) (lockfree_queues_ m) (async_senders_ m)
    (priority_to_core_ m) (am_running_ m) (am_shutdown_requested_ m).

Definition queue_name (p : Priority) (suffix : string) : bytes :=
  match p with
  | CRITICAL => str "critical" | HIGH => str "high" | MEDIUM => str "medium" | LOW => str "low"
  end ++ str suffix.

(** [createQueuesAndSenders]: the four queues of the configured kind, and a sender for
    every queue of that kind *)
Definition createQueuesAndSenders m :=
  let g := config_ m in
  match queue_type g with
  | MUTEX_BASED =>
      mkManager g (tcp_connection_ m)
        (fun p => Some (newPriorityQueue (getQueueSizeForPriority g p) DROP_OLDEST (queue_name p "_queue")))
        (lockfree_queues_ m) (fun _ => Some newSender) (priority_to_core_ m) (am_running_ m)
        (am_shutdown_requested_ m)
  | LOCK_FREE =>
      mkManager g (tcp_connection_ m) (priority_queues_ m)
        (fun p => Some (newQueue 0 (getQueueSizeForPriority g p) (queue_name p "_lockfree_queue")))
        (fun _ => Some newSender) (priority_to_core_ m) (am_running_ m) (am_shutdown_requested_ m)
  end.

Definition with_senders (f : AsyncSender -> AsyncSender) m :=
  mkManager (config_ m) (tcp_connection_ m) (priority_queues_ m) (lockfree_queues_ m)
    (fun p => f <$> async_senders_ m p) (priority_to_core_ m) (am_running_ m) (am_shutdown_requested_ m).
Definition with_running (running requested : bool) m :=
  mkManager (config_ m) (tcp_connection_ m) (priority_queues_ m) (lockfree_queues_ m) (async_senders_ m)
    (priority_to_core_ m) running requested.

(** [startAsyncSenders], [stopAsyncSenders] *)
Definition startAsyncSenders m := with_senders sender_start m.
Definition stopAsyncSenders m := with_senders (fun s => if running_ s then sender_stop s else s) m.

(** [start] *)
Definition manager_start m :=
  if am_running_ m then m
  else with_running true (am_shutdown_requested_ m)
         (startAsyncSenders (createQueuesAndSenders (createTcpConnection m))).

(** An operation on the connection object, with the operating system and the callbacks *)
Definition on_connection {A} (f : M (TcpWorld W) A) (none : A) m (w : W) (events : list tcp_event)
    : outcome A * (AsyncSenderManager H TcpConnection * W * list tcp_event) :=
  match tcp_connection_ m with
  | None => (Ret none, (m, w, events))
  | Some c =>
      let '(r, s) := f (mkTcpWorld c w events) in
      (r, (mkManager (config_ m) (Some (tw_tcp s)) (priority_queues_ m) (lockfree_queues_ m)
             (async_senders_ m) (priority_to_core_ m) (am_running_ m) (am_shutdown_requested_ m),
           tw_os s, tw_events s))
  end.

(** [stop] *)
Definition manager_stop m (w : W) (events : list tcp_event) :=
  if am_running_ m then
    on_connection tcp_disconnect tt (stopAsyncSenders (with_running false (am_shutdown_requested_ m) m)) w events
  else (Ret tt, (m, w, events)).

(** [shutdown]: the queues, the senders and the connection are given up. *)
Definition manager_shutdown m (w : W) (events : list tcp_event)
    : outcome unit * (AsyncSenderManager H TcpConnection * W * list tcp_event) :=
  let '(r, (m', w', events')) := manager_stop (with_running (am_running_ m) true m) w events in
  (r, (mkManager (config_ m') None pmap_empty pmap_empty pmap_empty (priority_to_core_ m')
         (am_running_ m') false, w', events')).

(** [isConnected], [connectToServer], [disconnectFromServer] *)
Definition manager_isConnected m : bool :=
  match tcp_connection_ m with Some c => connected_ c | None => false end.
Definition connectToServer (host : bytes) (port : Z) m (w : W) (events : list tcp_event) :=
  on_connection (tcp_connect host port) false
    (match tcp_connection_ m with None => createTcpConnection m | Some _ => m end) w events.
Definition disconnectFromServer m (w : W) (events : list tcp_event) :=
  on_connection tcp_disconnect tt m w events.

(** [getAsyncSenderForPriority] and its four abbreviations, [areAllCoresConnected] *)
Definition getAsyncSenderForPriority m (p : Priority) : option AsyncSender := async_senders_ m p.
Definition areAllCoresConnected m : bool :=
  manager_isConnected m &&
  forallb (fun p => match async_senders_ m p with Some s => running_ s | None => true end)
    [CRITICAL; HIGH; MEDIUM; LOW].

(** [getQueueSize], [getQueueDepths] *)
Definition getQueueSize m (p : Priority) : Z :=
  match queue_type (config_ m) with
  | MUTEX_BASED => match priority_queues_ m p with Some q => pq_size q | None => 0 end
  | LOCK_FREE => match lockfree_queues_ m p with Some q => size q | None => 0 end
  end.
Definition getQueueDepths m : list Z := map (getQueueSize m) [CRITICAL; HIGH; MEDIUM; LOW].

(** ** Sending *)
Variable clock : nat -> Z.

(** The manager with the message pool and the number of clock readings *)
Record ManagerWorld := mkMW {
  mw_manager : AsyncSenderManager H TcpConnection;
  mw_pool : MessagePool Message;
  mw_ticks : nat
}.

Definition put_pq (p : Priority) (q : PriorityQueue H) m :=
  mkManager (config_ m) (tcp_connection_ m) (pmap_set p q (priority_queues_ m)) (lockfree_queues_ m)
    (async_senders_ m) (priority_to_core_ m) (am_running_ m) (am_shutdown_requested_ m).
Definition put_lf (p : Priority) (q : LockFreeQueue Z) m :=
  mkManager (config_ m) (tcp_connection_ m) (priority_queues_ m) (pmap_set p q (lockfree_queues_ m))
    (async_senders_ m) (priority_to_core_ m) (am_running_ m) (am_shutdown_requested_ m).

(** [pushToQueue] *)
Definition pushToQueue (p : Priority) (a : Z) : M ManagerWorld bool :=
  fun s =>
    let m := mw_manager s in
    match queue_type (config_ m) with
    | MUTEX_BASED =>
        match priority_queues_ m p with
        | Some q =>
            let '(r, w) := pq_push clock (Some a) (mkPqWorld q (mw_pool s) (mw_ticks s)) in
            (r, mkMW (put_pq p (pw_pq w) m) (pw_pool w) (pw_ticks w))
        | None => (Ret false, s)
        end
    | LOCK_FREE =>
        match lockfree_queues_ m p with
        | Some q =>
            let '(b, q') := q_push a q in
            (Ret b, mkMW (put_lf p q' m) (mw_pool s) (mw_ticks s))
        | None => (Ret false, s)
        end
    end.

(** [sendMessage]: a message the queue refused is destroyed. *)
Definition manager_send (message : option Z) (p : Priority) : M ManagerWorld bool :=
  fun s =>
    if negb (am_running_ (mw_manager s)) then (Ret false, s)
    else
      match message with
      | None => (Ret false, s)
      | Some a =>
          (success <-- pushToQueue p a ;;
           if success : bool then ret true
           else (fun s' => (Ret false, mkMW (mw_manager s') (deallocate (Some a) (mw_pool s')) (mw_ticks s')))) s
      end.
End Operations.

(** * Lemmas *)

(** A slot freed twice is handed out twice. *)
Lemma double_free_double_allocation {T} (x y : T) a (p : MessagePool T) o :
  pool_wf p -> pool_is_shutdown_ p = false -> deref p a = Some o ->
  let p' := deallocate (Some a) (deallocate (Some a) p) in
  fst (allocate x p') = Some a /\ fst (allocate y (snd (allocate x p'))) = Some a.
Proof.
  intros Hw Hs Hd. pose proof (pw_bytes _ Hw) as Hb.
  destruct (deref_live a p o Hb Hd) as (i & -> & Hi). pose proof (lookup_lt_Some _ _ _ Hi) as Hlt.
  destruct (deallocate_live i p Hw) as (E1 & _ & E2 & E3 & E4 & E5 & E6 & E7 & Hw1); [by exists o|].
  set (a := addr_of p (Z.of_nat i)) in *.
  set (p1 := deallocate (Some a) p) in *. clearbody p1.
  assert (slot_of p1 a = Some (Z.of_nat i)) as Ha.
  { replace a with (addr_of p1 (Z.of_nat i)) by (unfold a, addr_of; congruence).
    apply slot_of_addr; [lia|]. rewrite <- (pw_slots _ Hw1), E1, length_insert. lia. }
  unfold deallocate, destroy, deallocateRaw. rewrite Ha.
  match goal with |- context [slot_of ?q a] => replace (slot_of q a) with (Some (Z.of_nat i)) by (rewrite <- Ha; done) end.
  assert (wrap32 (Z.of_nat i) = Z.of_nat i) as Ei.
  { apply wrap32_id. pose proof (pw_size _ Hw). pose proof (pw_slots _ Hw). unfold int32_range. lia. }
  rewrite !Ei. cbn zeta. unfold allocate. cbn [pool_is_shutdown_]. rewrite E7, Hs. unfold allocateRaw.
  cbn [free_list_head_ free_list_nodes_ pool_is_shutdown_ pool_slots_].
  destruct (Z.leb_spec 0 (Z.of_nat i)); [|lia]. cbn [fst snd free_list_head_ pool_is_shutdown_ free_list_nodes_].
  rewrite ?E7, ?Hs, Nat2Z.id, E2, E3.
  rewrite list_lookup_insert_eq by (rewrite length_insert, (pw_nodes _ Hw); lia). cbn [default from_option id].
  destruct (Z.leb_spec 0 (Z.of_nat i)); [|lia]. cbn [fst snd].
  unfold a, addr_of in *. cbn [pool_start_ slot_bytes_]. rewrite E5, E6. done.
Qed.

Section Sending.
Context {H : Type} {MH : MaxHeap H}.
Variable clock : nat -> Z.
Implicit Types s : ManagerWorld (H := H).

(** The queue of [p] with the pool *)
Definition pq_view (q : PriorityQueue H) s : PqWorld H := mkPqWorld q (mw_pool s) (mw_ticks s).

(** The lock-free queue of [p]: its messages and [owned] are live and different. *)
Record lf_inv (others : Z) (owned : list Z) (q : LockFreeQueue Z) (pool : MessagePool Message) : Prop := {
  lf_pool : pool_wf pool;
  lf_queue : q_wf q /\ q_open q = true;
  lf_nodup : NoDup (q_items q ++ owned);
  lf_live : forall a, a ∈ q_items q ++ owned -> is_Some (deref pool a);
  lf_count : allocated_count_ pool = others + Z.of_nat (length (q_items q ++ owned))
}.

Lemma lf_push others owned a q q' pool :
  lf_inv others (a :: owned) q pool -> q_wf q' -> q_open q' = true -> q_items q' = q_items q ++ [a] ->
  lf_inv others owned q' pool.
Proof.
  intros [H1 H2 H3 H4 H5] Hw Ho Hi.
  assert (q_items q' ++ owned = q_items q ++ a :: owned) as E by (by rewrite Hi, <- app_assoc).
  split; try done; by rewrite E.
Qed.

Lemma lf_refuse others owned a q q' pool :
  lf_inv others (a :: owned) q pool -> q_wf q' -> q_open q' = true -> q_items q' = q_items q ->
  lf_inv others owned q' (deallocate (Some a) pool) /\ deref (deallocate (Some a) pool) a = None.
Proof.
  intros [H1 H2 H3 H4 H5] Hw Ho Hi. destruct (H4 a) as [o Hd]; [set_solver|].
  destruct (deallocate_deref a pool o H1 Hd) as (Hw' & Hn & Hsame & Hc). split; [|done].
  rewrite <- Permutation_middle in H3. apply NoDup_cons in H3 as [Hna Hnd].
  split; rewrite ?Hi; try done.
  - intros b Hb. rewrite Hsame; [apply H4; set_solver|]. by intros ->.
  - rewrite Hc, H5, !length_app. simpl. lia.
Qed.

Lemma manager_send_run a p s :
  am_running_ (mw_manager s) = true ->
  manager_send clock (Some a) p s =
    match pushToQueue clock p a s with
    | (Ret true, s') => (Ret true, s')
    | (Ret false, s') => (Ret false, mkMW (mw_manager s') (deallocate (Some a) (mw_pool s')) (mw_ticks s'))
    | (Throw, s') => (Throw, s') | (Ub, s') => (Ub, s') | (NoFuel, s') => (NoFuel, s')
    end.
Proof.
  intros Hr. unfold manager_send. rewrite Hr. cbn [negb]. unfold bind.
  by destruct (pushToQueue clock p a s) as [[[]| | |] s'].
Qed.

Lemma lockfree_send others owned a p s q :
  am_running_ (mw_manager s) = true -> queue_type (config_ (mw_manager s)) = LOCK_FREE ->
  lockfree_queues_ (mw_manager s) p = Some q -> lf_inv others (a :: owned) q (mw_pool s) ->
  exists b s' q', manager_send clock (Some a) p s = (Ret b, s') /\
    lockfree_queues_ (mw_manager s') p = Some q' /\ lf_inv others owned q' (mw_pool s') /\
    if b : bool then q_items q' = q_items q ++ [a]
    else q_items q' = q_items q /\ deref (mw_pool s') a = None.
Proof.
  intros Hr Ht Hq Hi. rewrite manager_send_run by done. unfold pushToQueue. rewrite Ht, Hq.
  pose proof (lf_queue _ _ _ _ Hi) as [Hw Ho].
  assert (forall q', lockfree_queues_ (put_lf p q' (mw_manager s)) p = Some q') as Hl.
  { intros q'. unfold put_lf, pmap_set. simpl. by rewrite decide_True. }
  destruct (decide (q_space q = O)) as [Hf|Hf].
  - destruct (q_push_full a q Hw (or_intror Hf)) as (q' & -> & Hw' & Ho' & Hi' & _).
    rewrite Ho in Ho'. destruct (lf_refuse _ _ _ _ q' _ Hi Hw' Ho' Hi') as [Hinv Hn].
    exists false. do 2 eexists. split; [reflexivity|]. split; [apply Hl|]. by split.
  - destruct (q_push_ok a q Hw Ho Hf) as (q' & -> & Hw' & Ho' & Hi' & _).
    exists true. do 2 eexists. split; [reflexivity|]. split; [apply Hl|].
    split; [by eapply lf_push|done].
Qed.

(** A queue for no messages refuses and frees the message. *)
Lemma push_into_nothing others owned a w :
  pq_inv others (a :: owned) w -> pq_is_shutdown_ (pw_pq w) = false ->
  overflow_policy_ (pw_pq w) = DROP_OLDEST -> max_size_ (pw_pq w) <= 0 ->
  exists w' t, pq_push clock (Some a) w = (Ret false, w') /\
    pw_pool w' = deallocate (Some a) (update_object (setQueueEntryTime t) a (pw_pool w)).
Proof.
  intros Hw Hs Hp Hm. pose proof (inv_room _ _ _ Hw) as Hr.
  assert (pq_items w = []) as Hn.
  { rewrite pq_size_items in Hr. destruct (pq_items w); [done|]. simpl in Hr. lia. }
  assert (pq_empty (pw_pq w) = true) as He by (by apply empty_items).
  assert (pq_size (pw_pq w) = 0) as Hz by (by rewrite pq_size_items, Hn).
  destruct (inv_live _ _ _ Hw a) as [o Ho]; [set_solver|].
  unfold pq_push, push_begin, get_pq, pq_now, on_message, bind. simpl. rewrite Hs. simpl. rewrite Ho. simpl.
  unfold push_locked, get_pq, bind. simpl. rewrite Hz, Hp.
  destruct (Z.leb_spec (max_size_ (pw_pq w)) 0); [|lia].
  unfold handleOverflow, get_pq, bind. simpl. rewrite Hp, He. simpl. eauto.
Qed.

Lemma mutex_send others owned a p s q :
  am_running_ (mw_manager s) = true -> pool_is_shutdown_ (mw_pool s) = false ->
  queue_type (config_ (mw_manager s)) = MUTEX_BASED ->
  priority_queues_ (mw_manager s) p = Some q -> pq_inv others (a :: owned) (pq_view q s) ->
  pq_is_shutdown_ q = false -> overflow_policy_ q = DROP_OLDEST ->
  exists b s' q', manager_send clock (Some a) p s = (Ret b, s') /\
    priority_queues_ (mw_manager s') p = Some q' /\
    if b : bool then pq_inv others owned (pq_view q' s') /\ a ∈ heap_elems (queue_ q')
    else max_size_ q <= 0 /\
         forall x y, fst (allocate x (mw_pool s')) = Some a /\
                     fst (allocate y (snd (allocate x (mw_pool s')))) = Some a.
Proof.
  intros Hr Hsd Ht Hq Hi Hs Hp. rewrite manager_send_run by done. unfold pushToQueue. rewrite Ht, Hq.
  fold (pq_view q s).
  assert (forall q' : PriorityQueue H, priority_queues_ (put_pq p q' (mw_manager s)) p = Some q') as Hl.
  { intros q'. unfold put_pq, pmap_set. simpl. by rewrite decide_True. }
  destruct (decide (max_size_ q <= 0)) as [Hz|Hz].
  - destruct (push_into_nothing others owned a (pq_view q s) Hi Hs Hp Hz) as (w' & t & -> & Hpool).
    exists false. do 2 eexists. split; [reflexivity|]. split; [apply Hl|]. split; [done|]. intros x y. simpl.
    destruct (inv_live _ _ _ Hi a) as [o Ho]; [set_solver|]. rewrite Hpool.
    eapply double_free_double_allocation.
    + apply update_object_wf, Hi.
    + by rewrite (proj2 (proj2 (proj2 (update_object_same _ _ _)))).
    + rewrite update_object_deref, Ho. reflexivity.
  - destruct (proj1 (wp_run _ _ _) (pq_push_wp clock a others owned (pq_view q s) Hi Hs))
      as (b & w' & -> & Hi' & _ & He).
    destruct b.
    + exists true. do 2 eexists. split; [reflexivity|]. split; [apply Hl|]. split; [by destruct w'|].
      destruct He as [[_ Ha]|(_ & _ & y & _ & _ & rest & _ & Ha)]; unfold added, pq_items in Ha; rewrite Ha; set_solver.
    + exfalso. destruct He as (Hf & _ & Hn). specialize (Hn Hp). unfold full in Hf.
      rewrite pq_size_items, Hn in Hf. simpl in Hf. lia.
Qed.

(** The state after [Message::destroy] of a message that found no queue *)
Definition destroyed (a : Z) s : ManagerWorld :=
  mkMW (mw_manager s) (deallocate (Some a) (mw_pool s)) (mw_ticks s).

(** The queues of a manager that was just started are open and drop on overflow. *)
Lemma started_queues g p :
  let m := manager_start (newManager (H := H) g) in
  am_running_ m = true /\
  match queue_type g with
  | MUTEX_BASED => exists q, priority_queues_ m p = Some q /\ pq_is_shutdown_ q = false /\
      overflow_policy_ q = DROP_OLDEST /\ max_size_ q = getQueueSizeForPriority g p
  | LOCK_FREE => exists q, lockfree_queues_ m p = Some q /\ q_open q = true
  end.
Proof.
  unfold manager_start, createQueuesAndSenders. cbn. split; [by destruct (queue_type g)|].
  destruct (queue_type g); cbn; by eexists.
Qed.

(** C31: what becomes of a message handed to [sendMessage].  A manager that is not running
    refuses it and does nothing: the message stays the caller's.  A running one settles it:
    without a queue for the priority it is freed; a lock-free queue takes it at its end, or
    it is freed exactly once; a mutex-based queue as the manager creates it (open, dropping
    on overflow) takes it whenever it has room for a message at all; with a configured size
    of 0 the queue and the manager both destroy it, which is undefined behaviour, and the
    pool then hands out its slot to two owners. *)
Theorem manager_send_settles others owned a p s :
  (am_running_ (mw_manager s) = false -> manager_send clock (Some a) p s = (Ret false, s)) /\
  (am_running_ (mw_manager s) = true ->
   match queue_type (config_ (mw_manager s)) with
   | MUTEX_BASED =>
       match priority_queues_ (mw_manager s) p with
       | None => manager_send clock (Some a) p s = (Ret false, destroyed a s)
       | Some q =>
           pool_is_shutdown_ (mw_pool s) = false -> pq_inv others (a :: owned) (pq_view q s) ->
           pq_is_shutdown_ q = false -> overflow_policy_ q = DROP_OLDEST ->
           exists b s' q', manager_send clock (Some a) p s = (Ret b, s') /\
             priority_queues_ (mw_manager s') p = Some q' /\
             if b : bool then pq_inv others owned (pq_view q' s') /\ a ∈ heap_elems (queue_ q')
             else max_size_ q <= 0 /\
                  forall x y, fst (allocate x (mw_pool s')) = Some a /\
                              fst (allocate y (snd (allocate x (mw_pool s')))) = Some a
       end
   | LOCK_FREE =>
       match lockfree_queues_ (mw_manager s) p with
       | None => manager_send clock (Some a) p s = (Ret false, destroyed a s)
       | Some q =>
           lf_inv others (a :: owned) q (mw_pool s) ->
           exists b s' q', manager_send clock (Some a) p s = (Ret b, s') /\
             lockfree_queues_ (mw_manager s') p = Some q' /\ lf_inv others owned q' (mw_pool s') /\
             if b then q_items q' = q_items q ++ [a]
             else q_items q' = q_items q /\ deref (mw_pool s') a = None
       end
   end).
Proof.
  split; [intros Hr; unfold manager_send; by rewrite Hr|]. intros Hr.
  destruct (queue_type (config_ (mw_manager s))) eqn:Ht.
  - destruct (priority_queues_ (mw_manager s) p) as [q|] eqn:Hq; [intros; by eapply mutex_send|].
    rewrite manager_send_run by done. unfold pushToQueue. by rewrite Ht, Hq.
  - destruct (lockfree_queues_ (mw_manager s) p) as [q|] eqn:Hq; [intros; by eapply lockfree_send|].
    rewrite manager_send_run by done. unfold pushToQueue. by rewrite Ht, Hq.
Qed.
End Sending.

(** * Witnesses *)

(** A running manager with the default configuration and the sample pool: the queue is
    empty and a CRITICAL message comes. *)
Definition sample_manager : ManagerWorld (H := list Z) :=
  mkMW (manager_start (newManager createDefaultConfig)) pool4 0.

Lemma sample_manager_inv :
  pq_inv 2 [4096] (pq_view (newPriorityQueue 1024 DROP_OLDEST (str "critical_queue")) sample_manager).
Proof.
  split; [apply pool4_wf|apply (heap_empty_ok (H := list Z))| | |reflexivity|vm_compute; discriminate].
  - apply (bool_decide_unpack _). vm_compute. exact I.
  - intros a Ha. apply list_elem_of_singleton in Ha as ->. vm_compute. eauto.
Qed.

(** The same manager before [start] leaves the message alone. *)
Lemma manager_send_settles_witness :
  (exists b s' q', manager_send zero_clock (Some 4096) CRITICAL sample_manager = (Ret b, s') /\
    priority_queues_ (mw_manager s') CRITICAL = Some q' /\ b = true) /\
  let idle := mkMW (newManager createDefaultConfig) pool4 0 in
  manager_send (H := list Z) zero_clock (Some 4096) CRITICAL idle = (Ret false, idle).
Proof.
  split.
  - destruct (manager_send_settles zero_clock 2 [] 4096 CRITICAL sample_manager) as [_ Hm].
    destruct (Hm eq_refl eq_refl sample_manager_inv eq_refl eq_refl) as (b & s' & q' & E & Hq & Hb).
    exists b, s', q'. split; [exact E|]. split; [exact Hq|]. destruct b; [reflexivity|].
    exfalso. destruct Hb as [Hz _]. vm_compute in Hz. by apply Hz.
  - apply (manager_send_settles zero_clock 2 []). reflexivity.
Defined.
