(* ===== verification/ThreadSetup.v ===== *)
(** How the sending threads and the gap thread are configured: the part of
    [AsyncSenderManager] that asks the operating system for processor affinity,
    scheduling classes and real-time priority ([startAsyncSenders],
    [pinThreadToCore], [setThreadQoSClass], [setThreadRealTimePriority]), the
    capabilities the factory reports, and [SequenceNumGapManager::setCpuAffinity].

    The answers of the system are the interface [ThreadControl]; a computation
    extends a trace of the requests made and the lines printed.  Both branches of
    the conditional compilation are modelled, chosen by the predefined macros of
    [Platform]. *)
From S2P Require Import Prelude FixFields PriorityQueues OutboundMessage MutexQueue TcpConnection AsyncSender AsyncSenderManager Platform.

(** [kern_return_t]: the values the code distinguishes. *)
Inductive kern_return :=
| KERN_SUCCESS | KERN_INVALID_ARGUMENT | KERN_INVALID_POLICY | KERN_NOT_SUPPORTED
| KERN_FAILURE | KERN_RESOURCE_SHORTAGE | KERN_OTHER (code : Z).
(** Their numbers in [mach/kern_return.h]. *)
Definition kern_code (k : kern_return) : Z :=
  match k with
  | KERN_SUCCESS => 0 | KERN_INVALID_ARGUMENT => 4 | KERN_FAILURE => 5
  | KERN_RESOURCE_SHORTAGE => 6 | KERN_NOT_SUPPORTED => 46 | KERN_INVALID_POLICY => 51
  | KERN_OTHER code => code
  end.

Inductive qos_class := USER_INTERACTIVE | USER_INITIATED | QOS_DEFAULT.
(** Their numbers in [sys/qos.h]. *)
Definition qos_code (q : qos_class) : Z :=
  match q with USER_INTERACTIVE => 33 | USER_INITIATED => 25 | QOS_DEFAULT => 21 end.
(** [QOS_MIN_RELATIVE_PRIORITY] of [sys/qos.h]. *)
Definition QOS_MIN_RELATIVE_PRIORITY : Z := -15.

(** A request names the thread it is about ([None] for the calling thread). *)
Inductive request :=
| SetAffinity (thread : option Priority) (mask : list Z)
| SetSchedFifo (thread : Priority) (sched_priority : Z)
| MachAffinity (thread : Priority) (tag : Z)
| MachTimeConstraint (thread : Priority) (period computation constraint : Z)
| QosSelf (class : qos_class) (relative_priority : Z).

Inductive event := Asked (r : request) | Printed (line : bytes) | PrintedErr (line : bytes).

(** What the system answers. *)
Class ThreadControl := {
  setaffinity : option Priority -> list Z -> Z;
  setschedparam : Priority -> Z -> Z;
  mach_affinity : Priority -> Z -> kern_return;
  mach_time_constraint : Priority -> Z -> Z -> Z -> kern_return;
  qos_self : qos_class -> Z -> Z;
  strerror : Z -> bytes
}.

Abbreviation T := (M (list event)).
Definition emit (e : event) : T unit := modify (fun tr => tr ++ [e]).
Definition tag_line (s : bytes) : bytes := str "[AsyncSenderManager] " ++ s.
Definition say (s : bytes) : T unit := emit (Printed (tag_line s)).
Definition complain (s : bytes) : T unit := emit (PrintedErr (tag_line s)).

(** [CPU_ZERO; CPU_SET(core)]: a core the set cannot hold is ignored. *)
Definition CPU_SETSIZE : Z := 1024.
Definition cpu_mask (core : Z) : list Z :=
  if (0 <=? core) && (core <? CPU_SETSIZE) then [core] else [].

Section Setup.
Context `{TC : ThreadControl} (mc : macros).

(** The class and relative priority for a core. *)
Definition qos_for_core (core_id : Z) : qos_class * Z :=
  if core_id =? 0 then (USER_INTERACTIVE, QOS_MIN_RELATIVE_PRIORITY)
  else if core_id =? 1 then (USER_INTERACTIVE, -10)
  else if core_id =? 2 then (USER_INITIATED, 0)
  else (QOS_DEFAULT, 0).

(** [setThreadQoSClass(thread, core_id)]: the request is about the calling thread. *)
Definition setThreadQoSClass (thread : Priority) (core_id : Z) : T bool :=
  if APPLE mc then
    let '(class, relative_priority) := qos_for_core core_id in
    emit (Asked (QosSelf class relative_priority)) ;;;
    let result := qos_self class relative_priority in
    if result =? 0 then
      say (str "Set QoS class for core " ++ to_string core_id ++ str " (QoS: " ++
           to_string (qos_code class) ++ str ", priority: " ++ to_string relative_priority ++
           str ")") ;;;
      ret true
    else
      complain (str "Failed to set QoS class for core " ++ to_string core_id ++
                str " - error: " ++ to_string result) ;;;
      ret false
  else ret false.

Definition kern_error (k : kern_return) : bytes :=
  match k with
  | KERN_INVALID_ARGUMENT => str "Invalid argument (core may not exist)"
  | KERN_INVALID_POLICY => str "Invalid policy (affinity not supported)"
  | KERN_NOT_SUPPORTED => str "Not supported on this system"
  | KERN_FAILURE => str "General failure"
  | KERN_RESOURCE_SHORTAGE => str "Resource shortage"
  | _ => str "Unknown kern_return_t error"
  end.

Definition pinThreadToCore (thread : Priority) (core_id : Z) : T bool :=
  if APPLE mc then
    emit (Asked (MachAffinity thread core_id)) ;;;
    match mach_affinity thread core_id with
    | KERN_SUCCESS =>
        say (str "Successfully pinned thread to core " ++ to_string core_id) ;;; ret true
    | result =>
        complain (str "Failed to set thread affinity to core " ++ to_string core_id ++ str " - " ++
                  kern_error result ++ str " (kern_return_t: " ++ to_string (kern_code result) ++
                  str ")") ;;;
        say (str "Attempting alternative QoS-based approach for core " ++ to_string core_id) ;;;
        setThreadQoSClass thread core_id
    end
  else if linux mc then
    let cpuset := cpu_mask core_id in
    emit (Asked (SetAffinity (Some thread) cpuset)) ;;;
    let result := setaffinity (Some thread) cpuset in
    if result =? 0 then
      say (str "Successfully pinned thread to core " ++ to_string core_id) ;;; ret true
    else
      complain (str "Failed to set thread affinity to core " ++ to_string core_id ++
                str " - error: " ++ to_string result ++ str " (" ++ strerror result ++ str ")") ;;;
      ret false
  else say (str "Thread pinning not implemented for this platform") ;;; ret false.

Definition setThreadRealTimePriority (cfg : CorePinningConfig) (thread : Priority) : T bool :=
  if negb (enable_real_time_priority cfg) then ret false
  else if APPLE mc then
    emit (Asked (MachTimeConstraint thread 1000000 500000 1000000)) ;;;
    ret (match mach_time_constraint thread 1000000 500000 1000000 with
         | KERN_SUCCESS => true | _ => false end)
  else if linux mc then
    emit (Asked (SetSchedFifo thread 99)) ;;;
    let result := setschedparam thread 99 in
    if result =? 0 then
      say (str "Set real-time priority (SCHED_FIFO, priority=99)") ;;; ret true
    else
      complain (str "Failed to set real-time priority - error: " ++ to_string result ++ str " (" ++
                strerror result ++ str ")") ;;;
      complain (str "Note: Real-time priority requires CAP_SYS_NICE capability") ;;;
      ret false
  else say (str "Real-time priority not implemented for this platform") ;;; ret false.

(** [static_cast<int>(priority)] *)
Definition priority_number (p : Priority) : bytes := to_string (Z.of_nat (getPriorityIndex p)).

(** The body of the loop of [startAsyncSenders] for a sender that has been started
    (its thread is joinable from then on). *)
Definition setupThread (cfg : CorePinningConfig) (core_id : Z) (priority : Priority) : T unit :=
  if enable_core_pinning cfg then
    say (str "Attempting to pin priority " ++ priority_number priority ++ str " thread to core " ++
         to_string core_id) ;;;
    pinned <-- pinThreadToCore priority core_id ;;
    (if pinned : bool then
       say (str "Successfully configured priority " ++ priority_number priority ++
            str " thread for core " ++ to_string core_id)
     else
       say (str "Thread configuration failed for priority " ++ priority_number priority ++
            str " thread (core " ++ to_string core_id ++ str ") - performance may be reduced")) ;;;
    if enable_real_time_priority cfg then
      rt_set <-- setThreadRealTimePriority cfg priority ;;
      if rt_set : bool then
        say (str "Set real-time priority for " ++ priority_number priority ++ str " thread")
      else
        say (str "Failed to set real-time priority for " ++ priority_number priority ++
             str " thread (try running as root)")
    else ret tt
  else
    say (str "Core pinning disabled for priority " ++ priority_number priority ++ str " thread").

Fixpoint setupThreads (cfg : CorePinningConfig) (core : Priority -> Z) (ps : list Priority) : T unit :=
  match ps with
  | [] => ret tt
  | p :: ps => setupThread cfg (core p) p ;;; setupThreads cfg core ps
  end.

(** [detectPerformanceCores], [isRealTimePrioritySupported] *)
Definition detectPerformanceCores (h : host) : Z :=
  if APPLE mc then 8 else wrap32 (hardware_concurrency h).
Definition isRealTimePrioritySupported (h : host) : bool := uid h =? 0.

(** The prologue of [startAsyncSenders]. *)
Definition announce (h : host) : T unit :=
  say (str "Starting AsyncSenders...") ;;;
  say (str "Detected " ++ to_string (detectPerformanceCores h) ++ str " performance cores") ;;;
  (if APPLE mc then
     say (str "macOS detected - thread affinity support is limited") ;;;
     say (str "Will attempt affinity first, then fallback to QoS classes")
   else if linux mc then
     say (str "Linux detected - full thread affinity and RT priority support") ;;;
     say (str "Can pin threads to specific cores with pthread_setaffinity_np")
   else say (str "Platform has limited thread control capabilities")).

(** [startAsyncSenders]: the senders of the map, in its order [ps], are started and
    their threads configured. *)
Definition startAndSetup (h : host) (cfg : CorePinningConfig) (core : Priority -> Z)
    (ps : list Priority) : T unit :=
  announce h ;;; setupThreads cfg core ps ;;; say (str "All AsyncSenders started").

(** * [SequenceNumGapManager] *)

(** [setCpuAffinity(cpu_core)], called by the gap thread about itself; the result is the
    new value of the member [cpu_core_]. *)
Definition setCpuAffinity (cpu_core : Z) : T Z :=
  let cpu_core_ := cpu_core in
  (if negb (cpu_core_ =? -1) then
     if linux mc then
       let cpuset := cpu_mask cpu_core_ in
       emit (Asked (SetAffinity None cpuset)) ;;;
       let result := setaffinity None cpuset in
       if negb (result =? 0) then
         emit (PrintedErr (str "[SequenceNumGapManager] Failed to set thread affinity to core " ++
                 to_string cpu_core_ ++ str " - error: " ++ to_string result ++ str " (" ++
                 strerror result ++ str ")"))
       else
         emit (Printed (str "[SequenceNumGapManager] Successfully set thread affinity to core " ++
                        to_string cpu_core_))
     else emit (Printed (str "[SequenceNumGapManager] Thread pinning not supported for this platform"))
   else ret tt) ;;;
  ret cpu_core_.

(** * Lemmas *)

Definition requests (tr : list event) : list request :=
  omap (fun e => match e with Asked r => Some r | _ => None end) tr.

Lemma requests_app a b : requests (a ++ b) = requests a ++ requests b.
Proof. apply omap_app. Qed.

(** A computation that returns, and adds the requests [rs]. *)
Definition asks {A} (m : T A) (rs : A -> list request) : Prop :=
  forall tr, exists a tr', m tr = (Ret a, tr') /\ requests tr' = requests tr ++ rs a.

Lemma asks_ret {A} (a : A) : asks (ret a) (fun _ => []).
Proof. intros tr. exists a, tr. by rewrite app_nil_r. Qed.

Lemma asks_bind {A B} (m : T A) (k : A -> T B) rs1 rs2 :
  asks m (fun _ => rs1) -> (forall a, asks (k a) (fun _ => rs2)) ->
  asks (bind m k) (fun _ => rs1 ++ rs2).
Proof.
  intros Hm Hk tr. destruct (Hm tr) as (a & tr1 & E1 & R1). destruct (Hk a tr1) as (b & tr2 & E2 & R2).
  exists b, tr2. unfold bind. rewrite E1, E2. split; [done|]. by rewrite R2, R1, app_assoc.
Qed.

Lemma asks_say s : asks (say s) (fun _ => []).
Proof. intros tr. eexists _, _. split; [done|]. by rewrite requests_app. Qed.
Lemma asks_complain s : asks (complain s) (fun _ => []).
Proof. intros tr. eexists _, _. split; [done|]. by rewrite requests_app. Qed.
Lemma asks_request r : asks (emit (Asked r)) (fun _ => [r]).
Proof. intros tr. eexists _, _. split; [done|]. by rewrite requests_app. Qed.

(** On Linux, pinning makes one request, about that thread and that core. *)
Lemma pinThreadToCore_linux p core :
  APPLE mc = false -> linux mc = true ->
  asks (pinThreadToCore p core) (fun _ => [SetAffinity (Some p) (cpu_mask core)]).
Proof.
  intros Ha Hl. unfold pinThreadToCore. rewrite Ha, Hl.
  apply (asks_bind _ _ [SetAffinity (Some p) (cpu_mask core)] []); [apply asks_request|].
  intros _. destruct (_ =? 0); apply (asks_bind _ _ [] []); auto using asks_say, asks_complain, @asks_ret.
Qed.

Lemma setThreadRealTimePriority_linux cfg p :
  APPLE mc = false -> linux mc = true -> enable_real_time_priority cfg = true ->
  asks (setThreadRealTimePriority cfg p) (fun _ => [SetSchedFifo p 99]).
Proof.
  intros Ha Hl Hr. unfold setThreadRealTimePriority. rewrite Hr, Ha, Hl. simpl.
  apply (asks_bind _ _ [SetSchedFifo p 99] []); [apply asks_request|]. intros _.
  destruct (_ =? 0).
  - apply (asks_bind _ _ [] []); auto using asks_say, @asks_ret.
  - apply (asks_bind _ _ [] []); [apply asks_complain|]. intros _.
    apply (asks_bind _ _ [] []); auto using asks_complain, @asks_ret.
Qed.

(** What the configuration asks for one thread. *)
Definition wanted (cfg : CorePinningConfig) (core : Priority -> Z) (p : Priority) : list request :=
  if enable_core_pinning cfg then
    SetAffinity (Some p) (cpu_mask (core p)) ::
    (if enable_real_time_priority cfg then [SetSchedFifo p 99] else [])
  else [].

Lemma setupThread_linux cfg core p :
  APPLE mc = false -> linux mc = true ->
  asks (setupThread cfg (core p) p) (fun _ => wanted cfg core p).
Proof.
  intros Ha Hl. unfold setupThread, wanted. destruct (enable_core_pinning cfg); [|apply asks_say].
  apply (asks_bind _ _ [] _); [apply asks_say|]. intros _.
  apply (asks_bind _ _ [SetAffinity (Some p) (cpu_mask (core p))] _); [by apply pinThreadToCore_linux|].
  intros pinned. apply (asks_bind _ _ [] _); [destruct pinned; apply asks_say|]. intros _.
  destruct (enable_real_time_priority cfg) eqn:E; [|apply asks_ret].
  apply (asks_bind _ _ [SetSchedFifo p 99] []); [by apply setThreadRealTimePriority_linux|].
  intros []; apply asks_say.
Qed.

(** Starting the senders on Linux asks for exactly what the configuration says:
    every sending thread is to run on its own core, and with real-time priority
    when that is enabled; nothing when pinning is disabled (real-time priority
    included).  The answers of the system change none of it. *)
Lemma setup_requests_linux h cfg core ps tr :
  APPLE mc = false -> linux mc = true ->
  exists tr', startAndSetup h cfg core ps tr = (Ret tt, tr') /\
    requests tr' = requests tr ++ mjoin (map (wanted cfg core) ps).
Proof.
  intros Ha Hl.
  assert (asks (announce h) (fun _ => [])) as Han.
  { unfold announce. rewrite Ha, Hl.
    do 2 (apply (asks_bind _ _ [] []); [apply asks_say|intros _]).
    apply (asks_bind _ _ [] []); [apply asks_say|intros _]. apply asks_say. }
  assert (asks (setupThreads cfg core ps) (fun _ => mjoin (map (wanted cfg core) ps))) as Hs.
  { clear tr. induction ps as [|p ps IH]; [apply asks_ret|].
    apply (asks_bind _ _ (wanted cfg core p) _); [by apply setupThread_linux|done]. }
  assert (asks (startAndSetup h cfg core ps) (fun _ => mjoin (map (wanted cfg core) ps))) as H.
  { unfold startAndSetup. apply (asks_bind _ _ [] _); [done|]. intros _.
    pose proof (asks_bind _ (fun _ => say (str "All AsyncSenders started")) _ [] Hs
                  (fun _ => asks_say _)) as H2.
    rewrite app_nil_r in H2. exact H2. }
  destruct (H tr) as ([] & tr' & E & R). by exists tr'.
Qed.

(** On macOS the fallback configures the wrong thread: the request that follows a
    refused affinity is about the thread that calls [start]. *)
Lemma qos_request_is_about_self p core tr :
  APPLE mc = true -> mach_affinity p core <> KERN_SUCCESS ->
  exists b tr', pinThreadToCore p core tr = (Ret b, tr') /\
    requests tr' = requests tr ++
      [MachAffinity p core; QosSelf (fst (qos_for_core core)) (snd (qos_for_core core))].
Proof.
  intros Ha Hk.
  assert (asks (pinThreadToCore p core) (fun _ =>
    [MachAffinity p core; QosSelf (fst (qos_for_core core)) (snd (qos_for_core core))])) as H.
  { unfold pinThreadToCore. rewrite Ha.
    apply (asks_bind _ _ [MachAffinity p core] _); [apply asks_request|]. intros _.
    destruct (mach_affinity p core); try done;
    (apply (asks_bind _ _ [] _); [apply asks_complain|intros _];
     apply (asks_bind _ _ [] _); [apply asks_say|intros _];
     unfold setThreadQoSClass; rewrite Ha; destruct (qos_for_core core) as [class rel]; simpl;
     apply (asks_bind _ _ [QosSelf class rel] []); [apply asks_request|intros _];
     destruct (_ =? 0); apply (asks_bind _ _ [] []);
     auto using asks_say, asks_complain, @asks_ret). }
  apply H.
Qed.
End Setup.

(** The relative priority of the core of the critical thread is below that of the
    core of the high-priority thread, in the same class. *)
Lemma critical_qos_below_high :
  fst (qos_for_core 0) = fst (qos_for_core 1) /\ snd (qos_for_core 0) < snd (qos_for_core 1).
Proof. by vm_compute. Qed.
