(* ===== verification/Summaries.v ===== *)
(** Averages, accessors and report strings of the queues, the router, the inbound
    manager, the sender and the connection: what the components tell about
    themselves ([lockfree_queue.h], [priority_queue.cpp], [message_router.cpp],
    [inbound_message_manager.cpp], [tcp_connection.cpp]); and the accessors, moves
    and pool-backed creation of [common::Message] ([message.cpp]). *)
From S2P Require Import Prelude FixFields Doubles LockFreeQueue QueueInterface MessagePool GlobalPool FixMessage Logger Timing PriorityQueues MessageRouter GapManager SessionManager OutboundMessage MutexQueue MutexQueueProperties TcpConnection AsyncSender SenderProperties AsyncSenderManager.

(** * [LockFreeQueue] *)
Section LockFree.
Context {T : Type}.
Implicit Types q : LockFreeQueue.LockFreeQueue T.

Definition lfq_isShutdown q : bool := LockFreeQueue.is_shutdown_ q.
Definition lfq_capacity q : Z := LockFreeQueue.capacity_ q.
Definition lfq_getTotalPushed q : Z := push_count_ q.
Definition lfq_getTotalPopped q : Z := pop_count_ q.
Definition lfq_getTotalDropped q : Z := drop_count_ q.
Definition lfq_toString q : bytes :=
  LockFreeQueue.queue_name_ q ++ str " [size: " ++ to_string (LockFreeQueue.size q) ++
  str ", capacity: " ++ to_string (lfq_capacity q) ++
  str ", pushed: " ++ to_string (lfq_getTotalPushed q) ++
  str ", popped: " ++ to_string (lfq_getTotalPopped q) ++
  str ", dropped: " ++ to_string (lfq_getTotalDropped q) ++ str "]".
End LockFree.

(** * [PriorityQueue] *)
Section Mutex.
Context {H : Type} `{HM : MaxHeap H} (nan_text : bytes).
Implicit Types q : PriorityQueue H.

Definition pq_capacity q : Z := max_size_ q.
Definition pq_getTotalPushed q : Z := total_pushed_ q.
Definition pq_getTotalPopped q : Z := total_popped_ q.
Definition pq_getTotalDropped q : Z := total_dropped_ q.
Definition pq_getPeakSize q : Z := peak_size_ q.
Definition pq_getOverflowPolicy q : OverflowPolicy := overflow_policy_ q.
Definition getOverflowPolicyString q : bytes := overflowPolicyToString (overflow_policy_ q).
Definition getAverageLatency q : double :=
  if latency_samples_ q =? 0 then d_zero
  else ddiv (d_of_Z (total_latency_ns_ q)) (d_of_Z (latency_samples_ q)).

Definition bool_string (b : bool) : bytes := if b then str "true" else str "false".

Definition pq_toString q : bytes :=
  str "PriorityQueue{" ++ str "name=" ++ pq_name_ q ++
  str ", size=" ++ to_string (pq_size q) ++ str ", max_size=" ++ to_string (max_size_ q) ++
  str ", pushed=" ++ to_string (total_pushed_ q) ++ str ", popped=" ++ to_string (total_popped_ q) ++
  str ", dropped=" ++ to_string (total_dropped_ q) ++
  str ", peak_size=" ++ to_string (peak_size_ q) ++
  str ", avg_latency=" ++ put_double nan_text 2 (getAverageLatency q) ++ str "ns" ++
  str ", policy=" ++ getOverflowPolicyString q ++
  str ", shutdown=" ++ bool_string (pq_is_shutdown_ q) ++ str "}".

Definition formatStats q : bytes :=
  let nl := [10] in
  str "Queue Statistics for '" ++ pq_name_ q ++ str "':" ++ nl ++
  str "  Current Size: " ++ to_string (pq_size q) ++ str "/" ++ to_string (max_size_ q) ++ nl ++
  str "  Total Pushed: " ++ to_string (total_pushed_ q) ++ nl ++
  str "  Total Popped: " ++ to_string (total_popped_ q) ++ nl ++
  str "  Total Dropped: " ++ to_string (total_dropped_ q) ++ nl ++
  str "  Peak Size: " ++ to_string (peak_size_ q) ++ nl ++
  str "  Average Latency: " ++ put_double nan_text 2 (getAverageLatency q) ++ str " ns" ++ nl ++
  str "  Overflow Policy: " ++ getOverflowPolicyString q ++ nl ++
  str "  Utilization: " ++
  put_double nan_text 1 (dmul (ddiv (d_of_Z (pq_size q)) (d_of_Z (max_size_ q))) (d_of_Z 100)) ++
  str "%".
End Mutex.

(** * [MessageRouter] *)

Definition getAverageRoutingLatencyNs (r : MessageRouter) : double :=
  let total_messages := messages_routed (MessageRouter.stats_ r) in
  if total_messages =? 0 then d_zero
  else ddiv (d_of_Z (total_routing_time_ns (MessageRouter.stats_ r))) (d_of_Z total_messages).
Definition getPeakRoutingLatencyNs (r : MessageRouter) : Z :=
  peak_routing_time_ns (MessageRouter.stats_ r).
(** No time enters the computation: the count of routed messages. *)
Definition getMessagesRoutedPerSecond (r : MessageRouter) : Z :=
  messages_routed (MessageRouter.stats_ r).

(** * [SequenceNumGapManager] *)

(** [getGapCount], [getQueueDepth] *)
Definition getGapCount (m : GapManager (LockFreeQueue GapQueueEntry)) : Z := size (gap_queue_ m).
Definition getGapQueueDepth (m : GapManager (LockFreeQueue GapQueueEntry)) : Z := size (gap_queue_ m).

(** * [InboundMessageManager] *)

(** [logInfo], [logError], [logWarning], [logDebug]: a line through the logger. *)
Definition inbound_line (manager_name message : bytes) : bytes :=
  str "[" ++ manager_name ++ str "] " ++ message.
Section Logging.
Variable utc_offset : Z -> Z.
Definition inbound_logInfo (manager_name message : bytes) :=
  Logger.info utc_offset (inbound_line manager_name message).
Definition inbound_logError (manager_name message : bytes) :=
  Logger.error utc_offset (inbound_line manager_name message).
Definition inbound_logWarning (manager_name message : bytes) :=
  Logger.warn utc_offset (inbound_line manager_name message).
Definition inbound_logDebug (manager_name message : bytes) :=
  Logger.debug utc_offset (inbound_line manager_name message).
(** Those of [SequenceNumGapManager]. *)
Definition gap_name : bytes := str "SequenceNumGapManager".
Definition gap_logInfo (message : bytes) := inbound_logInfo gap_name message.
Definition gap_logError (message : bytes) := inbound_logError gap_name message.
Definition gap_logWarning (message : bytes) := inbound_logWarning gap_name message.
Definition gap_logDebug (message : bytes) := inbound_logDebug gap_name message.
End Logging.

(** The two factory functions return a null pointer. *)
Definition createFixSessionManager (manager_name : bytes) : option unit := None.
Definition createBusinessLogicManager (manager_name : bytes) : option unit := None.

(** * [TcpConnection] *)
Section Tcp.
Context {W : Type} `{HS : Sockets W}.
(** [send(const std::vector<char> &)]: the same steps on the bytes of the vector. *)
Definition tcp_send_vector (data : bytes) : M (TcpWorld W) bool :=
  c <-- tcp_get ;;
  if negb (connected_ c) then ret false
  else
    match data with
    | [] => ret true
    | _ =>
        bytes_sent <-- sendRaw data ;;
        if bytes_sent <? 0 then ret false
        else if bytes_sent <? Z.of_nat (length data) then handlePartialSend data bytes_sent
        else ret true
    end.
Definition getRemoteHost (c : TcpConnection) : bytes := host_ c.
Definition getRemotePort (c : TcpConnection) : Z := port_ c.

Lemma tcp_send_vector_send data : tcp_send_vector data = tcp_send data.
Proof. done. Qed.
End Tcp.

(** * [AsyncSender] and [AsyncSenderManager] *)

(** [struct SenderStats] *)
Record SenderStats := mkSenderStats {
  ss_total_messages_sent : Z; ss_total_messages_failed : Z; ss_total_messages_retried : Z;
  ss_total_messages_dropped : Z; ss_messages_in_flight : Z;
  ss_avg_send_latency_ns : double; ss_avg_queue_latency_ns : double;
  ss_current_queue_depth : Z; ss_peak_queue_depth : Z; ss_bytes_sent : Z; ss_last_send_time : Z
}.
(** [SenderStats{}]: every member zero. *)
Definition noSenderStats : SenderStats := mkSenderStats 0 0 0 0 0 d_zero d_zero 0 0 0 0.

(** The constructors with their null checks (the queue is looked at first). *)
Definition constructSender (lockfree : bool) (queue_set connection_set : bool) :
    bytes + AsyncSender :=
  if negb queue_set then
    inl ((if lockfree then str "LockFreeQueue" else str "PriorityQueue") ++ str " cannot be null")
  else if negb connection_set then inl (str "TcpConnection cannot be null")
  else inr newSender.
(** The destructor. *)
Definition destroySender (s : AsyncSender) : AsyncSender := sender_shutdown s.
Definition sender_isRunning (s : AsyncSender) : bool := running_ s.

Section Managed.
Context {H W : Type} `{HH : MaxHeap H} `{HS : Sockets W}.
Implicit Types m : AsyncSenderManager H TcpConnection.

(** [AsyncSender::getStats] of the sender that works on the manager's queue of
    priority [p]; the members without a source are constants. *)
Definition getSenderStats m (now : Z) (p : Priority) (s : AsyncSender) : SenderStats :=
  mkSenderStats (total_sent_ s) (total_failed_ s) (total_retried_ s) 0 0 d_zero d_zero
    (getQueueSize m p)
    (match queue_type (config_ m) with
     | LOCK_FREE => 0
     | MUTEX_BASED => match priority_queues_ m p with Some q => peak_size_ q | None => 0 end
     end) 0 now.

(** [getStatsForPriority], [getQueueDepthForPriority], [isRunning] and the four senders *)
Definition getStatsForPriority m (now : Z) (p : Priority) : SenderStats :=
  match async_senders_ m p with Some s => getSenderStats m now p s | None => noSenderStats end.
Definition getQueueDepthForPriority m (p : Priority) : Z := getQueueSize m p.
Definition manager_isRunning m : bool := am_running_ m.
Definition getCriticalSender m := getAsyncSenderForPriority m CRITICAL.
Definition getHighSender m := getAsyncSenderForPriority m HIGH.
Definition getMediumSender m := getAsyncSenderForPriority m MEDIUM.
Definition getLowSender m := getAsyncSenderForPriority m LOW.

Definition getQueueTypeString m : bytes := queueTypeString (queue_type (config_ m)).

(** [struct PerformanceStats] ([core_utilization] stays empty). *)
Record ManagerStats := mkManagerStats {
  ms_priority_stats : pmap SenderStats;
  ms_total_messages_sent : Z; ms_total_messages_failed : Z; ms_avg_critical_latency_ns : double;
  ms_critical_count : Z; ms_high_count : Z; ms_medium_count : Z; ms_low_count : Z;
  ms_tcp_connected : bool; ms_last_connection_time : Z;
  ms_queue_type : QueueType; ms_queue_type_string : bytes
}.

(** The second loop of [getStats]: one priority's statistics. *)
Definition add_priority (p : Priority) (s : SenderStats) (t : ManagerStats) : ManagerStats :=
  let sent := ss_total_messages_sent s in
  let set_at q old := if decide (p = q) then sent else old in
  mkManagerStats (ms_priority_stats t) (u64 (ms_total_messages_sent t + sent))
    (u64 (ms_total_messages_failed t + ss_total_messages_failed s))
    (if decide (p = CRITICAL) then ss_avg_send_latency_ns s else ms_avg_critical_latency_ns t)
    (set_at CRITICAL (ms_critical_count t)) (set_at HIGH (ms_high_count t))
    (set_at MEDIUM (ms_medium_count t)) (set_at LOW (ms_low_count t))
    (ms_tcp_connected t) (ms_last_connection_time t) (ms_queue_type t) (ms_queue_type_string t).
Fixpoint add_priorities (ps : list Priority) (t : ManagerStats) : ManagerStats :=
  match ps with
  | [] => t
  | p :: ps =>
      add_priorities ps
        (match ms_priority_stats t p with Some s => add_priority p s t | None => t end)
  end.

(** [getStats]; [order] is the order in which the map is walked. *)
Definition getManagerStats (order : list Priority) m (now : Z) : ManagerStats :=
  add_priorities order
    (mkManagerStats (fun p => getSenderStats m now p <$> async_senders_ m p) 0 0 d_zero 0 0 0 0
       (manager_isConnected m)
       (match tcp_connection_ m with Some _ => now | None => 0 end)
       (queue_type (config_ m)) (getQueueTypeString m)).

(** The destructor. *)
Definition destroyManager m (w : W) (events : list tcp_event) :=
  if am_running_ m then manager_shutdown m w events else (Ret tt, (m, w, events)).

Definition count_of (q : Priority) (t : ManagerStats) : Z :=
  match q with
  | CRITICAL => ms_critical_count t | HIGH => ms_high_count t
  | MEDIUM => ms_medium_count t | LOW => ms_low_count t
  end.
Definition sum_of (f : SenderStats -> Z) (t : ManagerStats) (ps : list Priority) : Z :=
  fold_right (fun p n => from_option f 0 (ms_priority_stats t p) + n) 0 ps.

Lemma add_priorities_spec ps t :
  NoDup ps -> ms_total_messages_sent t = u64 (ms_total_messages_sent t) ->
  ms_total_messages_failed t = u64 (ms_total_messages_failed t) ->
  let t' := add_priorities ps t in
  ms_total_messages_sent t' = u64 (ms_total_messages_sent t + sum_of ss_total_messages_sent t ps) /\
  ms_total_messages_failed t'
    = u64 (ms_total_messages_failed t + sum_of ss_total_messages_failed t ps) /\
  forall q, count_of q t' =
    if decide (q ∈ ps) then from_option ss_total_messages_sent (count_of q t) (ms_priority_stats t q)
    else count_of q t.
Proof.
  revert t. induction ps as [|p ps IH]; intros t Hnd Hs Hf; cbn [add_priorities].
  { simpl. rewrite !Z.add_0_r. split; [done|]. split; [done|]. done. }
  apply NoDup_cons in Hnd as [Hp Hnd].
  set (t1 := match ms_priority_stats t p with Some s => add_priority p s t | None => t end).
  assert (ms_priority_stats t1 = ms_priority_stats t) as E
    by (subst t1; by destruct (ms_priority_stats t p)).
  assert (forall a b : Z, u64 (u64 a + b) = u64 (a + b)) as Hu
    by (intros; unfold u64; by rewrite Zplus_mod_idemp_l).
  assert (forall a, u64 (u64 a) = u64 a) as Huu by (intros; unfold u64; by rewrite Zmod_mod).
  destruct (IH t1 Hnd) as (H1 & H2 & H3);
    [subst t1; destruct (ms_priority_stats t p); [symmetry; apply Huu|done]..|]. cbv zeta.
  unfold sum_of in *. rewrite E in H1, H2. cbn [fold_right].
  rewrite H1, H2. split; [|split].
  - subst t1. destruct (ms_priority_stats t p); simpl; [|f_equal; lia].
    rewrite Hu. f_equal. lia.
  - subst t1. destruct (ms_priority_stats t p); simpl; [|f_equal; lia].
    rewrite Hu. f_equal. lia.
  - intros q. rewrite H3, E.
    destruct (decide (q = p)) as [->|Hq].
    + rewrite decide_False by done. rewrite decide_True by set_solver. subst t1.
      destruct (ms_priority_stats t p); [|done]. destruct p; done.
    + assert (count_of q t1 = count_of q t) as ->.
      { subst t1. destruct (ms_priority_stats t p); [|done]. destruct p, q; done. }
      destruct (decide (q ∈ ps)); [by rewrite decide_True by set_solver|].
      by rewrite decide_False by set_solver.
Qed.

Lemma sum_of_perm f t ps qs : ps ≡ₚ qs -> sum_of f t ps = sum_of f t qs.
Proof. unfold sum_of. induction 1; simpl; lia. Qed.

(** In whatever order the map is walked, each count is that of its sender and the
    totals are their sums. *)
Lemma getManagerStats_totals order m now :
  order ≡ₚ [CRITICAL; HIGH; MEDIUM; LOW] ->
  let t := getManagerStats order m now in
  let sent p := ss_total_messages_sent (getStatsForPriority m now p) in
  let failed p := ss_total_messages_failed (getStatsForPriority m now p) in
  ms_critical_count t = sent CRITICAL /\ ms_high_count t = sent HIGH /\
  ms_medium_count t = sent MEDIUM /\ ms_low_count t = sent LOW /\
  ms_total_messages_sent t = u64 (sent CRITICAL + sent HIGH + sent MEDIUM + sent LOW) /\
  ms_total_messages_failed t = u64 (failed CRITICAL + failed HIGH + failed MEDIUM + failed LOW).
Proof.
  intros Ho t sent failed.
  assert (NoDup order) as Hnd.
  { rewrite Ho. refine (bool_decide_unpack _ _). by vm_compute. }
  subst t. unfold getManagerStats. set (t0 := mkManagerStats _ _ _ _ _ _ _ _ _ _ _ _).
  destruct (add_priorities_spec order t0 Hnd eq_refl eq_refl) as (H1 & H2 & H3).
  assert (forall f, f noSenderStats = 0 -> sum_of f t0 order
    = f (getStatsForPriority m now CRITICAL) + f (getStatsForPriority m now HIGH) +
      f (getStatsForPriority m now MEDIUM) + f (getStatsForPriority m now LOW)) as Hsum.
  { intros f Hf. rewrite (sum_of_perm f t0 _ _ Ho). unfold sum_of, getStatsForPriority. simpl.
    destruct (async_senders_ m CRITICAL), (async_senders_ m HIGH), (async_senders_ m MEDIUM),
      (async_senders_ m LOW); simpl; lia. }
  assert (forall q, count_of q (add_priorities order t0) = sent q) as Hc.
  { intros q. rewrite H3, decide_True by (rewrite Ho; destruct q; set_solver).
    subst sent. unfold getStatsForPriority. subst t0. simpl.
    destruct (async_senders_ m q); [done|by destruct q]. }
  split; [apply (Hc CRITICAL)|]. split; [apply (Hc HIGH)|]. split; [apply (Hc MEDIUM)|].
  split; [apply (Hc LOW)|]. rewrite H1, H2, !Hsum by done. done.
Qed.
End Managed.

(** * [common::Message] *)
Import Outbound.
Import MessageType (MessageType).
Import MessageState (MessageState).

Definition getMessageId (m : Message) : bytes := message_id_ m.
Definition getSequenceNumber (m : Message) : bytes := sequence_number_ m.
Definition getPayload (m : Message) : bytes := payload_ m.
Definition getPayloadSize (m : Message) : Z := payload_size_ m.
Definition getPriority (m : Message) : Priority := priority_ m.
Definition getMessageType (m : Message) : MessageType := message_type_ m.
Definition getSessionId (m : Message) : bytes := session_id_ m.
Definition getDestination (m : Message) : bytes := destination_ m.
Definition getMessageCreationTime (m : Message) : Z := creation_time_ m.
Definition getMessageState (m : Message) : MessageState := state_ m.
Definition getRetryCount (m : Message) : Z := retry_count_ m.
Definition getErrorCode (m : Message) : Z := error_code_ m.
Definition getErrorMessage (m : Message) : bytes := error_message_ m.

(** The move constructor on fresh storage and the move assignment between different
    objects. *)
Definition moveConstructMessage (left : bytes -> bytes) (left_f : option Z -> option Z)
    (raw other : Message) : Message * Message := moveFrom left left_f raw other.
Definition moveAssignMessage (left : bytes -> bytes) (left_f : option Z -> option Z)
    (this other : Message) : Message * Message := moveFrom left left_f this other.

(** [Message::create], the simple one: the constructor, which takes the next number
    of the static counter, runs only when a slot was taken. *)
Definition message_create (now : Z) (message_id payload : bytes) (priority : Priority)
    (message_type : MessageType) (session_id destination : bytes) :
    M (MessagePool Message * Z) (option Z) := fun s =>
  let '(pool, counter) := s in
  let '(m, counter') :=
    newMessage now message_id payload priority message_type session_id destination counter in
  match allocateArgs (Some m) pool with
  | (Ret (Some a), pool') => (Ret (Some a), (pool', counter'))
  | (r, pool') => (r, (pool', counter))
  end.

(** [Message::create] with an explicit sequence number and deadline. *)
Definition message_create_detailed (now : Z) (message_id sequence_number payload : bytes)
    (priority : Priority) (message_type : MessageType) (session_id destination : bytes)
    (deadline : Z) : M (MessagePool Message) (option Z) :=
  allocateArgs (Some (newDetailed now message_id sequence_number payload priority message_type
                        session_id destination deadline)).

(** [Message::destroy] *)
Definition message_destroy (message : option Z) (pool : MessagePool Message) : MessagePool Message :=
  match message with None => pool | Some _ => deallocate message pool end.

(** * Lemmas *)

(** The first processed message is averaged with a message that never was: the
    counter is incremented before the average is updated, so one message of 1000 ns
    gives an average of 500 ns. *)
Lemma first_average_is_half t :
  let s1 := mkProcessing 1 0 0 0 0 (fun _ => 0) (fun _ => 0) d_zero (fun _ => None) in
  avg_processing_time_ns (inbound_updateStats t 1000 s1) = d_of_Z 500.
Proof. by vm_compute. Qed.

(** The per-type average does not have that error: it is the first value, then the
    mean of the two. *)
Lemma type_average_is_mean t :
  let s1 := inbound_updateStats t 1000 (mkProcessing 1 0 0 0 0 (fun _ => 0) (fun _ => 0) d_zero (fun _ => None)) in
  message_type_avg_latency s1 t = Some (d_of_Z 1000) /\
  message_type_avg_latency (inbound_updateStats t 3000 s1) t = Some (d_of_Z 2000).
Proof. by destruct t; vm_compute. Qed.

(** A created message is the live object behind the pointer, with the number of the
    counter, which advances; a refused creation leaves the counter alone. *)
Lemma message_create_numbers now id payload pr ty sess dest pool counter :
  pool_wf pool ->
  let '(r, (pool', counter')) := message_create now id payload pr ty sess dest (pool, counter) in
  match r with
  | Ret (Some a) =>
      counter' = u64 (counter + 1) /\
      exists m, deref pool' a = Some m /\ getSequenceNumber m = to_string counter /\
        getPayload m = payload /\ getPriority m = pr
  | Ret None => counter' = counter /\ pool_slots_ pool' = pool_slots_ pool
  | _ => False
  end.
Proof.
  intros Hwf. unfold message_create. simpl. rewrite allocateArgs_allocate.
  set (m := initializeTimestamps _ _).
  destruct (allocate m pool) as [[a|] pool'] eqn:E; simpl.
  - split; [done|]. exists m. split; [|done].
    by apply (allocate_deref _ pool).
  - split; [done|]. by destruct (allocate_none _ _ _ Hwf E) as [-> _].
Qed.
