(* ===== verification/Gateway.v ===== *)
(** [application::FixGateway] ([fix_gateway.h], [fix_gateway.cpp]): the object that owns the
    connection, the message pool, the parser and the router, and wires the callbacks of the
    connection to them.

    The parser and the router work on one pool and one clock here.  The connection calls
    its callbacks inside its own operations; none of the gateway's callbacks touches the
    connection, so the model runs an operation of the connection and then the callbacks it
    made, in order.  Calls of the user's callbacks are recorded as events. *)
From S2P Require Import Prelude FixFields LockFreeQueue QueueInterface MessagePool FixMessage.
From S2P Require Import ParserState Framing OptimizedParser StreamParser ParserDelivery.
From S2P Require Import PriorityQueues MessageSending MessageRouter TcpConnection.

(** What the error callback is told *)
Inductive gateway_error :=
  | ParseErrorReport
  | ChecksumReport
  | AllocationReport
  | ParseExceptionReport
  | TcpErrorReport (error : bytes)
  | ConnectionLostReport.

(** A call of a callback of the user *)
Inductive gateway_event := MessageCallback (message : Z) | ErrorCallback (error : gateway_error).

(** The members of the class with what they point to: [gw_env] is the message pool, the
    priority queues and the clock. *)
Record FixGateway (W Q : Type) := mkGateway {
  gw_tcp : TcpWorld W;
  gw_parser : StreamFixParser;
  gw_router : MessageRouter;
  gw_env : Env Q;
  gw_message_callback : bool;
  gw_error_callback : bool;
  gw_connected : bool;
  gw_events : list gateway_event
}.
Arguments mkGateway {W Q}. Arguments gw_tcp {W Q}. Arguments gw_parser {W Q}.
Arguments gw_router {W Q}. Arguments gw_env {W Q}. Arguments gw_message_callback {W Q}.
Arguments gw_error_callback {W Q}. Arguments gw_connected {W Q}. Arguments gw_events {W Q}.

(** [FixMessage::getFieldsSummary], which the gateway logs *)
Definition summary_part (name : string) (value : bytes) : bytes :=
  match value with [] => [] | _ => str name ++ value end.
Definition getFieldsSummary (m : FixMessage) : bytes :=
  str "MsgType=" ++ getMsgType m ++ summary_part " ClOrdID=" (getClOrdID m) ++
  summary_part " Symbol=" (getSymbol m) ++ summary_part " Side=" (getSide m) ++
  (if 0 <? getMsgSeqNum m then str " MsgSeqNum=" ++ to_string (getMsgSeqNum m) else []).

Section Operations.
Context {W Q : Type} `{Sockets W} `{FifoQueue Z Q}.
Variable clock : nat -> Z.
Implicit Types g : FixGateway W Q.

Definition G := M (FixGateway W Q).

(** ** Operations of the parts *)

Definition set_tcp (t : TcpWorld W) g : FixGateway W Q :=
  mkGateway t (gw_parser g) (gw_router g) (gw_env g) (gw_message_callback g)
    (gw_error_callback g) (gw_connected g) (gw_events g).
Definition set_online (b : bool) g : FixGateway W Q :=
  mkGateway (gw_tcp g) (gw_parser g) (gw_router g) (gw_env g) (gw_message_callback g)
    (gw_error_callback g) b (gw_events g).
Definition set_env (e : Env Q) g : FixGateway W Q :=
  mkGateway (gw_tcp g) (gw_parser g) (gw_router g) e (gw_message_callback g)
    (gw_error_callback g) (gw_connected g) (gw_events g).

Definition gw_emit (e : gateway_event) : G unit :=
  modify (fun g => mkGateway (gw_tcp g) (gw_parser g) (gw_router g) (gw_env g)
    (gw_message_callback g) (gw_error_callback g) (gw_connected g) (gw_events g ++ [e])).
Definition report (e : gateway_error) : G unit :=
  fun g => (if gw_error_callback g then gw_emit (ErrorCallback e) else ret tt) g.

Definition with_parser {A} (m : M World A) : G A :=
  fun g => let '(o, w) := m (mkWorld (gw_parser g) (env_pool (gw_env g)) (env_ticks (gw_env g))) in
           (o, mkGateway (gw_tcp g) (w_parser w) (gw_router g)
                 (mkEnv (w_pool w) (env_queues (gw_env g)) (w_ticks w)) (gw_message_callback g)
                 (gw_error_callback g) (gw_connected g) (gw_events g)).
Definition with_router {A} (m : M (MessageRouter * Env Q) A) : G A :=
  fun g => let '(o, s) := m (gw_router g, gw_env g) in
           (o, mkGateway (gw_tcp g) (gw_parser g) (fst s) (snd s) (gw_message_callback g)
                 (gw_error_callback g) (gw_connected g) (gw_events g)).
Definition with_env {A} (m : M (Env Q) A) : G A :=
  fun g => let '(o, e) := m (gw_env g) in (o, set_env e g).

(** ** The data flow *)

(** [processParsedMessage] *)
Definition processParsedMessage (message : option Z) : G unit :=
  match message with
  | None => ret tt
  | Some msg =>
      with_env (env_read getFieldsSummary msg) ;;;
      routed <-- try_catch (with_router (routeMessage clock (Some msg)) ;;; ret true)
                   (with_env (env_deallocate msg) ;;; ret false) ;;
      if routed : bool
      then fun g => (if gw_message_callback g then gw_emit (MessageCallback msg) else ret tt) g
      else ret tt
  end.

(** The switch of [onTcpDataReceived] *)
Definition handle_result (r : ParseResult) : G unit :=
  match status r with
  | Success => processParsedMessage (parsed_message r)
  | NeedMoreData => ret tt
  | InvalidFormat => report ParseErrorReport
  | ChecksumError => report ChecksumReport
  | AllocationFailed => report AllocationReport
  | _ => ret tt
  end.

(** [onTcpDataReceived] *)
Definition onTcpDataReceived (buffer : bytes) : G unit :=
  try_catch (parse_result <-- with_parser (parse clock (Some buffer) (length buffer)) ;;
             handle_result parse_result)
            (report ParseExceptionReport).

(** [onTcpError], [onTcpDisconnect] *)
Definition onTcpError (error : bytes) : G unit := report (TcpErrorReport error).
Definition onTcpDisconnect : G unit := modify (set_online false) ;;; report ConnectionLostReport.

(** The callbacks the constructor registers with the connection *)
Fixpoint run_callbacks (events : list tcp_event) : G unit :=
  match events with
  | [] => ret tt
  | OnData data :: rest => onTcpDataReceived data ;;; run_callbacks rest
  | OnError text :: rest => onTcpError text ;;; run_callbacks rest
  | OnDisconnect :: rest => onTcpDisconnect ;;; run_callbacks rest
  end.

(** An operation of the connection with the callbacks it makes *)
Definition with_tcp {A} (m : M (TcpWorld W) A) : G A :=
  fun g => let '(o, t) := m (gw_tcp g) in
           (run_callbacks (drop (length (tw_events (gw_tcp g))) (tw_events t)) ;;;
            (fun g' => (o, g'))) (set_tcp t g).

(** One turn of the thread that receives *)
Definition gateway_receive : G bool := with_tcp receive_turn.

(** ** The interface *)

(** [connect] *)
Definition gateway_connect (host : bytes) (port : Z) : G bool :=
  g <-- get_st ;;
  if gw_connected g then ret true
  else
    ok <-- with_tcp (tcp_connect host port) ;;
    if ok : bool then modify (set_online true) ;;; with_tcp startReceiveLoop ;;; ret true
    else ret false.

(** [disconnect] *)
Definition gateway_disconnect : G unit :=
  g <-- get_st ;;
  if gw_connected g then with_tcp tcp_disconnect ;;; modify (set_online false) else ret tt.

(** [isConnected] *)
Definition gateway_isConnected g : bool := gw_connected g && connected_ (tw_tcp (gw_tcp g)).

(** [sendMessage]; [None] is the null pointer. *)
Definition gateway_sendMessage `{FieldOrder} (message : option Z) : G bool :=
  g <-- get_st ;;
  match message with
  | Some msg =>
      if gw_connected g then
        try_catch (serialized <-- with_env (env_call toString msg) ;; with_tcp (tcp_send serialized))
                  (ret false)
      else ret false
  | None => ret false
  end.

(** [sendRawMessage] *)
Definition sendRawMessage (fix_message : bytes) : G bool :=
  g <-- get_st ;;
  if gw_connected g then with_tcp (tcp_send fix_message) else ret false.

(** [setMessageCallback], [setErrorCallback]: whether one is set *)
Definition gateway_setMessageCallback (b : bool) : G unit :=
  modify (fun g => mkGateway (gw_tcp g) (gw_parser g) (gw_router g) (gw_env g) b
    (gw_error_callback g) (gw_connected g) (gw_events g)).
Definition gateway_setErrorCallback (b : bool) : G unit :=
  modify (fun g => mkGateway (gw_tcp g) (gw_parser g) (gw_router g) (gw_env g)
    (gw_message_callback g) b (gw_connected g) (gw_events g)).

(** [setMaxMessageSize], [setValidateChecksum], [setStrictValidation] *)
Definition gateway_setMaxMessageSize (max_size : Z) : G unit :=
  with_parser (update_parser (setMaxMessageSize max_size)).
Definition gateway_setValidateChecksum (validate : bool) : G unit :=
  with_parser (update_parser (setValidateChecksum validate)).
Definition gateway_setStrictValidation (strict : bool) : G unit :=
  with_parser (update_parser (setStrictValidation strict)).

(** [resetParserStats] *)
Definition gateway_resetParserStats : G unit :=
  with_parser (update_parser (with_stats (fun _ => stats_reset))).

(** The destructor *)
Definition destroyGateway : G unit :=
  with_router (modify (fun s => (stop (fst s), snd s))) ;;; gateway_disconnect.
End Operations.

(** The constructor: [None] when the pool throws.  The parser's constructor reads the
    clock; without queues the gateway makes its own. *)
Definition newGateway {W : Type} (now pool_size : Z) (storage : option Z) (slot_bytes : Z)
    (queues : option (list (LockFreeQueue Z))) (os : W) : option (FixGateway W (LockFreeQueue Z)) :=
  match newPool pool_size storage slot_bytes with
  | None => None
  | Some pool =>
      Some (mkGateway (mkTcpWorld (with_tcp_callbacks true true true newTcp) os [])
              (newParser now) (start newRouter)
              (mkEnv pool (default newContainer queues) 1) false false false [])
  end.

(** * What the data flow delivers *)

Section Delivery.
Context {W Q : Type} `{Sockets W} `{FifoQueue Z Q}.
Variable clock : nat -> Z.
Implicit Types g : FixGateway W Q.

(** The message behind [a] has the received fields of [x]. *)
Definition carries (p : FixMessagePool) (x : Specialisation * list (Z * bytes)) (a : Z) : Prop :=
  exists t m, deref p a = Some m /\
    fields_ m = set_all (decoded (fst x) (snd x)) (fields_ (newFixMessage t)).

(** The parser waits for a message, the pool and the queues are sound. *)
Record gateway_ok g : Prop := {
  go_ready : ready (gw_parser g);
  go_partial : partial_buffer_size_ (gw_parser g) = O;
  go_pool : pool_wf (env_pool (gw_env g));
  go_running : pool_is_shutdown_ (env_pool (gw_env g)) = false;
  go_queues : env_wf (gw_env g)
}.

(** Receiving the messages [l] took [g] to [g']: all are in the pool, at the addresses
    [addrs] of free slots, each its own, and the last one went to its queue, or was dropped for want of room; the messages that were
    there before keep their fields. *)
Record received (l : list (Specialisation * list (Z * bytes))) (addrs : list Z) (a : Z)
    (p : Priority) g g' : Prop := {
  rc_last : list.last addrs = Some a;
  rc_fields : Forall2 (carries (env_pool (gw_env g'))) l addrs;
  rc_priority : exists m, deref (env_pool (gw_env g')) a = Some m /\ p = type_priority (field_type m);
  rc_queued : queued (gw_env g') p = queued (gw_env g) p ++ take (room (gw_env g) p) [a];
  rc_others p' : p' <> p -> queued (gw_env g') p' = queued (gw_env g) p';
  rc_available :
    available (env_pool (gw_env g')) = available (env_pool (gw_env g)) - Z.of_nat (length l);
  rc_counted :
    messages_routed (stats_ (gw_router g')) + messages_dropped (stats_ (gw_router g')) =
    messages_routed (stats_ (gw_router g)) + messages_dropped (stats_ (gw_router g)) + 1;
  rc_callback :
    gw_events g' = gw_events g ++ (if gw_message_callback g then [MessageCallback a] else []);
  rc_connection : gw_tcp g' = gw_tcp g /\ gw_connected g' = gw_connected g;
  rc_kept b m : deref (env_pool (gw_env g)) b = Some m ->
    exists m', deref (env_pool (gw_env g')) b = Some m' /\ fields_ m' = fields_ m;
  rc_room : room (gw_env g') p = pred (room (gw_env g) p);
  rc_limit : max_message_size_ (gw_parser g') = max_message_size_ (gw_parser g);
  rc_layout : same_layout (env_pool (gw_env g)) (env_pool (gw_env g'));
  rc_own : NoDup addrs /\ Forall (fun b => deref (env_pool (gw_env g)) b = None) addrs
}.

(** The object the parser hands over routes by the type its fields carry. *)
Lemma holds_priority e x a :
  holds (env_pool e) x a ->
  exists m, deref (env_pool e) a = Some m /\ priority_of (Q:=Q) e a = Some (type_priority (field_type m)).
Proof.
  intros [t Ht]. eexists. split; [exact Ht|]. unfold priority_of. by rewrite Ht.
Qed.

Lemma carries_same e e' x a :
  same_messages (Q:=Q) e e' -> holds (env_pool e) x a -> carries (env_pool e') x a.
Proof.
  intros Hs [t Ht]. destruct (Hs a) as [Hf _]. rewrite Ht in Hf.
  destruct (deref (env_pool e') a) as [m|] eqn:Hm; [|done]. injection Hf as Hf.
  exists t, m. split; [exact Hm|exact Hf].
Qed.

(** [processParsedMessage] on a message of the pool *)
Lemma processParsedMessage_ok a m g :
  env_wf (gw_env g) -> deref (env_pool (gw_env g)) a = Some m ->
  exists r' e', processParsedMessage clock (Some a) g =
      (Ret tt, mkGateway (gw_tcp g) (gw_parser g) r' e' (gw_message_callback g) (gw_error_callback g)
                 (gw_connected g)
                 (gw_events g ++ (if gw_message_callback g then [MessageCallback a] else []))) /\
    env_wf e' /\
    env_pool e' = update_object (fun m => snd (getMsgTypeEnum m)) a (env_pool (gw_env g)) /\
    routed_exactly [Some a] (stats_ (gw_router g)) (stats_ r') (gw_env g) e'.
Proof.
  intros He Hm.
  destruct (route_one clock (Some a) (gw_router g) (gw_env g) He) as (r' & e' & E & He' & _ & Hp & Hx).
  { intros b Hb. injection Hb as <-. by exists m. }
  exists r', e'. split; [|by split_and!].
  assert (with_env (env_read getFieldsSummary a) g = (Ret (getFieldsSummary m), g)) as E1.
  { unfold with_env, env_read, env_call. rewrite Hm. simpl. rewrite update_object_id.
    by destruct g as [? ? ? [] ? ? ? ?]. }
  unfold processParsedMessage. rewrite (bind_ret _ _ _ _ _ E1). unfold bind, try_catch, with_router.
  rewrite E. cbn. by destruct (gw_message_callback g); [|rewrite app_nil_r].
Qed.

Lemma data_received l g :
  l <> [] -> Forall (fun x => hot_message (fst x) (max_message_size_ (gw_parser g)) (snd x)) l ->
  Z.of_nat (length (wires l)) < 2 ^ 62 -> gateway_ok g ->
  Z.of_nat (length l) <= available (env_pool (gw_env g)) ->
  exists addrs a p g', onTcpDataReceived clock (wires l) g = (Ret tt, g') /\
    received l addrs a p g g' /\ gateway_ok g'.
Proof.
  intros Hne Hhot Hlen [Hr Hpb Hpool Hsd Hq] Hav.
  set (w := mkWorld (gw_parser g) (env_pool (gw_env g)) (env_ticks (gw_env g))).
  destruct (delivered_batch clock l [] w) as (addrs & w' & E & Hh & Hnd & Hfresh & Hoth & Hav' & _ & Hpb' & Hr' & Hw' & Hrun & Hmax & Hlay);
    try done; [by rewrite app_nil_r|].
  rewrite app_nil_r in E.
  destruct (list.last addrs) as [a|] eqn:Hla.
  2: { apply last_None in Hla as ->. apply Forall2_length in Hh. by destruct l. }
  set (e1 := mkEnv (w_pool w') (env_queues (gw_env g)) (w_ticks w')).
  set (g1 := mkGateway (gw_tcp g) (w_parser w') (gw_router g) e1 (gw_message_callback g)
               (gw_error_callback g) (gw_connected g) (gw_events g)).
  assert (env_wf e1) as He1 by (by destruct Hq).
  assert (exists x, x ∈ l /\ holds (env_pool e1) x a) as (x & _ & Hx).
  { apply last_Some in Hla as [addrs0 ->]. apply Forall2_app_inv_r in Hh as (l1 & l2 & _ & H2 & ->).
    inversion H2; subst. eexists. split; [|done]. set_solver. }
  destruct (holds_priority e1 x a Hx) as (m & Hm & Hp).
  destruct (processParsedMessage_ok a m g1 He1 Hm) as (r' & e' & E' & He' & Hpool' & Hre).
  change (gw_env g1) with e1 in Hpool', Hre. change (gw_router g1) with (gw_router g) in Hre.
  set (p := type_priority (field_type m)) in *.
  eexists addrs, a, p, _. split; [|split].
  - unfold onTcpDataReceived, try_catch, bind, with_parser. fold w. rewrite E.
    unfold handle_result. cbn [status parsed_message]. fold e1 g1. rewrite E'. reflexivity.
  - pose proof (addressed_one e1 p p a Hp) as Ha. rewrite decide_True in Ha by done.
    split; cbn [gw_env gw_router gw_events gw_tcp gw_connected].
    + done.
    + eapply Forall2_impl; [exact Hh|]. intros y b Hy. by apply (carries_same e1); [apply Hre|].
    + exists (snd (getMsgTypeEnum m)). rewrite Hpool'.  rewrite update_object_deref, Hm. split; [done|].
      unfold p, field_type. by rewrite cached_fields.
    + rewrite (re_queued _ _ _ _ _ Hre p), Ha. done.
    + intros p' Hne'. rewrite (re_queued _ _ _ _ _ Hre p'), (addressed_one e1 p p' a Hp).
      rewrite decide_False by done. by rewrite take_nil, app_nil_r.
    + rewrite Hpool'. change (available (env_pool e1)) with (available (w_pool w')) in *.
      change (w_pool w) with (env_pool (gw_env g)) in Hav'. rewrite <- Hav'.
      unfold available, update_object. by destruct (slot_of _ _).
    + pose proof (re_every _ _ _ _ _ Hre) as Hc. pose proof (re_errors _ _ _ _ _ Hre) as Hc2.
      rewrite filter_cons_False, filter_nil in Hc2 by done. change (length [Some a]) with 1%nat in Hc.
      change (length []) with O in Hc2. lia.
    + done.
    + done.
    + intros b o Hb. destruct (slot_of (env_pool (gw_env g)) b) as [i|] eqn:Ei;
        [|unfold deref in Hb; by rewrite Ei in Hb].
      assert (deref (w_pool w') b = Some o) as Hb'.
      { rewrite <- Hb. eapply (deref_same _ _ b (Z.to_nat i)); [exact Hlay| |].
        - destruct (slot_of_inv _ _ _ (pw_bytes _ Hpool) Ei) as [Hi _]. by rewrite Z2Nat.id by lia.
        - apply Hoth. rewrite elem_of_live_set. exists o. unfold deref in Hb. rewrite Ei in Hb. simpl in Hb.
          change (w_pool w) with (env_pool (gw_env g)).
          destruct (pool_slots_ (env_pool (gw_env g)) !! Z.to_nat i) as [[?|]|]; by simplify_eq/=. }
      destruct (re_messages _ _ _ _ _ Hre b) as [Hf _].
      change (env_pool e1) with (w_pool w') in Hf. rewrite Hb' in Hf.
      destruct (deref (env_pool e') b) as [m'|]; [|done]. exists m'. split; [done|]. by simplify_eq/=.
    + rewrite (re_room _ _ _ _ _ Hre p), Ha. cbn [length]. change (room e1 p) with (room (gw_env g) p). lia.
    + exact Hmax.
    + rewrite Hpool'. destruct (update_object_same (fun m => snd (getMsgTypeEnum m)) a (w_pool w'))
        as (U1 & U2 & U3 & _). destruct Hlay as (L1 & L2 & L3).
      split_and!; [exact (eq_trans U1 L1)|exact (eq_trans U2 L2)|exact (eq_trans U3 L3)].
    + by split.
  - split; cbn [gw_env gw_parser]; try done.
    + rewrite Hpool'. by apply update_object_wf.
    + rewrite Hpool', (proj2 (proj2 (proj2 (update_object_same _ _ _)))).
      change (env_pool e1) with (w_pool w'). by rewrite Hrun.
Qed.

End Delivery.

(** * Offline *)

(** The calls of the interface and the turns of the receive thread *)
Inductive gateway_call :=
  | GConnect (host : bytes) (port : Z)
  | GDisconnect
  | GReceive
  | GSend (message : option Z)
  | GSendRaw (fix_message : bytes)
  | GSetMessageCallback (b : bool)
  | GSetErrorCallback (b : bool)
  | GSetMaxMessageSize (max_size : Z)
  | GSetValidateChecksum (validate : bool)
  | GSetStrictValidation (strict : bool)
  | GResetStats.

Section Offline.
Context {W Q : Type} `{Sockets W} `{FifoQueue Z Q} `{FieldOrder}.
Variable clock : nat -> Z.
Implicit Types g : FixGateway W Q.

Definition run_gateway (c : gateway_call) : M (FixGateway W Q) unit :=
  match c with
  | GConnect host port => gateway_connect clock host port ;;; ret tt
  | GDisconnect => gateway_disconnect clock
  | GReceive => gateway_receive clock ;;; ret tt
  | GSend message => gateway_sendMessage clock message ;;; ret tt
  | GSendRaw m => sendRawMessage clock m ;;; ret tt
  | GSetMessageCallback b => gateway_setMessageCallback b
  | GSetErrorCallback b => gateway_setErrorCallback b
  | GSetMaxMessageSize n => gateway_setMaxMessageSize n
  | GSetValidateChecksum b => gateway_setValidateChecksum b
  | GSetStrictValidation b => gateway_setStrictValidation b
  | GResetStats => gateway_resetParserStats
  end.

(** States after calls that may throw *)
Inductive gateway_reach (g0 : FixGateway W Q) : FixGateway W Q -> Prop :=
  | greach_start : gateway_reach g0 g0
  | greach_call g c : gateway_reach g0 g -> gateway_reach g0 (snd (run_gateway c g)).

(** The connection is down and the queues are as they were. *)
Definition off (w0 : W) (qs : list Q) g : Prop :=
  offline w0 (gw_tcp g) /\ env_queues (gw_env g) = qs.

Definition stays {A} (P : FixGateway W Q -> Prop) (m : M (FixGateway W Q) A) : Prop :=
  forall g, P g -> P (snd (m g)).

Lemma stays_bind {A B} P (m : M (FixGateway W Q) A) (k : A -> M (FixGateway W Q) B) :
  stays P m -> (forall a, stays P (k a)) -> stays P (bind m k).
Proof.
  intros Hm Hk g Hg. specialize (Hm g Hg). unfold bind.
  destruct (m g) as [[a| | |] g'] eqn:E; simpl in *; try done. by apply Hk.
Qed.

Lemma stays_catch {A} P (m h : M (FixGateway W Q) A) : stays P m -> stays P h -> stays P (try_catch m h).
Proof.
  intros Hm Hh g Hg. specialize (Hm g Hg). unfold try_catch.
  destruct (m g) as [[a| | |] g'] eqn:E; simpl in *; try done. by apply Hh.
Qed.

Lemma stays_report w0 qs e : stays (off w0 qs) (report e).
Proof. intros g Hg. unfold report. by destruct (gw_error_callback g). Qed.

Lemma stays_callbacks w0 qs events :
  (forall d, OnData d ∉ events) -> stays (off w0 qs) (run_callbacks clock events).
Proof.
  induction events as [|e events IH]; intros Hn; [by intros g|].
  assert (stays (off w0 qs) (run_callbacks clock events)) as Hr
    by (apply IH; intros d; specialize (Hn d); set_solver).
  destruct e as [d|text|]; cbn [run_callbacks]; [by destruct (Hn d); left| |].
  - apply stays_bind; [apply stays_report|by intros _].
  - apply stays_bind; [|by intros _]. apply stays_bind; [by intros g|intros _; apply stays_report].
Qed.

Lemma stays_tcp {A} w0 qs (m : M (TcpWorld W) A) :
  keeps (offline w0) m -> stays (off w0 qs) (with_tcp clock m).
Proof.
  intros Hm g [Ho Hq]. specialize (Hm _ Ho). unfold with_tcp.
  destruct (m (gw_tcp g)) as [o t]. simpl in Hm.
  apply (stays_bind (off w0 qs)); [apply stays_callbacks|by intros _ g'|by split].
  intros d Hd. apply (of_data _ _ Hm d). by eapply subseteq_drop.
Qed.

Lemma keeps_stuck {A} w0 (m : M (TcpWorld W) A) a :
  (forall s, offline w0 s -> m s = (Ret a, s)) -> keeps (offline w0) m.
Proof. intros Hm s Hs. by rewrite Hm. Qed.

Lemma run_gateway_off w0 qs c : stays (off w0 qs) (run_gateway c).
Proof.
  assert (forall A (a : A), stays (off w0 qs) (ret a)) as Hret by (by intros A a g).
  assert (forall b, stays (off w0 qs) (modify (set_online b))) as Hon by (by intros b g).
  assert (forall data, keeps (offline w0) (tcp_send data)) as Hsend
    by (intros data; eapply keeps_stuck; intros s Hs; by apply (idle_send _ (idle_offline w0))).
  destruct c as [host port| | |message|m|b|b|n|v|st|]; cbn [run_gateway]; try (by intros g).
  - apply stays_bind; [|done]. intros g Hg. unfold gateway_connect, bind at 1, get_st.
    destruct (gw_connected g); [done|]. revert g Hg. apply stays_bind; [apply stays_tcp, idle_connect, idle_offline|].
    intros []; [|done]. apply stays_bind; [done|intros _]. apply stays_bind; [|by intros _].
    apply stays_tcp. eapply keeps_stuck. intros s Hs. by apply (idle_start _ (idle_offline w0)).
  - intros g Hg. unfold gateway_disconnect, bind at 1, get_st. destruct (gw_connected g); [|done].
    revert g Hg. apply stays_bind; [|by intros _]. apply stays_tcp. eapply keeps_stuck.
    intros s Hs. by apply (idle_disconnect _ (idle_offline w0)).
  - apply stays_bind; [|done]. apply stays_tcp. intros s Hs.
    by destruct (idle_receive _ (idle_offline w0) s Hs) as [-> ?].
  - apply stays_bind; [|done]. intros g Hg. unfold gateway_sendMessage, bind at 1, get_st.
    destruct message as [msg|]; [|done]. destruct (gw_connected g); [|done]. revert g Hg.
    apply stays_catch; [|done]. apply stays_bind; [|intros text; by apply stays_tcp].
    intros g [Ho Hq]. unfold with_env, env_call. by destruct (deref _ msg).
  - apply stays_bind; [|done]. intros g Hg. unfold sendRawMessage, bind at 1, get_st.
    destruct (gw_connected g); [|done]. revert g Hg. by apply stays_tcp.
Qed.

(** A gateway never comes online: whatever is called, [isConnected] is false, raw sends are refused,
    no byte is written and no message reaches a queue, although [connect] may return true
    and set the gateway's own flag. *)
Lemma gateway_never_online w0 g0 g :
  offline w0 (gw_tcp g0) -> gateway_reach g0 g ->
  gateway_isConnected g = false /\ wire (gw_tcp g) = sys_sent w0 /\
  env_queues (gw_env g) = env_queues (gw_env g0) /\
  (forall m, fst (sendRawMessage clock m g) = Ret false).
Proof.
  intros H0' Hr. assert (off w0 (env_queues (gw_env g0)) g) as [Ho Hq].
  { induction Hr as [|g c _ IH]; [by split|]. by apply run_gateway_off. }
  split; [|split; [apply Ho|split; [done|]]].
  - unfold gateway_isConnected. by rewrite (of_connected _ _ Ho), andb_false_r.
  - intros m. unfold sendRawMessage, bind, get_st. destruct (gw_connected g); [|done].
    unfold with_tcp. rewrite (idle_send _ (idle_offline w0)) by done. by rewrite drop_all.
Qed.
End Offline.

Lemma newGateway_offline {W} `{Sockets W} now n start_ slot qs (os : W) g :
  newGateway now n start_ slot qs os = Some g -> offline os (gw_tcp g).
Proof.
  unfold newGateway. destruct (newPool _ _ _); [|done]. injection 1 as <-. split; try done.
  intros d. apply not_elem_of_nil.
Qed.

(** A new gateway with its own queues is ready for data. *)
Lemma newGateway_ok {W} now n st slot (os : W) g :
  0 < n <= 2147483648 -> 0 < slot -> newGateway now n st slot None os = Some g -> gateway_ok g.
Proof.
  intros Hn Hs. unfold newGateway. destruct (newPool n st slot) as [p|] eqn:E; [|done].
  injection 1 as <-. split; cbn; [by repeat split|done|by eapply newPool_wf| |apply newContainer_wf].
  unfold newPool in E. destruct (n =? 0); [done|]. destruct st; [|done]. by injection E as <-.
Qed.

(** * Properties *)

Section Theorems.
Context {W Q : Type} `{Sockets W} `{FifoQueue Z Q}.
Variable clock : nat -> Z.
Implicit Types g : FixGateway W Q.

(** C3: from the data callback to the queues: when the connection hands the gateway a buffer of
    complete messages of the optimised types, the gateway decodes every one of them into a
    pool slot of its own with exactly its fields, and appends the last one, and nothing
    else, to the queue of the priority of its type, or drops it when that queue is full;
    the router counts it, the user's callback is called with it once, the messages that
    were in the pool keep their fields, and the gateway is ready for the next buffer.  The
    other messages of the buffer are in no queue. *)
Theorem gateway_delivers l g :
  l <> [] -> Forall (fun x => hot_message (fst x) (max_message_size_ (gw_parser g)) (snd x)) l ->
  Z.of_nat (length (wires l)) < 2 ^ 62 -> gateway_ok g ->
  Z.of_nat (length l) <= available (env_pool (gw_env g)) ->
  exists addrs a p g', onTcpDataReceived clock (wires l) g = (Ret tt, g') /\
    received l addrs a p g g' /\ gateway_ok g'.
Proof. apply data_received. Qed.
End Theorems.

(** * Witness *)

Definition two_heartbeats : list (Specialisation * list (Z * bytes)) :=
  [(sp_heartbeat, sample_fields); (sp_heartbeat, sample_fields)].

(** A new gateway, and the same after the user gave it a message callback *)
Definition fresh_gateway : FixGateway bytes (LockFreeQueue Z) :=
  mkGateway (mkTcpWorld (with_tcp_callbacks true true true newTcp) [] []) (newParser 0)
    (start newRouter) (mkEnv (default sample_pool (newPool 2 (Some 4096) 64)) newContainer 1)
    false false false [].
Definition sample_gateway : FixGateway bytes (LockFreeQueue Z) :=
  snd (gateway_setMessageCallback true fresh_gateway).

Lemma fresh_gateway_new : newGateway 0 2 (Some 4096) 64 None [] = Some fresh_gateway.
Proof. reflexivity. Qed.

Lemma sample_gateway_ok : gateway_ok sample_gateway.
Proof.
  destruct (newGateway_ok 0 2 (Some 4096) 64 [] fresh_gateway); [lia|lia|apply fresh_gateway_new|].
  by split.
Qed.

Lemma gateway_delivers_witness :
  exists a g',
    onTcpDataReceived (fun _ => 0) (wires two_heartbeats) sample_gateway = (Ret tt, g') /\
    queued (gw_env g') LOW = [a] /\ gw_events g' = [MessageCallback a] /\
    available (env_pool (gw_env g')) = 0.
Proof.
  destruct (gateway_delivers (fun _ => 0) two_heartbeats sample_gateway)
    as (addrs & a & p & g' & E & Hx & _).
  - discriminate.
  - repeat (apply Forall_cons; split; [apply sample_hot|]). constructor.
  - vm_compute. reflexivity.
  - apply sample_gateway_ok.
  - vm_compute. discriminate.
  - exists a, g'. split; [exact E|]. pose proof (rc_callback _ _ _ _ _ _ Hx) as Hc.
    split; [|split; [exact Hc|exact (rc_available _ _ _ _ _ _ Hx)]].
    assert (g' = snd (onTcpDataReceived (fun _ => 0) (wires two_heartbeats) sample_gateway)) as Eg
      by (rewrite E; reflexivity).
    clear E. rewrite Eg in Hc |- *. clear - Hc. vm_compute in Hc. injection Hc as <-.
    vm_compute. reflexivity.
Defined.
