(* ===== verification/EndToEnd.v ===== *)
(** The way of a request through the whole program: the bytes of test and resend requests
    arrive, one message per segment, at the gateway's data callback; the parser decodes
    them, the router queues them, the session takes them from that queue and queues the
    answers.

    The repository contains no code that wires a gateway to a session; [attach] stands for
    the application's: the session works on the gateway's pool, has its own outbound
    queues ([setOutboundQueues]) and, as its inbound queue, the gateway's queue of the
    priority its messages are routed to ([setInboundQueue]).  The gateway hands its pool out
    as a raw pointer ([getMessagePool]) and [setMessagePool] takes a [shared_ptr], so the
    application has to wrap it without ownership. *)
From S2P Require Import Prelude FixFields LockFreeQueue QueueInterface MessagePool FixMessage ParserState Framing OptimizedParser StreamParser ParserDelivery PriorityQueues MessageRouter GapManager SessionManager SessionSending SessionProperties SessionAnswers TcpConnection Gateway.

(** * Requests on the wire *)

Definition request_special (r : request) : Specialisation :=
  match r with RTest _ => sp_test_request | RResend _ _ => sp_resend_request end.

(** The body fields of the request [r] with the number [n], sent at [time] by the
    counterparty of the session [c]. *)
Definition request_fields (c : SessionConfig) (n : Z) (r : request) (time : bytes) : list (Z * bytes) :=
  [(Tag.MsgType, request_type r); (Tag.SenderCompID, cfg_target_comp_id c);
   (Tag.TargetCompID, cfg_sender_comp_id c); (Tag.MsgSeqNum, to_string n); (Tag.SendingTime, time)] ++
  match r with
  | RTest id => [(Tag.TestReqID, id)]
  | RResend first last => [(Tag.BeginSeqNo, to_string first); (Tag.EndSeqNo, to_string last)]
  end.

(** The segments that carry the requests [rs], numbered from [n]. *)
Fixpoint segments_of (c : SessionConfig) (n : Z) (rs : list (request * bytes)) : list bytes :=
  match rs with
  | [] => []
  | (r, time) :: rs => OptimizedParser.wire (request_fields c n r time) :: segments_of c (n + 1) rs
  end.

(** The request can be sent and decoded: the texts hold no delimiter, the numbers asked
    for are ints, and the message fits the parser's limits. *)
Record sendable (c : SessionConfig) (max n : Z) (r : request) (time : bytes) : Prop := {
  sd_sender : FIX_SOH ∉ cfg_target_comp_id c;
  sd_target : FIX_SOH ∉ cfg_sender_comp_id c;
  sd_time : FIX_SOH ∉ time;
  sd_body : match r with
            | RTest id => FIX_SOH ∉ id
            | RResend first last => int32_range first /\ int32_range last
            end;
  sd_length : Z.of_nat (length (printFields (request_fields c n r time))) <= wrap32 max;
  sd_min : (sp_min_length (request_special r) <= length (wire_front (request_fields c n r time)))%nat;
  sd_memory : Z.of_nat (length (OptimizedParser.wire (request_fields c n r time))) < 2 ^ 62
}.

Fixpoint well_formed (c : SessionConfig) (max n : Z) (rs : list (request * bytes)) : Prop :=
  match rs with
  | [] => True
  | (r, time) :: rs => sendable c max n r time /\ well_formed c max (n + 1) rs
  end.

(** Such a request is one of the messages the optimised decoders take. *)
Lemma sendable_hot c max n r time :
  sendable c max n r time -> hot_message (request_special r) max (request_fields c n r time).
Proof.
  intros [H1 H2 H3 Hb Hl Hm _]. split; [|by destruct r; eexists| |done|done].
  - destruct r; unfold specialisations; set_solver.
  - assert (forall z, FIX_SOH ∉ to_string z) as Hz by (intros z; apply to_string_no_special; by right).
    unfold request_fields. apply Forall_app. split.
    + repeat apply Forall_cons_2; try apply Forall_nil_2; split; try done; try apply Hz.
      destruct r; refine (bool_decide_unpack _ _); by vm_compute.
    + destruct r; repeat apply Forall_cons_2; try apply Forall_nil_2; split; try done; apply Hz.
Qed.

(** The fields of the body, each given once, are found in the decoded message. *)
Lemma decoded_lookup sp fs m k v :
  NoDup fs.*1 -> (k, v) ∈ fs -> k <> Tag.CheckSum -> set_all (decoded sp fs) m !! k = Some v.
Proof.
  intros Hd Hin Hk. unfold decoded, set_all. rewrite !fold_left_app. cbn [fold_left].
  rewrite lookup_insert_ne by done. by apply (set_all_lookup fs).
Qed.

Lemma request_tags c n r time : NoDup (request_fields c n r time).*1.
Proof. destruct r; refine (bool_decide_unpack _ _); by vm_compute. Qed.

(** A decoded message carries its request. *)
Lemma carried_request (pool : FixMessagePool) c max n r time a :
  carries pool (request_special r, request_fields c n r time) a ->
  sendable c max n r time ->
  exists m, deref pool a = Some m /\ is_request c n r m.
Proof.
  intros (t & m & Hd & Hf) Hr. exists m. split; [done|]. cbn [fst snd] in Hf.
  assert (forall i k v, request_fields c n r time !! i = Some (k, v) -> k <> Tag.CheckSum ->
            getField k m = Some v) as Hg.
  { intros i k v Hin Hk. unfold getField. rewrite Hf.
    by apply decoded_lookup; [apply request_tags|eapply list_elem_of_lookup_2|]. }
  split; [by apply (Hg 0%nat)|by apply (Hg 1%nat)|by apply (Hg 2%nat)|by apply (Hg 3%nat)|].
  pose proof (sd_body _ _ _ _ _ Hr) as Hb.
  destruct r as [id|first last]; [by apply (Hg 5%nat)|]. destruct Hb.
  by split_and!; [apply (Hg 5%nat)|apply (Hg 6%nat)|..].
Qed.

Lemma is_request_fields c n r m m' :
  fields_ m' = fields_ m -> is_request c n r m -> is_request c n r m'.
Proof. intros E [H1 H2 H3 H4 H5]. unfold getField in *. by split; unfold getField; rewrite ?E. Qed.

(** * From the segments to the queue *)

Section EndToEnd.
Context {W Q GQ : Type} `{SW : Sockets W} `{QF : FifoQueue Z Q} `{GF : FifoQueue GapQueueEntry GQ}.
Variable clock : nat -> Z.
Implicit Types (g : FixGateway W Q) (s : FixSessionManager Q GQ).

(** The data callback for each segment in turn. *)
Fixpoint receive_all (segments : list bytes) : M (FixGateway W Q) unit :=
  match segments with
  | [] => ret tt
  | data :: segments => onTcpDataReceived clock data ;;; receive_all segments
  end.

(** The MEDIUM queue holds the requests [l], numbered from [n]. *)
Record inbox (c : SessionConfig) (n : Z) (l : list (Z * request)) g : Prop := {
  ib_queue : queued (gw_env g) MEDIUM = map fst l;
  ib_requests k a r : l !! k = Some (a, r) ->
    a <> 0 /\ exists m, deref (env_pool (gw_env g)) a = Some m /\ is_request c (n + Z.of_nat k) r m
}.

Lemma live_not_null (p : FixMessagePool) a m :
  pool_wf p -> 0 < pool_start_ p -> deref p a = Some m -> a <> 0.
Proof.
  intros Hw Hs Hd. unfold deref in Hd. destruct (slot_of p a) as [i|] eqn:E; [|done].
  destruct (slot_of_inv _ _ _ (pw_bytes _ Hw) E) as [Hi ->]. pose proof (pw_bytes _ Hw).
  unfold addr_of. nia.
Qed.

(** Requests are routed by their type. *)
Lemma request_priority c n r m : is_request c n r m -> type_priority (field_type m) = MEDIUM.
Proof. intros Hm. pose proof (rq_type _ _ _ _ Hm) as E. unfold field_type, getField in *. rewrite E. by destruct r. Qed.

(** One segment adds its request to the queue. *)
Lemma receive_request c n r time l g :
  sendable c (max_message_size_ (gw_parser g)) (n + Z.of_nat (length l)) r time -> gateway_ok g -> 0 < pool_start_ (env_pool (gw_env g)) ->
  0 < available (env_pool (gw_env g)) -> (0 < room (gw_env g) MEDIUM)%nat -> inbox c n l g ->
  exists a g', onTcpDataReceived clock (OptimizedParser.wire (request_fields c (n + Z.of_nat (length l)) r time)) g
               = (Ret tt, g') /\
    gateway_ok g' /\ inbox c n (l ++ [(a, r)]) g' /\
    max_message_size_ (gw_parser g') = max_message_size_ (gw_parser g) /\
    pool_start_ (env_pool (gw_env g')) = pool_start_ (env_pool (gw_env g)) /\
    available (env_pool (gw_env g')) = available (env_pool (gw_env g)) - 1 /\
    S (room (gw_env g') MEDIUM) = room (gw_env g) MEDIUM.
Proof.
  intros Hr. pose proof (sendable_hot _ _ _ _ _ Hr) as Hhot.
  pose proof (sd_memory _ _ _ _ _ Hr) as Hlen. revert Hhot Hlen.
  set (fs := request_fields _ _ _ _). intros Hhot Hlen Hok Hst Hav Hroom [Hq Hl].
  set (x := (request_special r, fs)).
  assert (wires [x] = OptimizedParser.wire fs) as Ew by (rewrite wires_cons; apply app_nil_r).
  destruct (data_received clock [x] g) as (addrs & a & p & g' & E & Hx & Hok').
  { done. }
  { by constructor. }
  { by rewrite Ew. }
  { done. }
  { cbn [length]. lia. }
  rewrite Ew in E. destruct Hx as [Hlast Hf Hp Hqd Hoth Hava Hcnt Hcb Hcon Hkept Hrm Hlim (_ & Hlay & _) _].
  assert (addrs = [a]) as ->.
  { apply Forall2_length in Hf. destruct addrs as [|b [|]]; try done. by injection Hlast as ->. }
  apply Forall2_cons_1 in Hf as [Hc _].
  destruct (carried_request _ _ _ _ _ _ _ Hc Hr) as (m & Hd & Hm).
  destruct Hp as (m' & Hd' & ->). rewrite Hd in Hd'. injection Hd' as <-.
  rewrite (request_priority _ _ _ _ Hm) in *.
  exists a, g'. split; [done|]. split; [done|]. split; [|split_and!; try done; lia].
  split.
  - rewrite Hqd, take_ge, map_app, Hq by (cbn [length]; lia). done.
  - intros k b q Hk. apply lookup_snoc_Some in Hk as [[Hk Hlk]|[-> Hb]].
    + destruct (Hl k b q Hlk) as (Hb & m' & Hm1 & Hm2). split; [done|].
      destruct (Hkept b m' Hm1) as (m2 & Hm3 & Hm4). exists m2. split; [done|]. by eapply is_request_fields.
    + injection Hb as <- <-. split; [|by exists m].
      eapply live_not_null; [apply Hok'|by rewrite Hlay|exact Hd].
Qed.

(** The segments in turn. *)
Lemma receive_requests c n rs : forall l g,
  well_formed c (max_message_size_ (gw_parser g)) (n + Z.of_nat (length l)) rs ->
  gateway_ok g -> 0 < pool_start_ (env_pool (gw_env g)) ->
  Z.of_nat (length rs) <= available (env_pool (gw_env g)) ->
  (length rs <= room (gw_env g) MEDIUM)%nat -> inbox c n l g ->
  exists addrs g', receive_all (segments_of c (n + Z.of_nat (length l)) rs) g = (Ret tt, g') /\
    length addrs = length rs /\ gateway_ok g' /\ inbox c n (l ++ zip addrs (map fst rs)) g' /\
    pool_start_ (env_pool (gw_env g')) = pool_start_ (env_pool (gw_env g)) /\
    available (env_pool (gw_env g')) = available (env_pool (gw_env g)) - Z.of_nat (length rs) /\
    (room (gw_env g') MEDIUM + length rs = room (gw_env g) MEDIUM)%nat.
Proof.
  induction rs as [|[r time] rs IH]; intros l g Hwf Hok Hst Hav Hroom Hin; cbn [length] in *.
  { exists [], g. rewrite app_nil_r. split_and!; try done; cbn [length]; lia. }
  destruct Hwf as [Hr Hwf].
  destruct (receive_request c n r time l g Hr Hok Hst ltac:(lia) ltac:(lia) Hin)
    as (a & g1 & E1 & Hok1 & Hin1 & Hmax & Hst1 & Hav1 & Hrm1).
  assert (n + Z.of_nat (length l) + 1 = n + Z.of_nat (length (l ++ [(a, r)]))) as En
    by (rewrite length_app; cbn [length]; lia).
  destruct (IH (l ++ [(a, r)]) g1) as (addrs & g2 & E2 & Hl2 & Hok2 & Hin2 & Hst2 & Hav2 & Hrm2).
  { rewrite Hmax, <- En. exact Hwf. }
  { done. }
  { by rewrite Hst1. }
  { lia. }
  { lia. }
  { done. }
  exists (a :: addrs), g2. cbn [segments_of receive_all].
  rewrite (bind_ret _ _ _ _ _ E1), En. split; [exact E2|].
  split; [cbn [length]; lia|]. split; [done|]. split; [|split_and!; [congruence|lia|lia]].
  cbn [map zip_with]. by rewrite <- app_assoc in Hin2.
Qed.

(** * From the queue to the answers *)

(** The session [s] linked to the gateway [g]: the gateway's pool, its MEDIUM queue as
    inbound queue, and the outbound queues [outbound]. *)
Definition attach g s (outbound : list Q) (ticks : nat) : FixSessionManager Q GQ * Env Q :=
  (on_inbound (fun b => mkInbound (running_ b) (env_queues (gw_env g) !! getPriorityIndex MEDIUM)
                 (outbound_set b) (stats_ b) (processing_start_time_ b)) s,
   mkEnv (env_pool (gw_env g)) outbound ticks).

Lemma filter_zip (addrs : list Z) (rs : list request) p :
  length addrs = length rs ->
  length (filter (fun x => queue_of x = p) (zip addrs rs))
  = length (filter (fun r => send_priority (answer r) = p) rs).
Proof.
  revert rs. induction addrs as [|a addrs IH]; intros [|r rs] E; try done.
  cbn [zip_with]. injection E as E. rewrite !filter_cons.
  unfold queue_of at 1. cbn [snd]. destruct (decide (send_priority (answer r) = p)); cbn [length]; by rewrite IH.
Qed.

(** What the gateway delivered waits at the session. *)
Lemma inbox_waits g s outbound ticks l :
  gateway_ok g -> (0 < room (gw_env g) MEDIUM)%nat ->
  inbox (config_ s) (expected_incoming_seq_num_ (s_core s)) l g -> serving s ->
  0 < expected_incoming_seq_num_ (s_core s) ->
  expected_incoming_seq_num_ (s_core s) + Z.of_nat (length l) <= 2147483647 ->
  Z.of_nat (length l) <= available (env_pool (gw_env g)) ->
  env_wf (mkEnv (env_pool (gw_env g)) outbound ticks) ->
  (forall p, (length (filter (fun x => queue_of x = p) l)
              <= room (mkEnv (env_pool (gw_env g)) outbound ticks) p)%nat) ->
  waiting (fst (attach g s outbound ticks)) (snd (attach g s outbound ticks)) l.
Proof.
  intros [_ _ Hpw Hrun Hq] Hroom [Hqd Hl] Hs H0 Hn Hav He Hr.
  destruct (env_queue_at _ MEDIUM Hq) as (q & Eq & Hqw).
  split; cbn [attach fst snd]; try done.
  - by destruct Hs.
  - exists q. unfold on_inbound. cbn [s_inbound inbound_queue_]. rewrite Eq. unfold queued, room in *. rewrite Eq in *.
    split_and!; try done. unfold q_room in Hroom. by destruct (q_open q); [|lia].
Qed.

(** C4: a request on the wire is answered.  Let the segments [segments_of] carry test and
    resend requests of the counterparty, numbered from the number the session expects, one
    message per segment, arriving at a gateway whose MEDIUM queue is empty and has a place
    to spare, with two free slots of the pool per request.  Then the data callback takes
    every segment without an exception, and the session linked to that queue and pool,
    given as many turns as there are requests, answers them all: the [k]-th request lies
    in the pool at the [k]-th of [addrs], its answer at the [k]-th of [bs], with its own
    consecutive number and the identifier of the test request or the number after the
    last one asked for, at the back of the queue of its priority; nothing is left to
    process, and the session expects the number behind the last request. *)
Theorem requests_served turns rs g s outbound ticks :
  let c := config_ s in
  let n := expected_incoming_seq_num_ (s_core s) in
  let e := mkEnv (env_pool (gw_env g)) outbound ticks in
  gateway_ok g -> 0 < pool_start_ (env_pool (gw_env g)) -> queued (gw_env g) MEDIUM = [] ->
  (length rs < room (gw_env g) MEDIUM)%nat ->
  2 * Z.of_nat (length rs) <= available (env_pool (gw_env g)) ->
  well_formed c (max_message_size_ (gw_parser g)) n rs ->
  serving s -> running_ (s_inbound s) = true ->
  0 < n -> n + Z.of_nat (length rs) <= 2147483647 -> env_wf e ->
  (forall p, (length (filter (fun r => send_priority (answer r) = p) rs.*1) <= room e p)%nat) ->
  (length rs <= turns)%nat ->
  exists addrs g' bs s' e',
    receive_all (segments_of c n rs) g = (Ret tt, g') /\
    processMessages clock turns (attach g' s outbound ticks) = (Ret tt, (s', e')) /\
    length addrs = length rs /\
    answered s (snd (attach g' s outbound ticks)) (zip addrs rs.*1) bs e' /\
    waiting s' e' [] /\
    expected_incoming_seq_num_ (s_core s') = n + Z.of_nat (length rs).
Proof.
  intros c n e Hok Hst Hemp Hroom Hav Hwf Hs Hrun H0 Hn He Hr Ht.
  destruct (receive_requests c n rs [] g) as (addrs & g' & E & Hl & Hok' & Hin & _ & Hav' & Hroom').
  { by rewrite Z.add_0_r. }
  { done. }
  { done. }
  { lia. }
  { lia. }
  { by split. }
  cbn [length app] in *. rewrite Z.add_0_r in E.
  assert (length (zip addrs rs.*1) = length rs) as Hlz
    by (rewrite length_zip_with, length_fmap; lia).
  assert (waiting (fst (attach g' s outbound ticks)) (snd (attach g' s outbound ticks)) (zip addrs rs.*1)) as Hw.
  { apply inbox_waits; try done; try (rewrite Hlz; lia); try lia.
    - by destruct He.
    - intros p. rewrite filter_zip by (by rewrite length_fmap). apply Hr. }
  destruct (wt_queue _ _ _ Hw) as (q & Hq & _).
  destruct (loop_answers clock (zip addrs rs.*1) turns _ _ Hw ltac:(lia)) as (bs & s' & e' & E' & Ha & Hw' & Hx).
  exists addrs, g', bs, s', e'. split; [done|].
  split; [by rewrite (surjective_pairing (attach _ _ _ _)), (running_loop clock turns _ _ q)|].
  split; [done|]. split; [by destruct Ha|]. split; [done|]. by rewrite Hx, Hlz.
Qed.
End EndToEnd.

(** * An instance: a test request and a resend request *)

Definition two_segments : list (request * bytes) :=
  [(RTest (str "PING"), str "20240102-09:30:00.000"); (RResend 5 7, str "20240102-09:30:01.000")].

(** A new gateway with a pool of four messages *)
Definition serving_gateway : FixGateway bytes (LockFreeQueue Z) :=
  mkGateway (mkTcpWorld (with_tcp_callbacks true true true newTcp) [] [])
    (newParser 0) (MessageRouter.start newRouter)
    (mkEnv match newPool 4 (Some 4096) 64 with Some p => p | None => sample_pool end newContainer 1)
    false false false [].

Lemma serving_gateway_new : newGateway 0 4 (Some 4096) 64 None [] = Some serving_gateway.
Proof. reflexivity. Qed.

Lemma serving_gateway_ok : gateway_ok serving_gateway.
Proof.
  apply (newGateway_ok 0 4 (Some 4096) 64 []); [lia|lia|apply serving_gateway_new].
Qed.

Lemma two_segments_ok : well_formed sample_config 8192 1 two_segments.
Proof.
  repeat split; try (refine (bool_decide_unpack _ _); by vm_compute); by vm_compute.
Qed.

(** The heartbeat is in the HIGH queue, the sequence reset in the CRITICAL one, and the
    pool is used up. *)
Lemma requests_served_witness :
  exists g' b1 b2 s' e',
    receive_all (fun _ => 0) (segments_of sample_config 1 two_segments) serving_gateway = (Ret tt, g') /\
    processMessages (fun _ => 0) 2 (attach g' request_session newContainer 0) = (Ret tt, (s', e')) /\
    queued e' HIGH = [b1] /\ queued e' CRITICAL = [b2] /\
    expected_incoming_seq_num_ (s_core s') = 3.
Proof.
  destruct (requests_served (fun _ => 0) 2 two_segments serving_gateway request_session newContainer 0)
    as (addrs & g' & bs & s' & e' & E1 & E2 & La & [Lb Hq _ _ _] & _ & Hx).
  - apply serving_gateway_ok.
  - reflexivity.
  - reflexivity.
  - refine (bool_decide_unpack _ _). by vm_compute.
  - by vm_compute.
  - apply two_segments_ok.
  - by split.
  - reflexivity.
  - reflexivity.
  - by vm_compute.
  - apply newContainer_wf.
  - intros []; refine (bool_decide_unpack _ _); by vm_compute.
  - reflexivity.
  - destruct addrs as [|a1 [|a2 [|]]]; try discriminate La.
    destruct bs as [|b1 [|b2 [|]]]; try discriminate Lb.
    exists g', b1, b2, s', e'. split; [exact E1|]. split; [exact E2|].
    split; [exact (Hq HIGH)|]. split; [exact (Hq CRITICAL)|exact Hx].
Defined.
