(* ===== verification/UsageExample.v ===== *)
(** [examples/fix_gateway_usage_example.cpp]: a program that uses the gateway.
    [TradingSystem] prints what the callbacks are given; [main] configures a gateway, connects
    it, sends a heartbeat, and prints statistics once in ten seconds until the connection is
    lost.

    The state is the gateway and the lines printed.  The work the receiving thread does
    while the main loop sleeps is the number of turns it makes, an argument of the loop. *)
From S2P Require Import Prelude FixFields Doubles LockFreeQueue QueueInterface MessagePool FixMessage ParserState Framing OptimizedParser StreamParser ParserMoves PriorityQueues MessageSending MessageRouter TcpConnection Gateway.

Inductive printed := Out (line : bytes) | Err (line : bytes).

(** * [TradingSystem] *)

Definition detail (name : string) (value : bytes) : printed := Out (str "  " ++ str name ++ str ": " ++ value).

Definition handleNewOrder (m : FixMessage) : list printed :=
  [Out (str "Processing New Order:"); detail "ClOrdID" (getClOrdID m); detail "Symbol" (getSymbol m);
   detail "Side" (getSide m); detail "Quantity" (getOrderQty m); detail "Price" (getPrice m)].
Definition handleExecutionReport (m : FixMessage) : list printed :=
  [Out (str "Processing Execution Report:"); detail "ClOrdID" (getClOrdID m); detail "Symbol" (getSymbol m)].
Definition trading_handleHeartbeat : list printed := [Out (str "Received Heartbeat - connection alive")].

(** [handleFixMessage]; [None] is the null pointer. *)
Definition handleFixMessage (message : option FixMessage) : list printed :=
  match message with
  | None => [Err (str "Null message received!")]
  | Some m =>
      let msgType := getMsgType m in
      [Out []; Out (str "=== Received FIX Message ==="); Out (str "Message Type: " ++ msgType);
       Out (str "Summary: " ++ getFieldsSummary m)] ++
      (if bool_decide (msgType = str "D") then handleNewOrder m
       else if bool_decide (msgType = str "8") then handleExecutionReport m
       else if bool_decide (msgType = str "0") then trading_handleHeartbeat
       else [Out (str "Unknown message type: " ++ msgType)])
  end.
Definition handleError (error : bytes) : list printed := [Err (str "ERROR: " ++ error)].

(** * [main] *)

Section Usage.
Context {W Q : Type} `{SW : Sockets W} `{QF : FifoQueue Z Q}.
Variable clock : nat -> Z.
(** Texts the model does not follow: the parser's detail, an exception's, a [double]'s *)
Variables (error_detail what : bytes) (show_double : double -> bytes).
Implicit Types g : FixGateway W Q.

Abbreviation U := (M (FixGateway W Q * list printed)).

Definition print (l : printed) : U unit := modify (fun s => (fst s, snd s ++ [l])).
Definition prints (ls : list printed) : U unit := modify (fun s => (fst s, snd s ++ ls)).
Definition the_gateway : U (FixGateway W Q) := fun s => (Ret (fst s), s).

(** The texts [onTcpDataReceived], [onTcpError] and [onTcpDisconnect] give the error callback *)
Definition report_text (e : gateway_error) : bytes :=
  match e with
  | ParseErrorReport => str "Parse error: " ++ error_detail
  | ChecksumReport => str "Checksum validation failed"
  | AllocationReport => str "Message pool allocation failed"
  | ParseExceptionReport => str "Parse exception: " ++ what
  | TcpErrorReport text => str "TCP error: " ++ text
  | ConnectionLostReport => str "Connection lost"
  end.

(** The two lambdas [main] registers *)
Definition usage_callback (e : gateway_event) : U unit :=
  match e with
  | MessageCallback a =>
      g <-- the_gateway ;;
      match deref (env_pool (gw_env g)) a with
      | Some m => prints (handleFixMessage (Some m))
      | None => ub
      end
  | ErrorCallback e => prints (handleError (report_text e))
  end.
Fixpoint usage_callbacks (es : list gateway_event) : U unit :=
  match es with [] => ret tt | e :: es => usage_callback e ;;; usage_callbacks es end.

(** An operation of the gateway with the callbacks it makes *)
Definition on_gateway {A} (m : M (FixGateway W Q) A) : U A :=
  fun s => let '(o, g) := m (fst s) in
           (usage_callbacks (drop (length (gw_events (fst s))) (gw_events g)) ;;; (fun s' => (o, s')))
             (g, snd s).

(** The statistics, in the order printed *)
Definition print_statistics : U unit :=
  g <-- the_gateway ;;
  let stats := getParserStats (gw_parser g) in
  let pool := env_pool (gw_env g) in
  print (Out []) ;;; print (Out (str "=== Performance Statistics ===")) ;;;
  print (Out (str "Messages parsed: " ++ to_string (messages_parsed stats))) ;;;
  print (Out (str "Parse errors: " ++ to_string (parse_errors stats))) ;;;
  print (Out (str "Average parse time: " ++ show_double (getAverageParseTimeNs stats) ++ str " ns")) ;;;
  print (Out (str "Pool allocations: " ++ to_string (total_allocations_ pool))) ;;;
  print (Out (str "Pool capacity: " ++ to_string (pool_size_ pool))) ;;;
  print (Out (str "Pool available: " ++ to_string (available pool))).

(** The turns of the receiving thread during one second *)
Fixpoint receive_turns (n : nat) : U unit :=
  match n with O => ret tt | S n => on_gateway (gateway_receive clock) ;;; receive_turns n end.

(** [while (gateway.isConnected())]; [turns] has one entry per second, and the loop may not
    outlast it. *)
Fixpoint message_loop (turns : list nat) (counter : Z) : U unit :=
  g <-- the_gateway ;;
  if gateway_isConnected g then
    match turns with
    | [] => nofuel
    | n :: turns =>
        receive_turns n ;;;
        if counter =? 2147483647 then ub
        else
          (if Z.rem (counter + 1) 10 =? 0 then print_statistics else ret tt) ;;;
          message_loop turns (counter + 1)
    end
  else ret tt.

Definition test_heartbeat : bytes :=
  str "8=FIX.4.4" ++ [1] ++ str "9=49" ++ [1] ++ str "35=0" ++ [1] ++ str "49=CLIENT" ++ [1] ++
  str "56=SERVER" ++ [1] ++ str "34=1" ++ [1] ++ str "52=20231215-10:30:00" ++ [1] ++ str "10=123" ++ [1].

Definition usage_body (turns : list nat) : U Z :=
  on_gateway (gateway_setMessageCallback true) ;;;
  on_gateway (gateway_setErrorCallback true) ;;;
  on_gateway (gateway_setMaxMessageSize 16384) ;;;
  on_gateway (gateway_setValidateChecksum true) ;;;
  on_gateway (gateway_setStrictValidation true) ;;;
  print (Out []) ;;; print (Out (str "Connecting to FIX server...")) ;;;
  ok <-- on_gateway (gateway_connect clock (str "localhost") 8080) ;;
  if negb ok then print (Err (str "Failed to connect to FIX server!")) ;;; ret 1
  else
    print (Out (str "Connected successfully!")) ;;;
    on_gateway (sendRawMessage clock test_heartbeat) ;;;
    print (Out []) ;;; print (Out (str "Listening for FIX messages...")) ;;;
    print (Out (str "Press Ctrl+C to exit")) ;;;
    message_loop turns 0 ;;;
    on_gateway (gateway_disconnect clock) ;;;
    print (Out (str "Disconnected from FIX server")) ;;;
    ret 0.

(** [main], with the gateway constructed.  Leaving the block destroys the gateway, before
    the handler when it is left by an exception. *)
Definition usage_main (turns : list nat) : U Z :=
  print (Out (str "FIX Gateway Integration Example")) ;;;
  print (Out (str "===============================")) ;;;
  try_catch
    (r <-- try_catch (usage_body turns) (on_gateway (destroyGateway clock) ;;; throw) ;;
     on_gateway (destroyGateway clock) ;;; ret r)
    (print (Err (str "Exception: " ++ what)) ;;; ret 1).

(** * What it does *)

(** From a gateway that is offline, [m] returns a value of [R] or throws; the gateway stays
    offline, its queues and the calls of its callbacks as they were. *)
Definition still (w0 : W) (qs : list Q) (evs : list gateway_event) g : Prop :=
  off w0 qs g /\ gw_events g = evs.
Definition calm {S A} (P : S -> Prop) (R : A -> Prop) (m : M S A) : Prop :=
  forall s, P s -> P (m s).2 /\ ((m s).1 = Throw \/ exists a, (m s).1 = Ret a /\ R a).

Section Calm.
Context {S : Type} (P : S -> Prop).

Lemma calm_ret {A} (R : A -> Prop) a : R a -> calm P R (ret a).
Proof. intros Ha s Hs. split; [done|]. right. by exists a. Qed.
Lemma calm_throw {A} (R : A -> Prop) : calm P R throw.
Proof. intros s Hs. by split; [|left]. Qed.
Lemma calm_bind {A B} (R : A -> Prop) (R' : B -> Prop) (m : M S A) (k : A -> M S B) :
  calm P R m -> (forall a, R a -> calm P R' (k a)) -> calm P R' (bind m k).
Proof.
  intros Hm Hk s Hs. destruct (Hm s Hs) as [H1 H2]. unfold bind.
  destruct (m s) as [o s1]. cbn [fst snd] in *. destruct H2 as [->|(a & -> & Ha)].
  - split; [done|by left].
  - by apply Hk.
Qed.
Lemma calm_catch {A} (R : A -> Prop) (m h : M S A) : calm P R m -> calm P R h -> calm P R (try_catch m h).
Proof.
  intros Hm Hh s Hs. destruct (Hm s Hs) as [H1 H2]. unfold try_catch.
  destruct (m s) as [o s1]. cbn [fst snd] in *. destruct H2 as [->|(a & -> & Ha)]; [by apply Hh|].
  split; [done|]. right. by exists a.
Qed.
Lemma calm_weaken {A} (R R' : A -> Prop) (m : M S A) : (forall a, R a -> R' a) -> calm P R m -> calm P R' m.
Proof. intros HR Hm s Hs. destruct (Hm s Hs) as [H1 [H2|(a & H2 & Ha)]]; split; eauto. Qed.
Lemma calm_modify (f : S -> S) : (forall s, P s -> P (f s)) -> calm P (fun _ => True) (modify f).
Proof. intros Hf s Hs. split; [by apply Hf|]. right. by exists tt. Qed.
End Calm.

Lemma calm_connect evs host port :
  calm (fun t : TcpWorld W => tw_events t = evs) (fun _ => True) (tcp_connect host port).
Proof.
  unfold tcp_connect, setupSocketAddress, createSocket, configureSocket, require_option, try_option.
  repeat first
    [ apply calm_ret; exact I | apply calm_throw | apply calm_modify; by intros ?
    | apply (calm_bind _ (fun _ => True)); [|intros ? _]
    | match goal with |- calm _ _ (if ?b then _ else _) => destruct b end
    | match goal with |- calm _ _ (match ?o with _ => _ end) => destruct o end
    | intros ? ?; split; [done|right; eexists; split; [reflexivity|exact I]] ].
Qed.

Section Offline.
Variables (w0 : W) (qs : list Q) (evs : list gateway_event).
Abbreviation calm_g := (calm (still w0 qs evs) (fun _ => True)).
Abbreviation calm_u := (calm (fun s => still w0 qs evs (fst s)) (fun _ => True)).

(** An operation of the connection that leaves it offline and calls no callback *)
Lemma calm_tcp {A} (m : M (TcpWorld W) A) :
  (forall e, calm (fun t => tw_events t = e) (fun _ => True) m) -> keeps (offline w0) m ->
  calm_g (with_tcp clock m).
Proof.
  intros Hm Hk g [[Ho Hq] He]. destruct (Hm _ (gw_tcp g) eq_refl) as [Hev Hout].
  specialize (Hk _ Ho). unfold with_tcp. destruct (m (gw_tcp g)) as [o t].
  cbn [fst snd] in *. rewrite Hev, drop_all. cbn.
  destruct Hout as [->|(a & -> & _)]; (split; [done|]); [by left|right; by exists a].
Qed.

Lemma calm_stuck {A} (m : M (TcpWorld W) A) a :
  (forall t, offline w0 t -> m t = (Ret a, t)) -> calm_g (with_tcp clock m).
Proof.
  intros Hm g [[Ho Hq] He]. unfold with_tcp. rewrite Hm by done. rewrite drop_all. cbn.
  split; [done|right; by exists a].
Qed.

Lemma calm_read {A} (m : FixGateway W Q -> M (FixGateway W Q) A) :
  (forall g, calm_g (m g)) -> calm_g (g <-- get_st ;; m g).
Proof. intros Hm g Hg. by apply (Hm g g Hg). Qed.

(** The interface of a gateway that is offline *)
Lemma calm_gateway host port data :
  calm_g (gateway_connect clock host port) /\ calm_g (sendRawMessage clock data) /\
  calm_g (gateway_disconnect clock) /\ calm_g (destroyGateway clock).
Proof.
  assert (calm_g (gateway_disconnect clock)) as Hd.
  { apply calm_read. intros g. destruct (gw_connected g); [|by apply calm_ret].
    apply (calm_bind _ (fun _ => True)); [|intros _ _; by apply calm_modify].
    eapply calm_stuck, idle_disconnect, idle_offline. }
  split_and!; [| |done|].
  - apply calm_read. intros g. destruct (gw_connected g); [by apply calm_ret|].
    apply (calm_bind _ (fun _ => True)); [apply calm_tcp; [intros e; apply calm_connect|apply idle_connect, idle_offline]|].
    intros [] _; [|by apply calm_ret]. apply (calm_bind _ (fun _ => True)); [by apply calm_modify|intros _ _].
    apply (calm_bind _ (fun _ => True)); [|intros _ _; by apply calm_ret]. eapply calm_stuck, idle_start, idle_offline.
  - apply calm_read. intros g. destruct (gw_connected g); [|by apply calm_ret].
    eapply calm_stuck. intros t Ht. by apply (idle_send _ (idle_offline w0)).
  - apply (calm_bind _ (fun _ => True)); [|by intros _ _]. intros g Hg. split; [done|]. right. by exists tt.
Qed.

Lemma calm_on_gateway {A} (m : M (FixGateway W Q) A) : calm_g m -> calm_u (on_gateway m).
Proof.
  intros Hm [g out] Hg. destruct (Hm g Hg) as [Hs Ho]. unfold on_gateway. cbn [fst snd] in *.
  destruct (m g) as [o g'] eqn:E. cbn [fst snd] in *. destruct Hg as [_ ->], Hs as [Hs He].
  rewrite He, drop_all. by cbn.
Qed.

(** The loop ends when it starts, whatever is to be received. *)
Lemma message_loop_ends turns counter s :
  still w0 qs evs (fst s) -> message_loop turns counter s = (Ret tt, s).
Proof.
  intros [[Ho _] _].
  assert (gateway_isConnected (fst s) = false) as Hc
    by (unfold gateway_isConnected; by rewrite (of_connected _ _ Ho), andb_false_r).
  destruct turns; cbn [message_loop]; unfold bind, the_gateway; by rewrite Hc.
Qed.

Lemma calm_print l : calm_u (print l).
Proof. by apply calm_modify. Qed.

Lemma calm_seq {A} (R : A -> Prop) (m : U unit) (k : U A) :
  calm_u m -> calm (fun s => still w0 qs evs (fst s)) R k ->
  calm (fun s => still w0 qs evs (fst s)) R (m ;;; k).
Proof. intros Hm Hk. apply (calm_bind _ (fun _ => True)); [done|by intros _ _]. Qed.

Lemma calm_body turns :
  calm (fun s => still w0 qs evs (fst s)) (fun r => r = 0 \/ r = 1) (usage_body turns).
Proof.
  destruct (calm_gateway (str "localhost") 8080 test_heartbeat) as (Hc & Hs & Hd & _).
  do 5 (apply calm_seq; [apply calm_on_gateway; intros g Hg; split; [done|]; right; by exists tt|]).
  do 2 (apply calm_seq; [apply calm_print|]).
  apply (calm_bind _ (fun _ => True)); [by apply calm_on_gateway|]. intros [] _; cbn [negb].
  2: { apply calm_seq; [apply calm_print|apply calm_ret; by right]. }
  apply calm_seq; [apply calm_print|].
  apply (calm_bind _ (fun _ => True)); [by apply calm_on_gateway|]. intros _ _.
  do 3 (apply calm_seq; [apply calm_print|]).
  apply calm_seq; [intros s Hg; rewrite message_loop_ends by done; split; [done|right; by exists tt]|].
  apply calm_seq; [by apply calm_on_gateway|]. apply calm_seq; [apply calm_print|].
  apply calm_ret. by left.
Qed.

(** [main] returns 0 or 1, with the gateway offline. *)
Lemma usage_returns turns s :
  still w0 qs evs (fst s) ->
  exists r s', usage_main turns s = (Ret r, s') /\ (r = 0 \/ r = 1) /\ still w0 qs evs (fst s').
Proof.
  intros Hs. destruct (calm_gateway [] 0 []) as (_ & _ & _ & Hd).
  set (body := r <-- try_catch (usage_body turns) (on_gateway (destroyGateway clock) ;;; throw) ;;
               on_gateway (destroyGateway clock) ;;; ret r).
  assert (calm (fun s => still w0 qs evs (fst s)) (fun r => r = 0 \/ r = 1) body) as Hb.
  { eapply calm_bind.
    - apply calm_catch; [apply calm_body|]. apply calm_seq; [by apply calm_on_gateway|apply calm_throw].
    - intros r Hr. apply calm_seq; [by apply calm_on_gateway|by apply calm_ret]. }
  unfold usage_main. fold body. unfold bind, print, modify, try_catch.
  match goal with |- context [body ?x] => destruct (Hb x Hs) as [H1 H2]; destruct (body x) as [o s1] end.
  cbn [fst snd] in *. destruct H2 as [->|(r & -> & Hr)]; [|by exists r, s1].
  eexists 1, _. split; [reflexivity|]. by split; [right|].
Qed.
End Offline.
End Usage.

(** The example ends as soon as it has connected: whatever the server sends, [isConnected]
    is false when the loop first asks, so that [main] returns without having received or
    written anything; neither callback is called, and no statistics can be printed. *)
Lemma usage_ends_at_once {W} `{SW : Sockets W} clock error_detail what show_double
    now start_ slot (os : W) g turns :
  newGateway now 8192 start_ slot None os = Some g ->
  exists r g' out,
    usage_main clock error_detail what show_double turns (g, []) = (Ret r, (g', out)) /\
    (r = 0 \/ r = 1) /\ gateway_isConnected g' = false /\ wire (gw_tcp g') = sys_sent os /\
    env_queues (gw_env g') = newContainer /\ gw_events g' = [].
Proof.
  intros Hn. pose proof (newGateway_offline _ _ _ _ _ _ _ Hn) as Ho.
  assert (still os newContainer [] g) as Hs.
  { revert Hn. unfold newGateway. destruct (newPool _ _ _); [|done]. by intros [= <-]. }
  destruct (usage_returns clock error_detail what show_double _ _ _ turns (g, []) Hs)
    as (r & [g' out] & E & Hr & [[Ho' Hq] He]). cbn [fst] in *.
  exists r, g', out. split_and!; try done; [|apply Ho'].
  unfold gateway_isConnected. by rewrite (of_connected _ _ Ho'), andb_false_r.
Qed.

(** What the callback prints for the order of the file's sample output, which has a blank
    line that the code does not print before [Processing] *)
Definition sample_order : FixMessage :=
  setField 44 (str "150.50") (setField 38 (str "100") (setField 54 (str "1") (setField 55 (str "AAPL")
    (setField 11 (str "ORDER123") (setField 34 (str "1") (setField 35 (str "D") (newFixMessage 0))))))).

Lemma order_printed :
  handleFixMessage (Some sample_order) =
  map (fun line => Out (str line))
    [EmptyString; "=== Received FIX Message ==="; "Message Type: D";
     "Summary: MsgType=D ClOrdID=ORDER123 Symbol=AAPL Side=1 MsgSeqNum=1";
     "Processing New Order:"; "  ClOrdID: ORDER123"; "  Symbol: AAPL"; "  Side: 1";
     "  Quantity: 100"; "  Price: 150.50"]%string.
Proof. by vm_compute. Qed.

(** A whole run against a server that accepts the connection *)
Definition sample_run : option (outcome Z * list printed) :=
  g ← newGateway 0 8192 (Some 4096) 512 None ([] : bytes);
  let r := usage_main (fun _ => 0) [] [] (fun _ => []) [] (g, []) in Some (r.1, r.2.2).

Lemma run_printed :
  sample_run = Some (Ret 0, map (fun line => Out (str line))
    ["FIX Gateway Integration Example"; "==============================="; EmptyString;
     "Connecting to FIX server..."; "Connected successfully!"; EmptyString;
     "Listening for FIX messages..."; "Press Ctrl+C to exit"; "Disconnected from FIX server"]%string).
Proof. by vm_compute. Qed.
