(* ===== verification/Conformance.v ===== *)
(** The repository's own examples and tests, run on the model: the scenarios of
    [examples/parser_buffer_demo.cpp] and of [tests/test_stream_fix_parser_comprehensive.cpp],
    [test_message_router.cpp], [test_sequence_num_gap_manager.cpp] and
    [test_fix_session_manager.cpp], each a computation with the values the test expects.
    They check the definitions against the authors' expectations; where the two differ, the
    statement says what the code does. *)
From S2P Require Import Prelude FixFields Doubles LockFreeQueue QueueInterface MessagePool FixMessage ParserState Framing OptimizedParser StreamParser ParserMoves PriorityQueues MessageSending MessageRouter GapManager SessionManager OutboundMessage MutexQueue TcpConnection AsyncSender AsyncSenderManager Logger Summaries.

(** A text with the delimiter written as a bar *)
Definition fix_text (s : string) : bytes := map (fun b => if b =? 124 then FIX_SOH else b) (str s).

(** * The parser *)
Module ParserTests.

(** The fixture: a parser as constructed, then configured, and a pool *)
Definition fixture : World :=
  mkWorld (setStrictValidation true (setValidateChecksum true (setMaxMessageSize 8192 (newParser 0))))
    match newPool 16 (Some 4096) 64 with Some p => p | None => sample_pool end 0.

(** [create...]: the message around a body, with length and checksum *)
Definition create (body : string) : bytes :=
  let b := fix_text body in
  let msg := fix_text "8=FIX.4.4|9=" ++ to_string (Z.of_nat (length b)) ++ [FIX_SOH] ++ b in
  msg ++ str "10=" ++ pad 3 (to_string (fold_left (fun s c => u8 (s + c)) msg 0)) ++ [FIX_SOH].
Definition executionReport := create "35=8|49=SENDER|56=TARGET|34=1|52=20231201-12:00:00|".
Definition orderCancelReject :=
  create "35=9|49=EXCHANGE|56=CLIENT|34=125|52=20231201-10:32:00|11=ORDER002|37=REJECT001|39=8|102=0|".
Definition reject :=
  create "35=3|49=EXCHANGE|56=CLIENT|34=126|52=20231201-10:33:00|45=100|371=35|372=D|373=1|58=Invalid message type|".
Definition testRequest := create "35=1|49=EXCHANGE|56=CLIENT|34=127|52=20231201-10:34:00|112=TEST123|".
Definition resendRequest := create "35=2|49=EXCHANGE|56=CLIENT|34=128|52=20231201-10:35:00|7=50|16=75|".
Definition heartbeat := create "35=0|49=SENDER|56=TARGET|34=124|52=20231201-10:31:00|".

Definition clock (n : nat) : Z := 100 * Z.of_nat n.

(** [parse(msg.c_str(), msg.length())]: the text and its terminating NUL are readable. *)
Definition parse_text (msg : bytes) : P ParseResult := parse clock (Some (msg ++ [0])) (length msg).

(** Status, bytes consumed, and MsgType of the message returned *)
Definition outcome_of (x : outcome ParseResult * World) : outcome (ParseStatus * Z * option bytes) :=
  match fst x with
  | Ret r => Ret (status r, bytes_consumed r,
                  parsed_message r ≫= fun a => deref (w_pool (snd x)) a ≫= getField Tag.MsgType)
  | Throw => Throw
  | NoFuel => NoFuel
  | Ub => Ub
  end.

(** ParseCompleteExecutionReport, ParseCompleteHeartbeat, ParseCompleteOrderCancelReject,
    ParseSessionMessages: each is parsed, completely, and has its type. *)
Lemma parser_complete_messages :
  map (fun m => outcome_of (parse_text m fixture))
    [executionReport; heartbeat; orderCancelReject; reject; testRequest; resendRequest]
  = map (fun '(m, t) => Ret (Success, Z.of_nat (length m), Some (str t)))
      [(executionReport, "8"%string); (heartbeat, "0"%string); (orderCancelReject, "9"%string);
       (reject, "3"%string); (testRequest, "1"%string); (resendRequest, "2"%string)].
Proof. by vm_compute. Qed.

(** A message in two halves: the outcomes, and what is known between them *)
Definition in_halves (msg : bytes) (w : World) :=
  let n := (length msg / 2)%nat in
  let x := parse_text (take n msg) w in
  let y := parse_text (drop n msg) (snd x) in
  (outcome_of x, hasPartialMessage (w_parser (snd x)), getPartialMessageSize (w_parser (snd x)), outcome_of y).

(** HandlePartialMessageReassembly, HandleMultiplePartialMessages *)
Lemma parser_partial_messages :
  in_halves executionReport fixture = (Ret (NeedMoreData, 0, None), true, 36%nat, Ret (Success, 73, Some (str "8"))) /\
  in_halves heartbeat fixture = (Ret (NeedMoreData, 0, None), true, 37%nat, Ret (Success, 75, Some (str "0"))).
Proof. by vm_compute. Qed.

(** HandleMalformedBeginString, HandleInvalidBodyLength, HandleChecksumValidation *)
Definition bad_checksum : bytes :=
  fix_text "8=FIX.4.4|9=58|35=0|49=SENDER|56=TARGET|34=1|52=20231201-12:00:00|10=999|".

Lemma parser_malformed_messages :
  map (fun m => match parse_text m fixture with
                | (Ret r, _) => Some (status r, parsed_message r)
                | _ => None
                end)
    [fix_text "INVALID_START|9=20|35=0|10=123|"; fix_text "8=FIX.4.4|9=INVALID|35=0|10=123|"; bad_checksum]
  = [Some (InvalidFormat, None); Some (InvalidFormat, None); Some (ChecksumError, None)].
Proof. by vm_compute. Qed.

(** ConfigurationOptions expects success when the checksum is not validated.  The message
    counts its checksum field as part of the body, so the decoder looks for the field behind
    the end of the text: the call reads outside the array. *)
Lemma unvalidated_checksum_overreads :
  fst (parse_text bad_checksum
         (mkWorld (setValidateChecksum false (w_parser fixture)) (w_pool fixture) 0)) = Ub.
Proof. by vm_compute. Qed.

(** VerifyInitialState, VerifyStateTransitions, VerifyStateAfterSuccessfulParse *)
Lemma parser_states :
  getCurrentState (w_parser fixture) = IDLE /\ isInErrorRecovery (w_parser fixture) = false /\
  isValidStateTransition IDLE PARSING_BEGIN_STRING = true /\
  isValidStateTransition IDLE MESSAGE_COMPLETE = false /\
  getCurrentState (w_parser (snd (parse_text heartbeat fixture))) = IDLE.
Proof. by vm_compute. Qed.

(** CircuitBreakerActivation: with a limit of two errors the breaker is active after three
    bad messages, and inactive after [resetErrorRecovery]. *)
Definition breaker_test : P (bool * bool) :=
  let bad := parse_text (str "INVALID_FIX_MESSAGE") in
  update_parser (fun p => setErrorRecoveryEnabled true (setMaxConsecutiveErrors 2 p)) ;;;
  bad ;;; bad ;;; bad ;;;
  before <-- isCircuitBreakerActive clock ;;
  resetErrorRecovery clock ;;;
  after <-- isCircuitBreakerActive clock ;;
  ret (before, after).
Lemma parser_circuit_breaker : fst (breaker_test fixture) = Ret (true, false).
Proof. by vm_compute. Qed.

(** StatisticsTracking *)
Definition counts (w : World) : Z * Z :=
  (messages_parsed (getParserStats (w_parser w)), parse_errors (getParserStats (w_parser w))).
Lemma parser_statistics :
  let w1 := snd (parse_text executionReport fixture) in
  let w2 := snd (parse_text (str "INVALID_BEGIN_STRING") w1) in
  counts fixture = (0, 0) /\ counts w1 = (1, 0) /\ counts w2 = (1, 1).
Proof. by vm_compute. Qed.
End ParserTests.

(** * The parser demonstration *)
Module BufferDemo.

(** The message of the demonstration; its BodyLength counts the checksum field. *)
Definition fix_message : bytes := fix_text
  "8=FIX.4.4|9=110|35=D|49=CLIENT|56=BROKER|34=1|52=20231215-10:30:00|11=ORDER123|55=AAPL|54=1|38=100|44=150.50|40=2|59=0|10=123|".

(** The loop over the fields: the tag up to the next '=', the value up to the next SOH, and
    the end at tag 10.  [None] when a delimiter is missing. *)
Fixpoint demo_fields (fuel : nat) (text : bytes) : option (list (Z * bytes)) :=
  match fuel with
  | O => None
  | S f =>
      match text with
      | [] => Some []
      | _ =>
          equals ← index_of 61 text;
          let field_tag := fold_left (fun n c => wrap32 (n * 10 + (c - 48))) (take equals text) 0 in
          let rest := drop (S equals) text in
          soh ← index_of FIX_SOH rest;
          let field := (field_tag, take soh rest) in
          if field_tag =? 10 then Some [field]
          else fields ← demo_fields f (drop (S soh) rest); Some (field :: fields)
      end
  end.

(** [visualizeBuffer]: the content, with the bytes that cannot be printed in brackets *)
Definition visible (c : Z) : bytes :=
  if c =? FIX_SOH then str "[SOH]"
  else if (32 <=? c) && (c <=? 126) then [c]
  else str "[" ++ to_string (if 127 <? c then c - 256 else c) ++ str "]".
Definition visualizeBuffer (buffer : bytes) : bytes := mjoin (map visible buffer).

(** The demonstration without checksum validation: the outcome, the fields it prints, and
    the counters of the parser *)
Definition demo_parser : World :=
  mkWorld (setValidateChecksum false (newParser 0)) (w_pool ParserTests.fixture) 0.
Definition demo :=
  match ParserTests.parse_text fix_message demo_parser with
  | (Ret r, w) =>
      (Some (status r, bytes_consumed r),
       (fun a => (fun m => (getMsgType m, getClOrdID m, getSymbol m, getSide m, getOrderQty m, getPrice m))
                   <$> deref (w_pool w) a) <$> parsed_message r,
       ParserTests.counts w)
  | (_, w) => (None, None, ParserTests.counts w)
  end.

(** The output the file ends with, but for the number of bytes: the text has 126, where the
    comment says 148. *)
Lemma demo_output :
  demo = (Some (Success, 126),
          Some (Some (str "D", str "ORDER123", str "AAPL", str "1", str "100", str "150.50")), (1, 0)) /\
  length fix_message = 126%nat.
Proof. by vm_compute. Qed.

(** The loop finds the fields the message was written with. *)
Lemma demo_fields_found :
  demo_fields 20 fix_message = Some
    [(8, str "FIX.4.4"); (9, str "110"); (35, str "D"); (49, str "CLIENT"); (56, str "BROKER");
     (34, str "1"); (52, str "20231215-10:30:00"); (11, str "ORDER123"); (55, str "AAPL"); (54, str "1");
     (38, str "100"); (44, str "150.50"); (40, str "2"); (59, str "0"); (10, str "123")].
Proof. by vm_compute. Qed.

End BufferDemo.

(** * The router *)
Module RouterTests.
Definition env0 : Env (LockFreeQueue Z) := mkEnv (w_pool ParserTests.fixture) newContainer 0.
Definition clock (n : nat) : Z := Z.of_nat n.

(** [createTestMessage(type)] *)
Definition createTestMessage (t : FixMsgType) : M (MessageRouter * Env (LockFreeQueue Z)) (option Z) :=
  m <-- on_env (env_allocate clock) ;;
  match m with
  | Some a => on_env (env_update (setField Tag.MsgType (msgTypeToString t)) a) ;;; ret (Some a)
  | None => ret None
  end.

Fixpoint createAll (ts : list FixMsgType) : M (MessageRouter * Env (LockFreeQueue Z)) (list (option Z)) :=
  match ts with
  | [] => ret []
  | t :: ts => m <-- createTestMessage t ;; ms <-- createAll ts ;; ret (m :: ms)
  end.

(** How many messages each queue holds *)
Definition depths (e : Env (LockFreeQueue Z)) : list nat :=
  map (fun p => length (queued e p)) [CRITICAL; HIGH; MEDIUM; LOW].

(** CriticalPriorityMessages, HighPriorityMessages, MediumPriorityMessages,
    LowPriorityMessages, UnknownMessageType *)
Definition route_one (t : FixMsgType) : list nat :=
  depths (snd (snd ((m <-- createTestMessage t ;; routeMessage clock m) (MessageRouter.start newRouter, env0)))).
Lemma router_priorities :
  map route_one [EXECUTION_REPORT; MARKET_DATA_REQUEST; LOGON; HEARTBEAT; UNKNOWN]
  = [[1; 0; 0; 0]; [0; 1; 0; 0]; [0; 0; 1; 0]; [0; 0; 0; 1]; [0; 0; 0; 1]]%nat.
Proof. by vm_compute. Qed.

(** HandleNullMessage *)
Lemma router_null_message :
  let r := fst (snd (routeMessage clock None (MessageRouter.start newRouter, env0))) in
  routing_errors (MessageRouter.stats_ r) = 1 /\ messages_routed (MessageRouter.stats_ r) = 0.
Proof. by vm_compute. Qed.

(** BatchRouting, BatchRoutingWithNullArray *)
Definition batch : list FixMsgType :=
  [EXECUTION_REPORT; MARKET_DATA_REQUEST; LOGON; HEARTBEAT; EXECUTION_REPORT; MARKET_DATA_REQUEST; LOGON;
   HEARTBEAT; EXECUTION_REPORT; MARKET_DATA_REQUEST].
Lemma router_batch :
  depths (snd (snd ((ms <-- createAll batch ;; routeMessages clock (Some ms) 10) (MessageRouter.start newRouter, env0))))
  = [3; 3; 2; 2]%nat /\
  messages_routed (MessageRouter.stats_ (fst (snd ((routeMessages clock None 10 ;;;
      m <-- createTestMessage HEARTBEAT ;; routeMessages clock (Some [m]) 0) (MessageRouter.start newRouter, env0))))) = 0.
Proof. by vm_compute. Qed.

(** StartAndStop, StatisticsReset *)
Lemma router_lifecycle :
  MessageRouter.running_ (MessageRouter.start newRouter) = true /\ MessageRouter.running_ (MessageRouter.stop (MessageRouter.start newRouter)) = false /\
  let r := fst (snd ((m <-- createTestMessage EXECUTION_REPORT ;; routeMessage clock m) (MessageRouter.start newRouter, env0))) in
  messages_routed (MessageRouter.stats_ r) = 1 /\ messages_routed (MessageRouter.stats_ (MessageRouter.resetStats r)) = 0.
Proof. by vm_compute. Qed.
End RouterTests.

(** * The gap manager *)
Module GapTests.
Definition fixture : GapManager (LockFreeQueue GapQueueEntry) * Env (LockFreeQueue Z) :=
  (newGapManager (mkContext (str "CLIENT") (str "SERVER") 1), RouterTests.env0).
Abbreviation GM := (M (GapManager (LockFreeQueue GapQueueEntry) * Env (LockFreeQueue Z))).

Fixpoint add_all (ns : list Z) : GM unit :=
  match ns with [] => ret tt | n :: ns => addGapEntry RouterTests.clock n ;;; add_all ns end.
Fixpoint has_all (ns : list Z) : GM (list bool) :=
  match ns with [] => ret [] | n :: ns => b <-- hasGap n ;; bs <-- has_all ns ;; ret (b :: bs) end.
Definition gap_count : GM Z := fun s => (Ret (getGapCount (fst s)), s).

(** AddSingleGapEntry, AddMultipleGapEntries, LargeSequenceNumbers,
    ZeroAndNegativeSequenceNumbers, DuplicatePreventionWithDifferentSequences *)
Lemma gap_add_tests :
  map (fun ns => fst ((add_all ns ;;; c <-- gap_count ;; bs <-- has_all ns ;; ret (c, bs)) fixture))
    [[42]; [10; 15; 20; 25]; [2147483647]; [0; -1; -100]; [100; 200; 300; 100; 200; 400]]
  = [Ret (1, [true]); Ret (4, [true; true; true; true]); Ret (1, [true]); Ret (3, [true; true; true]);
     Ret (4, [true; true; true; true; true; true])].
Proof. by vm_compute. Qed.

(** ResolveGapEntry, ResolveNonExistentGap *)
Lemma gap_resolve_tests :
  fst ((add_all [100] ;;; b <-- resolveGapEntry 100 ;; c <-- gap_count ;; ret (b, c)) fixture) = Ret (true, 0) /\
  fst ((add_all [50] ;;; b <-- resolveGapEntry 99 ;; c <-- gap_count ;; h <-- hasGap 50 ;; ret (b, c, h)) fixture)
  = Ret (false, 1, true).
Proof. by vm_compute. Qed.

(** ClearAllGaps *)
Lemma gap_clear_test :
  fst ((add_all [1; 2; 3; 4; 5] ;;; n <-- gap_count ;; clearAllGaps ;;; c <-- gap_count ;;
        bs <-- has_all [1; 2; 3; 4; 5] ;; ret (n, c, bs)) fixture)
  = Ret (5, 0, [false; false; false; false; false]).
Proof. by vm_compute. Qed.

(** GapProcessingTriggersResendRequest: nothing is sent before the timeout.
    SessionContextSequenceNumberIncrement. *)
Lemma gap_early_pass :
  let x := (add_all [123] ;;; processGaps RouterTests.clock ;;; c <-- gap_count ;; n <-- getNextSeqNum ;; ret (c, n)) fixture in
  fst x = Ret (1, 1) /\ queued (snd (snd x)) CRITICAL = [] /\
  outgoing_seq_num (session_context_ (fst (snd x))) = 2.
Proof. by vm_compute. Qed.
End GapTests.

(** * The session *)
Module SessionTests.
Definition config : SessionConfig := mkConfig (str "CLIENT") (str "SERVER") 10 false 5 true.
Abbreviation Session := (FixSessionManager (LockFreeQueue Z) (LockFreeQueue GapQueueEntry)).
Abbreviation SM := (M (Session * Env (LockFreeQueue Z))).

(** The fixture: queues and pool are connected; the session has no gap manager of its own
    here. *)
Definition fixture : Session * Env (LockFreeQueue Z) :=
  snd ((setInboundQueue (Some (newQueue 0 1024 [])) ;;; setOutboundQueues true ;;; setMessagePool true)
         (newSession config None, RouterTests.env0)).

(** A message of the counterparty: type, number, and the fields of its own *)
Fixpoint fill_fields (a : Z) (fs : list (Z * bytes)) : SM unit :=
  match fs with
  | [] => ret tt
  | (tag, v) :: fs => on_env (env_update (setField tag v) a) ;;; fill_fields a fs
  end.
Definition incoming (type : string) (n : Z) (fs : list (Z * bytes)) : SM (option Z) :=
  m <-- on_env (env_allocate RouterTests.clock) ;;
  match m with
  | Some a =>
      fill_fields a ([(Tag.BeginString, str "FIX.4.4"); (Tag.MsgType, str type);
        (Tag.SenderCompID, str "SERVER"); (Tag.TargetCompID, str "CLIENT");
        (Tag.MsgSeqNum, to_string n); (Tag.SendingTime, str "20231201-10:30:00")] ++ fs) ;;;
      ret (Some a)
  | None => ret None
  end.
Definition logon (n : Z) : SM (option Z) := incoming "A" n [(Tag.HeartBtInt, str "10")].

(** [handleMessagePublic] *)
Definition handle (m : SM (option Z)) : SM bool := a <-- m ;; handleMessage RouterTests.clock a.
Definition process (m : SM (option Z)) : SM bool := a <-- m ;; processMessage RouterTests.clock a.
Definition state_now : SM SessionState := s <-- get_session ;; ret (session_state_ (s_core s)).
Definition expected_now : SM Z := s <-- get_session ;; ret (expected_incoming_seq_num_ (s_core s)).
Definition stats_now : SM SessionStats := s <-- get_session ;; ret (session_stats_ s).

Definition run {A} (m : SM A) : outcome A := fst (m fixture).

(** InitialConfiguration, ConfigurationUpdate, OutgoingSequenceNumbers, InvalidStateTransitions *)
Lemma session_configuration :
  run (st <-- state_now ;; n <-- expected_now ;; ret (st, n)) = Ret (DISCONNECTED, 1) /\
  run (updateHeartbeatInterval 30 ;;; setSequenceNumbers 10 5 ;;; n <-- expected_now ;;
       o <-- getNextOutgoingSeqNum ;; ret (n, o)) = Ret (10, 6) /\
  run (a <-- getNextOutgoingSeqNum ;; b <-- getNextOutgoingSeqNum ;; c <-- getNextOutgoingSeqNum ;;
       setSequenceNumbers 10 20 ;;; d <-- getNextOutgoingSeqNum ;; ret (b - a, c - a, d)) = Ret (1, 2, 21) /\
  run (b <-- initiateLogout RouterTests.clock [] ;; st <-- state_now ;; ret (b, st)) = Ret (false, DISCONNECTED).
Proof. by vm_compute. Qed.

(** SessionLifecycle *)
Definition lifecycle_run : SM (list (bool * SessionState)) :=
  let after m := b <-- m ;; st <-- state_now ;; ret (b, st) in
  SessionManager.start RouterTests.clock ;;;
  r1 <-- after (initiateLogon RouterTests.clock) ;;
  r2 <-- after (process (logon 1)) ;;
  r3 <-- after (initiateLogout RouterTests.clock (str "End of day")) ;;
  r4 <-- after (process (incoming "5" 2 [])) ;;
  SessionManager.stop ;;;
  ret [r1; r2; r3; r4].
Lemma session_lifecycle :
  run lifecycle_run = Ret [(true, LOGON_SENT); (true, LOGGED_ON); (true, LOGOUT_SENT); (true, DISCONNECTED)].
Proof. by vm_compute. Qed.

(** HandleLogonMessage, HandleHeartbeatMessage, HandleTestRequestMessage,
    HandleResendRequestMessage, HandleRejectMessage: after a logon each message is taken. *)
Definition after_logon (m : SM (option Z)) : SM (bool * bool * SessionState * Z) :=
  SessionManager.start RouterTests.clock ;;;
  a <-- handle (logon 1) ;; b <-- handle m ;; st <-- state_now ;; n <-- expected_now ;; ret (a, b, st, n).
Lemma session_messages :
  map (fun m => run (after_logon m))
    [incoming "0" 2 []; incoming "1" 2 [(Tag.TestReqID, str "TEST123")];
     incoming "2" 2 [(Tag.BeginSeqNo, str "1"); (Tag.EndSeqNo, str "3")];
     incoming "3" 2 [(Tag.RefSeqNum, str "1"); (Tag.Text, str "Invalid field")]]
  = replicate 4 (Ret (true, true, LOGGED_ON, 3)).
Proof. by vm_compute. Qed.

(** SessionStatistics *)
Lemma session_statistics :
  run (SessionManager.start RouterTests.clock ;;; handle (logon 1) ;;; handle (incoming "0" 2 []) ;;;
       handle (incoming "1" 3 [(Tag.TestReqID, str "TEST123")]) ;;; st <-- stats_now ;;
       ret (heartbeats_received st, test_requests_received st, current_state st))
  = Ret (1, 1, LOGGED_ON).
Proof. by vm_compute. Qed.

(** InvalidMessageHandling, InvalidSenderCompId, InvalidTargetCompId *)
Lemma session_refusals :
  run (m <-- incoming "D" 1 [] ;; isMessageSupported m) = Ret false /\
  run (SessionManager.start RouterTests.clock ;;;
       handle (incoming "A" 1 [(Tag.SenderCompID, str "WRONG_SENDER")])) = Ret false /\
  run (SessionManager.start RouterTests.clock ;;;
       handle (incoming "A" 1 [(Tag.TargetCompID, str "WRONG_TARGET")])) = Ret false.
Proof. by vm_compute. Qed.
End SessionTests.
